(* ===== verification/_CoqProject ===== *)
-Q . S2P
Prelude.v
Ring.v
State.v
Mem.v
Kstring.v
Spinlock.v
Kalloc.v
Vm.v
PageTable.v
VmSpec.v
CopySpec.v
Proc.v
ProcSpec.v
SchedSpec.v
Signal.v
SleepWake.v
Uart.v
UartSpec.v
Printf.v
PrintfSpec.v
Console.v
ConsoleSpec.v
Sleeplock.v
SleepSpec.v
Bio.v
BioList.v
BioSpec.v
BioInit.v
Virtio.v
Log.v
LogSpec.v
LogTxn.v
FsTxn.v
Fs.v
FsBlock.v
FsInode.v
FsSlots.v
FsWrite.v
FsTable.v
FsDir.v
FsPath.v
FsExample.v
Pipe.v
PipeSpec.v
File.v
Exec.v
ProcLife.v
Scheduler.v
VirtioSpec.v
Sysfile.v
Syscall.v
Trap.v
Asm.v
Start.v
User.v
Ulib.v
Uprintf.v
Grep.v
Umalloc.v
Sh.v
ShSpec.v
Prog.v
Programs.v
Shell.v
Grind.v
Mkfs.v
MkfsSpec.v
MkfsImage.v
MkfsMain.v
