(* ===== verification/Ring.v ===== *)
(** * Ring buffers

    The pipe, the uart's transmit buffer and the console's input buffer keep
    running counts of the bytes put in and taken out, and use them modulo the
    size of an array. The counts wrap around at the width of their type; as
    the size divides it, the buffer is a queue all the same. *)

From S2P Require Import Prelude.

Section ring.
Context (size M : Z).
Hypothesis size_pos : 0 < size.
Hypothesis size_M : M mod size = 0.
Hypothesis size_lt : size < M.

(** The bytes between the counts [r] and [w], oldest first. *)
Definition ring_queue (data : list Z) (r w : Z) : list Z :=
  (λ k, default 0 (data !! Z.to_nat ((r + Z.of_nat k) mod size))) <$> seq 0 (Z.to_nat ((w - r) mod M)).

(** The array has its size and holds bytes; the counts are in range and at most
    [size] apart. *)
Record ring_ok (data : list Z) (r w : Z) : Prop := {
  ro_size : length data = Z.to_nat size;
  ro_bytes : Forall (λ x, 0 ≤ x < 256) data;
  ro_r : 0 ≤ r < M;
  ro_w : 0 ≤ w < M;
  ro_count : (w - r) mod M ≤ size;
}.

Lemma ring_length data r w : length (ring_queue data r w) = Z.to_nat ((w - r) mod M).
Proof. unfold ring_queue. by rewrite length_fmap, length_seq. Qed.

Lemma ring_lookup data r w k :
  (k < length (ring_queue data r w))%nat →
  ring_queue data r w !! k = Some (default 0 (data !! Z.to_nat ((r + Z.of_nat k) mod size))).
Proof.
  intros Hk. rewrite ring_length in Hk. unfold ring_queue. rewrite list_lookup_fmap, lookup_seq_lt by lia. done.
Qed.

(** Counts modulo the width are counts modulo the size. *)
Lemma mod_mod_size x : (x mod M) mod size = x mod size.
Proof.
  assert (M = size * (M / size)) as HM by (pose proof (Z.div_mod M size); lia).
  rewrite (Z.mod_eq x M) by lia. rewrite HM at 1.
  replace (x - size * (M / size) * (x / M)) with (x + - (M / size * (x / M)) * size) by ring.
  apply Z.mod_add. lia.
Qed.

Lemma add_mod_M a b : (a mod M + b) mod size = (a + b) mod size.
Proof. rewrite <- Z.add_mod_idemp_l, mod_mod_size, Z.add_mod_idemp_l by lia. done. Qed.

Lemma ring_write_index r w : (r + (w - r) mod M) mod size = w mod size.
Proof.
  rewrite <- Z.add_mod_idemp_r, mod_mod_size, Z.add_mod_idemp_r by lia. f_equal. lia.
Qed.

Lemma mod_inj_range a b : 0 ≤ a - b < size → a mod size = b mod size → a = b.
Proof.
  intros Hr He. assert ((a - b) mod size = 0) as H0.
  { rewrite Zminus_mod, He, Z.sub_diag. apply Z.mod_0_l. lia. }
  rewrite Z.mod_small in H0 by lia. lia.
Qed.

Lemma count_succ w r : (w - r) mod M < size → ((w + 1) mod M - r) mod M = (w - r) mod M + 1.
Proof.
  intros Hl. pose proof (Z.mod_pos_bound (w - r) M). rewrite Zminus_mod_idemp_l.
  replace (w + 1 - r) with (w - r + 1) by lia. rewrite <- Z.add_mod_idemp_l by lia.
  apply Z.mod_small. lia.
Qed.

Lemma ring_push data r w x :
  length data = Z.to_nat size → (w - r) mod M < size →
  ring_queue (<[Z.to_nat (w mod size) := x]> data) r ((w + 1) mod M) = ring_queue data r w ++ [x].
Proof.
  intros Hd Hl. pose proof (Z.mod_pos_bound (w - r) M ltac:(lia)) as Hb.
  pose proof (Z.mod_pos_bound w size size_pos) as Hw.
  unfold ring_queue. rewrite count_succ by done.
  rewrite Z2Nat.inj_add, Nat.add_1_r, seq_S, fmap_app by lia. cbn [fmap list_fmap]. f_equal.
  - apply list_fmap_ext. intros i k [Hk Hi]%lookup_seq. cbn in Hk. subst k. cbn.
    rewrite list_lookup_insert_ne; [done|]. intros He.
    apply Z2Nat.inj in He; [|lia|apply Z.mod_pos_bound; lia].
    rewrite <- (ring_write_index r w) in He. apply mod_inj_range in He; lia.
  - cbn [Nat.add]. rewrite Z2Nat.id by lia. rewrite ring_write_index.
    rewrite list_lookup_insert_eq by lia. done.
Qed.

Lemma ring_pop data r w :
  0 < (w - r) mod M →
  ring_queue data r w = default 0 (data !! Z.to_nat (r mod size)) :: ring_queue data ((r + 1) mod M) w.
Proof.
  intros Hl. pose proof (Z.mod_pos_bound (w - r) M ltac:(lia)) as Hb.
  assert ((w - (r + 1) mod M) mod M = (w - r) mod M - 1) as Hc.
  { rewrite Zminus_mod_idemp_r. replace (w - (r + 1)) with (w - r - 1) by lia.
    rewrite <- Zminus_mod_idemp_l. apply Z.mod_small. lia. }
  unfold ring_queue. rewrite Hc. set (n := (w - r) mod M) in *.
  replace (Z.to_nat n) with (S (Z.to_nat (n - 1))) by lia. cbn [seq fmap list_fmap]. f_equal.
  - by rewrite Z.add_0_r.
  - rewrite <- fmap_S_seq, <- list_fmap_compose. apply list_fmap_ext. intros i k _. cbn.
    rewrite add_mod_M. do 4 f_equal. lia.
Qed.

Lemma count_pred w r : 0 < (w - r) mod M → ((w - 1) mod M - r) mod M = (w - r) mod M - 1.
Proof.
  intros Hl. pose proof (Z.mod_pos_bound (w - r) M ltac:(lia)) as Hb. rewrite Zminus_mod_idemp_l.
  replace (w - 1 - r) with (w - r - 1) by lia. rewrite <- Zminus_mod_idemp_l. apply Z.mod_small. lia.
Qed.

(** Dropping the youngest byte. *)
Lemma ring_back data r w :
  0 < (w - r) mod M →
  ring_queue data r w = ring_queue data r ((w - 1) mod M) ++ [default 0 (data !! Z.to_nat ((w - 1) mod M mod size))].
Proof.
  intros Hl. pose proof (Z.mod_pos_bound (w - r) M ltac:(lia)) as Hb. pose proof (count_pred w r Hl) as Hc.
  rewrite <- (ring_write_index r ((w - 1) mod M)), Hc. unfold ring_queue. rewrite Hc. set (n := (w - r) mod M) in *.
  replace (Z.to_nat n) with (S (Z.to_nat (n - 1))) by lia. rewrite seq_S, fmap_app. cbn. do 5 f_equal.
  rewrite Z2Nat.id by lia. done.
Qed.

(** A count between the two splits the queue. *)
Lemma count_split r m w :
  (m - r) mod M ≤ (w - r) mod M → (w - r) mod M = (m - r) mod M + (w - m) mod M.
Proof.
  intros Hl. pose proof (Z.mod_pos_bound (w - r) M ltac:(lia)). pose proof (Z.mod_pos_bound (m - r) M ltac:(lia)).
  assert ((w - m) mod M = ((w - r) mod M - (m - r) mod M) mod M) as He.
  { rewrite <- Zminus_mod. f_equal. lia. }
  rewrite He, (Z.mod_small ((w - r) mod M - (m - r) mod M)) by lia. lia.
Qed.

Lemma ring_split data r m w :
  (m - r) mod M ≤ (w - r) mod M → ring_queue data r w = ring_queue data r m ++ ring_queue data m w.
Proof.
  intros Hl. pose proof (Z.mod_pos_bound (w - m) M ltac:(lia)). pose proof (Z.mod_pos_bound (m - r) M ltac:(lia)).
  unfold ring_queue. rewrite (count_split r m w Hl), Z2Nat.inj_add, seq_app, fmap_app by lia. f_equal.
  cbn [Nat.add]. rewrite <- (Nat.add_0_r (Z.to_nat ((m - r) mod M))) at 1. rewrite <- fmap_add_seq, <- list_fmap_compose.
  apply list_fmap_ext. intros i k _. cbn. rewrite Nat2Z.inj_add, Z2Nat.id by lia.
  rewrite Z.add_assoc, <- Z.add_mod_idemp_l, ring_write_index, Z.add_mod_idemp_l by lia. done.
Qed.

Lemma ring_empty data r w : 0 ≤ r < M → 0 ≤ w < M → r = w ↔ ring_queue data r w = [].
Proof.
  intros Hr Hw. rewrite <- length_zero_iff_nil, ring_length.
  pose proof (Z.mod_pos_bound (w - r) M ltac:(lia)). split.
  - intros ->. by rewrite Z.sub_diag.
  - intros H0. assert ((w - r) mod M = 0) as He by lia. apply Z.mod_divide in He as [k Hk]; [|lia].
    assert (-1 < k < 1) as Hk1 by (split; apply (Z.mul_lt_mono_pos_r M); lia).
    assert (k = 0) as -> by lia. lia.
Qed.

(** ** The operations of the drivers keep the ring well formed *)

Lemma ring_count data r w : Z.of_nat (length (ring_queue data r w)) = (w - r) mod M.
Proof. rewrite ring_length. pose proof (Z.mod_pos_bound (w - r) M ltac:(lia)). lia. Qed.

(** [w == r + size] says the ring is full. *)
Lemma ring_full_iff data r w :
  ring_ok data r w → w = (r + size) mod M ↔ length (ring_queue data r w) = Z.to_nat size.
Proof.
  intros [_ _ Hr Hw _]. pose proof (ring_count data r w) as Hc. split.
  - intros Hf. enough ((w - r) mod M = size) by lia. rewrite Hf, Zminus_mod_idemp_l.
    replace (r + size - r) with size by lia. apply Z.mod_small. lia.
  - intros Hf. assert ((w - r) mod M = size) as He by lia.
    rewrite <- He, Z.add_mod_idemp_r by lia. replace (r + (w - r)) with w by lia. by rewrite Z.mod_small.
Qed.

Lemma ring_ok_push data r w x :
  ring_ok data r w → Z.of_nat (length (ring_queue data r w)) < size → 0 ≤ x < 256 →
  ring_ok (<[Z.to_nat (w mod size) := x]> data) r ((w + 1) mod M) ∧
  ring_queue (<[Z.to_nat (w mod size) := x]> data) r ((w + 1) mod M) = ring_queue data r w ++ [x].
Proof.
  rewrite ring_count. intros [Hd Hb Hr Hw Hc] Hl Hx. split; [|by apply ring_push]. split.
  - by rewrite length_insert.
  - by apply Forall_insert.
  - done.
  - apply Z.mod_pos_bound. lia.
  - rewrite count_succ by done. lia.
Qed.

Lemma ring_front_byte data r w : ring_ok data r w → 0 ≤ default 0 (data !! Z.to_nat (r mod size)) < 256.
Proof.
  intros Ho. destruct (data !! _) as [x|] eqn:E; cbn; [|lia].
  by apply (Forall_lookup_1 _ _ _ _ (ro_bytes _ _ _ Ho) E).
Qed.

Lemma ring_ok_pop data r w :
  ring_ok data r w → w ≠ r →
  ring_ok data ((r + 1) mod M) w ∧
  ring_queue data r w = default 0 (data !! Z.to_nat (r mod size)) :: ring_queue data ((r + 1) mod M) w.
Proof.
  intros Ho Hne. pose proof (ring_empty data r w (ro_r _ _ _ Ho) (ro_w _ _ _ Ho)) as He.
  assert (0 < (w - r) mod M) as Hpos.
  { rewrite <- (ring_count data). destruct (ring_queue data r w); [|cbn; lia]. destruct Hne. symmetry. by apply He. }
  destruct Ho as [Hd Hb Hr Hw Hc]. split; [|by apply ring_pop]. split; try done.
  - apply Z.mod_pos_bound. lia.
  - rewrite Zminus_mod_idemp_r. replace (w - (r + 1)) with (w - r - 1) by lia.
    rewrite <- Zminus_mod_idemp_l. pose proof (Z.mod_pos_bound (w - r) M ltac:(lia)). rewrite Z.mod_small; lia.
Qed.

End ring.
