(* ===== verification/State.v ===== *)
(** * The data of the kernel

    The constants of param.h, riscv.h, memlayout.h and fs.h, the structures of
    the kernel's headers, and the record [kernel] of the C program's global
    variables, over which every operation of the later files runs. The
    structures that are elements of a static table ([proc], [bcache.buf],
    [itable.inode], [ftable.file]) are referred to by index, a null pointer
    being [None]; pages of physical memory are referred to by address. *)

From S2P Require Import Prelude.

(** ** Constants *)

(** param.h *)
Definition NPROC : nat := 64.
Definition NOFILE : nat := 16.
Definition NFILE : nat := 100.
Definition NINODE : nat := 50.
Definition NDEV : Z := 10.
Definition ROOTDEV : Z := 1.
Definition MAXARG : nat := 32.
Definition MAXOPBLOCKS : Z := 10.
Definition LOGSIZE : Z := MAXOPBLOCKS * 3.
Definition NBUF : nat := 30.
Definition FSSIZE : Z := 2000.
Definition MAXPATH : Z := 128.

(** riscv.h *)
Definition PGSIZE : Z := 4096.
Definition PGSHIFT : Z := 12.
Definition PGROUNDUP (sz : Z) : Z := Z.land (u64 (sz + PGSIZE - 1)) (Z.lnot (PGSIZE - 1)).
Definition PGROUNDDOWN (a : Z) : Z := Z.land a (Z.lnot (PGSIZE - 1)).
Definition PTE_V : Z := Z.shiftl 1 0.
Definition PTE_R : Z := Z.shiftl 1 1.
Definition PTE_W : Z := Z.shiftl 1 2.
Definition PTE_X : Z := Z.shiftl 1 3.
Definition PTE_U : Z := Z.shiftl 1 4.
Definition PA2PTE (pa : Z) : Z := u64 (Z.shiftl (Z.shiftr pa 12) 10).
Definition PTE2PA (pte : Z) : Z := u64 (Z.shiftl (Z.shiftr pte 10) 12).
Definition PTE_FLAGS (pte : Z) : Z := Z.land pte 0x3FF.
Definition PXMASK : Z := 0x1FF.
Definition PXSHIFT (level : Z) : Z := PGSHIFT + 9 * level.
Definition PX (level va : Z) : Z := Z.land (Z.shiftr va (PXSHIFT level)) PXMASK.
Definition MAXVA : Z := Z.shiftl 1 (9 + 9 + 9 + 12 - 1).
Definition SSTATUS_SPP : Z := Z.shiftl 1 8.
Definition SSTATUS_SPIE : Z := Z.shiftl 1 5.
Definition SSTATUS_SIE : Z := Z.shiftl 1 1.
Definition SATP_SV39 : Z := Z.shiftl 8 60.
Definition MAKE_SATP (pagetable : Z) : Z := Z.lor SATP_SV39 (Z.shiftr pagetable 12).

(** memlayout.h *)
Definition UART0 : Z := 0x10000000.
Definition UART0_IRQ : Z := 10.
Definition VIRTIO0 : Z := 0x10001000.
Definition VIRTIO0_IRQ : Z := 1.
Definition PLIC : Z := 0x0c000000.
Definition KERNBASE : Z := 0x80000000.
Definition PHYSTOP : Z := KERNBASE + 128 * 1024 * 1024.
Definition TRAMPOLINE : Z := MAXVA - PGSIZE.
Definition KSTACK (p : Z) : Z := TRAMPOLINE - (p + 1) * 2 * PGSIZE.
Definition TRAPFRAME : Z := TRAMPOLINE - PGSIZE.

(** fs.h *)
Definition ROOTINO : Z := 1.
Definition BSIZE : Z := 1024.
Definition FSMAGIC : Z := 0x10203040.
Definition NDIRECT : Z := 12.
Definition NINDIRECT : Z := BSIZE / 4.
Definition MAXFILE : Z := NDIRECT + NINDIRECT.
Definition sizeof_dinode : Z := 64.
Definition IPB : Z := BSIZE / sizeof_dinode.
Definition BPB : Z := BSIZE * 8.
Definition DIRSIZ : Z := 14.
Definition sizeof_dirent : Z := 16.

(** fcntl.h *)
Definition O_RDONLY : Z := 0x000.
Definition O_WRONLY : Z := 0x001.
Definition O_RDWR : Z := 0x002.
Definition O_CREATE : Z := 0x200.
Definition O_TRUNC : Z := 0x400.

(** stat.h *)
Definition T_DIR : Z := 1.
Definition T_FILE : Z := 2.
Definition T_DEVICE : Z := 3.

(** ** Identities of locks and sleep channels *)

(** Which sleep lock: the one of buffer [i] or of inode table entry [i]. *)
Inductive slid : Type := SL_buf (i : nat) | SL_inode (i : nat).

(** Which spinlock. *)
Inductive lockid : Type :=
| L_kmem | L_pid | L_wait | L_proc (i : nat) | L_bcache | L_sleep (l : slid)
| L_log | L_itable | L_ftable | L_pipe (pi : Z) | L_cons | L_uart | L_vdisk
| L_ticks | L_pr.

(** The address a process sleeps on; [Ch_null] is the null pointer. *)
Inductive chan : Type :=
| Ch_null | Ch_proc (i : nat) | Ch_log | Ch_ticks | Ch_pipe_nread (pi : Z)
| Ch_pipe_nwrite (pi : Z) | Ch_sleeplock (l : slid) | Ch_cons_r | Ch_uart_tx_r
| Ch_disk_free | Ch_buf (i : nat).

#[global] Instance slid_eq_dec : EqDecision slid.
Proof. solve_decision. Defined.

#[global] Instance lockid_eq_dec : EqDecision lockid.
Proof. solve_decision. Defined.

#[global] Instance chan_eq_dec : EqDecision chan.
Proof. solve_decision. Defined.

Definition slid_enc (l : slid) : nat + nat :=
  match l with SL_buf i => inl i | SL_inode i => inr i end.

Definition slid_dec (x : nat + nat) : slid :=
  match x with inl i => SL_buf i | inr i => SL_inode i end.

#[global] Instance slid_countable : Countable slid.
Proof. apply (inj_countable' slid_enc slid_dec). by intros []. Defined.

Definition lockid_enc (l : lockid) : nat + (nat + (slid + Z)) :=
  match l with
  | L_kmem => inl 0%nat | L_pid => inl 1%nat | L_wait => inl 2%nat
  | L_bcache => inl 3%nat | L_log => inl 4%nat | L_itable => inl 5%nat
  | L_ftable => inl 6%nat | L_cons => inl 7%nat | L_uart => inl 8%nat
  | L_vdisk => inl 9%nat | L_ticks => inl 10%nat | L_pr => inl 11%nat
  | L_proc i => inr (inl i) | L_sleep s => inr (inr (inl s))
  | L_pipe p => inr (inr (inr p))
  end.

Definition lockid_dec (x : nat + (nat + (slid + Z))) : lockid :=
  match x with
  | inl 0%nat => L_kmem | inl 1%nat => L_pid | inl 2%nat => L_wait
  | inl 3%nat => L_bcache | inl 4%nat => L_log | inl 5%nat => L_itable
  | inl 6%nat => L_ftable | inl 7%nat => L_cons | inl 8%nat => L_uart
  | inl 9%nat => L_vdisk | inl 10%nat => L_ticks | inl _ => L_pr
  | inr (inl i) => L_proc i | inr (inr (inl s)) => L_sleep s
  | inr (inr (inr p)) => L_pipe p
  end.

#[global] Instance lockid_countable : Countable lockid.
Proof. apply (inj_countable' lockid_enc lockid_dec). by intros []. Defined.

(** ** Structures *)

(** [struct spinlock]: [lk_cpu] is the hart that holds the lock. *)
Record spinlock : Type := Spinlock {
  lk_name : string;
  lk_locked : Z;
  lk_cpu : option Z;
}.

(** [struct sleeplock]; the spinlock inside it is [L_sleep]. *)
Record sleeplock : Type := Sleeplock {
  sl_name : string;
  sl_locked : Z;
  sl_pid : Z;
}.

(** [struct context]: return address, stack pointer, [s0]..[s11]. *)
Record context : Type := Context_ {
  ctx_ra : Z;
  ctx_sp : Z;
  ctx_s : list Z;
}.

(** [enum procstate]. *)
Inductive procstate : Type := UNUSED | USED | SLEEPING | RUNNABLE | RUNNING | ZOMBIE.

#[global] Instance procstate_eq_dec : EqDecision procstate.
Proof. solve_decision. Defined.

(** The anonymous enumeration of [struct file]. *)
Inductive filetype : Type := FD_NONE | FD_PIPE | FD_INODE | FD_DEVICE.

#[global] Instance filetype_eq_dec : EqDecision filetype.
Proof. solve_decision. Defined.

(** What a disk descriptor points to: a request header of [disk.ops], the data
    of a buffer, or a status byte of [disk.info]. *)
Inductive daddr : Type := DA_null | DA_op (i : nat) | DA_data (b : nat) | DA_status (i : nat).

(** A device with entries in [devsw]. *)
Inductive devid : Type := Dev_console.

(** virtio.h *)
Definition NUM : nat := 8.

(** The executing hart: [tp], the supervisor CSRs, and its [struct cpu]
    ([mycpu()] is [cpus[tp]], which no other hart touches). *)
Record hart : Type := Hart {
  h_tp : Z;
  h_sstatus : Z;
  h_sepc : Z;
  h_scause : Z;
  h_stval : Z;
  h_stvec : Z;
  h_satp : Z;
  h_sip : Z;
  c_proc : option nat;
  c_context : context;
  c_noff : Z;
  c_intena : Z;
}.

(** [struct proc] (its spinlock is [L_proc i]). *)
Record proc : Type := Proc {
  p_state : procstate;
  p_chan : chan;
  p_killed : Z;
  p_xstate : Z;
  p_pid : Z;
  p_parent : option nat;
  p_kstack : Z;
  p_sz : Z;
  p_pagetable : Z;
  p_trapframe : Z;
  p_context : context;
  p_ofile : list (option nat);
  p_cwd : option nat;
  p_name : list Z;
}.

(** [struct buf] (its sleep lock is [SL_buf i]); [b_prev] and [b_next] are indices
    in the array of buffers, [NBUF] standing for [bcache.head]. *)
Record buf : Type := Buf {
  b_valid : Z;
  b_disk : Z;
  b_dev : Z;
  b_blockno : Z;
  b_refcnt : Z;
  b_prev : nat;
  b_next : nat;
  b_data : list Z;
}.

(** [struct inode], the in-memory copy (its sleep lock is [SL_inode i]). *)
Record inode : Type := Inode {
  i_dev : Z;
  i_inum : Z;
  i_ref : Z;
  i_valid : Z;
  i_type : Z;
  i_major : Z;
  i_minor : Z;
  i_nlink : Z;
  i_size : Z;
  i_addrs : list Z;
}.

(** [struct file]. *)
Record file : Type := File {
  f_type : filetype;
  f_ref : Z;
  f_readable : Z;
  f_writable : Z;
  f_pipe : Z;
  f_ip : option nat;
  f_off : Z;
  f_major : Z;
}.

(** [struct superblock]. *)
Record superblock : Type := Superblock {
  sb_magic : Z;
  sb_size : Z;
  sb_nblocks : Z;
  sb_ninodes : Z;
  sb_nlog : Z;
  sb_logstart : Z;
  sb_inodestart : Z;
  sb_bmapstart : Z;
}.

(** [struct log] with its [struct logheader]. *)
Record log : Type := Log {
  l_start : Z;
  l_size : Z;
  l_outstanding : Z;
  l_committing : Z;
  l_dev : Z;
  lh_n : Z;
  lh_block : list Z;
}.

(** [struct pipe] (its spinlock is [L_pipe pi]). *)
Record pipe : Type := Pipe {
  pi_data : list Z;
  pi_nread : Z;
  pi_nwrite : Z;
  pi_readopen : Z;
  pi_writeopen : Z;
}.

(** The console input buffer. *)
Record cons : Type := Cons {
  cons_buf : list Z;
  cons_r : Z;
  cons_w : Z;
  cons_e : Z;
}.

(** The UART transmit buffer. *)
Record uart : Type := Uart {
  uart_tx_buf : list Z;
  uart_tx_w : Z;
  uart_tx_r : Z;
}.

(** [struct virtq_desc]. *)
Record vdesc : Type := Vdesc {
  d_addr : daddr;
  d_len : Z;
  d_flags : Z;
  d_next : Z;
}.

(** [struct virtio_blk_req]. *)
Record vop : Type := Vop {
  op_type : Z;
  op_reserved : Z;
  op_sector : Z;
}.

(** [struct disk]: the pages of the three rings, their contents ([vd_used_hw]
    is [used->idx], which the device advances), and the driver's own state. *)
Record vdisk : Type := Vdisk {
  vd_desc_page : Z;
  vd_avail_page : Z;
  vd_used_page : Z;
  vd_desc : list vdesc;
  vd_avail_idx : Z;
  vd_avail_ring : list Z;
  vd_used_hw : Z;
  vd_used_ring : list Z;
  vd_free : list Z;
  vd_used_idx : Z;
  vd_info_b : list (option nat);
  vd_info_status : list Z;
  vd_ops : list vop;
}.

(** The kernel: every global variable of the C program, the physical memory and
    the disk. [k_writes] is the sequence of block writes the disk has
    completed, oldest first; [k_dev] is the state of the memory-mapped devices
    and [k_out] the bytes written to the UART. *)
Record kernel : Type := Kernel {
  k_hart : hart;
  k_locks : gmap lockid spinlock;
  k_slocks : gmap slid sleeplock;
  k_mem : gmap Z Z;
  k_freelist : Z;
  k_kernel_pagetable : Z;
  k_procs : list proc;
  k_nextpid : Z;
  k_initproc : option nat;
  k_ticks : Z;
  k_bufs : list buf;
  k_disk : gmap Z (list Z);
  k_writes : list (Z * list Z);
  k_log : log;
  k_sb : superblock;
  k_inodes : list inode;
  k_files : list file;
  k_pipes : gmap Z pipe;
  k_cons : cons;
  k_uart : uart;
  k_vdisk : vdisk;
  k_devsw : list (option devid);
  k_first : Z;
  k_panicked : Z;
  k_locking : Z;
  k_started : Z;
  k_dev : gmap Z Z;
  k_out : list Z;
}.

(** ** Field updates *)

Definition set_h_tp (x : Z) (s : hart) : hart :=
  Hart x (h_sstatus s) (h_sepc s) (h_scause s) (h_stval s) (h_stvec s) (h_satp s)
    (h_sip s) (c_proc s) (c_context s) (c_noff s) (c_intena s).

Definition set_h_sstatus (x : Z) (s : hart) : hart :=
  Hart (h_tp s) x (h_sepc s) (h_scause s) (h_stval s) (h_stvec s) (h_satp s) (h_sip s)
    (c_proc s) (c_context s) (c_noff s) (c_intena s).

Definition set_h_sepc (x : Z) (s : hart) : hart :=
  Hart (h_tp s) (h_sstatus s) x (h_scause s) (h_stval s) (h_stvec s) (h_satp s) (h_sip
    s) (c_proc s) (c_context s) (c_noff s) (c_intena s).

Definition set_h_scause (x : Z) (s : hart) : hart :=
  Hart (h_tp s) (h_sstatus s) (h_sepc s) x (h_stval s) (h_stvec s) (h_satp s) (h_sip
    s) (c_proc s) (c_context s) (c_noff s) (c_intena s).

Definition set_h_stval (x : Z) (s : hart) : hart :=
  Hart (h_tp s) (h_sstatus s) (h_sepc s) (h_scause s) x (h_stvec s) (h_satp s) (h_sip
    s) (c_proc s) (c_context s) (c_noff s) (c_intena s).

Definition set_h_stvec (x : Z) (s : hart) : hart :=
  Hart (h_tp s) (h_sstatus s) (h_sepc s) (h_scause s) (h_stval s) x (h_satp s) (h_sip
    s) (c_proc s) (c_context s) (c_noff s) (c_intena s).

Definition set_h_satp (x : Z) (s : hart) : hart :=
  Hart (h_tp s) (h_sstatus s) (h_sepc s) (h_scause s) (h_stval s) (h_stvec s) x (h_sip
    s) (c_proc s) (c_context s) (c_noff s) (c_intena s).

Definition set_h_sip (x : Z) (s : hart) : hart :=
  Hart (h_tp s) (h_sstatus s) (h_sepc s) (h_scause s) (h_stval s) (h_stvec s) (h_satp
    s) x (c_proc s) (c_context s) (c_noff s) (c_intena s).

Definition set_c_proc (x : option nat) (s : hart) : hart :=
  Hart (h_tp s) (h_sstatus s) (h_sepc s) (h_scause s) (h_stval s) (h_stvec s) (h_satp
    s) (h_sip s) x (c_context s) (c_noff s) (c_intena s).

Definition set_c_context (x : context) (s : hart) : hart :=
  Hart (h_tp s) (h_sstatus s) (h_sepc s) (h_scause s) (h_stval s) (h_stvec s) (h_satp
    s) (h_sip s) (c_proc s) x (c_noff s) (c_intena s).

Definition set_c_noff (x : Z) (s : hart) : hart :=
  Hart (h_tp s) (h_sstatus s) (h_sepc s) (h_scause s) (h_stval s) (h_stvec s) (h_satp
    s) (h_sip s) (c_proc s) (c_context s) x (c_intena s).

Definition set_c_intena (x : Z) (s : hart) : hart :=
  Hart (h_tp s) (h_sstatus s) (h_sepc s) (h_scause s) (h_stval s) (h_stvec s) (h_satp
    s) (h_sip s) (c_proc s) (c_context s) (c_noff s) x.

Definition set_p_state (x : procstate) (s : proc) : proc :=
  Proc x (p_chan s) (p_killed s) (p_xstate s) (p_pid s) (p_parent s) (p_kstack s)
    (p_sz s) (p_pagetable s) (p_trapframe s) (p_context s) (p_ofile s) (p_cwd s)
    (p_name s).

Definition set_p_chan (x : chan) (s : proc) : proc :=
  Proc (p_state s) x (p_killed s) (p_xstate s) (p_pid s) (p_parent s) (p_kstack s)
    (p_sz s) (p_pagetable s) (p_trapframe s) (p_context s) (p_ofile s) (p_cwd s)
    (p_name s).

Definition set_p_killed (x : Z) (s : proc) : proc :=
  Proc (p_state s) (p_chan s) x (p_xstate s) (p_pid s) (p_parent s) (p_kstack s) (p_sz
    s) (p_pagetable s) (p_trapframe s) (p_context s) (p_ofile s) (p_cwd s) (p_name s).

Definition set_p_xstate (x : Z) (s : proc) : proc :=
  Proc (p_state s) (p_chan s) (p_killed s) x (p_pid s) (p_parent s) (p_kstack s) (p_sz
    s) (p_pagetable s) (p_trapframe s) (p_context s) (p_ofile s) (p_cwd s) (p_name s).

Definition set_p_pid (x : Z) (s : proc) : proc :=
  Proc (p_state s) (p_chan s) (p_killed s) (p_xstate s) x (p_parent s) (p_kstack s)
    (p_sz s) (p_pagetable s) (p_trapframe s) (p_context s) (p_ofile s) (p_cwd s)
    (p_name s).

Definition set_p_parent (x : option nat) (s : proc) : proc :=
  Proc (p_state s) (p_chan s) (p_killed s) (p_xstate s) (p_pid s) x (p_kstack s) (p_sz
    s) (p_pagetable s) (p_trapframe s) (p_context s) (p_ofile s) (p_cwd s) (p_name s).

Definition set_p_kstack (x : Z) (s : proc) : proc :=
  Proc (p_state s) (p_chan s) (p_killed s) (p_xstate s) (p_pid s) (p_parent s) x (p_sz
    s) (p_pagetable s) (p_trapframe s) (p_context s) (p_ofile s) (p_cwd s) (p_name s).

Definition set_p_sz (x : Z) (s : proc) : proc :=
  Proc (p_state s) (p_chan s) (p_killed s) (p_xstate s) (p_pid s) (p_parent s)
    (p_kstack s) x (p_pagetable s) (p_trapframe s) (p_context s) (p_ofile s) (p_cwd s)
    (p_name s).

Definition set_p_pagetable (x : Z) (s : proc) : proc :=
  Proc (p_state s) (p_chan s) (p_killed s) (p_xstate s) (p_pid s) (p_parent s)
    (p_kstack s) (p_sz s) x (p_trapframe s) (p_context s) (p_ofile s) (p_cwd s)
    (p_name s).

Definition set_p_trapframe (x : Z) (s : proc) : proc :=
  Proc (p_state s) (p_chan s) (p_killed s) (p_xstate s) (p_pid s) (p_parent s)
    (p_kstack s) (p_sz s) (p_pagetable s) x (p_context s) (p_ofile s) (p_cwd s)
    (p_name s).

Definition set_p_context (x : context) (s : proc) : proc :=
  Proc (p_state s) (p_chan s) (p_killed s) (p_xstate s) (p_pid s) (p_parent s)
    (p_kstack s) (p_sz s) (p_pagetable s) (p_trapframe s) x (p_ofile s) (p_cwd s)
    (p_name s).

Definition set_p_ofile (x : list (option nat)) (s : proc) : proc :=
  Proc (p_state s) (p_chan s) (p_killed s) (p_xstate s) (p_pid s) (p_parent s)
    (p_kstack s) (p_sz s) (p_pagetable s) (p_trapframe s) (p_context s) x (p_cwd s)
    (p_name s).

Definition set_p_cwd (x : option nat) (s : proc) : proc :=
  Proc (p_state s) (p_chan s) (p_killed s) (p_xstate s) (p_pid s) (p_parent s)
    (p_kstack s) (p_sz s) (p_pagetable s) (p_trapframe s) (p_context s) (p_ofile s) x
    (p_name s).

Definition set_p_name (x : list Z) (s : proc) : proc :=
  Proc (p_state s) (p_chan s) (p_killed s) (p_xstate s) (p_pid s) (p_parent s)
    (p_kstack s) (p_sz s) (p_pagetable s) (p_trapframe s) (p_context s) (p_ofile s)
    (p_cwd s) x.

Definition set_b_valid (x : Z) (s : buf) : buf :=
  Buf x (b_disk s) (b_dev s) (b_blockno s) (b_refcnt s) (b_prev s) (b_next s) (b_data
    s).

Definition set_b_disk (x : Z) (s : buf) : buf :=
  Buf (b_valid s) x (b_dev s) (b_blockno s) (b_refcnt s) (b_prev s) (b_next s) (b_data
    s).

Definition set_b_dev (x : Z) (s : buf) : buf :=
  Buf (b_valid s) (b_disk s) x (b_blockno s) (b_refcnt s) (b_prev s) (b_next s)
    (b_data s).

Definition set_b_blockno (x : Z) (s : buf) : buf :=
  Buf (b_valid s) (b_disk s) (b_dev s) x (b_refcnt s) (b_prev s) (b_next s) (b_data
    s).

Definition set_b_refcnt (x : Z) (s : buf) : buf :=
  Buf (b_valid s) (b_disk s) (b_dev s) (b_blockno s) x (b_prev s) (b_next s) (b_data
    s).

Definition set_b_prev (x : nat) (s : buf) : buf :=
  Buf (b_valid s) (b_disk s) (b_dev s) (b_blockno s) (b_refcnt s) x (b_next s) (b_data
    s).

Definition set_b_next (x : nat) (s : buf) : buf :=
  Buf (b_valid s) (b_disk s) (b_dev s) (b_blockno s) (b_refcnt s) (b_prev s) x (b_data
    s).

Definition set_b_data (x : list Z) (s : buf) : buf :=
  Buf (b_valid s) (b_disk s) (b_dev s) (b_blockno s) (b_refcnt s) (b_prev s) (b_next
    s) x.

Definition set_i_dev (x : Z) (s : inode) : inode :=
  Inode x (i_inum s) (i_ref s) (i_valid s) (i_type s) (i_major s) (i_minor s) (i_nlink
    s) (i_size s) (i_addrs s).

Definition set_i_inum (x : Z) (s : inode) : inode :=
  Inode (i_dev s) x (i_ref s) (i_valid s) (i_type s) (i_major s) (i_minor s) (i_nlink
    s) (i_size s) (i_addrs s).

Definition set_i_ref (x : Z) (s : inode) : inode :=
  Inode (i_dev s) (i_inum s) x (i_valid s) (i_type s) (i_major s) (i_minor s) (i_nlink
    s) (i_size s) (i_addrs s).

Definition set_i_valid (x : Z) (s : inode) : inode :=
  Inode (i_dev s) (i_inum s) (i_ref s) x (i_type s) (i_major s) (i_minor s) (i_nlink
    s) (i_size s) (i_addrs s).

Definition set_i_type (x : Z) (s : inode) : inode :=
  Inode (i_dev s) (i_inum s) (i_ref s) (i_valid s) x (i_major s) (i_minor s) (i_nlink
    s) (i_size s) (i_addrs s).

Definition set_i_major (x : Z) (s : inode) : inode :=
  Inode (i_dev s) (i_inum s) (i_ref s) (i_valid s) (i_type s) x (i_minor s) (i_nlink
    s) (i_size s) (i_addrs s).

Definition set_i_minor (x : Z) (s : inode) : inode :=
  Inode (i_dev s) (i_inum s) (i_ref s) (i_valid s) (i_type s) (i_major s) x (i_nlink
    s) (i_size s) (i_addrs s).

Definition set_i_nlink (x : Z) (s : inode) : inode :=
  Inode (i_dev s) (i_inum s) (i_ref s) (i_valid s) (i_type s) (i_major s) (i_minor s)
    x (i_size s) (i_addrs s).

Definition set_i_size (x : Z) (s : inode) : inode :=
  Inode (i_dev s) (i_inum s) (i_ref s) (i_valid s) (i_type s) (i_major s) (i_minor s)
    (i_nlink s) x (i_addrs s).

Definition set_i_addrs (x : list Z) (s : inode) : inode :=
  Inode (i_dev s) (i_inum s) (i_ref s) (i_valid s) (i_type s) (i_major s) (i_minor s)
    (i_nlink s) (i_size s) x.

Definition set_f_type (x : filetype) (s : file) : file :=
  File x (f_ref s) (f_readable s) (f_writable s) (f_pipe s) (f_ip s) (f_off s)
    (f_major s).

Definition set_f_ref (x : Z) (s : file) : file :=
  File (f_type s) x (f_readable s) (f_writable s) (f_pipe s) (f_ip s) (f_off s)
    (f_major s).

Definition set_f_readable (x : Z) (s : file) : file :=
  File (f_type s) (f_ref s) x (f_writable s) (f_pipe s) (f_ip s) (f_off s) (f_major
    s).

Definition set_f_writable (x : Z) (s : file) : file :=
  File (f_type s) (f_ref s) (f_readable s) x (f_pipe s) (f_ip s) (f_off s) (f_major
    s).

Definition set_f_pipe (x : Z) (s : file) : file :=
  File (f_type s) (f_ref s) (f_readable s) (f_writable s) x (f_ip s) (f_off s)
    (f_major s).

Definition set_f_ip (x : option nat) (s : file) : file :=
  File (f_type s) (f_ref s) (f_readable s) (f_writable s) (f_pipe s) x (f_off s)
    (f_major s).

Definition set_f_off (x : Z) (s : file) : file :=
  File (f_type s) (f_ref s) (f_readable s) (f_writable s) (f_pipe s) (f_ip s) x
    (f_major s).

Definition set_f_major (x : Z) (s : file) : file :=
  File (f_type s) (f_ref s) (f_readable s) (f_writable s) (f_pipe s) (f_ip s) (f_off
    s) x.

Definition set_l_start (x : Z) (s : log) : log :=
  Log x (l_size s) (l_outstanding s) (l_committing s) (l_dev s) (lh_n s) (lh_block s).

Definition set_l_size (x : Z) (s : log) : log :=
  Log (l_start s) x (l_outstanding s) (l_committing s) (l_dev s) (lh_n s) (lh_block
    s).

Definition set_l_outstanding (x : Z) (s : log) : log :=
  Log (l_start s) (l_size s) x (l_committing s) (l_dev s) (lh_n s) (lh_block s).

Definition set_l_committing (x : Z) (s : log) : log :=
  Log (l_start s) (l_size s) (l_outstanding s) x (l_dev s) (lh_n s) (lh_block s).

Definition set_l_dev (x : Z) (s : log) : log :=
  Log (l_start s) (l_size s) (l_outstanding s) (l_committing s) x (lh_n s) (lh_block
    s).

Definition set_lh_n (x : Z) (s : log) : log :=
  Log (l_start s) (l_size s) (l_outstanding s) (l_committing s) (l_dev s) x (lh_block
    s).

Definition set_lh_block (x : list Z) (s : log) : log :=
  Log (l_start s) (l_size s) (l_outstanding s) (l_committing s) (l_dev s) (lh_n s) x.

Definition set_pi_data (x : list Z) (s : pipe) : pipe :=
  Pipe x (pi_nread s) (pi_nwrite s) (pi_readopen s) (pi_writeopen s).

Definition set_pi_nread (x : Z) (s : pipe) : pipe :=
  Pipe (pi_data s) x (pi_nwrite s) (pi_readopen s) (pi_writeopen s).

Definition set_pi_nwrite (x : Z) (s : pipe) : pipe :=
  Pipe (pi_data s) (pi_nread s) x (pi_readopen s) (pi_writeopen s).

Definition set_pi_readopen (x : Z) (s : pipe) : pipe :=
  Pipe (pi_data s) (pi_nread s) (pi_nwrite s) x (pi_writeopen s).

Definition set_pi_writeopen (x : Z) (s : pipe) : pipe :=
  Pipe (pi_data s) (pi_nread s) (pi_nwrite s) (pi_readopen s) x.

Definition set_cons_buf (x : list Z) (s : cons) : cons :=
  Cons x (cons_r s) (cons_w s) (cons_e s).

Definition set_cons_r (x : Z) (s : cons) : cons :=
  Cons (cons_buf s) x (cons_w s) (cons_e s).

Definition set_cons_w (x : Z) (s : cons) : cons :=
  Cons (cons_buf s) (cons_r s) x (cons_e s).

Definition set_cons_e (x : Z) (s : cons) : cons :=
  Cons (cons_buf s) (cons_r s) (cons_w s) x.

Definition set_uart_tx_buf (x : list Z) (s : uart) : uart :=
  Uart x (uart_tx_w s) (uart_tx_r s).

Definition set_uart_tx_w (x : Z) (s : uart) : uart :=
  Uart (uart_tx_buf s) x (uart_tx_r s).

Definition set_uart_tx_r (x : Z) (s : uart) : uart :=
  Uart (uart_tx_buf s) (uart_tx_w s) x.

Definition set_vd_desc_page (x : Z) (s : vdisk) : vdisk :=
  Vdisk x (vd_avail_page s) (vd_used_page s) (vd_desc s) (vd_avail_idx s)
    (vd_avail_ring s) (vd_used_hw s) (vd_used_ring s) (vd_free s) (vd_used_idx s)
    (vd_info_b s) (vd_info_status s) (vd_ops s).

Definition set_vd_avail_page (x : Z) (s : vdisk) : vdisk :=
  Vdisk (vd_desc_page s) x (vd_used_page s) (vd_desc s) (vd_avail_idx s)
    (vd_avail_ring s) (vd_used_hw s) (vd_used_ring s) (vd_free s) (vd_used_idx s)
    (vd_info_b s) (vd_info_status s) (vd_ops s).

Definition set_vd_used_page (x : Z) (s : vdisk) : vdisk :=
  Vdisk (vd_desc_page s) (vd_avail_page s) x (vd_desc s) (vd_avail_idx s)
    (vd_avail_ring s) (vd_used_hw s) (vd_used_ring s) (vd_free s) (vd_used_idx s)
    (vd_info_b s) (vd_info_status s) (vd_ops s).

Definition set_vd_desc (x : list vdesc) (s : vdisk) : vdisk :=
  Vdisk (vd_desc_page s) (vd_avail_page s) (vd_used_page s) x (vd_avail_idx s)
    (vd_avail_ring s) (vd_used_hw s) (vd_used_ring s) (vd_free s) (vd_used_idx s)
    (vd_info_b s) (vd_info_status s) (vd_ops s).

Definition set_vd_avail_idx (x : Z) (s : vdisk) : vdisk :=
  Vdisk (vd_desc_page s) (vd_avail_page s) (vd_used_page s) (vd_desc s) x
    (vd_avail_ring s) (vd_used_hw s) (vd_used_ring s) (vd_free s) (vd_used_idx s)
    (vd_info_b s) (vd_info_status s) (vd_ops s).

Definition set_vd_avail_ring (x : list Z) (s : vdisk) : vdisk :=
  Vdisk (vd_desc_page s) (vd_avail_page s) (vd_used_page s) (vd_desc s) (vd_avail_idx
    s) x (vd_used_hw s) (vd_used_ring s) (vd_free s) (vd_used_idx s) (vd_info_b s)
    (vd_info_status s) (vd_ops s).

Definition set_vd_used_hw (x : Z) (s : vdisk) : vdisk :=
  Vdisk (vd_desc_page s) (vd_avail_page s) (vd_used_page s) (vd_desc s) (vd_avail_idx
    s) (vd_avail_ring s) x (vd_used_ring s) (vd_free s) (vd_used_idx s) (vd_info_b s)
    (vd_info_status s) (vd_ops s).

Definition set_vd_used_ring (x : list Z) (s : vdisk) : vdisk :=
  Vdisk (vd_desc_page s) (vd_avail_page s) (vd_used_page s) (vd_desc s) (vd_avail_idx
    s) (vd_avail_ring s) (vd_used_hw s) x (vd_free s) (vd_used_idx s) (vd_info_b s)
    (vd_info_status s) (vd_ops s).

Definition set_vd_free (x : list Z) (s : vdisk) : vdisk :=
  Vdisk (vd_desc_page s) (vd_avail_page s) (vd_used_page s) (vd_desc s) (vd_avail_idx
    s) (vd_avail_ring s) (vd_used_hw s) (vd_used_ring s) x (vd_used_idx s) (vd_info_b
    s) (vd_info_status s) (vd_ops s).

Definition set_vd_used_idx (x : Z) (s : vdisk) : vdisk :=
  Vdisk (vd_desc_page s) (vd_avail_page s) (vd_used_page s) (vd_desc s) (vd_avail_idx
    s) (vd_avail_ring s) (vd_used_hw s) (vd_used_ring s) (vd_free s) x (vd_info_b s)
    (vd_info_status s) (vd_ops s).

Definition set_vd_info_b (x : list (option nat)) (s : vdisk) : vdisk :=
  Vdisk (vd_desc_page s) (vd_avail_page s) (vd_used_page s) (vd_desc s) (vd_avail_idx
    s) (vd_avail_ring s) (vd_used_hw s) (vd_used_ring s) (vd_free s) (vd_used_idx s) x
    (vd_info_status s) (vd_ops s).

Definition set_vd_info_status (x : list Z) (s : vdisk) : vdisk :=
  Vdisk (vd_desc_page s) (vd_avail_page s) (vd_used_page s) (vd_desc s) (vd_avail_idx
    s) (vd_avail_ring s) (vd_used_hw s) (vd_used_ring s) (vd_free s) (vd_used_idx s)
    (vd_info_b s) x (vd_ops s).

Definition set_vd_ops (x : list vop) (s : vdisk) : vdisk :=
  Vdisk (vd_desc_page s) (vd_avail_page s) (vd_used_page s) (vd_desc s) (vd_avail_idx
    s) (vd_avail_ring s) (vd_used_hw s) (vd_used_ring s) (vd_free s) (vd_used_idx s)
    (vd_info_b s) (vd_info_status s) x.

Definition set_k_hart (x : hart) (s : kernel) : kernel :=
  Kernel x (k_locks s) (k_slocks s) (k_mem s) (k_freelist s) (k_kernel_pagetable s)
    (k_procs s) (k_nextpid s) (k_initproc s) (k_ticks s) (k_bufs s) (k_disk s)
    (k_writes s) (k_log s) (k_sb s) (k_inodes s) (k_files s) (k_pipes s) (k_cons s)
    (k_uart s) (k_vdisk s) (k_devsw s) (k_first s) (k_panicked s) (k_locking s)
    (k_started s) (k_dev s) (k_out s).

Definition set_k_locks (x : gmap lockid spinlock) (s : kernel) : kernel :=
  Kernel (k_hart s) x (k_slocks s) (k_mem s) (k_freelist s) (k_kernel_pagetable s)
    (k_procs s) (k_nextpid s) (k_initproc s) (k_ticks s) (k_bufs s) (k_disk s)
    (k_writes s) (k_log s) (k_sb s) (k_inodes s) (k_files s) (k_pipes s) (k_cons s)
    (k_uart s) (k_vdisk s) (k_devsw s) (k_first s) (k_panicked s) (k_locking s)
    (k_started s) (k_dev s) (k_out s).

Definition set_k_slocks (x : gmap slid sleeplock) (s : kernel) : kernel :=
  Kernel (k_hart s) (k_locks s) x (k_mem s) (k_freelist s) (k_kernel_pagetable s)
    (k_procs s) (k_nextpid s) (k_initproc s) (k_ticks s) (k_bufs s) (k_disk s)
    (k_writes s) (k_log s) (k_sb s) (k_inodes s) (k_files s) (k_pipes s) (k_cons s)
    (k_uart s) (k_vdisk s) (k_devsw s) (k_first s) (k_panicked s) (k_locking s)
    (k_started s) (k_dev s) (k_out s).

Definition set_k_mem (x : gmap Z Z) (s : kernel) : kernel :=
  Kernel (k_hart s) (k_locks s) (k_slocks s) x (k_freelist s) (k_kernel_pagetable s)
    (k_procs s) (k_nextpid s) (k_initproc s) (k_ticks s) (k_bufs s) (k_disk s)
    (k_writes s) (k_log s) (k_sb s) (k_inodes s) (k_files s) (k_pipes s) (k_cons s)
    (k_uart s) (k_vdisk s) (k_devsw s) (k_first s) (k_panicked s) (k_locking s)
    (k_started s) (k_dev s) (k_out s).

Definition set_k_freelist (x : Z) (s : kernel) : kernel :=
  Kernel (k_hart s) (k_locks s) (k_slocks s) (k_mem s) x (k_kernel_pagetable s)
    (k_procs s) (k_nextpid s) (k_initproc s) (k_ticks s) (k_bufs s) (k_disk s)
    (k_writes s) (k_log s) (k_sb s) (k_inodes s) (k_files s) (k_pipes s) (k_cons s)
    (k_uart s) (k_vdisk s) (k_devsw s) (k_first s) (k_panicked s) (k_locking s)
    (k_started s) (k_dev s) (k_out s).

Definition set_k_kernel_pagetable (x : Z) (s : kernel) : kernel :=
  Kernel (k_hart s) (k_locks s) (k_slocks s) (k_mem s) (k_freelist s) x (k_procs s)
    (k_nextpid s) (k_initproc s) (k_ticks s) (k_bufs s) (k_disk s) (k_writes s) (k_log
    s) (k_sb s) (k_inodes s) (k_files s) (k_pipes s) (k_cons s) (k_uart s) (k_vdisk s)
    (k_devsw s) (k_first s) (k_panicked s) (k_locking s) (k_started s) (k_dev s)
    (k_out s).

Definition set_k_procs (x : list proc) (s : kernel) : kernel :=
  Kernel (k_hart s) (k_locks s) (k_slocks s) (k_mem s) (k_freelist s)
    (k_kernel_pagetable s) x (k_nextpid s) (k_initproc s) (k_ticks s) (k_bufs s)
    (k_disk s) (k_writes s) (k_log s) (k_sb s) (k_inodes s) (k_files s) (k_pipes s)
    (k_cons s) (k_uart s) (k_vdisk s) (k_devsw s) (k_first s) (k_panicked s)
    (k_locking s) (k_started s) (k_dev s) (k_out s).

Definition set_k_nextpid (x : Z) (s : kernel) : kernel :=
  Kernel (k_hart s) (k_locks s) (k_slocks s) (k_mem s) (k_freelist s)
    (k_kernel_pagetable s) (k_procs s) x (k_initproc s) (k_ticks s) (k_bufs s) (k_disk
    s) (k_writes s) (k_log s) (k_sb s) (k_inodes s) (k_files s) (k_pipes s) (k_cons s)
    (k_uart s) (k_vdisk s) (k_devsw s) (k_first s) (k_panicked s) (k_locking s)
    (k_started s) (k_dev s) (k_out s).

Definition set_k_initproc (x : option nat) (s : kernel) : kernel :=
  Kernel (k_hart s) (k_locks s) (k_slocks s) (k_mem s) (k_freelist s)
    (k_kernel_pagetable s) (k_procs s) (k_nextpid s) x (k_ticks s) (k_bufs s) (k_disk
    s) (k_writes s) (k_log s) (k_sb s) (k_inodes s) (k_files s) (k_pipes s) (k_cons s)
    (k_uart s) (k_vdisk s) (k_devsw s) (k_first s) (k_panicked s) (k_locking s)
    (k_started s) (k_dev s) (k_out s).

Definition set_k_ticks (x : Z) (s : kernel) : kernel :=
  Kernel (k_hart s) (k_locks s) (k_slocks s) (k_mem s) (k_freelist s)
    (k_kernel_pagetable s) (k_procs s) (k_nextpid s) (k_initproc s) x (k_bufs s)
    (k_disk s) (k_writes s) (k_log s) (k_sb s) (k_inodes s) (k_files s) (k_pipes s)
    (k_cons s) (k_uart s) (k_vdisk s) (k_devsw s) (k_first s) (k_panicked s)
    (k_locking s) (k_started s) (k_dev s) (k_out s).

Definition set_k_bufs (x : list buf) (s : kernel) : kernel :=
  Kernel (k_hart s) (k_locks s) (k_slocks s) (k_mem s) (k_freelist s)
    (k_kernel_pagetable s) (k_procs s) (k_nextpid s) (k_initproc s) (k_ticks s) x
    (k_disk s) (k_writes s) (k_log s) (k_sb s) (k_inodes s) (k_files s) (k_pipes s)
    (k_cons s) (k_uart s) (k_vdisk s) (k_devsw s) (k_first s) (k_panicked s)
    (k_locking s) (k_started s) (k_dev s) (k_out s).

Definition set_k_disk (x : gmap Z (list Z)) (s : kernel) : kernel :=
  Kernel (k_hart s) (k_locks s) (k_slocks s) (k_mem s) (k_freelist s)
    (k_kernel_pagetable s) (k_procs s) (k_nextpid s) (k_initproc s) (k_ticks s)
    (k_bufs s) x (k_writes s) (k_log s) (k_sb s) (k_inodes s) (k_files s) (k_pipes s)
    (k_cons s) (k_uart s) (k_vdisk s) (k_devsw s) (k_first s) (k_panicked s)
    (k_locking s) (k_started s) (k_dev s) (k_out s).

Definition set_k_writes (x : list (Z * list Z)) (s : kernel) : kernel :=
  Kernel (k_hart s) (k_locks s) (k_slocks s) (k_mem s) (k_freelist s)
    (k_kernel_pagetable s) (k_procs s) (k_nextpid s) (k_initproc s) (k_ticks s)
    (k_bufs s) (k_disk s) x (k_log s) (k_sb s) (k_inodes s) (k_files s) (k_pipes s)
    (k_cons s) (k_uart s) (k_vdisk s) (k_devsw s) (k_first s) (k_panicked s)
    (k_locking s) (k_started s) (k_dev s) (k_out s).

Definition set_k_log (x : log) (s : kernel) : kernel :=
  Kernel (k_hart s) (k_locks s) (k_slocks s) (k_mem s) (k_freelist s)
    (k_kernel_pagetable s) (k_procs s) (k_nextpid s) (k_initproc s) (k_ticks s)
    (k_bufs s) (k_disk s) (k_writes s) x (k_sb s) (k_inodes s) (k_files s) (k_pipes s)
    (k_cons s) (k_uart s) (k_vdisk s) (k_devsw s) (k_first s) (k_panicked s)
    (k_locking s) (k_started s) (k_dev s) (k_out s).

Definition set_k_sb (x : superblock) (s : kernel) : kernel :=
  Kernel (k_hart s) (k_locks s) (k_slocks s) (k_mem s) (k_freelist s)
    (k_kernel_pagetable s) (k_procs s) (k_nextpid s) (k_initproc s) (k_ticks s)
    (k_bufs s) (k_disk s) (k_writes s) (k_log s) x (k_inodes s) (k_files s) (k_pipes
    s) (k_cons s) (k_uart s) (k_vdisk s) (k_devsw s) (k_first s) (k_panicked s)
    (k_locking s) (k_started s) (k_dev s) (k_out s).

Definition set_k_inodes (x : list inode) (s : kernel) : kernel :=
  Kernel (k_hart s) (k_locks s) (k_slocks s) (k_mem s) (k_freelist s)
    (k_kernel_pagetable s) (k_procs s) (k_nextpid s) (k_initproc s) (k_ticks s)
    (k_bufs s) (k_disk s) (k_writes s) (k_log s) (k_sb s) x (k_files s) (k_pipes s)
    (k_cons s) (k_uart s) (k_vdisk s) (k_devsw s) (k_first s) (k_panicked s)
    (k_locking s) (k_started s) (k_dev s) (k_out s).

Definition set_k_files (x : list file) (s : kernel) : kernel :=
  Kernel (k_hart s) (k_locks s) (k_slocks s) (k_mem s) (k_freelist s)
    (k_kernel_pagetable s) (k_procs s) (k_nextpid s) (k_initproc s) (k_ticks s)
    (k_bufs s) (k_disk s) (k_writes s) (k_log s) (k_sb s) (k_inodes s) x (k_pipes s)
    (k_cons s) (k_uart s) (k_vdisk s) (k_devsw s) (k_first s) (k_panicked s)
    (k_locking s) (k_started s) (k_dev s) (k_out s).

Definition set_k_pipes (x : gmap Z pipe) (s : kernel) : kernel :=
  Kernel (k_hart s) (k_locks s) (k_slocks s) (k_mem s) (k_freelist s)
    (k_kernel_pagetable s) (k_procs s) (k_nextpid s) (k_initproc s) (k_ticks s)
    (k_bufs s) (k_disk s) (k_writes s) (k_log s) (k_sb s) (k_inodes s) (k_files s) x
    (k_cons s) (k_uart s) (k_vdisk s) (k_devsw s) (k_first s) (k_panicked s)
    (k_locking s) (k_started s) (k_dev s) (k_out s).

Definition set_k_cons (x : cons) (s : kernel) : kernel :=
  Kernel (k_hart s) (k_locks s) (k_slocks s) (k_mem s) (k_freelist s)
    (k_kernel_pagetable s) (k_procs s) (k_nextpid s) (k_initproc s) (k_ticks s)
    (k_bufs s) (k_disk s) (k_writes s) (k_log s) (k_sb s) (k_inodes s) (k_files s)
    (k_pipes s) x (k_uart s) (k_vdisk s) (k_devsw s) (k_first s) (k_panicked s)
    (k_locking s) (k_started s) (k_dev s) (k_out s).

Definition set_k_uart (x : uart) (s : kernel) : kernel :=
  Kernel (k_hart s) (k_locks s) (k_slocks s) (k_mem s) (k_freelist s)
    (k_kernel_pagetable s) (k_procs s) (k_nextpid s) (k_initproc s) (k_ticks s)
    (k_bufs s) (k_disk s) (k_writes s) (k_log s) (k_sb s) (k_inodes s) (k_files s)
    (k_pipes s) (k_cons s) x (k_vdisk s) (k_devsw s) (k_first s) (k_panicked s)
    (k_locking s) (k_started s) (k_dev s) (k_out s).

Definition set_k_vdisk (x : vdisk) (s : kernel) : kernel :=
  Kernel (k_hart s) (k_locks s) (k_slocks s) (k_mem s) (k_freelist s)
    (k_kernel_pagetable s) (k_procs s) (k_nextpid s) (k_initproc s) (k_ticks s)
    (k_bufs s) (k_disk s) (k_writes s) (k_log s) (k_sb s) (k_inodes s) (k_files s)
    (k_pipes s) (k_cons s) (k_uart s) x (k_devsw s) (k_first s) (k_panicked s)
    (k_locking s) (k_started s) (k_dev s) (k_out s).

Definition set_k_devsw (x : list (option devid)) (s : kernel) : kernel :=
  Kernel (k_hart s) (k_locks s) (k_slocks s) (k_mem s) (k_freelist s)
    (k_kernel_pagetable s) (k_procs s) (k_nextpid s) (k_initproc s) (k_ticks s)
    (k_bufs s) (k_disk s) (k_writes s) (k_log s) (k_sb s) (k_inodes s) (k_files s)
    (k_pipes s) (k_cons s) (k_uart s) (k_vdisk s) x (k_first s) (k_panicked s)
    (k_locking s) (k_started s) (k_dev s) (k_out s).

Definition set_k_first (x : Z) (s : kernel) : kernel :=
  Kernel (k_hart s) (k_locks s) (k_slocks s) (k_mem s) (k_freelist s)
    (k_kernel_pagetable s) (k_procs s) (k_nextpid s) (k_initproc s) (k_ticks s)
    (k_bufs s) (k_disk s) (k_writes s) (k_log s) (k_sb s) (k_inodes s) (k_files s)
    (k_pipes s) (k_cons s) (k_uart s) (k_vdisk s) (k_devsw s) x (k_panicked s)
    (k_locking s) (k_started s) (k_dev s) (k_out s).

Definition set_k_panicked (x : Z) (s : kernel) : kernel :=
  Kernel (k_hart s) (k_locks s) (k_slocks s) (k_mem s) (k_freelist s)
    (k_kernel_pagetable s) (k_procs s) (k_nextpid s) (k_initproc s) (k_ticks s)
    (k_bufs s) (k_disk s) (k_writes s) (k_log s) (k_sb s) (k_inodes s) (k_files s)
    (k_pipes s) (k_cons s) (k_uart s) (k_vdisk s) (k_devsw s) (k_first s) x (k_locking
    s) (k_started s) (k_dev s) (k_out s).

Definition set_k_locking (x : Z) (s : kernel) : kernel :=
  Kernel (k_hart s) (k_locks s) (k_slocks s) (k_mem s) (k_freelist s)
    (k_kernel_pagetable s) (k_procs s) (k_nextpid s) (k_initproc s) (k_ticks s)
    (k_bufs s) (k_disk s) (k_writes s) (k_log s) (k_sb s) (k_inodes s) (k_files s)
    (k_pipes s) (k_cons s) (k_uart s) (k_vdisk s) (k_devsw s) (k_first s) (k_panicked
    s) x (k_started s) (k_dev s) (k_out s).

Definition set_k_started (x : Z) (s : kernel) : kernel :=
  Kernel (k_hart s) (k_locks s) (k_slocks s) (k_mem s) (k_freelist s)
    (k_kernel_pagetable s) (k_procs s) (k_nextpid s) (k_initproc s) (k_ticks s)
    (k_bufs s) (k_disk s) (k_writes s) (k_log s) (k_sb s) (k_inodes s) (k_files s)
    (k_pipes s) (k_cons s) (k_uart s) (k_vdisk s) (k_devsw s) (k_first s) (k_panicked
    s) (k_locking s) x (k_dev s) (k_out s).

Definition set_k_dev (x : gmap Z Z) (s : kernel) : kernel :=
  Kernel (k_hart s) (k_locks s) (k_slocks s) (k_mem s) (k_freelist s)
    (k_kernel_pagetable s) (k_procs s) (k_nextpid s) (k_initproc s) (k_ticks s)
    (k_bufs s) (k_disk s) (k_writes s) (k_log s) (k_sb s) (k_inodes s) (k_files s)
    (k_pipes s) (k_cons s) (k_uart s) (k_vdisk s) (k_devsw s) (k_first s) (k_panicked
    s) (k_locking s) (k_started s) x (k_out s).

Definition set_k_out (x : list Z) (s : kernel) : kernel :=
  Kernel (k_hart s) (k_locks s) (k_slocks s) (k_mem s) (k_freelist s)
    (k_kernel_pagetable s) (k_procs s) (k_nextpid s) (k_initproc s) (k_ticks s)
    (k_bufs s) (k_disk s) (k_writes s) (k_log s) (k_sb s) (k_inodes s) (k_files s)
    (k_pipes s) (k_cons s) (k_uart s) (k_vdisk s) (k_devsw s) (k_first s) (k_panicked
    s) (k_locking s) (k_started s) (k_dev s) x.

(** ** The program's initial data

    C statics are zeroed; the only initialised scalars are [nextpid] and the
    static [first] of [forkret]. *)

Definition zero_context : context := Context_ 0 0 (replicate 12 0).
Definition zero_hart : hart := Hart 0 0 0 0 0 0 0 0 None zero_context 0 0.
Definition zero_proc : proc :=
  Proc UNUSED Ch_null 0 0 0 None 0 0 0 0 zero_context (replicate NOFILE None) None
    (replicate 16 0).
Definition zero_buf : buf := Buf 0 0 0 0 0 0 0 (replicate (Z.to_nat BSIZE) 0).
Definition zero_inode : inode := Inode 0 0 0 0 0 0 0 0 0 (replicate 13 0).
Definition zero_file : file := File FD_NONE 0 0 0 0 None 0 0.
Definition zero_log : log := Log 0 0 0 0 0 0 (replicate (Z.to_nat LOGSIZE) 0).
Definition zero_kernel : kernel :=
  Kernel zero_hart ∅ ∅ ∅ 0 0 (replicate NPROC zero_proc) 1 None 0
    (replicate (S NBUF) zero_buf) ∅ [] zero_log (Superblock 0 0 0 0 0 0 0 0)
    (replicate NINODE zero_inode) (replicate NFILE zero_file) ∅
    (Cons (replicate 128 0) 0 0 0) (Uart (replicate 32 0) 0 0)
    (Vdisk 0 0 0 (replicate NUM (Vdesc DA_null 0 0 0)) 0 (replicate NUM 0) 0 (replicate NUM 0)
       (replicate NUM 0) 0 (replicate NUM None) (replicate NUM 0) (replicate NUM (Vop 0 0 0)))
    (replicate (Z.to_nat NDEV) None) 1 0 0 0 ∅ [].

(** ** The kernel monad *)

(** A C function of the kernel: it runs on the global state. *)
Definition M (A : Type) : Type := kernel → outcome kernel A.

#[global] Instance M_ret : MRet M := λ A a s, Ret a s.
#[global] Instance M_bind : MBind M := λ A B f m s, obind f (m s).

Definition gets {A : Type} (f : kernel → A) : M A := λ s, Ret (f s) s.

Definition modify (f : kernel → kernel) : M unit := λ s, Ret tt (f s).

Definition panic {A : Type} (msg : string) : M A := λ s, Panic msg s.

Definition out_of_fuel {A : Type} : M A := λ _, OutOfFuel.

Definition when (b : bool) (m : M unit) : M unit := if b then m else mret tt.

(** [for (x in l) f(x)]. *)
Fixpoint for_each {A : Type} (l : list A) (f : A → M unit) : M unit :=
  match l with
  | [] => mret tt
  | x :: l' => f x;; for_each l' f
  end.

(** ** Stepping through the monad *)

(** The sequencing rule every proof about [M] uses: what runs after a call
    that returns. *)
Lemma bind_Ret {A B : Type} (m : M A) (f : A → M B) s a s' :
  m s = Ret a s' → (m ≫= f) s = f a s'.
Proof. intros H. unfold mbind, M_bind. by rewrite H. Qed.

Lemma bind_Panic {A B : Type} (m : M A) (f : A → M B) s msg s' :
  m s = Panic msg s' → (m ≫= f) s = Panic msg s'.
Proof. intros H. unfold mbind, M_bind. by rewrite H. Qed.

Lemma bind_gets {A B : Type} (g : kernel → A) (f : A → M B) s :
  (gets g ≫= f) s = f (g s) s.
Proof. done. Qed.

Lemma bind_modify {B : Type} (g : kernel → kernel) (f : unit → M B) s :
  (modify g ≫= f) s = f tt (g s).
Proof. done. Qed.

Lemma bind_mret {A B : Type} (a : A) (f : A → M B) s : (mret a ≫= f) s = f a s.
Proof. done. Qed.

Lemma bind_when {B : Type} b (m : M unit) (f : unit → M B) s :
  (when b m ≫= f) s = if b then (m ≫= f) s else f tt s.
Proof. by destruct b. Qed.

Lemma bind_assoc {A B C : Type} (m : M A) (f : A → M B) (g : B → M C) s a s' :
  m s = Ret a s' → ((m ≫= f) ≫= g) s = (f a ≫= g) s'.
Proof. intros H. unfold mbind, M_bind. by rewrite H. Qed.

(** A state equals the one with a field set to what it already holds. *)
Lemma set_k_locks_id s : set_k_locks (k_locks s) s = s.
Proof. by destruct s. Qed.

Lemma set_k_hart_id s : set_k_hart (k_hart s) s = s.
Proof. by destruct s. Qed.

Lemma set_k_mem_id s : set_k_mem (k_mem s) s = s.
Proof. by destruct s. Qed.

Create Rewrite HintDb kernel.
#[export] Hint Rewrite @bind_gets @bind_modify @bind_mret @bind_when : kernel.

(** One deterministic step of a model. *)
Ltac mstep := rewrite ?bind_gets, ?bind_modify, ?bind_mret, ?bind_when; simpl.

(** Run a model whose calls are all unfolded. *)
Ltac mrun := unfold mbind, M_bind, mret, M_ret, gets, modify, panic, when; cbn.

(** Normalise nested updates of the kernel to one record. Two states are
    compared after this: conversion alone would compare them field by field at
    every level of nesting. *)
Ltac knorm := cbv [
    set_k_hart set_k_locks set_k_slocks set_k_mem set_k_freelist set_k_kernel_pagetable set_k_procs
    set_k_nextpid set_k_initproc set_k_ticks set_k_bufs set_k_disk set_k_writes set_k_log
    set_k_sb set_k_inodes set_k_files set_k_pipes set_k_cons set_k_uart set_k_vdisk
    set_k_devsw set_k_first set_k_panicked set_k_locking set_k_started set_k_dev set_k_out
    k_hart k_locks k_slocks k_mem k_freelist k_kernel_pagetable k_procs k_nextpid k_initproc k_ticks
    k_bufs k_disk k_writes k_log k_sb k_inodes k_files k_pipes k_cons k_uart k_vdisk
    k_devsw k_first k_panicked k_locking k_started k_dev k_out ].

Ltac kernel_eq := knorm; reflexivity.
