(* ===== verification/Mem.v ===== *)
(** * Physical memory

    Memory is a finite map from addresses to byte cells; a cell that was never
    written reads as some fixed byte. Multi-byte accesses are little-endian,
    as on RISC-V. Everything later is stated through [ld8], [ldn] and [stn];
    the lemmas below are the only place where a word is taken apart. *)

From S2P Require Import Prelude State.

(** ** Loads and stores *)

Definition ld8 (m : gmap Z Z) (a : Z) : Z := u8 (default 0 (m !! a)).

Definition st8 (m : gmap Z Z) (a v : Z) : gmap Z Z := <[a := u8 v]> m.

(** An [n]-byte little-endian load. *)
Fixpoint ldn (n : nat) (m : gmap Z Z) (a : Z) : Z :=
  match n with
  | O => 0
  | S n' => ld8 m a + 256 * ldn n' m (a + 1)
  end.

(** An [n]-byte little-endian store. *)
Fixpoint stn (n : nat) (m : gmap Z Z) (a v : Z) : gmap Z Z :=
  match n with
  | O => m
  | S n' => stn n' (st8 m a v) (a + 1) (v / 256)
  end.

Definition ld16 := ldn 2.
Definition ld32 := ldn 4.
Definition ld64 := ldn 8.
Definition st16 := stn 2.
Definition st32 := stn 4.
Definition st64 := stn 8.

#[global] Arguments ld16 : simpl never.
#[global] Arguments ld32 : simpl never.
#[global] Arguments ld64 : simpl never.
#[global] Arguments st16 : simpl never.
#[global] Arguments st32 : simpl never.
#[global] Arguments st64 : simpl never.

(** The [n] bytes at [a], and writing a sequence of bytes at [a]. *)
Fixpoint ld_bytes (n : nat) (m : gmap Z Z) (a : Z) : list Z :=
  match n with
  | O => []
  | S n' => ld8 m a :: ld_bytes n' m (a + 1)
  end.

Fixpoint st_bytes (m : gmap Z Z) (a : Z) (l : list Z) : gmap Z Z :=
  match l with
  | [] => m
  | x :: l' => st_bytes (st8 m a x) (a + 1) l'
  end.

(** The same accesses as operations of the kernel. *)
Definition load8 (a : Z) : M Z := gets (λ s, ld8 (k_mem s) a).
Definition load32 (a : Z) : M Z := gets (λ s, ld32 (k_mem s) a).
Definition load64 (a : Z) : M Z := gets (λ s, ld64 (k_mem s) a).
Definition on_mem (f : gmap Z Z → gmap Z Z) : M unit :=
  modify (λ s, set_k_mem (f (k_mem s)) s).
Definition store8 (a v : Z) : M unit := on_mem (λ m, st8 m a v).
Definition store64 (a v : Z) : M unit := on_mem (λ m, st64 m a v).

(** *** Structures inside a block of bytes *)

(** The [n] bytes from [off]. *)
Definition sub (d : list Z) (off n : nat) : list Z := take n (drop off d).

(** [d] with the bytes from [off] replaced by [l]. *)
Definition splice (d : list Z) (off : nat) (l : list Z) : list Z :=
  take off d ++ l ++ drop (off + length l) d.

(** Little-endian numbers. *)
Definition of_le (l : list Z) : Z := foldr (λ b acc, b + 256 * acc) 0 l.

Fixpoint to_le (n : nat) (v : Z) : list Z :=
  match n with
  | O => []
  | S n' => v mod 256 :: to_le n' (v / 256)
  end.

Definition get16 (d : list Z) (off : nat) : Z := of_le (sub d off 2).
Definition get32 (d : list Z) (off : nat) : Z := of_le (sub d off 4).
Definition put16 (d : list Z) (off : nat) (v : Z) : list Z := splice d off (to_le 2 v).
Definition put32 (d : list Z) (off : nat) (v : Z) : list Z := splice d off (to_le 4 v).

(** ** Bytes *)

Lemma ld8_range m a : 0 ≤ ld8 m a < 256.
Proof. apply u8_range. Qed.

Lemma ld8_st8 m a v b : ld8 (st8 m a v) b = if decide (a = b) then u8 v else ld8 m b.
Proof.
  unfold ld8, st8. rewrite lookup_insert. case_decide; simpl; [|done].
  apply Z.mod_small, u8_range.
Qed.

Lemma ld8_st8_same m a v : ld8 (st8 m a v) a = u8 v.
Proof. rewrite ld8_st8. by case_decide. Qed.

Lemma ld8_st8_other m a v b : a ≠ b → ld8 (st8 m a v) b = ld8 m b.
Proof. intros. rewrite ld8_st8. by case_decide. Qed.

(** ** Words *)

Lemma ldn_range n m a : 0 ≤ ldn n m a < 256 ^ Z.of_nat n.
Proof.
  revert a. induction n as [|n IH]; intros a; simpl; [lia|].
  rewrite Nat2Z.inj_succ, Z.pow_succ_r by lia.
  pose proof (ld8_range m a). pose proof (IH (a + 1)). lia.
Qed.

(** A load only depends on the bytes it covers. *)
Lemma ldn_ext n m m' a :
  (∀ i, a ≤ i < a + Z.of_nat n → ld8 m i = ld8 m' i) → ldn n m a = ldn n m' a.
Proof.
  revert a. induction n as [|n IH]; intros a H; simpl; [done|].
  rewrite (H a) by lia. rewrite (IH (a + 1)); [done|]. intros i Hi. apply H. lia.
Qed.

Lemma ld8_stn_other n m a v b :
  b < a ∨ a + Z.of_nat n ≤ b → ld8 (stn n m a v) b = ld8 m b.
Proof.
  revert m a v. induction n as [|n IH]; intros m a v H; simpl; [done|].
  rewrite IH by lia. apply ld8_st8_other. lia.
Qed.

Lemma ldn_stn_same n m a v : ldn n (stn n m a v) a = v mod 256 ^ Z.of_nat n.
Proof.
  revert m a v. induction n as [|n IH]; intros m a v.
  - simpl. by rewrite Z.mod_1_r.
  - cbn [ldn stn]. rewrite IH, ld8_stn_other, ld8_st8_same by lia.
    rewrite Nat2Z.inj_succ, Z.pow_succ_r by lia.
    by rewrite Z.rem_mul_r by lia.
Qed.

Lemma ldn_stn_other n k m a v b :
  b + Z.of_nat k ≤ a ∨ a + Z.of_nat n ≤ b → ldn k (stn n m a v) b = ldn k m b.
Proof. intros H. apply ldn_ext. intros i Hi. apply ld8_stn_other. lia. Qed.

Lemma ld64_range m a : 0 ≤ ld64 m a < 18446744073709551616.
Proof. apply (ldn_range 8). Qed.

Lemma ld64_st64_same m a v : ld64 (st64 m a v) a = u64 v.
Proof. apply (ldn_stn_same 8). Qed.

Lemma ld64_st64_other m a v b : b + 8 ≤ a ∨ a + 8 ≤ b → ld64 (st64 m a v) b = ld64 m b.
Proof. intros. apply (ldn_stn_other 8 8). lia. Qed.

(** Two words at 8-byte aligned offsets of 8-byte aligned bases either coincide
    or do not overlap. *)
Lemma ld64_st64 m a v b :
  a mod 8 = 0 → b mod 8 = 0 →
  ld64 (st64 m a v) b = if decide (a = b) then u64 v else ld64 m b.
Proof.
  intros Ha Hb. case_decide as Hab.
  - subst. apply ld64_st64_same.
  - apply ld64_st64_other. zdm.
Qed.

Lemma ld8_st64_other m a v b : b < a ∨ a + 8 ≤ b → ld8 (st64 m a v) b = ld8 m b.
Proof. intros. apply (ld8_stn_other 8). lia. Qed.

(** ** Sequences of bytes *)

Lemma length_ld_bytes n m a : length (ld_bytes n m a) = n.
Proof. revert a. induction n as [|n IH]; intros a; simpl; auto. Qed.

Lemma ld_bytes_lookup n m a i :
  (i < n)%nat → ld_bytes n m a !! i = Some (ld8 m (a + Z.of_nat i)).
Proof.
  revert a i. induction n as [|n IH]; intros a [|i] Hi; simpl; [lia|lia|..].
  - do 2 f_equal. lia.
  - rewrite IH by lia. do 2 f_equal. lia.
Qed.

Lemma ld_bytes_ext n m m' a :
  (∀ i, a ≤ i < a + Z.of_nat n → ld8 m i = ld8 m' i) → ld_bytes n m a = ld_bytes n m' a.
Proof.
  revert a. induction n as [|n IH]; intros a H; simpl; [done|].
  rewrite (H a) by lia. f_equal. apply IH. intros i Hi. apply H. lia.
Qed.

Lemma ld_bytes_app n k m a :
  ld_bytes (n + k) m a = ld_bytes n m a ++ ld_bytes k m (a + Z.of_nat n).
Proof.
  revert a. induction n as [|n IH]; intros a; simpl.
  - f_equal. lia.
  - f_equal. rewrite IH. do 2 f_equal. lia.
Qed.

Lemma ld8_st_bytes_other m a l b :
  b < a ∨ a + Z.of_nat (length l) ≤ b → ld8 (st_bytes m a l) b = ld8 m b.
Proof.
  revert m a. induction l as [|x l IH]; intros m a H; simpl in *; [done|].
  rewrite IH by lia. apply ld8_st8_other. lia.
Qed.

(** Reading back what was written. *)
Lemma ld_bytes_st_bytes m a l :
  Forall (λ x, 0 ≤ x < 256) l → ld_bytes (length l) (st_bytes m a l) a = l.
Proof.
  revert m a. induction l as [|x l IH]; intros m a H; simpl; [done|].
  inversion_clear H as [|?? Hx Hl].
  rewrite ld8_st_bytes_other, ld8_st8_same, u8_small by lia. f_equal. by apply IH.
Qed.

Lemma ld8_st_bytes m a l b i :
  Forall (λ x, 0 ≤ x < 256) l → l !! i = Some b →
  ld8 (st_bytes m a l) (a + Z.of_nat i) = b.
Proof.
  revert m a i. induction l as [|x l IH]; intros m a i H Hi; simpl; [done|].
  inversion_clear H as [|?? Hx Hl]. destruct i as [|i]; simplify_eq/=.
  - rewrite ld8_st_bytes_other by lia. rewrite Z.add_0_r, ld8_st8_same.
    by apply u8_small.
  - rewrite <- (IH (st8 m a x) (a + 1) i) by done. f_equal. lia.
Qed.

Lemma st_bytes_app m a l1 l2 :
  st_bytes m a (l1 ++ l2) = st_bytes (st_bytes m a l1) (a + Z.of_nat (length l1)) l2.
Proof.
  revert m a. induction l1 as [|x l1 IH]; intros m a; simpl.
  - f_equal. lia.
  - rewrite IH. f_equal. lia.
Qed.

(** A word of zero bytes. *)
Lemma ldn_zero n m a : (∀ i, a ≤ i < a + Z.of_nat n → ld8 m i = 0) → ldn n m a = 0.
Proof.
  revert a. induction n as [|n IH]; intros a Hm; cbn [ldn]; [done|].
  rewrite (Hm a), IH by (intros; try apply Hm; lia). done.
Qed.

(** ** Structures inside a block *)

Lemma length_to_le n v : length (to_le n v) = n.
Proof. revert v. induction n as [|n IH]; intros v; simpl; auto. Qed.

Lemma of_le_to_le n v : 0 ≤ v < 256 ^ Z.of_nat n → of_le (to_le n v) = v.
Proof.
  revert v. induction n as [|n IH]; intros v Hv; [simpl in *; lia|].
  cbn [to_le of_le foldr]. fold (of_le (to_le n (v / 256))). rewrite IH; [zdm|].
  rewrite Nat2Z.inj_succ, Z.pow_succ_r in Hv by lia. zdm.
Qed.

Lemma length_splice d off l :
  (off + length l ≤ length d)%nat → length (splice d off l) = length d.
Proof. intros. unfold splice. rewrite !length_app, length_take, length_drop. lia. Qed.

Lemma sub_splice_same d off l :
  (off + length l ≤ length d)%nat → sub (splice d off l) off (length l) = l.
Proof.
  intros Hl. unfold sub, splice. rewrite drop_app_length' by (rewrite length_take; lia).
  by rewrite take_app_length.
Qed.

Lemma lookup_splice d off l i :
  (off + length l ≤ length d)%nat →
  splice d off l !! i =
    if decide (off ≤ i < off + length l)%nat then l !! (i - off)%nat else d !! i.
Proof.
  intros Hl. unfold splice. case_decide.
  - rewrite lookup_app_r by (rewrite length_take; lia). rewrite length_take.
    rewrite lookup_app_l by lia. f_equal. lia.
  - destruct (decide (i < off)%nat).
    + rewrite lookup_app_l by (rewrite length_take; lia). by rewrite lookup_take_lt by lia.
    + rewrite lookup_app_r by (rewrite length_take; lia). rewrite length_take.
      rewrite lookup_app_r by lia. rewrite lookup_drop. f_equal. lia.
Qed.

Lemma sub_splice_other d off l off' n :
  (off + length l ≤ length d)%nat → (off' + n ≤ off ∨ off + length l ≤ off')%nat →
  sub (splice d off l) off' n = sub d off' n.
Proof.
  intros Hl Hd. apply list_eq. intros i. unfold sub.
  destruct (decide (i < n)%nat).
  - rewrite !lookup_take_lt, !lookup_drop, lookup_splice by lia.
    by rewrite decide_False by lia.
  - by rewrite !lookup_take_ge by lia.
Qed.

Lemma get32_put32_same d off v :
  (off + 4 ≤ length d)%nat → 0 ≤ v < 4294967296 → get32 (put32 d off v) off = v.
Proof.
  intros Hl Hv. unfold get32, put32.
  rewrite <- (length_to_le 4 v) at 2. rewrite sub_splice_same by (rewrite length_to_le; lia).
  by apply of_le_to_le.
Qed.

Lemma get32_put32_other d off off' v :
  (off + 4 ≤ length d)%nat → (off' + 4 ≤ off ∨ off + 4 ≤ off')%nat →
  get32 (put32 d off v) off' = get32 d off'.
Proof.
  intros Hl Ho. unfold get32, put32. by rewrite sub_splice_other by (rewrite length_to_le; lia).
Qed.

Lemma length_put32 d off v : (off + 4 ≤ length d)%nat → length (put32 d off v) = length d.
Proof. intros. unfold put32. apply length_splice. rewrite length_to_le. lia. Qed.
