(* ===== verification/Kstring.v ===== *)
(** * kernel/string.c: operations on memory and C strings

    Each routine is the loop of the source on the memory map; the pointer
    arguments are addresses and the byte counts are non-negative integers
    (a [uint] or a checked [int]). [strlen] has no bound of its own in the
    source: here it takes fuel, and [strlen_returns] shows when it is enough. *)

From S2P Require Import Prelude State Mem.

(** ** Model *)

Fixpoint memset_loop (n : nat) (m : gmap Z Z) (dst c : Z) : gmap Z Z :=
  match n with
  | O => m
  | S n' => memset_loop n' (st8 m dst c) (dst + 1) c
  end.

Definition memset (m : gmap Z Z) (dst c n : Z) : gmap Z Z :=
  memset_loop (Z.to_nat n) m dst c.

Fixpoint memcmp_loop (n : nat) (m : gmap Z Z) (s1 s2 : Z) : Z :=
  match n with
  | O => 0
  | S n' =>
      if negb (ld8 m s1 =? ld8 m s2) then ld8 m s1 - ld8 m s2
      else memcmp_loop n' m (s1 + 1) (s2 + 1)
  end.

Definition memcmp (m : gmap Z Z) (v1 v2 n : Z) : Z := memcmp_loop (Z.to_nat n) m v1 v2.

(** [while(n-- > 0) *d++ = *s++]. *)
Fixpoint copy_up (n : nat) (m : gmap Z Z) (d s : Z) : gmap Z Z :=
  match n with
  | O => m
  | S n' => copy_up n' (st8 m d (ld8 m s)) (d + 1) (s + 1)
  end.

(** [while(n-- > 0) *--d = *--s]. *)
Fixpoint copy_down (n : nat) (m : gmap Z Z) (d s : Z) : gmap Z Z :=
  match n with
  | O => m
  | S n' => copy_down n' (st8 m (d - 1) (ld8 m (s - 1))) (d - 1) (s - 1)
  end.

Definition memmove (m : gmap Z Z) (dst src n : Z) : gmap Z Z :=
  if n =? 0 then m
  else if (src <? dst) && (dst <? src + n)
  then copy_down (Z.to_nat n) m (dst + n) (src + n)
  else copy_up (Z.to_nat n) m dst src.

Definition memcpy (m : gmap Z Z) (dst src n : Z) : gmap Z Z := memmove m dst src n.

Fixpoint strncmp_loop (n : nat) (m : gmap Z Z) (p q : Z) : Z :=
  match n with
  | O => 0
  | S n' =>
      if negb (ld8 m p =? 0) && (ld8 m p =? ld8 m q)
      then strncmp_loop n' m (p + 1) (q + 1)
      else ld8 m p - ld8 m q
  end.

Definition strncmp (m : gmap Z Z) (p q n : Z) : Z := strncmp_loop (Z.to_nat n) m p q.

Fixpoint strncpy_pad (n : nat) (m : gmap Z Z) (s : Z) : gmap Z Z :=
  match n with
  | O => m
  | S n' => strncpy_pad n' (st8 m s 0) (s + 1)
  end.

Fixpoint strncpy_loop (n : nat) (m : gmap Z Z) (s t : Z) : gmap Z Z :=
  match n with
  | O => m
  | S n' =>
      let c := ld8 m t in
      let m' := st8 m s c in
      if negb (c =? 0) then strncpy_loop n' m' (s + 1) (t + 1)
      else strncpy_pad n' m' (s + 1)
  end.

Definition strncpy (m : gmap Z Z) (s t n : Z) : gmap Z Z := strncpy_loop (Z.to_nat n) m s t.

(** The loop of [safestrcpy] after [--n], with the final [*s = 0]. *)
Fixpoint safestrcpy_loop (n : nat) (m : gmap Z Z) (s t : Z) : gmap Z Z :=
  match n with
  | O => st8 m s 0
  | S n' =>
      let c := ld8 m t in
      let m' := st8 m s c in
      if negb (c =? 0) then safestrcpy_loop n' m' (s + 1) (t + 1)
      else st8 m' (s + 1) 0
  end.

Definition safestrcpy (m : gmap Z Z) (s t n : Z) : gmap Z Z :=
  if n <=? 0 then m else safestrcpy_loop (Z.to_nat (n - 1)) m s t.

Fixpoint strlen_loop (fuel : nat) (m : gmap Z Z) (s n : Z) : option Z :=
  match fuel with
  | O => None
  | S f => if negb (ld8 m (s + n) =? 0) then strlen_loop f m s (n + 1) else Some n
  end.

Definition strlen (fuel : nat) (m : gmap Z Z) (s : Z) : option Z := strlen_loop fuel m s 0.

(** Conversion never needs to run the loops on whole pages. *)
Strategy 1000 [memset memmove].
#[global] Arguments memset : simpl never.
#[global] Arguments memmove : simpl never.

(** The C string in a sequence of bytes: up to the first NUL, or all of it. *)
Fixpoint cstr (l : list Z) : list Z :=
  match l with
  | [] => []
  | x :: l' => if x =? 0 then [] else x :: cstr l'
  end.

(** The first byte at which two sequences differ decides their order. *)
Fixpoint lex_diff (l1 l2 : list Z) : Z :=
  match l1, l2 with
  | x :: l1', y :: l2' => if x =? y then lex_diff l1' l2' else x - y
  | x :: _, [] => x
  | [], y :: _ => - y
  | [], [] => 0
  end.

(** ** Filling and copying *)

Lemma ld8_memset_loop n m dst c a :
  ld8 (memset_loop n m dst c) a =
  if decide (dst ≤ a < dst + Z.of_nat n) then u8 c else ld8 m a.
Proof.
  revert m dst. induction n as [|n IH]; intros m dst; cbn [memset_loop].
  - case_decide; [lia|done].
  - rewrite IH, ld8_st8. repeat case_decide; try done; lia.
Qed.

Lemma ld8_memset m dst c n a :
  0 ≤ n → ld8 (memset m dst c n) a = if decide (dst ≤ a < dst + n) then u8 c else ld8 m a.
Proof. intros. unfold memset. rewrite ld8_memset_loop, Z2Nat.id by done. done. Qed.

Lemma ld8_copy_up n m d s a :
  d ≤ s ∨ s + Z.of_nat n ≤ d →
  ld8 (copy_up n m d s) a =
  if decide (d ≤ a < d + Z.of_nat n) then ld8 m (s + (a - d)) else ld8 m a.
Proof.
  revert m d s. induction n as [|n IH]; intros m d s H; cbn [copy_up].
  - case_decide; [lia|done].
  - rewrite IH by lia. rewrite !ld8_st8. repeat case_decide; try lia; try done;
      rewrite ?u8_small by apply ld8_range; f_equal; lia.
Qed.

Lemma ld8_copy_down n m d s a :
  s ≤ d →
  ld8 (copy_down n m d s) a =
  if decide (d - Z.of_nat n ≤ a < d) then ld8 m (s + (a - d)) else ld8 m a.
Proof.
  revert m d s. induction n as [|n IH]; intros m d s H; cbn [copy_down].
  - case_decide; [lia|done].
  - rewrite IH by lia. rewrite !ld8_st8. repeat case_decide; try lia; try done;
      rewrite ?u8_small by apply ld8_range; f_equal; lia.
Qed.

(** Working form of the [memmove] theorem, for the components that call it. *)
Lemma ld8_memmove m dst src n a :
  0 ≤ n →
  ld8 (memmove m dst src n) a =
  if decide (dst ≤ a < dst + n) then ld8 m (src + (a - dst)) else ld8 m a.
Proof.
  intros Hn. unfold memmove. case_test; [case_decide; [lia|done]|].
  destruct ((src <? dst) && (dst <? src + n)) eqn:Hov.
  - reflect_tests. rewrite ld8_copy_down by lia. rewrite Z2Nat.id by done.
    repeat case_decide; try lia; f_equal; lia.
  - apply andb_false_iff in Hov. rewrite ld8_copy_up, Z2Nat.id; [done|done|].
    destruct Hov as [Hov|Hov]; reflect_tests; rewrite ?Z2Nat.id; lia.
Qed.

(** [memmove] copies correctly whether or not the two ranges overlap: every
    byte of the destination holds the byte the source range held before the
    call, and no other byte of memory changes. *)
Theorem memmove_correct m dst src n a :
  0 ≤ n →
  ld8 (memmove m dst src n) a =
  if decide (dst ≤ a < dst + n) then ld8 m (src + (a - dst)) else ld8 m a.
Proof. apply ld8_memmove. Qed.

Lemma memmove_correct_witness :
  ld8 (memmove (st_bytes ∅ 100 [1; 2; 3; 4]) 102 100 4) 103 = 2.
Proof. by rewrite (memmove_correct _ 102 100 4 103). Defined.

Lemma ld_bytes_memmove m dst src n :
  ld_bytes n (memmove m dst src (Z.of_nat n)) dst = ld_bytes n m src.
Proof.
  apply list_eq. intros i. destruct (decide (i < n)%nat) as [Hi|Hi].
  - rewrite !ld_bytes_lookup by done. rewrite ld8_memmove by lia.
    case_decide; [|lia]. do 2 f_equal. lia.
  - rewrite !lookup_ge_None_2; [done|rewrite length_ld_bytes; lia..].
Qed.

(** ** Comparison *)

Lemma memcmp_loop_eq n m p q :
  memcmp_loop n m p q = lex_diff (ld_bytes n m p) (ld_bytes n m q).
Proof.
  revert p q. induction n as [|n IH]; intros p q; simpl; [done|].
  rewrite <- IH. by destruct (ld8 m p =? ld8 m q).
Qed.

Lemma strncmp_loop_eq n m p q :
  strncmp_loop n m p q = lex_diff (cstr (ld_bytes n m p)) (cstr (ld_bytes n m q)).
Proof.
  revert p q. induction n as [|n IH]; intros p q; simpl; [done|]. rewrite IH.
  destruct (ld8 m p =? 0) eqn:Hp, (ld8 m q =? 0) eqn:Hq; reflect_tests; simpl.
  - lia.
  - lia.
  - destruct (ld8 m p =? ld8 m q) eqn:?; reflect_tests; lia.
  - by destruct (ld8 m p =? ld8 m q).
Qed.

Lemma lex_diff_refl l : lex_diff l l = 0.
Proof. induction l as [|x l IH]; simpl; [done|]. by rewrite Z.eqb_refl. Qed.

Lemma lex_diff_0 l1 l2 : length l1 = length l2 → lex_diff l1 l2 = 0 → l1 = l2.
Proof.
  revert l2. induction l1 as [|x l1 IH]; intros [|y l2] Hl H; simplify_eq/=; [done|].
  destruct (x =? y) eqn:E; reflect_tests; [|lia]. subst. f_equal. by apply IH.
Qed.

Lemma lex_diff_pos_0 l1 l2 :
  Forall (λ x, 0 < x) l1 → Forall (λ x, 0 < x) l2 → lex_diff l1 l2 = 0 → l1 = l2.
Proof.
  revert l2. induction l1 as [|x l1 IH]; intros [|y l2] H1 H2 H;
    inversion_clear H1; inversion_clear H2; simpl in H; [done|lia|lia|].
  destruct (x =? y) eqn:E; reflect_tests; [|lia]. subst. f_equal. by apply IH.
Qed.

Lemma cstr_nonzero l : Forall (λ x, x ≠ 0) l → cstr l = l.
Proof. induction 1 as [|x l Hx _ IH]; cbn; [done|]. rewrite (proj2 (Z.eqb_neq x 0)) by done. by rewrite IH. Qed.

Lemma cstr_stop l r : Forall (λ x, x ≠ 0) l → cstr (l ++ 0 :: r) = l.
Proof. induction 1 as [|x l Hx _ IH]; cbn; [done|]. rewrite (proj2 (Z.eqb_neq x 0)) by done. by rewrite IH. Qed.

Lemma cstr_pos l : Forall (λ x, 0 ≤ x) l → Forall (λ x, 0 < x) (cstr l).
Proof.
  induction 1 as [|x l Hx Hl IH]; simpl; [constructor|].
  destruct (x =? 0) eqn:E; reflect_tests; constructor; [lia|done].
Qed.

Lemma ld_bytes_nonneg n m a : Forall (λ x, 0 ≤ x) (ld_bytes n m a).
Proof.
  revert a. induction n as [|n IH]; intros a; simpl; constructor; [|done].
  apply ld8_range.
Qed.

Lemma strncmp_0_iff m p q n :
  strncmp m p q n = 0 ↔
  cstr (ld_bytes (Z.to_nat n) m p) = cstr (ld_bytes (Z.to_nat n) m q).
Proof.
  unfold strncmp. rewrite strncmp_loop_eq. split.
  - apply lex_diff_pos_0; apply cstr_pos, ld_bytes_nonneg.
  - intros ->. apply lex_diff_refl.
Qed.

(** [memcmp] is the difference at the first byte where the two ranges
    differ, read as unsigned bytes, and is zero exactly when they are equal. *)
Theorem memcmp_correct m v1 v2 n :
  memcmp m v1 v2 n =
    lex_diff (ld_bytes (Z.to_nat n) m v1) (ld_bytes (Z.to_nat n) m v2) ∧
  (memcmp m v1 v2 n = 0 ↔ ld_bytes (Z.to_nat n) m v1 = ld_bytes (Z.to_nat n) m v2).
Proof.
  unfold memcmp. rewrite memcmp_loop_eq. split; [done|]. split.
  - apply lex_diff_0. by rewrite !length_ld_bytes.
  - intros ->. apply lex_diff_refl.
Qed.

(** [strncmp] compares the C strings held in the first [n] bytes: its
    result is the difference at their first mismatch (the shorter string
    counting as smaller), and it is zero exactly when the strings agree. *)
Theorem strncmp_correct m p q n :
  strncmp m p q n =
    lex_diff (cstr (ld_bytes (Z.to_nat n) m p)) (cstr (ld_bytes (Z.to_nat n) m q)) ∧
  (strncmp m p q n = 0 ↔
   cstr (ld_bytes (Z.to_nat n) m p) = cstr (ld_bytes (Z.to_nat n) m q)).
Proof. split; [apply strncmp_loop_eq|apply strncmp_0_iff]. Qed.

(** ** Copying strings *)

Lemma ld_bytes_st8_other n m a v b :
  a < b ∨ b + Z.of_nat n ≤ a → ld_bytes n (st8 m a v) b = ld_bytes n m b.
Proof. intros H. apply ld_bytes_ext. intros i Hi. apply ld8_st8_other. lia. Qed.

Lemma ld8_strncpy_pad n m s a :
  ld8 (strncpy_pad n m s) a =
  if decide (s ≤ a < s + Z.of_nat n) then 0 else ld8 m a.
Proof.
  revert m s. induction n as [|n IH]; intros m s; cbn [strncpy_pad].
  - case_decide; [lia|done].
  - rewrite IH, ld8_st8. repeat case_decide; try done; lia.
Qed.

Lemma ld_bytes_strncpy_pad n m s :
  ld_bytes n (strncpy_pad n m s) s = replicate n 0.
Proof.
  apply list_eq. intros i. destruct (decide (i < n)%nat) as [Hi|Hi].
  - rewrite ld_bytes_lookup, lookup_replicate_2 by done. rewrite ld8_strncpy_pad.
    case_decide; [done|lia].
  - rewrite !lookup_ge_None_2; [done|rewrite ?length_ld_bytes, ?length_replicate; lia..].
Qed.

Lemma ld8_strncpy_other n m s t a :
  a < s ∨ s + Z.of_nat n ≤ a → ld8 (strncpy_loop n m s t) a = ld8 m a.
Proof.
  revert m s t. induction n as [|n IH]; intros m s t H; cbn [strncpy_loop]; [done|].
  destruct (negb (ld8 m t =? 0)).
  - rewrite IH by lia. apply ld8_st8_other. lia.
  - rewrite ld8_strncpy_pad. case_decide; [lia|]. apply ld8_st8_other. lia.
Qed.

Lemma ld_bytes_strncpy n m s t :
  s + Z.of_nat n ≤ t ∨ t + Z.of_nat n ≤ s →
  ld_bytes n (strncpy_loop n m s t) s =
  cstr (ld_bytes n m t) ++ replicate (n - length (cstr (ld_bytes n m t))) 0.
Proof.
  revert m s t. induction n as [|n IH]; intros m s t H; [done|].
  cbn [strncpy_loop ld_bytes cstr].
  destruct (ld8 m t =? 0) eqn:E; reflect_tests; simpl negb; cbn iota.
  - rewrite E, ld8_strncpy_pad. case_decide; [lia|]. rewrite ld8_st8_same.
    rewrite ld_bytes_strncpy_pad. done.
  - rewrite ld8_strncpy_other, ld8_st8_same, u8_small by (apply ld8_range || lia).
    rewrite IH by lia. rewrite ld_bytes_st8_other by lia. done.
Qed.

(** [strncpy] on ranges that do not overlap writes exactly [n] bytes: the
    source string, cut at [n], followed by NULs up to [n]; nothing else in
    memory changes. *)
Theorem strncpy_correct m s t n :
  0 ≤ n → s + n ≤ t ∨ t + n ≤ s →
  let src := cstr (ld_bytes (Z.to_nat n) m t) in
  ld_bytes (Z.to_nat n) (strncpy m s t n) s =
    src ++ replicate (Z.to_nat n - length src) 0 ∧
  (∀ a, a < s ∨ s + n ≤ a → ld8 (strncpy m s t n) a = ld8 m a).
Proof.
  intros Hn Hd src. split.
  - apply ld_bytes_strncpy. lia.
  - intros a Ha. apply ld8_strncpy_other. lia.
Qed.

Lemma strncpy_correct_witness :
  ld_bytes 4 (strncpy (st_bytes ∅ 100 [65; 66; 0; 7]) 50 100 4) 50 = [65; 66; 0; 0].
Proof.
  destruct (strncpy_correct (st_bytes ∅ 100 [65; 66; 0; 7]) 50 100 4) as [H _];
    [lia|lia|exact H].
Defined.

Lemma ld8_safestrcpy_other n m s t a :
  a < s ∨ s + Z.of_nat n < a → ld8 (safestrcpy_loop n m s t) a = ld8 m a.
Proof.
  revert m s t. induction n as [|n IH]; intros m s t H; cbn [safestrcpy_loop].
  - apply ld8_st8_other. lia.
  - destruct (negb (ld8 m t =? 0)).
    + rewrite IH by lia. apply ld8_st8_other. lia.
    + rewrite !ld8_st8_other by lia. done.
Qed.

Lemma cstr_safestrcpy n m s t :
  s + Z.of_nat n < t ∨ t + Z.of_nat n ≤ s →
  cstr (ld_bytes (S n) (safestrcpy_loop n m s t) s) = cstr (ld_bytes n m t).
Proof.
  revert m s t. induction n as [|n IH]; intros m s t H; cbn [safestrcpy_loop].
  - cbn [ld_bytes cstr]. by rewrite ld8_st8_same.
  - destruct (ld8 m t =? 0) eqn:E; reflect_tests; simpl negb; cbn iota;
      cbn [ld_bytes]; cbn [cstr].
    + rewrite ld8_st8_other, ld8_st8_same, E by lia. done.
    + rewrite ld8_safestrcpy_other, ld8_st8_same, u8_small by (apply ld8_range || lia).
      rewrite (proj2 (Z.eqb_neq _ _) E). f_equal.
      etransitivity; [apply (IH _ (s + 1) (t + 1)); lia|].
      by rewrite ld_bytes_st8_other by lia.
Qed.

(** [safestrcpy] with [n > 0] leaves a NUL-terminated string in the [n]
    bytes at [s] (the source string cut at [n - 1] bytes) and changes no byte
    outside them. *)
Theorem safestrcpy_correct m s t n :
  0 < n → s + n ≤ t ∨ t + n ≤ s →
  let out := cstr (ld_bytes (Z.to_nat n) (safestrcpy m s t n) s) in
  out = cstr (ld_bytes (Z.to_nat (n - 1)) m t) ∧
  Z.of_nat (length out) < n ∧
  (∀ a, a < s ∨ s + n ≤ a → ld8 (safestrcpy m s t n) a = ld8 m a).
Proof.
  intros Hn Hd out.
  assert (Hout : out = cstr (ld_bytes (Z.to_nat (n - 1)) m t)).
  { subst out. unfold safestrcpy. case_test; [lia|].
    replace (Z.to_nat n) with (S (Z.to_nat (n - 1))) by lia.
    apply cstr_safestrcpy. lia. }
  split_and!; [done|..].
  - rewrite Hout.
    assert (∀ l, (length (cstr l) ≤ length l)%nat) as Hle.
    { intros l. induction l as [|x l IH]; simpl; [lia|]. destruct (x =? 0); simpl; lia. }
    specialize (Hle (ld_bytes (Z.to_nat (n - 1)) m t)).
    rewrite length_ld_bytes in Hle. lia.
  - intros a Ha. unfold safestrcpy. case_test; [done|].
    apply ld8_safestrcpy_other. lia.
Qed.

Lemma safestrcpy_correct_witness :
  cstr (ld_bytes 3 (safestrcpy (st_bytes ∅ 100 [65; 66; 67; 0]) 50 100 3) 50) = [65; 66].
Proof.
  destruct (safestrcpy_correct (st_bytes ∅ 100 [65; 66; 67; 0]) 50 100 3) as [H _];
    [lia|lia|exact H].
Defined.

Lemma strlen_loop_returns fuel m s n k :
  0 ≤ k → (∀ i, n ≤ i < n + k → ld8 m (s + i) ≠ 0) → ld8 m (s + (n + k)) = 0 →
  (Z.to_nat k < fuel)%nat → strlen_loop fuel m s n = Some (n + k).
Proof.
  revert n k. induction fuel as [|fuel IH]; intros n k Hk Hnz Hz Hf; [lia|].
  cbn [strlen_loop]. destruct (decide (k = 0)) as [->|Hk0].
  - rewrite Z.add_0_r in Hz. rewrite Hz. simpl. f_equal. lia.
  - rewrite (proj2 (Z.eqb_neq _ _)) by (apply Hnz; lia). simpl.
    replace (n + k) with ((n + 1) + (k - 1)) by lia.
    apply IH; [lia|intros i Hi; apply Hnz; lia| |lia].
    by replace (n + 1 + (k - 1)) with (n + k) by lia.
Qed.

(** [strlen] returns the index of the first NUL when there is one, whatever
    the fuel above that index. *)
Lemma strlen_returns fuel m s k :
  0 ≤ k → (∀ i, 0 ≤ i < k → ld8 m (s + i) ≠ 0) → ld8 m (s + k) = 0 →
  (Z.to_nat k < fuel)%nat → strlen fuel m s = Some k.
Proof. intros. by apply (strlen_loop_returns fuel m s 0 k). Qed.
