(* ===== verification/Spinlock.v ===== *)
(** * kernel/spinlock.c: spinlocks and interrupt nesting

    [push_off], [pop_off], [acquire], [release] and [holding] as they run on
    one hart (interrupt state from riscv.h), the lemmas by which the other
    components pass a critical section, and (module [Smp]) the same lock under
    interleaved harts, where mutual exclusion is proved.

    [acquire] on a lock that another hart holds spins: the model blocks, and
    goes on from the first state in which the atomic swap reads 0. *)

From S2P Require Import Prelude State.

(** ** Model *)

Definition on_hart (f : hart → hart) : M unit := modify (λ s, set_k_hart (f (k_hart s)) s).

Definition r_sstatus : M Z := gets (λ s, h_sstatus (k_hart s)).

Definition w_sstatus (x : Z) : M unit := on_hart (set_h_sstatus x).

Definition intr_on : M unit := x ← r_sstatus; w_sstatus (Z.lor x SSTATUS_SIE).

Definition intr_off : M unit := x ← r_sstatus; w_sstatus (Z.land x (Z.lnot SSTATUS_SIE)).

Definition intr_get : M bool :=
  x ← r_sstatus; mret (negb (Z.land x SSTATUS_SIE =? 0)).

Definition cpuid : M Z := gets (λ s, h_tp (k_hart s)).

Definition push_off : M unit :=
  old ← intr_get;
  intr_off;;
  noff ← gets (λ s, c_noff (k_hart s));
  when (noff =? 0) (on_hart (set_c_intena (Z.b2z old)));;
  on_hart (set_c_noff (i32 (noff + 1))).

Definition pop_off : M unit :=
  on ← intr_get;
  if (on : bool) then panic "pop_off - interruptible"
  else
    noff ← gets (λ s, c_noff (k_hart s));
    if noff <? 1 then panic "pop_off"
    else
      on_hart (set_c_noff (noff - 1));;
      intena ← gets (λ s, c_intena (k_hart s));
      when ((noff - 1 =? 0) && negb (intena =? 0)) intr_on.

(** The lock variable; C statics start zeroed. *)
Definition lock_of (l : lockid) (s : kernel) : spinlock :=
  default (Spinlock "" 0 None) (k_locks s !! l).

Definition put_lock (l : lockid) (lk : spinlock) (s : kernel) : kernel :=
  set_k_locks (<[l := lk]> (k_locks s)) s.

Definition initlock (l : lockid) (name : string) : M unit :=
  modify (put_lock l (Spinlock name 0 None)).

Definition is_holding (tp : Z) (lk : spinlock) : bool :=
  negb (lk_locked lk =? 0) && bool_decide (lk_cpu lk = Some tp).

Definition holding (l : lockid) : M bool :=
  gets (λ s, is_holding (h_tp (k_hart s)) (lock_of l s)).

(** [while(__sync_lock_test_and_set(&lk->locked, 1) != 0)]. *)
Definition swap_locked (l : lockid) (s : kernel) : kernel :=
  put_lock l (Spinlock (lk_name (lock_of l s)) 1 (lk_cpu (lock_of l s))) s.

Definition spin (l : lockid) : M unit := λ s,
  if lk_locked (lock_of l s) =? 0 then Ret tt (swap_locked l s)
  else Block s (λ s', if lk_locked (lock_of l s') =? 0 then Ret tt (swap_locked l s')
                      else OutOfFuel).

Definition acquire (l : lockid) : M unit :=
  push_off;;
  h ← holding l;
  if (h : bool) then panic "acquire"
  else
    spin l;;
    tp ← cpuid;
    modify (λ s, put_lock l (Spinlock (lk_name (lock_of l s)) (lk_locked (lock_of l s))
                               (Some tp)) s).

Definition release (l : lockid) : M unit :=
  h ← holding l;
  if negb h then panic "release"
  else
    modify (λ s, put_lock l (Spinlock (lk_name (lock_of l s)) (lk_locked (lock_of l s))
                               None) s);;
    modify (λ s, put_lock l (Spinlock (lk_name (lock_of l s)) 0 (lk_cpu (lock_of l s))) s);;
    pop_off.

(** [n] calls in a row. *)
Fixpoint times (n : nat) (m : M unit) : M unit :=
  match n with
  | O => mret tt
  | S n' => m;; times n' m
  end.

(** *** The same steps as functions on the hart *)

Definition intr_enabled (h : hart) : bool := negb (Z.land (h_sstatus h) SSTATUS_SIE =? 0).

Definition hart_push (h : hart) : hart :=
  let h1 := set_h_sstatus (Z.land (h_sstatus h) (Z.lnot SSTATUS_SIE)) h in
  let h2 := if c_noff h =? 0 then set_c_intena (Z.b2z (intr_enabled h)) h1 else h1 in
  set_c_noff (i32 (c_noff h + 1)) h2.

Definition hart_pop (h : hart) : hart :=
  let h1 := set_c_noff (c_noff h - 1) h in
  if (c_noff h - 1 =? 0) && negb (c_intena h =? 0)
  then set_h_sstatus (Z.lor (h_sstatus h1) SSTATUS_SIE) h1 else h1.

(** What a critical section leaves of the hart: at nesting depth zero the
    saved interrupt state is refreshed, nothing else. *)
Definition hart_tick (h : hart) : hart :=
  if c_noff h =? 0 then set_c_intena (Z.b2z (intr_enabled h)) h else h.

#[global] Arguments hart_push : simpl never.
#[global] Arguments hart_pop : simpl never.
#[global] Arguments hart_tick : simpl never.

(** The hart invariant: interrupts are off inside [push_off]. *)
Definition hart_ok (h : hart) : Prop :=
  0 ≤ c_noff h < 1000000 ∧ (0 < c_noff h → intr_enabled h = false).

(** The state inside a critical section entered from [s]. *)
Definition acquired (l : lockid) (s : kernel) : kernel :=
  put_lock l (Spinlock (lk_name (lock_of l s)) 1 (Some (h_tp (k_hart s))))
    (set_k_hart (hart_push (k_hart s)) s).

(** Lock [l] has been initialised and nobody holds it. *)
Definition lock_free (l : lockid) (s : kernel) : Prop :=
  ∃ name, k_locks s !! l = Some (Spinlock name 0 None).

(** [s] after a critical section that changed nothing else. *)
Definition tick (s : kernel) : kernel := set_k_hart (hart_tick (k_hart s)) s.

(** *** One lock under interleaved harts *)

Module Smp.

(** Where a hart is in [acquire]/[release] of the lock. *)
Inductive pc : Type :=
| Outside        (* not in acquire, critical section or release *)
| Spinning       (* holding() was false; at the atomic swap *)
| Swapped        (* the swap read 0; lk->cpu not yet set *)
| Critical       (* acquire has returned *)
| Releasing      (* release: holding() was true; about to clear lk->cpu *)
| Unlocking      (* lk->cpu cleared; about to clear lk->locked *)
| Panicked (msg : string).

#[global] Instance pc_eq_dec : EqDecision pc.
Proof. solve_decision. Defined.

Record smp : Type := MkSmp {
  sm_lock : spinlock;
  sm_pc : Z → pc;
}.

Definition set_pc (i : Z) (p : pc) (f : Z → pc) : Z → pc :=
  λ j, if decide (i = j) then p else f j.

Definition with_locked (x : Z) (lk : spinlock) : spinlock :=
  Spinlock (lk_name lk) x (lk_cpu lk).

Definition with_cpu (c : option Z) (lk : spinlock) : spinlock :=
  Spinlock (lk_name lk) (lk_locked lk) c.

(** The next memory access of hart [i]; a hart in its critical section may
    call [release] or, mistakenly, [acquire] again. *)
Inductive step (i : Z) : smp → smp → Prop :=
| step_acquire lk f :
    f i = Outside ∨ f i = Critical → is_holding i lk = false →
    step i (MkSmp lk f) (MkSmp lk (set_pc i Spinning f))
| step_acquire_panic lk f :
    f i = Outside ∨ f i = Critical → is_holding i lk = true →
    step i (MkSmp lk f) (MkSmp lk (set_pc i (Panicked "acquire") f))
| step_swap_busy lk f :
    f i = Spinning → lk_locked lk ≠ 0 →
    step i (MkSmp lk f) (MkSmp (with_locked 1 lk) f)
| step_swap lk f :
    f i = Spinning → lk_locked lk = 0 →
    step i (MkSmp lk f) (MkSmp (with_locked 1 lk) (set_pc i Swapped f))
| step_set_cpu lk f :
    f i = Swapped →
    step i (MkSmp lk f) (MkSmp (with_cpu (Some i) lk) (set_pc i Critical f))
| step_release lk f :
    f i = Outside ∨ f i = Critical → is_holding i lk = true →
    step i (MkSmp lk f) (MkSmp lk (set_pc i Releasing f))
| step_release_panic lk f :
    f i = Outside ∨ f i = Critical → is_holding i lk = false →
    step i (MkSmp lk f) (MkSmp lk (set_pc i (Panicked "release") f))
| step_clear_cpu lk f :
    f i = Releasing →
    step i (MkSmp lk f) (MkSmp (with_cpu None lk) (set_pc i Unlocking f))
| step_unlock lk f :
    f i = Unlocking →
    step i (MkSmp lk f) (MkSmp (with_locked 0 lk) (set_pc i Outside f)).

Inductive reachable (name : string) : smp → Prop :=
| reach_init : reachable name (MkSmp (Spinlock name 0 None) (λ _, Outside))
| reach_step i x y : reachable name x → step i x y → reachable name y.

(** The program counters at which a hart owns the lock. *)
Definition owns (p : pc) : Prop :=
  p = Swapped ∨ p = Critical ∨ p = Releasing ∨ p = Unlocking ∨ p = Panicked "acquire".

(** The lock word and [lk->cpu] agree with the owner's program counter. *)
Definition inv (x : smp) : Prop :=
  (lk_locked (sm_lock x) = 0 ∧ lk_cpu (sm_lock x) = None ∧ ∀ i, ¬ owns (sm_pc x i)) ∨
  (lk_locked (sm_lock x) = 1 ∧ ∃ i, owns (sm_pc x i) ∧ (∀ j, owns (sm_pc x j) → j = i) ∧
    lk_cpu (sm_lock x) =
      if decide (sm_pc x i = Swapped ∨ sm_pc x i = Unlocking) then None else Some i).

End Smp.

(** ** Interrupt nesting *)

Lemma land_lnot_SIE_off x : Z.land (Z.land x (Z.lnot SSTATUS_SIE)) SSTATUS_SIE = 0.
Proof. by rewrite <- Z.land_assoc, (Z.land_comm (Z.lnot _)), Z.land_lnot_diag, Z.land_0_r. Qed.

Lemma sie_bit x : Z.land x SSTATUS_SIE = if Z.testbit x 1 then 2 else 0.
Proof.
  apply Z.bits_inj'. intros n Hn. rewrite Z.land_spec.
  change SSTATUS_SIE with (2 ^ 1). rewrite Z.pow2_bits_eqb by lia.
  destruct (1 =? n) eqn:E; reflect_tests.
  - subst. rewrite andb_true_r. by destruct (Z.testbit x 1).
  - rewrite andb_false_r. destruct (Z.testbit x 1); [|by rewrite Z.bits_0].
    change 2 with (2 ^ 1). by rewrite Z.pow2_bits_false by lia.
Qed.

Lemma intr_enabled_testbit h : intr_enabled h = Z.testbit (h_sstatus h) 1.
Proof. unfold intr_enabled. rewrite sie_bit. by destruct (Z.testbit _ _). Qed.

Lemma sie_restore x :
  Z.testbit x 1 = true → Z.lor (Z.land x (Z.lnot SSTATUS_SIE)) SSTATUS_SIE = x.
Proof.
  intros H. apply Z.bits_inj'. intros n Hn.
  rewrite Z.lor_spec, Z.land_spec, Z.lnot_spec by done.
  change SSTATUS_SIE with (2 ^ 1). rewrite Z.pow2_bits_eqb by lia.
  destruct (1 =? n) eqn:E; reflect_tests; simpl.
  - subst. by rewrite H, orb_true_r.
  - by rewrite andb_true_r, orb_false_r.
Qed.

Lemma sie_clear_id x : Z.testbit x 1 = false → Z.land x (Z.lnot SSTATUS_SIE) = x.
Proof.
  intros H. apply Z.bits_inj'. intros n Hn. rewrite Z.land_spec, Z.lnot_spec by done.
  change SSTATUS_SIE with (2 ^ 1). rewrite Z.pow2_bits_eqb by lia.
  destruct (1 =? n) eqn:E; reflect_tests; simpl.
  - subst. by rewrite H.
  - by rewrite andb_true_r.
Qed.

Lemma push_off_eq s : push_off s = Ret tt (set_k_hart (hart_push (k_hart s)) s).
Proof.
  unfold push_off, hart_push, intr_enabled, intr_get, intr_off, r_sstatus, w_sstatus, on_hart.
  mrun. by destruct (c_noff (k_hart s) =? 0).
Qed.

Lemma pop_off_eq s :
  intr_enabled (k_hart s) = false → 1 ≤ c_noff (k_hart s) →
  pop_off s = Ret tt (set_k_hart (hart_pop (k_hart s)) s).
Proof.
  intros Hi Hn. unfold intr_enabled in Hi.
  unfold pop_off, hart_pop, intr_get, intr_on, r_sstatus, w_sstatus, on_hart.
  mrun. rewrite Hi, (proj2 (Z.ltb_ge _ _) Hn). cbn.
  by destruct (_ && _).
Qed.

Lemma hart_push_off h : intr_enabled (hart_push h) = false.
Proof.
  unfold intr_enabled, hart_push.
  destruct (c_noff h =? 0); cbn; by rewrite land_lnot_SIE_off.
Qed.

Lemma hart_push_noff h : hart_ok h → c_noff (hart_push h) = c_noff h + 1.
Proof.
  intros [Hn _]. unfold hart_push. cbn. apply i32_small. lia.
Qed.

Lemma hart_push_tp h : h_tp (hart_push h) = h_tp h.
Proof. unfold hart_push. by destruct (c_noff h =? 0). Qed.

Lemma hart_pop_push h : hart_ok h → hart_pop (hart_push h) = hart_tick h.
Proof.
  intros Hok. pose proof (hart_push_noff h Hok) as Hnoff. destruct Hok as [Hn Hoff].
  rewrite intr_enabled_testbit in Hoff.
  unfold hart_pop. rewrite Hnoff. unfold hart_push, hart_tick.
  replace (c_noff h + 1 - 1) with (c_noff h) by lia.
  destruct (c_noff h =? 0) eqn:E; reflect_tests; rewrite ?intr_enabled_testbit;
    destruct h as [tp x sepc sc sv stv satp sip pr ctx noff ie]; cbn in *.
  - subst. destruct (Z.testbit x 1) eqn:Hx; cbn.
    + by rewrite sie_restore.
    + by rewrite sie_clear_id.
  - by rewrite sie_clear_id by (apply Hoff; lia).
Qed.

Lemma hart_tick_ok h : hart_ok h → hart_ok (hart_tick h).
Proof. intros H. unfold hart_tick. by destruct (c_noff h =? 0). Qed.

Lemma hart_tick_tp h : h_tp (hart_tick h) = h_tp h.
Proof. unfold hart_tick. by destruct (c_noff h =? 0). Qed.

Lemma hart_tick_proc h : c_proc (hart_tick h) = c_proc h.
Proof. unfold hart_tick. by destruct (c_noff h =? 0). Qed.

Lemma hart_tick_idemp h : hart_tick (hart_tick h) = hart_tick h.
Proof.
  unfold hart_tick. destruct (c_noff h =? 0) eqn:E; cbn; rewrite E; done.
Qed.

Lemma hart_push_ok h : hart_ok h → c_noff h < 999999 → hart_ok (hart_push h).
Proof.
  intros H Hn. split; [rewrite hart_push_noff by done; destruct H; lia|].
  intros _. apply hart_push_off.
Qed.

(** ** Passing a critical section *)

Lemma lock_free_unlocked l s : lock_free l s → lk_locked (lock_of l s) = 0.
Proof. intros [name H]. unfold lock_of. by rewrite H. Qed.

Lemma lock_of_put l lk s : lock_of l (put_lock l lk s) = lk.
Proof. unfold lock_of, put_lock. cbn. by rewrite lookup_insert_eq. Qed.

Lemma put_lock_twice l lk lk' s : put_lock l lk' (put_lock l lk s) = put_lock l lk' s.
Proof. unfold put_lock. cbn. by rewrite insert_insert_eq. Qed.

Lemma acquire_eq l s : lock_free l s → acquire l s = Ret tt (acquired l s).
Proof.
  intros Hfree. pose proof (lock_free_unlocked _ _ Hfree) as Hl.
  unfold acquire. rewrite (bind_Ret _ _ _ _ _ (push_off_eq s)).
  set (s1 := set_k_hart (hart_push (k_hart s)) s).
  assert (lock_of l s1 = lock_of l s) as Hl1 by done.
  unfold holding, spin, cpuid. mrun. rewrite Hl1. unfold is_holding. rewrite Hl. cbn.
  rewrite Hl1, Hl. cbn. f_equal. unfold swap_locked, acquired. rewrite put_lock_twice, lock_of_put.
  cbn. by rewrite hart_push_tp.
Qed.

(** Releasing a lock that was acquired from [s], in a state where only other
    parts of the kernel have changed since. *)
Lemma release_eq l s s' :
  lock_free l s → hart_ok (k_hart s) →
  k_locks s' = k_locks (acquired l s) → k_hart s' = k_hart (acquired l s) →
  release l s' = Ret tt (set_k_locks (k_locks s) (set_k_hart (hart_tick (k_hart s)) s')).
Proof.
  intros [name Hfree] Hok Hlocks Hhart.
  assert (lock_of l s' = Spinlock name 1 (Some (h_tp (k_hart s)))) as Hl.
  { unfold lock_of. rewrite Hlocks. unfold acquired. cbn.
    rewrite lookup_insert_eq. cbn. unfold lock_of. by rewrite Hfree. }
  assert (k_hart s' = hart_push (k_hart s)) as Hh by done.
  unfold release, holding. mstep. rewrite Hl, Hh. unfold is_holding. cbn.
  rewrite hart_push_tp, bool_decide_eq_true_2 by done. cbn.
  rewrite !bind_modify. rewrite put_lock_twice, lock_of_put. cbn.
  rewrite pop_off_eq; cbn; rewrite ?Hh.
  - rewrite hart_pop_push by done. f_equal. unfold put_lock. cbn.
    unfold set_k_locks, set_k_hart. cbn. f_equal.
    rewrite Hlocks. unfold acquired. cbn. rewrite insert_insert_eq, Hl.
    by apply insert_id.
  - apply hart_push_off.
  - rewrite hart_push_noff by done. destruct Hok. lia.
Qed.

Lemma bind_acquire {B : Type} l s (f : unit → M B) :
  lock_free l s → (acquire l ≫= f) s = f tt (acquired l s).
Proof. intros H. exact (bind_Ret _ _ _ _ _ (acquire_eq l s H)). Qed.

Lemma bind_release {B : Type} l s s' (f : unit → M B) :
  lock_free l s → hart_ok (k_hart s) →
  k_locks s' = k_locks (acquired l s) → k_hart s' = k_hart (acquired l s) →
  (release l ≫= f) s' = f tt (set_k_locks (k_locks s) (set_k_hart (hart_tick (k_hart s)) s')).
Proof. intros H1 H2 H3 H4. exact (bind_Ret _ _ _ _ _ (release_eq l s s' H1 H2 H3 H4)). Qed.

(** Side conditions of [bind_release]: nothing but other fields changed. *)
Ltac lock_side := first [assumption | unfold acquired, put_lock, tick; kernel_eq].

(** ** Behaviour of the nesting counter *)

Lemma set_k_hart_twice h h' s : set_k_hart h (set_k_hart h' s) = set_k_hart h s.
Proof. done. Qed.

Lemma times_push_off n s :
  times n push_off s = Ret tt (set_k_hart (Nat.iter n hart_push (k_hart s)) s).
Proof.
  revert s. induction n as [|n IH]; intros s; cbn [times].
  - by destruct s.
  - rewrite (bind_Ret _ _ _ _ _ (push_off_eq s)), IH. cbn [k_hart set_k_hart].
    by rewrite set_k_hart_twice, Nat.iter_swap.
Qed.

Lemma iter_push n h :
  hart_ok h → c_noff h + Z.of_nat n < 1000000 →
  hart_ok (Nat.iter n hart_push h) ∧ c_noff (Nat.iter n hart_push h) = c_noff h + Z.of_nat n.
Proof.
  intros Hok. induction n as [|n IH]; intros Hn; [simpl; split; [done|lia]|].
  rewrite Nat.iter_succ. destruct IH as [IH1 IH2]; [lia|].
  rewrite hart_push_noff by done. split; [apply hart_push_ok; [done|lia]|lia].
Qed.

Lemma pop_push_off h s :
  hart_ok h → pop_off (set_k_hart (hart_push h) s) = Ret tt (set_k_hart (hart_tick h) s).
Proof.
  intros Hok. rewrite pop_off_eq; cbn [k_hart set_k_hart].
  - by rewrite hart_pop_push.
  - apply hart_push_off.
  - rewrite hart_push_noff by done. destruct Hok. lia.
Qed.

Lemma times_pop_off n h s :
  hart_ok h → c_noff h + Z.of_nat n < 1000000 →
  times n pop_off (set_k_hart (Nat.iter n hart_push h) s) =
  Ret tt (set_k_hart (if decide (n = 0%nat) then h else hart_tick h) s).
Proof.
  intros Hok. induction n as [|n IH]; intros Hn; [done|].
  destruct (iter_push n h) as [Hok' Hn']; [done|lia|].
  cbn [times]. rewrite Nat.iter_succ.
  rewrite (bind_Ret _ _ _ _ _ (pop_push_off _ s Hok')). destruct n as [|n]; [done|].
  assert (hart_tick (Nat.iter (S n) hart_push h) = Nat.iter (S n) hart_push h) as ->.
  { unfold hart_tick. rewrite Hn'. destruct Hok.
    by rewrite (proj2 (Z.eqb_neq _ _)) by lia. }
  rewrite IH by lia. by rewrite !decide_False by lia.
Qed.

(** [push_off] and [pop_off] are matched: [n > 0] calls of the first keep
    interrupts off, and [n] calls of the second then restore the interrupt
    enable bit and the nesting depth found at the start, on or off alike. *)
Theorem push_pop_matched n s :
  (0 < n)%nat → hart_ok (k_hart s) → c_noff (k_hart s) + Z.of_nat n < 1000000 →
  ∃ s1, times n push_off s = Ret tt s1 ∧ intr_enabled (k_hart s1) = false ∧
    times n pop_off s1 = Ret tt (tick s) ∧
    h_sstatus (k_hart (tick s)) = h_sstatus (k_hart s) ∧
    c_noff (k_hart (tick s)) = c_noff (k_hart s).
Proof.
  intros Hpos Hok Hn. eexists. split; [apply times_push_off|]. split_and!.
  - destruct n as [|n]; [lia|]. apply hart_push_off.
  - rewrite times_pop_off by done. by rewrite decide_False by lia.
  - unfold tick, hart_tick. cbn. by destruct (c_noff (k_hart s) =? 0).
  - unfold tick, hart_tick. cbn. by destruct (c_noff (k_hart s) =? 0).
Qed.

Lemma push_pop_matched_witness :
  ∃ s1, times 2 push_off zero_kernel = Ret tt s1 ∧ times 2 pop_off s1 = Ret tt (tick zero_kernel).
Proof.
  destruct (push_pop_matched 2 zero_kernel) as (s1 & H1 & _ & H2 & _);
    [lia|split; [cbn; lia|done]|cbn; lia|].
  exists s1. by split.
Defined.

(** ** Mutual exclusion *)

Module SmpFacts.
Import Smp.

Lemma set_pc_same i p f : set_pc i p f i = p.
Proof. unfold set_pc. by case_decide. Qed.

Lemma set_pc_other i j p f : i ≠ j → set_pc i p f j = f j.
Proof. intros. unfold set_pc. by case_decide. Qed.

Lemma is_holding_iff i lk : is_holding i lk = true ↔ lk_locked lk ≠ 0 ∧ lk_cpu lk = Some i.
Proof.
  unfold is_holding. rewrite andb_true_iff, negb_true_iff, Z.eqb_neq, bool_decide_eq_true.
  done.
Qed.

(** A hart that does not own the lock moves to another program counter at
    which it does not own it: the invariant only looks at owners. *)
Lemma inv_nonowner lk lk' i p f :
  lk_locked lk' = lk_locked lk → lk_cpu lk' = lk_cpu lk →
  ¬ owns (f i) → ¬ owns p → inv (MkSmp lk f) → inv (MkSmp lk' (set_pc i p f)).
Proof.
  intros Hl Hc Hf Hp Hinv. unfold inv in *. cbn in *. rewrite Hl, Hc.
  destruct Hinv as [(?&?&Hno)|(?&k&Hk&Huniq&Hcpu)]; [left|right].
  - split_and!; [done..|]. intros j. destruct (decide (i = j)) as [->|].
    + by rewrite set_pc_same.
    + rewrite set_pc_other by done. apply Hno.
  - assert (i ≠ k) by (by intros ->). split; [done|]. exists k.
    rewrite set_pc_other by done. split_and!; [done| |done].
    intros j. destruct (decide (i = j)) as [->|]; [by rewrite set_pc_same|].
    rewrite set_pc_other by done. apply Huniq.
Qed.

(** The owner moves to another program counter at which it owns the lock. *)
Lemma inv_owner lk lk' i p f :
  lk_locked lk' = lk_locked lk →
  lk_cpu lk' = (if decide (p = Swapped ∨ p = Unlocking) then None else Some i) →
  owns (f i) → owns p → inv (MkSmp lk f) → inv (MkSmp lk' (set_pc i p f)).
Proof.
  intros Hl Hc Hf Hp Hinv. unfold inv in *. cbn in *. rewrite Hl.
  destruct Hinv as [(?&?&Hno)|(?&k&Hk&Huniq&Hcpu)]; [by destruct (Hno i)|right].
  assert (i = k) as <- by by apply Huniq. split; [done|]. exists i.
  rewrite set_pc_same. split_and!; [done| |done].
  intros j. destruct (decide (i = j)) as [->|]; [done|].
  rewrite set_pc_other by done. apply Huniq.
Qed.

Lemma holder_pc lk f i :
  inv (MkSmp lk f) → is_holding i lk = true →
  f i = Critical ∨ f i = Releasing ∨ f i = Panicked "acquire".
Proof.
  intros Hinv [Hl Hc]%is_holding_iff. unfold inv in Hinv. cbn in Hinv.
  destruct Hinv as [(?&?&?)|(?&k&Hk&_&Hcpu)]; [done|]. rewrite Hc in Hcpu.
  case_decide as Hd; simplify_eq. unfold owns in Hk. intuition congruence.
Qed.

Lemma pc_holder lk f i :
  inv (MkSmp lk f) → f i = Critical ∨ f i = Releasing ∨ f i = Panicked "acquire" →
  is_holding i lk = true.
Proof.
  intros Hinv Hpc. apply is_holding_iff. unfold inv in Hinv. cbn in Hinv.
  assert (owns (f i)) by (unfold owns; intuition congruence).
  destruct Hinv as [(?&?&Hno)|(->&k&Hk&Huniq&Hcpu)]; [by destruct (Hno i)|].
  assert (i = k) as <- by by apply Huniq. split; [done|].
  rewrite Hcpu. rewrite decide_False by intuition congruence. done.
Qed.

Lemma step_inv i x y : inv x → step i x y → inv y.
Proof.
  intros Hinv Hstep. destruct Hstep as
    [lk f Hpc Hh|lk f Hpc Hh|lk f Hpc Hl|lk f Hpc Hl|lk f Hpc|lk f Hpc Hh|lk f Hpc Hh
    |lk f Hpc|lk f Hpc].
  - destruct Hpc as [Hpc|Hpc].
    + eapply inv_nonowner; [done..| | |done]; rewrite ?Hpc; unfold owns; intuition congruence.
    + rewrite (pc_holder lk f i) in Hh; auto. done.
  - destruct (holder_pc lk f i Hinv Hh) as [Hc|[Hc|Hc]]; destruct Hpc; try congruence.
    eapply inv_owner; [done| | | |done]; [|rewrite ?Hc; unfold owns; intuition congruence..].
    rewrite decide_False by intuition congruence. by apply is_holding_iff in Hh as [_ ->].
  - unfold inv in *. cbn in *. destruct Hinv as [(?&?&?)|[_ Hk]]; [done|by right].
  - unfold inv in Hinv |- *. cbn in *. destruct Hinv as [(?&Hc&Hno)|[? _]]; [|lia].
    right. split; [done|]. exists i. rewrite set_pc_same. split_and!.
    + by left.
    + intros j Hj. destruct (decide (i = j)) as [|]; [done|].
      rewrite set_pc_other in Hj by done. by destruct (Hno j).
    + rewrite decide_True by auto. done.
  - eapply inv_owner; [| | | |exact Hinv]; [done|..|unfold owns; intuition congruence].
    + by rewrite decide_False by intuition congruence.
    + rewrite Hpc. by left.
  - destruct (holder_pc lk f i Hinv Hh) as [Hc|[Hc|Hc]]; destruct Hpc; try congruence.
    eapply inv_owner; [done| | | |done]; [|rewrite ?Hc; unfold owns; intuition congruence..].
    rewrite decide_False by intuition congruence. by apply is_holding_iff in Hh as [_ ->].
  - destruct Hpc as [Hpc|Hpc].
    + eapply inv_nonowner; [done..| | |done]; rewrite ?Hpc; unfold owns; intuition congruence.
    + rewrite (pc_holder lk f i) in Hh; auto. done.
  - eapply inv_owner; [| | | |exact Hinv]; [done|..|unfold owns; intuition congruence].
    + by rewrite decide_True by auto.
    + rewrite Hpc. unfold owns. intuition congruence.
  - unfold inv in Hinv |- *. cbn in *.
    assert (owns (f i)) by (rewrite Hpc; unfold owns; intuition congruence).
    destruct Hinv as [(?&?&Hno)|(_&k&Hk&Huniq&Hcpu)]; [by destruct (Hno i)|].
    assert (i = k) as <- by by apply Huniq. left. split_and!; [done|..].
    + rewrite Hcpu. by rewrite decide_True by auto.
    + intros j. destruct (decide (i = j)) as [<-|].
      * rewrite set_pc_same. unfold owns. intuition congruence.
      * rewrite set_pc_other by done. intros Hj. by apply Huniq in Hj.
Qed.

Lemma reachable_inv name x : reachable name x → inv x.
Proof.
  induction 1 as [|i x y _ IH Hs]; [|by eapply step_inv].
  left. cbn. split_and!; [done..|]. unfold owns. intuition congruence.
Qed.

(** C5: mutual exclusion. However the memory accesses of [acquire] and
    [release] by any number of harts interleave, at most one hart is between
    its successful swap and its unlock, in particular at most one is in the
    critical section; and [holding] is true for exactly the hart that is in it
    (or has begun to release, or panicked by acquiring again), so that no hart
    panics because of what another one does. *)
Theorem spinlock_mutual_exclusion name x i j :
  reachable name x →
  (owns (sm_pc x i) → owns (sm_pc x j) → i = j) ∧
  (is_holding i (sm_lock x) = true ↔
   sm_pc x i = Critical ∨ sm_pc x i = Releasing ∨ sm_pc x i = Panicked "acquire").
Proof.
  intros Hinv%reachable_inv. destruct x as [lk f]. split; [|split].
  - intros Hi Hj. destruct Hinv as [(_&_&Hno)|(_&k&_&Huniq&_)]; [by destruct (Hno i)|].
    by rewrite (Huniq i Hi), (Huniq j Hj).
  - by apply holder_pc.
  - by apply pc_holder.
Qed.

Lemma spinlock_mutual_exclusion_witness :
  ∃ x, reachable "kmem" x ∧ sm_pc x 1 = Critical ∧ is_holding 1 (sm_lock x) = true.
Proof.
  set (f1 := set_pc 1 Spinning (λ _, Outside)).
  set (f2 := set_pc 1 Swapped f1).
  set (x := MkSmp (Spinlock "kmem" 1 (Some 1)) (set_pc 1 Critical f2)).
  assert (reachable "kmem" x) as Hx.
  { eapply (reach_step _ 1 (MkSmp (Spinlock "kmem" 1 None) f2)).
    - eapply (reach_step _ 1 (MkSmp (Spinlock "kmem" 0 None) f1)).
      + eapply (reach_step _ 1); [apply reach_init|]. apply step_acquire; [by left|done].
      + apply (step_swap 1 (Spinlock "kmem" 0 None) f1); done.
    - apply (step_set_cpu 1 (Spinlock "kmem" 1 None) f2). done. }
  exists x. split; [exact Hx|]. split; [done|].
  apply (spinlock_mutual_exclusion "kmem" x 1 1 Hx). by left.
Defined.

End SmpFacts.
