(* ===== verification/Kalloc.v ===== *)
(** * kernel/kalloc.c: the physical page allocator

    The free list is threaded through the free pages themselves: the first
    eight bytes of a free page point to the next one. [kmem_inv] describes
    that list; [kalloc], [kfree] and [kinit] preserve or establish it. The
    addresses the linker provides ([end], [etext], [trampoline], set by
    kernel.ld) are the class [Image]. *)

From S2P Require Import Prelude State Mem Kstring Spinlock.

(** ** Model *)

(** Addresses that kernel.ld and the linker define; [image_local] is where the
    compiler keeps, on the kernel stack, a local buffer whose address is passed
    on. *)
Class Image := {
  image_end : Z;
  image_etext : Z;
  image_trampoline : Z;
  image_uservec : Z;
  image_userret : Z;
  image_kernelvec : Z;
  image_usertrap : Z;
  image_forkret : Z;
  image_local : Z;
}.

(** What kernel.ld guarantees: text, then data, from KERNBASE, below PHYSTOP,
    with page-aligned ends for the text and the trampoline. *)
Class ImageOk (I : Image) : Prop := {
  image_end_range : KERNBASE < image_end < PHYSTOP;
  image_etext_range : KERNBASE < image_etext < image_end;
  image_etext_aligned : image_etext mod PGSIZE = 0;
  image_trampoline_range : KERNBASE < image_trampoline < image_etext;
  image_trampoline_aligned : image_trampoline mod PGSIZE = 0;
}.

Section model.
Context `{Image}.

Definition kfree (pa : Z) : M unit :=
  if negb (pa mod PGSIZE =? 0) || (pa <? image_end) || (PHYSTOP <=? pa) then panic "kfree"
  else
    on_mem (λ m, memset m pa 1 PGSIZE);;
    acquire L_kmem;;
    head ← gets k_freelist;
    store64 pa head;;
    modify (set_k_freelist pa);;
    release L_kmem.

Definition kalloc : M Z :=
  acquire L_kmem;;
  r ← gets k_freelist;
  when (negb (r =? 0)) (next ← load64 r; modify (set_k_freelist next));;
  release L_kmem;;
  when (negb (r =? 0)) (on_mem (λ m, memset m r 5 PGSIZE));;
  mret r.

Fixpoint freerange_loop (n : nat) (p pa_end : Z) : M unit :=
  match n with
  | O => out_of_fuel
  | S n' =>
      if p + PGSIZE <=? pa_end then kfree p;; freerange_loop n' (p + PGSIZE) pa_end
      else mret tt
  end.

(** The bound is the number of pages in the range plus one. *)
Definition freerange (pa_start pa_end : Z) : M unit :=
  let p := PGROUNDUP pa_start in
  freerange_loop (S (Z.to_nat ((pa_end - p) / PGSIZE))) p pa_end.

Definition kinit : M unit := initlock L_kmem "kmem";; freerange image_end PHYSTOP.

(** *** Invariant *)

(** A page the allocator may hand out. *)
Definition page_ok (p : Z) : Prop := p mod PGSIZE = 0 ∧ image_end ≤ p < PHYSTOP.

(** [l] is the list that starts at [head]. *)
Fixpoint free_list (m : gmap Z Z) (head : Z) (l : list Z) : Prop :=
  match l with
  | [] => head = 0
  | p :: l' => head = p ∧ free_list m (ld64 m p) l'
  end.

(** The allocator is idle and [l] are its free pages, in list order. *)
Record kmem_inv (s : kernel) (l : list Z) : Prop := {
  kmem_list : free_list (k_mem s) (k_freelist s) l;
  kmem_nodup : NoDup l;
  kmem_pages : Forall page_ok l;
  kmem_lock : lock_free L_kmem s;
  kmem_hart : hart_ok (k_hart s);
}.

(** The states [kalloc] and [kfree] end in. *)
Definition after_kalloc (p : Z) (s : kernel) : kernel :=
  set_k_mem (memset (k_mem s) p 5 PGSIZE) (set_k_freelist (ld64 (k_mem s) p) (tick s)).

Definition after_kfree (p : Z) (s : kernel) : kernel :=
  set_k_mem (st64 (memset (k_mem s) p 1 PGSIZE) p (k_freelist s))
    (set_k_freelist p (tick s)).

(** The pages of a range, lowest first. *)
Fixpoint pages_from (n : nat) (p : Z) : list Z :=
  match n with
  | O => []
  | S n' => p :: pages_from n' (p + PGSIZE)
  end.

End model.

(** Changes to memory, to the free list and to the saved interrupt state only. *)
Definition mem_frame (s s' : kernel) : Prop :=
  ∃ h m f, s' = set_k_hart h (set_k_mem m (set_k_freelist f s)) ∧
    (h = k_hart s ∨ h = hart_tick (k_hart s)).

(** Memory agrees outside the pages in [P]. *)
Definition mem_same_outside (P : Z → Prop) (m m' : gmap Z Z) : Prop :=
  ∀ a, (∀ p, P p → a < p ∨ p + PGSIZE ≤ a) → ld8 m' a = ld8 m a.

(** ** Page arithmetic *)

Lemma PGROUNDDOWN_eq a : PGROUNDDOWN a = a / 4096 * 4096.
Proof. apply (land_lnot_ones a 12). lia. Qed.

Lemma PGROUNDUP_eq a :
  0 ≤ a ≤ 18446744073709547520 → PGROUNDUP a = (a + 4095) / 4096 * 4096.
Proof.
  intros Ha. unfold PGROUNDUP. rewrite u64_small by (unfold PGSIZE; lia).
  replace (a + PGSIZE - 1) with (a + 4095) by (unfold PGSIZE; lia).
  apply (land_lnot_ones (a + 4095) 12). lia.
Qed.

(** ** Frames *)

Lemma mem_frame_refl s : mem_frame s s.
Proof. exists (k_hart s), (k_mem s), (k_freelist s). split; [by destruct s|by left]. Qed.

Lemma mem_frame_trans s1 s2 s3 : mem_frame s1 s2 → mem_frame s2 s3 → mem_frame s1 s3.
Proof.
  intros (h1&m1&f1&->&Hh1) (h2&m2&f2&->&Hh2). exists h2, m2, f2. split; [done|].
  cbn in Hh2. destruct Hh1 as [->| ->], Hh2 as [->| ->]; auto.
  right. apply hart_tick_idemp.
Qed.

#[global] Instance mem_frame_preorder : PreOrder mem_frame.
Proof. split; [intros s; apply mem_frame_refl|intros s1 s2 s3; apply mem_frame_trans]. Qed.

Lemma mem_frame_locks s s' : mem_frame s s' → k_locks s' = k_locks s.
Proof. by intros (h&m&f&->&_). Qed.

Lemma mem_frame_hart_ok s s' : mem_frame s s' → hart_ok (k_hart s) → hart_ok (k_hart s').
Proof. intros (h&m&f&->&[->| ->]) Hok; cbn; [done|by apply hart_tick_ok]. Qed.

Lemma mem_frame_set_mem m s : mem_frame s (set_k_mem m s).
Proof. exists (k_hart s), m, (k_freelist s). split; [done|by left]. Qed.

Lemma mem_same_outside_refl P m : mem_same_outside P m m.
Proof. by intros a. Qed.

Lemma mem_same_outside_trans P m1 m2 m3 :
  mem_same_outside P m1 m2 → mem_same_outside P m2 m3 → mem_same_outside P m1 m3.
Proof. intros H1 H2 a Ha. rewrite H2, H1; auto. Qed.

Lemma mem_same_outside_weaken (P Q : Z → Prop) m m' :
  (∀ p, P p → Q p) → mem_same_outside P m m' → mem_same_outside Q m m'.
Proof. intros HPQ H a Ha. apply H. auto. Qed.

(** Words of a page that is not among the changed ones are unchanged. *)
Lemma mem_same_outside_ld64 P m m' p i :
  mem_same_outside P m m' → p mod PGSIZE = 0 → (∀ q, P q → q mod PGSIZE = 0 ∧ q ≠ p) →
  0 ≤ i → i + 8 ≤ PGSIZE → ld64 m' (p + i) = ld64 m (p + i).
Proof.
  unfold PGSIZE. intros H Hp HP Hi1 Hi2. apply (ldn_ext 8). intros j Hj. apply H.
  intros q Hq. destruct (HP q Hq) as [Hqa Hne]. unfold PGSIZE. zdm.
Qed.

Create HintDb frame discriminated.
#[export] Hint Resolve mem_frame_refl mem_frame_set_mem mem_same_outside_refl : frame.

(** ** The free list *)

Section theorems.
Context `{!Image}.

(** A list survives changes of memory that leave its pages alone. *)
Lemma free_list_ext m m' h l :
  (∀ p, p ∈ l → ld64 m' p = ld64 m p) → free_list m h l → free_list m' h l.
Proof.
  revert h. induction l as [|p l IH]; intros h Hm Hl; [done|].
  destruct Hl as [-> Hl]. split; [done|]. rewrite Hm by set_solver.
  apply IH; [set_solver|done].
Qed.

Lemma ld64_memset_other m p c q :
  p mod PGSIZE = 0 → q mod PGSIZE = 0 → p ≠ q → ld64 (memset m p c PGSIZE) q = ld64 m q.
Proof.
  unfold PGSIZE. intros Hp Hq Hne. apply (ldn_ext 8). intros i Hi.
  rewrite ld8_memset by lia. case_decide; [exfalso; zdm|done].
Qed.

Lemma memset_page_outside m p c :
  mem_same_outside (λ q, q = p) m (memset m p c PGSIZE).
Proof.
  intros a Ha. specialize (Ha p eq_refl). rewrite ld8_memset by (unfold PGSIZE; lia).
  case_decide; [lia|done].
Qed.

Lemma page_ok_nonzero `{!ImageOk _} p : page_ok p → p ≠ 0.
Proof.
  intros [_ Hp]. pose proof image_end_range. unfold KERNBASE in *. lia.
Qed.

Lemma free_list_pages m h l q c :
  q ∉ l → page_ok q → Forall page_ok l → free_list m h l →
  free_list (memset m q c PGSIZE) h l.
Proof.
  intros Hq [Hqa _] Hl. apply free_list_ext. intros p Hp.
  rewrite Forall_forall in Hl. destruct (Hl p Hp) as [Hpa _].
  apply ld64_memset_other; [done..|set_solver].
Qed.

(** *** kalloc *)

Lemma kalloc_eq_cons `{!ImageOk _} s p l :
  kmem_inv s (p :: l) → kalloc s = Ret p (after_kalloc p s).
Proof.
  intros [[Hhead Hlist] Hnd Hok Hlk Hh]. apply Forall_cons in Hok as [Hp _].
  pose proof (page_ok_nonzero p Hp) as Hp0.
  unfold kalloc. rewrite bind_acquire, bind_gets by done.
  change (k_freelist (acquired L_kmem s)) with (k_freelist s). rewrite Hhead.
  rewrite bind_when, (proj2 (Z.eqb_neq _ _) Hp0). simpl negb. cbn iota.
  rewrite (bind_Ret _ _ _ tt (set_k_freelist (ld64 (k_mem s) p) (acquired L_kmem s))) by done.
  rewrite (bind_release L_kmem s) by lock_side.
  unfold after_kalloc, tick, acquired, put_lock, on_mem. mrun. kernel_eq.
Qed.

Lemma kalloc_eq_nil s : kmem_inv s [] → kalloc s = Ret 0 (tick s).
Proof.
  intros [Hhead Hnd Hok Hlk Hh]. cbn in Hhead.
  unfold kalloc. rewrite bind_acquire, bind_gets by done.
  change (k_freelist (acquired L_kmem s)) with (k_freelist s). rewrite Hhead.
  rewrite bind_when. change (negb (0 =? 0)) with false. cbn iota.
  rewrite (bind_release L_kmem s) by lock_side.
  unfold after_kalloc, tick, acquired, put_lock, on_mem. mrun. kernel_eq.
Qed.

Lemma after_kalloc_inv s p l : kmem_inv s (p :: l) → kmem_inv (after_kalloc p s) l.
Proof.
  intros [[Hhead Hlist] Hnd Hok Hlk Hh].
  apply Forall_cons in Hok as [Hp Hl]. apply NoDup_cons in Hnd as [Hpl Hnd].
  split; [|done..|by apply hart_tick_ok]. by apply free_list_pages.
Qed.

Lemma tick_inv s l : kmem_inv s l → kmem_inv (tick s) l.
Proof. intros [????]. split; try done. by apply hart_tick_ok. Qed.

Lemma tick_frame s : mem_frame s (tick s).
Proof.
  exists (hart_tick (k_hart s)), (k_mem s), (k_freelist s).
  split; [by destruct s|by right].
Qed.

Lemma after_kalloc_frame p s : mem_frame s (after_kalloc p s).
Proof.
  exists (hart_tick (k_hart s)), (memset (k_mem s) p 5 PGSIZE), (ld64 (k_mem s) p).
  split; [unfold after_kalloc, tick; kernel_eq|by right].
Qed.

(** *** kfree *)

Lemma kfree_eq s p l :
  kmem_inv s l → page_ok p → kfree p s = Ret tt (after_kfree p s).
Proof.
  intros [Hlist Hnd Hok Hlk Hh] [Hpa Hpr]. unfold kfree.
  rewrite (proj2 (Z.eqb_eq _ _) Hpa), (proj2 (Z.ltb_ge _ _)), (proj2 (Z.leb_gt _ _)) by lia.
  simpl. unfold on_mem at 1. rewrite bind_modify.
  set (s1 := set_k_mem _ s).
  rewrite bind_acquire, bind_gets by done. unfold store64, on_mem. rewrite !bind_modify.
  rewrite (release_eq L_kmem s1) by lock_side.
  subst s1. unfold after_kfree, tick, acquired, put_lock. kernel_eq.
Qed.

Lemma after_kfree_inv `{!ImageOk _} s p l :
  kmem_inv s l → page_ok p → p ∉ l → kmem_inv (after_kfree p s) (p :: l).
Proof.
  intros [Hlist Hnd Hok Hlk Hh] Hp Hpl. pose proof Hp as [Hpa Hpr].
  split; [|by constructor|by constructor|done|by apply hart_tick_ok].
  split; [done|]. cbn [after_kfree k_mem set_k_mem k_freelist set_k_freelist tick set_k_hart].
  rewrite ld64_st64_same. rewrite u64_small.
  - apply (free_list_ext (memset (k_mem s) p 1 PGSIZE)); [|by apply free_list_pages].
    intros q Hq. rewrite Forall_forall in Hok. destruct (Hok q Hq) as [Hqa _].
    rewrite ld64_st64_other; [done|]. assert (q ≠ p) by set_solver.
    unfold PGSIZE in *. zdm.
  - destruct l as [|q l]; cbn in Hlist; [lia|]. destruct Hlist as [-> _].
    apply Forall_cons in Hok as [[_ Hq] _]. pose proof image_end_range.
    unfold PHYSTOP, KERNBASE in *. lia.
Qed.

Lemma after_kfree_frame p s : mem_frame s (after_kfree p s).
Proof.
  exists (hart_tick (k_hart s)), (st64 (memset (k_mem s) p 1 PGSIZE) p (k_freelist s)), p.
  split; [unfold after_kfree, tick; kernel_eq|by right].
Qed.

Lemma after_kfree_outside p s :
  mem_same_outside (λ q, q = p) (k_mem s) (k_mem (after_kfree p s)).
Proof.
  intros a Ha. cbn. pose proof (Ha p eq_refl) as Hap. unfold PGSIZE in Hap.
  rewrite ld8_st64_other by lia. by apply memset_page_outside.
Qed.

Lemma after_kalloc_outside p s :
  mem_same_outside (λ q, q = p) (k_mem s) (k_mem (after_kalloc p s)).
Proof. apply memset_page_outside. Qed.

(** A change of memory outside the free pages keeps the allocator invariant. *)
Lemma kmem_inv_mem s m l :
  kmem_inv s l → (∀ p, p ∈ l → ld64 m p = ld64 (k_mem s) p) → kmem_inv (set_k_mem m s) l.
Proof.
  intros [Hlist ????] Hm. split; try done. cbn. by eapply free_list_ext.
Qed.

End theorems.

(** ** The allocator's contract *)

(** An allocator of pages as its clients see it: the set of free pages. *)
Inductive alloc_step (F : gset Z) : Z → gset Z → Prop :=
| alloc_none : F = ∅ → alloc_step F 0 F
| alloc_page p : p ∈ F → alloc_step F p (F ∖ {[p]}).

Definition kmem_abs `{Image} (s : kernel) (F : gset Z) : Prop :=
  ∃ l, kmem_inv s l ∧ F = list_to_set l.

Section contract.
Context `{!Image} `{!ImageOk _}.

(** C30: [kalloc] refines "take any page out of the set of free pages, or
    return 0 when there is none": it never panics or blocks, the page it
    returns is no longer free and is filled with 5s, and it changes no other
    byte of memory and nothing of the kernel but the free list. *)
Theorem kalloc_refines s F :
  kmem_abs s F →
  ∃ r s' F', kalloc s = Ret r s' ∧ alloc_step F r F' ∧ kmem_abs s' F' ∧ mem_frame s s' ∧
    mem_same_outside (λ p, p = r ∧ r ≠ 0) (k_mem s) (k_mem s') ∧
    (r ≠ 0 → page_ok r ∧ ∀ a, r ≤ a < r + PGSIZE → ld8 (k_mem s') a = 5).
Proof.
  intros (l & Hinv & ->). destruct l as [|p l].
  - exists 0, (tick s), ∅. split_and!.
    + by apply kalloc_eq_nil.
    + by apply alloc_none.
    + exists []. split; [by apply tick_inv|done].
    + apply tick_frame.
    + by intros a.
    + done.
  - exists p, (after_kalloc p s), (list_to_set l).
    pose proof (kmem_pages _ _ Hinv) as [Hp _]%Forall_cons.
    pose proof (kmem_nodup _ _ Hinv) as [Hpl _]%NoDup_cons.
    split_and!.
    + by eapply kalloc_eq_cons.
    + replace (list_to_set l : gset Z) with (list_to_set (p :: l) ∖ {[p]} : gset Z)
        by (simpl; set_solver).
      apply alloc_page. set_solver.
    + exists l. split; [by apply after_kalloc_inv|done].
    + apply after_kalloc_frame.
    + eapply mem_same_outside_weaken; [|apply after_kalloc_outside].
      intros q ->. split; [done|by apply page_ok_nonzero].
    + intros _. split; [done|]. intros a Ha. cbn. rewrite ld8_memset by done.
      by rewrite decide_True by done.
Qed.

(** C31: [kfree] of a page that is not already free adds exactly that page to
    the set of free pages and changes no byte outside it; for an address that
    is not page aligned, or lies below [end] or at or above PHYSTOP, it
    panics and changes nothing. *)
Theorem kfree_refines s F p :
  kmem_abs s F →
  (page_ok p → p ∉ F →
   ∃ s', kfree p s = Ret tt s' ∧ kmem_abs s' ({[p]} ∪ F) ∧ mem_frame s s' ∧
     mem_same_outside (λ q, q = p) (k_mem s) (k_mem s')) ∧
  (¬ page_ok p → kfree p s = Panic "kfree" s).
Proof.
  intros (l & Hinv & ->). split.
  - intros Hp Hpl. exists (after_kfree p s). split_and!.
    + by eapply kfree_eq.
    + exists (p :: l). split; [|done]. apply after_kfree_inv; [done..|set_solver].
    + apply after_kfree_frame.
    + apply after_kfree_outside.
  - intros Hp. unfold kfree. case_test; [done|].
    destruct Hp. split; [done|lia].
Qed.

(** *** Building the list *)

Lemma elem_of_pages_from n b p :
  p ∈ pages_from n b ↔ ∃ i, 0 ≤ i < Z.of_nat n ∧ p = b + i * PGSIZE.
Proof.
  revert b. induction n as [|n IH]; intros b; cbn [pages_from].
  - rewrite elem_of_nil. split; [done|]. intros (i&?&_). lia.
  - rewrite elem_of_cons, IH. split.
    + intros [->|(i&Hi&->)]; [exists 0|exists (i + 1)]; unfold PGSIZE; lia.
    + intros (i&Hi&->). destruct (decide (i = 0)) as [->|]; [left; lia|].
      right. exists (i - 1). unfold PGSIZE; lia.
Qed.

(** The loop, from a state whose free pages all lie below the cursor. *)
Lemma freerange_loop_ok n b pa_end s l :
  kmem_inv s l → (∀ q, q ∈ l → q < b) → b mod PGSIZE = 0 → image_end ≤ b →
  b + Z.of_nat n * PGSIZE ≤ pa_end < b + (Z.of_nat n + 1) * PGSIZE → pa_end ≤ PHYSTOP →
  ∃ s', freerange_loop (S n) b pa_end s = Ret tt s' ∧
    kmem_inv s' (reverse (pages_from n b) ++ l).
Proof.
  revert b s l. induction n as [|n IH]; intros b s l Hinv Hl Hb Hend Hr Htop.
  - exists s. cbn [freerange_loop]. case_test; [lia|]. done.
  - cbn [freerange_loop]. case_test; [|unfold PGSIZE in *; lia].
    assert (page_ok b) as Hok by (split; [done|unfold PGSIZE in *; lia]).
    rewrite (bind_Ret _ _ _ _ _ (kfree_eq s b l Hinv Hok)).
    destruct (IH (b + PGSIZE) (after_kfree b s) (b :: l)) as (s' & Hrun & Hinv').
    + apply after_kfree_inv; [done..|]. intros Hbl. specialize (Hl b Hbl). lia.
    + intros q [->|Hq]%elem_of_cons; [unfold PGSIZE; lia|].
      specialize (Hl q Hq). unfold PGSIZE. lia.
    + unfold PGSIZE in *. zdm.
    + unfold PGSIZE in *. lia.
    + unfold PGSIZE in *. lia.
    + done.
    + exists s'. split; [exact Hrun|]. cbn [pages_from].
      by rewrite reverse_cons, <- app_assoc.
Qed.

(** C39: [kinit], run on the zeroed allocator, terminates with every page
    between [end] and PHYSTOP on the free list exactly once. *)
Theorem kinit_correct s :
  k_freelist s = 0 → hart_ok (k_hart s) →
  ∃ s' l, kinit s = Ret tt s' ∧ kmem_inv s' l ∧ ∀ p, p ∈ l ↔ page_ok p.
Proof.
  intros Hfl Hh. pose proof image_end_range as Hend.
  set (b := PGROUNDUP image_end). set (n := Z.to_nat ((PHYSTOP - b) / PGSIZE)).
  assert (b = (image_end + 4095) / 4096 * 4096) as Hb.
  { apply PGROUNDUP_eq. unfold PHYSTOP, KERNBASE in *. lia. }
  assert (b mod PGSIZE = 0) as Hba by (rewrite Hb; apply Z_mod_mult).
  assert (image_end ≤ b < image_end + PGSIZE) as Hbr by (rewrite Hb; unfold PGSIZE; zdm).
  assert (PHYSTOP mod PGSIZE = 0) as Htop by done.
  assert (b + Z.of_nat n * PGSIZE = PHYSTOP) as Hn.
  { subst n. unfold PHYSTOP, KERNBASE, PGSIZE in *. zdm. }
  set (s1 := put_lock L_kmem (Spinlock "kmem" 0 None) s).
  assert (kmem_inv s1 []) as H1.
  { split; [done|constructor|constructor| |done].
    exists "kmem". unfold s1, put_lock. cbn. apply lookup_insert_eq. }
  destruct (freerange_loop_ok n b PHYSTOP s1 [] H1) as (s' & Hrun & Hinv');
    [set_solver|done|lia|unfold PGSIZE in *; lia|done|].
  exists s', (reverse (pages_from n b) ++ []). split_and!; [exact Hrun|done|].
  intros p. rewrite app_nil_r, elem_of_reverse, elem_of_pages_from. split.
  - intros (i&Hi&->). split; unfold PGSIZE in *; [zdm|lia].
  - intros [Hp1 Hp2]. exists ((p - b) / PGSIZE).
    unfold PGSIZE in *. zdm.
Qed.

End contract.

(** A kernel image for the witnesses. *)
Definition image0 : Image := Build_Image 0x80022000 0x80008000 0x80007000 0x80007000 0x8000709c
  0x80005a00 0x80001e00 0x80001a00 0x3fffffdf00.

#[export] Instance image0_ok : ImageOk image0.
Proof. split; vm_compute; done. Qed.

(** A kernel with one free page. *)
Definition one_page : kernel :=
  set_k_freelist 0x80100000
    (set_k_locks {[L_kmem := Spinlock "kmem" 0 None]} zero_kernel).

Lemma one_page_inv : @kmem_inv image0 one_page [0x80100000].
Proof.
  split.
  - vm_compute. done.
  - apply NoDup_singleton.
  - constructor; [|constructor]. split; vm_compute; done.
  - exists "kmem". vm_compute. done.
  - split; [vm_compute; done|done].
Qed.

Lemma kalloc_refines_witness :
  ∃ r s', kalloc one_page = Ret r s'.
Proof.
  destruct (@kalloc_refines image0 _ one_page {[0x80100000]}) as (r & s' & F' & H & _).
  - exists [0x80100000]. split; [apply one_page_inv|set_solver].
  - exists r, s'. exact H.
Defined.

Lemma kfree_refines_witness :
  @kfree image0 0x80100001 one_page = Panic "kfree" one_page ∧
  ∃ s', @kfree image0 0x80101000 one_page = Ret tt s'.
Proof.
  assert (@kmem_abs image0 one_page {[0x80100000]}) as H
    by (exists [0x80100000]; split; [apply one_page_inv|set_solver]).
  split.
  - apply (@kfree_refines image0 _ one_page _ 0x80100001 H). intros [Hm _]. done.
  - destruct (@kfree_refines image0 _ one_page _ 0x80101000 H) as [Hok _].
    destruct Hok as (s' & Hs' & _); [split; vm_compute; done|set_solver|exists s'; exact Hs'].
Defined.

Lemma kinit_correct_witness :
  ∃ s' l, @kinit image0 zero_kernel = Ret tt s' ∧ @kmem_inv image0 s' l.
Proof.
  destruct (@kinit_correct image0 _ zero_kernel) as (s' & l & H1 & H2 & _);
    [done|split; [vm_compute; done|done]|].
  exists s', l. exact (conj H1 H2).
Defined.
