(* ===== verification/Vm.v ===== *)
(** * kernel/vm.c: Sv39 page tables and user memory, the model

    Page tables live in physical memory ([k_mem]) and are read and written
    through 64-bit loads and stores, exactly where vm.c reads and writes them.
    A kernel buffer that vm.c copies from is the list of its bytes; the copies
    into kernel buffers return the bytes they wrote, with the status. Loops
    over addresses carry a bound computed from their range. *)

From S2P Require Import Prelude State Mem Kstring Spinlock Kalloc.

Section model.
Context `{Image}.

(** ** Walking *)

(** The loop [for(level = 2; level > 0; level--)], as the list of its levels. *)
Fixpoint walk_loop (levels : list Z) (pagetable va : Z) (alloc : bool) : M Z :=
  match levels with
  | [] => mret (pagetable + 8 * PX 0 va)
  | level :: levels' =>
      let pte := pagetable + 8 * PX level va in
      v ← load64 pte;
      if negb (Z.land v PTE_V =? 0) then walk_loop levels' (PTE2PA v) va alloc
      else if negb alloc then mret 0
      else
        pt ← kalloc;
        if pt =? 0 then mret 0
        else
          on_mem (λ m, memset m pt 0 PGSIZE);;
          store64 pte (Z.lor (PA2PTE pt) PTE_V);;
          walk_loop levels' pt va alloc
  end.

Definition walk (pagetable va : Z) (alloc : bool) : M Z :=
  if MAXVA <=? va then panic "walk" else walk_loop [2; 1] pagetable va alloc.

Definition walkaddr (pagetable va : Z) : M Z :=
  if MAXVA <=? va then mret 0
  else
    pte ← walk pagetable va false;
    if pte =? 0 then mret 0
    else
      v ← load64 pte;
      if Z.land v PTE_V =? 0 then mret 0
      else if Z.land v PTE_U =? 0 then mret 0
      else mret (PTE2PA v).

(** ** Mapping and unmapping *)

Fixpoint mappages_loop (n : nat) (pagetable a last pa perm : Z) : M Z :=
  match n with
  | O => out_of_fuel
  | S n' =>
      pte ← walk pagetable a true;
      if pte =? 0 then mret (-1)
      else
        v ← load64 pte;
        if negb (Z.land v PTE_V =? 0) then panic "mappages: remap"
        else
          store64 pte (Z.lor (Z.lor (PA2PTE pa) perm) PTE_V);;
          if a =? last then mret 0
          else mappages_loop n' pagetable (u64 (a + PGSIZE)) last (u64 (pa + PGSIZE)) perm
  end.

(** One iteration per page up to [last]; when the range wraps around, the
    walk panics at MAXVA at the latest. *)
Definition mappages_bound (a last : Z) : nat :=
  S (Z.to_nat ((if a <=? last then last - a else MAXVA - a) / PGSIZE)).

Definition mappages (pagetable va size pa perm : Z) : M Z :=
  if size =? 0 then panic "mappages: size"
  else
    let a := PGROUNDDOWN va in
    let last := PGROUNDDOWN (u64 (va + size - 1)) in
    mappages_loop (mappages_bound a last) pagetable a last pa perm.

Definition kvmmap (kpgtbl va pa sz perm : Z) : M unit :=
  r ← mappages kpgtbl va sz pa perm;
  if negb (r =? 0) then panic "kvmmap" else mret tt.

Fixpoint uvmunmap_loop (n : nat) (pagetable a last : Z) (do_free : bool) : M unit :=
  match n with
  | O => out_of_fuel
  | S n' =>
      if negb (a <? last) then mret tt
      else
        pte ← walk pagetable a false;
        if pte =? 0 then panic "uvmunmap: walk"
        else
          v ← load64 pte;
          if Z.land v PTE_V =? 0 then panic "uvmunmap: not mapped"
          else if PTE_FLAGS v =? PTE_V then panic "uvmunmap: not a leaf"
          else
            when do_free (kfree (PTE2PA v));;
            store64 pte 0;;
            uvmunmap_loop n' pagetable (u64 (a + PGSIZE)) last do_free
  end.

Definition uvmunmap (pagetable va npages : Z) (do_free : bool) : M unit :=
  if negb (va mod PGSIZE =? 0) then panic "uvmunmap: not aligned"
  else uvmunmap_loop (S (Z.to_nat npages)) pagetable va (u64 (va + npages * PGSIZE)) do_free.

(** ** Address spaces *)

Definition uvmcreate : M Z :=
  pagetable ← kalloc;
  if pagetable =? 0 then mret 0
  else on_mem (λ m, memset m pagetable 0 PGSIZE);; mret pagetable.

Definition uvmfirst (pagetable : Z) (src : list Z) : M unit :=
  if PGSIZE <=? Z.of_nat (length src) then panic "uvmfirst: more than a page"
  else
    mem ← kalloc;
    on_mem (λ m, memset m mem 0 PGSIZE);;
    _ ← mappages pagetable 0 PGSIZE mem (Z.lor (Z.lor (Z.lor PTE_W PTE_R) PTE_X) PTE_U);
    on_mem (λ m, st_bytes m mem src).

Definition uvmdealloc (pagetable oldsz newsz : Z) : M Z :=
  if oldsz <=? newsz then mret oldsz
  else
    when (PGROUNDUP newsz <? PGROUNDUP oldsz)
      (let npages := i32 ((PGROUNDUP oldsz - PGROUNDUP newsz) / PGSIZE) in
       uvmunmap pagetable (PGROUNDUP newsz) (u64 npages) true);;
    mret newsz.

Fixpoint uvmalloc_loop (n : nat) (pagetable a oldsz newsz xperm : Z) : M Z :=
  match n with
  | O => out_of_fuel
  | S n' =>
      if negb (a <? newsz) then mret newsz
      else
        mem ← kalloc;
        if mem =? 0 then uvmdealloc pagetable a oldsz;; mret 0
        else
          on_mem (λ m, memset m mem 0 PGSIZE);;
          r ← mappages pagetable a PGSIZE mem (Z.lor (Z.lor PTE_R PTE_U) xperm);
          if negb (r =? 0) then kfree mem;; uvmdealloc pagetable a oldsz;; mret 0
          else uvmalloc_loop n' pagetable (u64 (a + PGSIZE)) oldsz newsz xperm
  end.

Definition uvmalloc (pagetable oldsz newsz xperm : Z) : M Z :=
  if newsz <? oldsz then mret oldsz
  else
    let oldsz' := PGROUNDUP oldsz in
    uvmalloc_loop (S (S (Z.to_nat ((newsz - oldsz') / PGSIZE)))) pagetable oldsz' oldsz' newsz xperm.

(** [freewalk] recurses from the root; three levels of tables exist. *)
Fixpoint freewalk (depth : nat) (pagetable : Z) : M unit :=
  match depth with
  | O => out_of_fuel
  | S depth' =>
      for_each (seqZ 0 512) (λ i,
        pte ← load64 (pagetable + 8 * i);
        if negb (Z.land pte PTE_V =? 0) &&
           (Z.land pte (Z.lor (Z.lor PTE_R PTE_W) PTE_X) =? 0)
        then freewalk depth' (PTE2PA pte);; store64 (pagetable + 8 * i) 0
        else if negb (Z.land pte PTE_V =? 0) then panic "freewalk: leaf"
        else mret tt);;
      kfree pagetable
  end.

Definition uvmfree (pagetable sz : Z) : M unit :=
  when (0 <? sz) (uvmunmap pagetable 0 (PGROUNDUP sz / PGSIZE) true);;
  freewalk 3 pagetable.

Fixpoint uvmcopy_loop (n : nat) (old new sz i : Z) : M Z :=
  match n with
  | O => out_of_fuel
  | S n' =>
      if negb (i <? sz) then mret 0
      else
        pte ← walk old i false;
        if pte =? 0 then panic "uvmcopy: pte should exist"
        else
          v ← load64 pte;
          if Z.land v PTE_V =? 0 then panic "uvmcopy: page not present"
          else
            mem ← kalloc;
            if mem =? 0 then uvmunmap new 0 (i / PGSIZE) true;; mret (-1)
            else
              on_mem (λ m, memmove m mem (PTE2PA v) PGSIZE);;
              r ← mappages new i PGSIZE mem (PTE_FLAGS v);
              if negb (r =? 0)
              then kfree mem;; uvmunmap new 0 (i / PGSIZE) true;; mret (-1)
              else uvmcopy_loop n' old new sz (u64 (i + PGSIZE))
  end.

Definition uvmcopy (old new sz : Z) : M Z :=
  uvmcopy_loop (S (S (Z.to_nat (sz / PGSIZE)))) old new sz 0.

Definition uvmclear (pagetable va : Z) : M unit :=
  pte ← walk pagetable va false;
  if pte =? 0 then panic "uvmclear"
  else v ← load64 pte; store64 pte (Z.land v (Z.lnot PTE_U)).

(** ** Copying between kernel and user memory *)

(** The chunk that fits in the page of [va]. *)
Definition chunk (va va0 len : Z) : Z :=
  let n := PGSIZE - (va - va0) in if len <? n then len else n.

Fixpoint copyout_loop (n : nat) (pagetable dstva : Z) (src : list Z) : M Z :=
  let len := Z.of_nat (length src) in
  if negb (0 <? len) then mret 0
  else
    match n with
    | O => out_of_fuel
    | S n' =>
        let va0 := PGROUNDDOWN dstva in
        pa0 ← walkaddr pagetable va0;
        if pa0 =? 0 then mret (-1)
        else
          let k := Z.to_nat (chunk dstva va0 len) in
          on_mem (λ m, st_bytes m (pa0 + (dstva - va0)) (take k src));;
          copyout_loop n' pagetable (u64 (va0 + PGSIZE)) (drop k src)
    end.

(** [copyout(pagetable, dstva, src, len)] with [src] the [len] bytes. *)
Definition copyout (pagetable dstva : Z) (src : list Z) : M Z :=
  copyout_loop (S (length src)) pagetable dstva src.

Fixpoint copyin_loop (n : nat) (pagetable srcva len : Z) : M (Z * list Z) :=
  if negb (0 <? len) then mret (0, [])
  else
    match n with
    | O => out_of_fuel
    | S n' =>
        let va0 := PGROUNDDOWN srcva in
        pa0 ← walkaddr pagetable va0;
        if pa0 =? 0 then mret (-1, [])
        else
          let k := chunk srcva va0 len in
          bs ← gets (λ s, ld_bytes (Z.to_nat k) (k_mem s) (pa0 + (srcva - va0)));
          r ← copyin_loop n' pagetable (u64 (va0 + PGSIZE)) (len - k);
          mret (r.1, bs ++ r.2)
    end.

(** [copyin]: the status and the bytes stored at [dst]. *)
Definition copyin (pagetable srcva len : Z) : M (Z * list Z) :=
  copyin_loop (Z.to_nat len) pagetable srcva len.

(** The inner loop of [copyinstr] over one page: whether it met the NUL, and
    the bytes it stored. *)
Fixpoint copyinstr_page (n : nat) (m : gmap Z Z) (p : Z) : bool * list Z :=
  match n with
  | O => (false, [])
  | S n' =>
      if ld8 m p =? 0 then (true, [0])
      else let r := copyinstr_page n' m (p + 1) in (r.1, ld8 m p :: r.2)
  end.

Fixpoint copyinstr_loop (n : nat) (pagetable srcva max : Z) : M (Z * list Z) :=
  if negb (0 <? max) then mret (-1, [])
  else
    match n with
    | O => out_of_fuel
    | S n' =>
        let va0 := PGROUNDDOWN srcva in
        pa0 ← walkaddr pagetable va0;
        if pa0 =? 0 then mret (-1, [])
        else
          let k := chunk srcva va0 max in
          r ← gets (λ s, copyinstr_page (Z.to_nat k) (k_mem s) (pa0 + (srcva - va0)));
          if (r.1 : bool) then mret (0, r.2)
          else
            r' ← copyinstr_loop n' pagetable (u64 (va0 + PGSIZE)) (max - k);
            mret (r'.1, r.2 ++ r'.2)
    end.

Definition copyinstr (pagetable srcva max : Z) : M (Z * list Z) :=
  copyinstr_loop (Z.to_nat max) pagetable srcva max.

(** ** The kernel's own page table *)

(** [proc_mapstacks] (proc.c): a stack page for each process. *)
Definition proc_mapstacks (kpgtbl : Z) : M unit :=
  for_each (seqZ 0 (Z.of_nat NPROC)) (λ i,
    pa ← kalloc;
    if pa =? 0 then panic "kalloc"
    else kvmmap kpgtbl (KSTACK i) pa PGSIZE (Z.lor PTE_R PTE_W)).

Definition kvmmake : M Z :=
  kpgtbl ← kalloc;
  on_mem (λ m, memset m kpgtbl 0 PGSIZE);;
  kvmmap kpgtbl UART0 UART0 PGSIZE (Z.lor PTE_R PTE_W);;
  kvmmap kpgtbl VIRTIO0 VIRTIO0 PGSIZE (Z.lor PTE_R PTE_W);;
  kvmmap kpgtbl PLIC PLIC 0x400000 (Z.lor PTE_R PTE_W);;
  kvmmap kpgtbl KERNBASE KERNBASE (image_etext - KERNBASE) (Z.lor PTE_R PTE_X);;
  kvmmap kpgtbl image_etext image_etext (PHYSTOP - image_etext) (Z.lor PTE_R PTE_W);;
  kvmmap kpgtbl TRAMPOLINE image_trampoline PGSIZE (Z.lor PTE_R PTE_X);;
  proc_mapstacks kpgtbl;;
  mret kpgtbl.

Definition kvminit : M unit := p ← kvmmake; modify (set_k_kernel_pagetable p).

Definition kvminithart : M unit :=
  p ← gets k_kernel_pagetable;
  modify (λ s, set_k_hart (set_h_satp (MAKE_SATP p) (k_hart s)) s).

End model.
