(* ===== verification/PageTable.v ===== *)
(** * Page tables as finite maps

    The three-level tree of vm.c, described by the map [sh] from the path of a
    table page (the indices that lead to it from the root) to its address, and
    the word [leaf_pte] of every virtual address. The lemmas here say how the
    stores of vm.c change that description; the theorems about vm.c's
    functions are in VmSpec and CopySpec. *)

From S2P Require Import Prelude State Mem Kstring Spinlock Kalloc Vm.

(** ** Description *)

(** The entry of a page-table page that describes page [pa] with [flags]. *)
Definition mk_pte (pa flags : Z) : Z := pa / 4096 * 1024 + flags.

Definition valid (v : Z) : bool := negb (Z.land v PTE_V =? 0).
Definition user (v : Z) : bool := negb (Z.land v PTE_U =? 0).

(** Where the last-level entry of [va] is, when its table exists. *)
Definition leaf_addr (sh : gmap (list Z) Z) (va : Z) : option Z :=
  (λ p, p + 8 * PX 0 va) <$> sh !! [PX 2 va; PX 1 va].

(** The last-level entry of [va]; 0 (not valid) when it has no table. *)
Definition leaf_pte (m : gmap Z Z) (sh : gmap (list Z) Z) (va : Z) : Z :=
  match leaf_addr sh va with Some a => ld64 m a | None => 0 end.

(** Memory after page [q], fresh from the allocator, has been cleared and
    entered as the child at index [i] of table [p]. *)
Definition new_table (m : gmap Z Z) (p i q : Z) : gmap Z Z :=
  st64 (memset (memset m q 5 PGSIZE) q 0 PGSIZE) (p + 8 * i) (Z.lor (PA2PTE q) PTE_V).

Section description.
Context `{Image}.

(** [m] holds the page table with root [root] and table pages [sh]. *)
Record pt_rep (m : gmap Z Z) (sh : gmap (list Z) Z) (root : Z) : Prop := {
  rep_root : sh !! [] = Some root;
  rep_inner π p i : sh !! π = Some p → (length π < 2)%nat → 0 ≤ i < 512 →
    match sh !! (π ++ [i]) with
    | Some q => ld64 m (p + 8 * i) = mk_pte q PTE_V
    | None => valid (ld64 m (p + 8 * i)) = false
    end;
  rep_inj π π' p : sh !! π = Some p → sh !! π' = Some p → π = π';
  rep_page π p : sh !! π = Some p → page_ok p;
  rep_up π i p : sh !! (π ++ [i]) = Some p → is_Some (sh !! π) ∧ (length π < 2)%nat;
}.

(** A page table together with the allocator: no table page is free. *)
Record vm_inv (s : kernel) (root : Z) (sh : gmap (list Z) Z) (l : list Z) : Prop := {
  vm_rep : pt_rep (k_mem s) sh root;
  vm_kmem : kmem_inv s l;
  vm_disj π p : sh !! π = Some p → p ∉ l;
}.

(** What building tables may do: turn free pages into tables, and write
    those and the old tables. *)
Definition pt_grow (s : kernel) (sh : gmap (list Z) Z) (l : list Z)
    (s' : kernel) (sh' : gmap (list Z) Z) (l' : list Z) : Prop :=
  mem_frame s s' ∧ sh ⊆ sh' ∧
  ∃ used, l = used ++ l' ∧
    (∀ p, p ∈ used ↔ ∃ π, sh' !! π = Some p ∧ sh !! π = None) ∧
    mem_same_outside (λ p, ∃ π, sh' !! π = Some p) (k_mem s) (k_mem s').

End description.

(** ** Arithmetic of entries and indices *)

Lemma PX_eq level va : 0 ≤ level → PX level va = va / 2 ^ (12 + 9 * level) mod 512.
Proof.
  intros. unfold PX, PXSHIFT, PGSHIFT. change PXMASK with (Z.ones 9).
  by rewrite land_low, Z.shiftr_div_pow2 by lia.
Qed.

Lemma PX_range level va : 0 ≤ level → 0 ≤ PX level va < 512.
Proof. intros. rewrite PX_eq by done. apply Z.mod_pos_bound. lia. Qed.

(** The three indices are the digits of the page number. *)
Lemma page_number va :
  0 ≤ va < MAXVA → va / 4096 = PX 2 va * 262144 + PX 1 va * 512 + PX 0 va.
Proof.
  change MAXVA with 274877906944. intros Hva. rewrite !PX_eq by lia.
  change (2 ^ (12 + 9 * 2)) with 1073741824. change (2 ^ (12 + 9 * 1)) with 2097152.
  change (2 ^ (12 + 9 * 0)) with 4096. zdm.
Qed.

Lemma PX_page level va va' : 0 ≤ level → va / 4096 = va' / 4096 → PX level va = PX level va'.
Proof.
  intros Hl Heq. rewrite !PX_eq by done.
  replace (2 ^ (12 + 9 * level)) with (4096 * 2 ^ (9 * level))
    by (rewrite Z.pow_add_r by lia; done).
  by rewrite <- !Z.div_div, Heq by (try apply Z.pow_nonzero; try apply Z.pow_pos_nonneg; lia).
Qed.

Lemma PA2PTE_eq pa : 0 ≤ pa < 2 ^ 56 → PA2PTE pa = pa / 4096 * 1024.
Proof.
  intros Hpa. unfold PA2PTE. rewrite Z.shiftl_mul_pow2, Z.shiftr_div_pow2 by lia.
  apply u64_small. change (2 ^ 12) with 4096. change (2 ^ 10) with 1024.
  change (2 ^ 56) with 72057594037927936 in Hpa. zdm.
Qed.

Lemma PA2PTE_lor pa flags :
  0 ≤ pa < 2 ^ 56 → 0 ≤ flags < 1024 → Z.lor (PA2PTE pa) flags = mk_pte pa flags.
Proof. intros Hpa Hf. rewrite PA2PTE_eq by done. by apply (lor_low _ _ 10). Qed.

Lemma PTE2PA_mk_pte pa flags :
  0 ≤ pa < 2 ^ 56 → pa mod 4096 = 0 → 0 ≤ flags < 1024 → PTE2PA (mk_pte pa flags) = pa.
Proof.
  intros Hpa Ha Hf. unfold PTE2PA, mk_pte. rewrite Z.shiftl_mul_pow2, Z.shiftr_div_pow2 by lia.
  change (2 ^ 10) with 1024. change (2 ^ 12) with 4096.
  change (2 ^ 56) with 72057594037927936 in Hpa. rewrite u64_small; zdm.
Qed.

Lemma valid_eq v : valid v = negb (v mod 2 =? 0).
Proof. unfold valid. change PTE_V with (Z.ones 1). by rewrite land_low by lia. Qed.

Lemma mk_pte_valid pa flags : flags mod 2 = 1 → valid (mk_pte pa flags) = true.
Proof.
  intros Hf. rewrite valid_eq. unfold mk_pte.
  replace ((pa / 4096 * 1024 + flags) mod 2) with 1 by zdm. done.
Qed.

Lemma mk_pte_flags pa flags : 0 ≤ flags < 1024 → PTE_FLAGS (mk_pte pa flags) = flags.
Proof.
  intros Hf. unfold PTE_FLAGS, mk_pte. change 0x3FF with (Z.ones 10).
  rewrite land_low by lia. change (2 ^ 10) with 1024. zdm.
Qed.

(** Flag tests only see the low ten bits. *)
Lemma land_flags v f : Z.land 1023 f = f → Z.land v f = Z.land (v mod 1024) f.
Proof.
  intros Hf. rewrite <- Hf at 1. rewrite Z.land_assoc. f_equal. apply (land_low v 10). lia.
Qed.

Lemma mk_pte_user pa flags : user (mk_pte pa flags) = user flags.
Proof.
  unfold user, mk_pte. rewrite (land_flags (_ + _)), (land_flags flags) by done.
  by rewrite Z.add_comm, Z_mod_plus_full.
Qed.

(** ** Reading the tree *)

(** Two entries of page-aligned tables are the same word or do not overlap. *)
Lemma slot_inj p q i j :
  p mod PGSIZE = 0 → q mod PGSIZE = 0 → 0 ≤ i < 512 → 0 ≤ j < 512 →
  p + 8 * i = q + 8 * j → p = q ∧ i = j.
Proof. unfold PGSIZE. intros. zdm. Qed.

Lemma ld64_slot m p q i j v :
  p mod PGSIZE = 0 → q mod PGSIZE = 0 → 0 ≤ i < 512 → 0 ≤ j < 512 →
  ld64 (st64 m (p + 8 * i) v) (q + 8 * j) =
    if decide (p = q ∧ i = j) then u64 v else ld64 m (q + 8 * j).
Proof.
  intros Hp Hq Hi Hj. rewrite ld64_st64 by (unfold PGSIZE in *; zdm).
  case_decide as H1; case_decide as H2; try done.
  - by apply slot_inj in H1.
  - by destruct H2 as [-> ->].
Qed.

Section tree.
Context {I : Image} {IO : ImageOk I}.

Lemma page_ok_range p : page_ok p → p mod 4096 = 0 ∧ 0 < p < 2 ^ 56.
Proof.
  intros [Ha Hr]. pose proof image_end_range. unfold PHYSTOP, KERNBASE, PGSIZE in *.
  split; [done|]. change (2 ^ 56) with 72057594037927936. lia.
Qed.

Lemma rep_child m sh root π p i q :
  pt_rep m sh root → sh !! π = Some p → 0 ≤ i < 512 → sh !! (π ++ [i]) = Some q →
  valid (ld64 m (p + 8 * i)) = true ∧ PTE2PA (ld64 m (p + 8 * i)) = q.
Proof.
  intros Hrep Hp Hi Hq. destruct (rep_up _ _ _ Hrep _ _ _ Hq) as [_ Hlen].
  pose proof (rep_inner _ _ _ Hrep π p i Hp Hlen Hi) as Hw. rewrite Hq in Hw.
  destruct (page_ok_range q) as [Hqa Hqr]; [by eapply rep_page|].
  rewrite Hw. split; [by apply mk_pte_valid|].
  apply PTE2PA_mk_pte; [lia|done|]. change PTE_V with 1. lia.
Qed.

Lemma rep_nochild m sh root π p i :
  pt_rep m sh root → sh !! π = Some p → (length π < 2)%nat → 0 ≤ i < 512 →
  sh !! (π ++ [i]) = None → valid (ld64 m (p + 8 * i)) = false.
Proof.
  intros Hrep Hp Hlen Hi Hq. pose proof (rep_inner _ _ _ Hrep π p i Hp Hlen Hi) as Hw.
  by rewrite Hq in Hw.
Qed.

Lemma rep_no_path m sh root π i j :
  pt_rep m sh root → sh !! (π ++ [i]) = None → sh !! ((π ++ [i]) ++ [j]) = None.
Proof.
  intros Hrep Hn. destruct (sh !! ((π ++ [i]) ++ [j])) eqn:He; [|done].
  apply (rep_up _ _ _ Hrep) in He as [[? Hs] _]. congruence.
Qed.

(** Walking without allocation reads the description. *)
Lemma walk_ro s root sh va :
  pt_rep (k_mem s) sh root → 0 ≤ va < MAXVA →
  walk root va false s = Ret (default 0 (leaf_addr sh va)) s.
Proof.
  intros Hrep Hva. unfold walk. case_test; [lia|].
  pose proof (PX_range 2 va ltac:(lia)) as H2. pose proof (PX_range 1 va ltac:(lia)) as H1.
  pose proof (rep_root _ _ _ Hrep) as Hroot.
  cbn [walk_loop negb]. unfold load64. rewrite bind_gets. fold (valid (ld64 (k_mem s) (root + 8 * PX 2 va))).
  unfold leaf_addr. destruct (sh !! [PX 2 va]) as [p1|] eqn:Hp1.
  - destruct (rep_child _ _ _ [] root (PX 2 va) p1 Hrep) as [-> ->]; [done..|].
    rewrite bind_gets. fold (valid (ld64 (k_mem s) (p1 + 8 * PX 1 va))).
    destruct (sh !! [PX 2 va; PX 1 va]) as [p0|] eqn:Hp0.
    + by destruct (rep_child _ _ _ [PX 2 va] p1 (PX 1 va) p0 Hrep) as [-> ->].
    + by rewrite (rep_nochild _ _ _ [PX 2 va] p1 (PX 1 va) Hrep) by (simpl; auto with lia).
  - rewrite (rep_nochild _ _ _ [] root (PX 2 va) Hrep) by (simpl; auto with lia).
    by rewrite (rep_no_path _ _ _ [] (PX 2 va) (PX 1 va) Hrep Hp1 : sh !! [_; _] = None).
Qed.

(** Different pages have different entries. *)
Lemma leaf_addr_inj m sh root va va' a :
  pt_rep m sh root → 0 ≤ va < MAXVA → 0 ≤ va' < MAXVA →
  leaf_addr sh va = Some a → leaf_addr sh va' = Some a → va / 4096 = va' / 4096.
Proof.
  intros Hrep Hva Hva' (p & Hp & Ha)%fmap_Some (p' & Hp' & Ha')%fmap_Some.
  destruct (slot_inj p p' (PX 0 va) (PX 0 va')) as [<- H0];
    [by eapply rep_page|by eapply rep_page|by apply PX_range|by apply PX_range|lia|].
  pose proof (rep_inj _ _ _ Hrep _ _ _ Hp Hp') as Hpath. simplify_eq.
  rewrite (page_number va), (page_number va') by done. congruence.
Qed.

Lemma leaf_pte_page m sh va va' : va / 4096 = va' / 4096 → leaf_pte m sh va = leaf_pte m sh va'.
Proof.
  intros H. unfold leaf_pte, leaf_addr.
  by rewrite (PX_page 0 va va'), (PX_page 1 va va'), (PX_page 2 va va').
Qed.

(** An entry lies inside its table page. *)
Lemma leaf_addr_slot m sh root va a :
  pt_rep m sh root → leaf_addr sh va = Some a →
  ∃ p, sh !! [PX 2 va; PX 1 va] = Some p ∧ a = p + 8 * PX 0 va ∧ page_ok p ∧ a ≠ 0.
Proof.
  intros Hrep (p & Hp & ->)%fmap_Some. exists p.
  pose proof (rep_page _ _ _ Hrep _ _ Hp) as Hok. split_and!; try done.
  pose proof (PX_range 0 va). apply page_ok_range in Hok. lia.
Qed.

(** *** Changes that leave the tables alone *)

Lemma pt_rep_ext m m' sh root :
  pt_rep m sh root →
  (∀ π p i, sh !! π = Some p → (length π < 2)%nat → 0 ≤ i < 512 →
    ld64 m' (p + 8 * i) = ld64 m (p + 8 * i)) →
  pt_rep m' sh root.
Proof.
  intros [Hroot Hinner ???] Hm. split; try done.
  intros π p i Hp Hlen Hi. rewrite (Hm π) by done. by apply Hinner.
Qed.

Lemma leaf_pte_ext m m' sh va :
  (∀ π p, sh !! π = Some p → ∀ i, 0 ≤ i < 512 → ld64 m' (p + 8 * i) = ld64 m (p + 8 * i)) →
  leaf_pte m' sh va = leaf_pte m sh va.
Proof.
  intros Hm. unfold leaf_pte, leaf_addr. destruct (sh !! _) as [p|] eqn:Hp; [|done]. cbn.
  eapply Hm; [done|]. by apply PX_range.
Qed.

(** Memory that changed only in the pages [P] still holds a tree none of whose
    tables is in [P]. *)
Lemma outside_slot P m m' p i :
  mem_same_outside P m m' → page_ok p → (∀ q, P q → page_ok q ∧ q ≠ p) → 0 ≤ i < 512 →
  ld64 m' (p + 8 * i) = ld64 m (p + 8 * i).
Proof.
  intros Hm [Hp _] HP Hi. apply (mem_same_outside_ld64 P); try done; [|unfold PGSIZE; lia..].
  intros q Hq. destruct (HP q Hq) as [[? _] ?]. done.
Qed.

(** *** A new table *)

Lemma new_table_zero m p i q j :
  page_ok p → page_ok q → p ≠ q → 0 ≤ i < 512 → 0 ≤ j < 512 →
  ld64 (new_table m p i q) (q + 8 * j) = 0.
Proof.
  intros [Hp _] [Hq _] Hne Hi Hj. unfold new_table. rewrite ld64_slot by done.
  rewrite decide_False by naive_solver. apply (ldn_zero 8). intros a Ha.
  rewrite ld8_memset by (unfold PGSIZE; lia). rewrite decide_True; [done|unfold PGSIZE; lia].
Qed.

Lemma new_table_other m p i q r j :
  page_ok p → page_ok q → page_ok r → q ≠ r → 0 ≤ i < 512 → 0 ≤ j < 512 →
  ld64 (new_table m p i q) (r + 8 * j) =
    if decide (p = r ∧ i = j) then mk_pte q PTE_V else ld64 m (r + 8 * j).
Proof.
  intros [Hp _] Hqok Hr Hne Hi Hj. destruct (page_ok_range q Hqok) as [Hq Hqr].
  unfold new_table. rewrite ld64_slot by (done || apply Hr).
  rewrite PA2PTE_lor by (change PTE_V with 1; lia). case_decide.
  - apply u64_small. unfold mk_pte. change PTE_V with 1.
    change (2 ^ 56) with 72057594037927936 in Hqr. zdm.
  - apply (outside_slot (λ x, x = q)); [|done| |done].
    + eapply mem_same_outside_trans; apply memset_page_outside.
    + intros x ->. done.
Qed.

Lemma new_table_outside m p i q :
  0 ≤ i < 512 → mem_same_outside (λ x, x = p ∨ x = q) m (new_table m p i q).
Proof.
  intros Hi a Ha. unfold new_table. pose proof (Ha p (or_introl eq_refl)) as Hp.
  pose proof (Ha q (or_intror eq_refl)) as Hq. unfold PGSIZE in *.
  rewrite ld8_st64_other by lia. rewrite !ld8_memset by lia.
  by rewrite !decide_False by lia.
Qed.

Lemma pt_rep_new_table m sh root π p i q :
  pt_rep m sh root → sh !! π = Some p → (length π < 2)%nat → 0 ≤ i < 512 →
  sh !! (π ++ [i]) = None → page_ok q → (∀ π', sh !! π' ≠ Some q) →
  pt_rep (new_table m p i q) (<[π ++ [i] := q]> sh) root.
Proof.
  intros Hrep Hp Hlen Hi Hnone Hq Hfresh.
  assert (page_ok p) as Hpok by by eapply rep_page.
  assert (p ≠ q) as Hpq by (intros ->; by destruct (Hfresh π)).
  split.
  - rewrite lookup_insert_ne; [by apply (rep_root m)|by destruct π].
  - intros π' p' j Hp' Hlen' Hj.
    rewrite lookup_insert_Some in Hp'. destruct Hp' as [[<- <-]|[Hne Hp']].
    + rewrite lookup_insert_ne by (intros Heq%(f_equal length); rewrite !length_app in Heq; simpl in Heq; lia).
      rewrite (rep_no_path m sh root) by done. by rewrite new_table_zero.
    + assert (page_ok p') by by eapply rep_page.
      assert (q ≠ p') by (intros ->; by destruct (Hfresh π')).
      rewrite new_table_other by done. case_decide as Hd.
      * destruct Hd as [<- <-]. rewrite (rep_inj _ _ _ Hrep _ _ _ Hp' Hp).
        by rewrite lookup_insert_eq.
      * rewrite lookup_insert_ne; [by apply (rep_inner m sh root)|].
        intros [<- [= <-]]%app_inj_tail. apply Hd. split; [congruence|done].
  - intros π1 π2 r. rewrite !lookup_insert_Some.
    intros [[<- <-]|[? H1]] [[<- H2]|[? H2]]; try done.
    + by destruct (Hfresh π2).
    + subst r. by destruct (Hfresh π1).
    + by eapply rep_inj.
  - intros π' r. rewrite lookup_insert_Some. intros [[<- <-]|[? Hr]]; [done|].
    by eapply rep_page.
  - intros π' j r. rewrite lookup_insert_Some. intros [[Heq <-]|[? Hr]].
    + apply app_inj_tail in Heq as [<- <-]. split; [|done].
      rewrite lookup_insert_is_Some. right. split; [|by eexists].
      intros Heq%(f_equal length). rewrite length_app in Heq. simpl in Heq. lia.
    + destruct (rep_up _ _ _ Hrep _ _ _ Hr) as [Hs ?]. split; [|done].
      rewrite lookup_insert_is_Some'. by right.
Qed.

(** A new table holds no mappings. *)
Lemma leaf_pte_new_table m sh root π p i q va :
  pt_rep m sh root → sh !! π = Some p → (length π < 2)%nat → 0 ≤ i < 512 →
  sh !! (π ++ [i]) = None → page_ok q → (∀ π', sh !! π' ≠ Some q) →
  leaf_pte (new_table m p i q) (<[π ++ [i] := q]> sh) va = leaf_pte m sh va.
Proof.
  intros Hrep Hp Hlen Hi Hnone Hq Hfresh.
  assert (page_ok p) as Hpok by by eapply rep_page.
  assert (p ≠ q) as Hpq by (intros ->; by destruct (Hfresh π)).
  unfold leaf_pte, leaf_addr. set (π0 := [PX 2 va; PX 1 va]).
  pose proof (PX_range 0 va ltac:(lia)) as H0.
  destruct (decide (π ++ [i] = π0)) as [Heq|Hne].
  - rewrite <- Heq, lookup_insert_eq, Hnone. cbn. by apply new_table_zero.
  - rewrite lookup_insert_ne by done. destruct (sh !! π0) as [r|] eqn:Hr; [|done]. cbn.
    rewrite new_table_other; [|done|done|by eapply rep_page| |done|done].
    + rewrite decide_False; [done|]. intros [-> _].
      rewrite (rep_inj _ _ _ Hrep _ _ _ Hp Hr) in Hlen. simpl in Hlen. lia.
    + intros ->. by destruct (Hfresh π0).
Qed.

End tree.
