(* ===== verification/VmSpec.v ===== *)
(** * What vm.c's mapping functions do to a page table

    [walk], [walkaddr], [mappages], [uvmunmap], [uvmcreate] and [uvmalloc],
    stated on the description of PageTable: which entries change, which pages
    move between the allocator and the table, and that nothing else does. *)

From S2P Require Import Prelude State Mem Kstring Spinlock Kalloc Vm PageTable.

(** The physical address of a user-accessible virtual address, 0 if none. *)
Definition translate (m : gmap Z Z) (sh : gmap (list Z) Z) (va : Z) : Z :=
  if MAXVA <=? va then 0
  else
    let v := leaf_pte m sh va in
    if valid v && user v then PTE2PA v else 0.

(** Entries after mapping the addresses [a <= va < b] to memory from [pa]. *)
Definition mapped (f : Z → Z) (a b pa flags va : Z) : Z :=
  if decide (a ≤ va < b) then mk_pte (pa + (PGROUNDDOWN va - a)) flags else f va.

(** Entries after unmapping [a <= va < b]. *)
Definition unmapped (f : Z → Z) (a b va : Z) : Z := if decide (a ≤ va < b) then 0 else f va.

(** The physical pages behind [n] pages of addresses from [a]. *)
Fixpoint frames (f : Z → Z) (n : nat) (a : Z) : list Z :=
  match n with
  | O => []
  | S n' => PTE2PA (f a) :: frames f n' (a + 4096)
  end.

(** Pages [ps] are allocated, and not as tables of [sh]. *)
Definition data_pages `{Image} (sh : gmap (list Z) Z) (l ps : list Z) : Prop :=
  NoDup ps ∧ Forall page_ok ps ∧ (∀ p, p ∈ ps → p ∉ l) ∧ (∀ p, p ∈ ps → ∀ π, sh !! π ≠ Some p).

(** The state in which [walk] has added table [q] at index [i] of [p]. *)
Definition after_new_table (p i q : Z) (s : kernel) : kernel :=
  set_k_mem (new_table (k_mem s) p i q) (after_kalloc q s).

Section theorems.
Context {I : Image} {IO : ImageOk I}.

(** ** Growing tables *)

Lemma pt_grow_refl s sh l : pt_grow s sh l s sh l.
Proof.
  split_and!; [reflexivity|done|]. exists []. split_and!; [done| |by intros a].
  intros p. rewrite elem_of_nil. split; [done|]. intros (π&?&?). congruence.
Qed.

Lemma pt_grow_trans s1 sh1 l1 s2 sh2 l2 s3 sh3 l3 :
  pt_grow s1 sh1 l1 s2 sh2 l2 → pt_grow s2 sh2 l2 s3 sh3 l3 → pt_grow s1 sh1 l1 s3 sh3 l3.
Proof.
  intros (Hf1&Hs1&u1&->&Hu1&Hm1) (Hf2&Hs2&u2&->&Hu2&Hm2). split_and!.
  - by etransitivity.
  - by etransitivity.
  - exists (u1 ++ u2). split_and!; [by rewrite app_assoc| |].
    + intros p. rewrite elem_of_app, Hu1, Hu2. split.
      * intros [(π&Hp&Hn)|(π&Hp&Hn)]; exists π; split.
        -- by eapply lookup_weaken.
        -- done.
        -- done.
        -- by eapply lookup_weaken_None.
      * intros (π&Hp&Hn). destruct (sh2 !! π) as [p'|] eqn:Hp'; [left|right]; exists π; [|done].
        split; [|done]. rewrite <- Hp, Hp'. symmetry. by eapply lookup_weaken.
    + eapply mem_same_outside_trans; [|done]. eapply mem_same_outside_weaken; [|done].
      intros p (π&Hp). exists π. by eapply lookup_weaken.
Qed.

Lemma tick_grow s sh l : pt_grow s sh l (tick s) sh l.
Proof.
  destruct (pt_grow_refl s sh l) as (_&Hs&Hu). split_and!; [apply tick_frame|done|done].
Qed.

Lemma tick_vm_inv s root sh l : vm_inv s root sh l → vm_inv (tick s) root sh l.
Proof. intros [???]. split; [done|by apply tick_inv|done]. Qed.

Lemma new_table_vm_inv s root sh l π p i q :
  vm_inv s root sh (q :: l) → sh !! π = Some p → (length π < 2)%nat → 0 ≤ i < 512 →
  sh !! (π ++ [i]) = None →
  let s' := after_new_table p i q s in let sh' := <[π ++ [i] := q]> sh in
  vm_inv s' root sh' l ∧ pt_grow s sh (q :: l) s' sh' l ∧
  ∀ va, leaf_pte (k_mem s') sh' va = leaf_pte (k_mem s) sh va.
Proof.
  intros [Hrep Hk Hd] Hp Hlen Hi Hn s' sh'.
  pose proof (kmem_pages _ _ Hk) as [Hq Hl]%Forall_cons.
  pose proof (kmem_nodup _ _ Hk) as [Hql _]%NoDup_cons.
  assert (∀ π', sh !! π' ≠ Some q) as Hfresh by (intros π' Hq'%Hd; set_solver).
  assert (mem_same_outside (λ x, x = p ∨ x = q) (k_mem s) (k_mem s')) as Hout
    by by apply new_table_outside.
  split_and!.
  - split.
    + by apply pt_rep_new_table.
    + apply (kmem_inv_mem (after_kalloc q s)); [by apply after_kalloc_inv|].
      intros x Hx. rewrite Forall_forall in Hl. pose proof (Hl x Hx) as Hxok.
      assert (x ≠ p ∧ x ≠ q) as [? ?].
      { split; [|set_solver]. intros ->. apply (Hd π p Hp). set_solver. }
      replace x with (x + 8 * 0) by lia. cbn.
      rewrite new_table_other by (done || lia || by eapply rep_page).
      rewrite decide_False by naive_solver.
      symmetry. apply (outside_slot (λ y, y = q)); [apply memset_page_outside|done|naive_solver|lia].
    + intros π' x. unfold sh'. rewrite lookup_insert_Some. intros [[_ <-]|[_ Hx%Hd]]; [done|].
      set_solver.
  - split_and!.
    + etransitivity; [apply after_kalloc_frame|apply mem_frame_set_mem].
    + by apply insert_subseteq.
    + exists [q]. split_and!; [done| |].
      * intros x. rewrite list_elem_of_singleton. split.
        -- intros ->. exists (π ++ [i]). unfold sh'. by rewrite lookup_insert_eq.
        -- intros (π'&Hx&Hx'). unfold sh' in Hx. rewrite lookup_insert_Some in Hx.
           destruct Hx as [[_ <-]|[_ ?]]; [done|congruence].
      * eapply mem_same_outside_weaken; [|done]. intros x [->| ->]; unfold sh'.
        -- exists π. rewrite lookup_insert_ne; [done|].
           intros Heq%(f_equal length). rewrite length_app in Heq. simpl in Heq. lia.
        -- exists (π ++ [i]). by rewrite lookup_insert_eq.
  - intros va. by eapply leaf_pte_new_table.
Qed.

(** One level of [walk] with allocation. *)
Lemma walk_enter levels level s root sh l π p va :
  vm_inv s root sh l → sh !! π = Some p → (length π < 2)%nat → 0 ≤ level →
  (l = [] ∧ walk_loop (level :: levels) p va true s = Ret 0 (tick s)) ∨
  ∃ s' sh' l' q,
    walk_loop (level :: levels) p va true s = walk_loop levels q va true s' ∧
    vm_inv s' root sh' l' ∧ pt_grow s sh l s' sh' l' ∧ sh' !! (π ++ [PX level va]) = Some q ∧
    ∀ va', leaf_pte (k_mem s') sh' va' = leaf_pte (k_mem s) sh va'.
Proof.
  intros Hinv Hp Hlen Hlevel. pose proof (PX_range level va Hlevel) as Hi.
  pose proof Hinv as [Hrep Hk Hd]. set (i := PX level va) in *.
  cbn [walk_loop negb]. unfold load64. rewrite bind_gets. fold i.
  fold (valid (ld64 (k_mem s) (p + 8 * i))).
  destruct (sh !! (π ++ [i])) as [q|] eqn:Hq.
  { right. exists s, sh, l, q. destruct (rep_child _ _ _ π p i q Hrep) as [-> ->]; [done..|].
    split_and!; try done. apply pt_grow_refl. }
  rewrite (rep_nochild _ _ _ π p i Hrep) by done. destruct l as [|q l].
  { left. split; [done|]. by rewrite (bind_Ret _ _ _ _ _ (kalloc_eq_nil s Hk)). }
  right. destruct (new_table_vm_inv s root sh l π p i q) as (Hinv'&Hg&Hpte); [done..|].
  exists (after_new_table p i q s), (<[π ++ [i] := q]> sh), l, q. split_and!; [|done..|by rewrite lookup_insert_eq|done].
  rewrite (bind_Ret _ _ _ _ _ (kalloc_eq_cons s q l Hk)).
  pose proof (kmem_pages _ _ Hk) as [Hqok _]%Forall_cons.
  rewrite (proj2 (Z.eqb_neq _ _) (page_ok_nonzero q Hqok)).
  unfold store64, on_mem. rewrite !bind_modify.
  unfold after_new_table, new_table, after_kalloc, tick. kernel_eq.
Qed.

Lemma walk_alloc s root sh l va :
  vm_inv s root sh l → 0 ≤ va < MAXVA →
  ∃ r s' sh' l', walk root va true s = Ret r s' ∧ vm_inv s' root sh' l' ∧
    pt_grow s sh l s' sh' l' ∧
    (∀ va', leaf_pte (k_mem s') sh' va' = leaf_pte (k_mem s) sh va') ∧
    (r = 0 ∧ l' = [] ∨ leaf_addr sh' va = Some r).
Proof.
  intros Hinv Hva. unfold walk. case_test; [lia|].
  destruct (walk_enter [1] 2 s root sh l [] root va) as
    [[-> ->]|(s1&sh1&l1&q1&->&Hinv1&Hg1&Hq1&Hpte1)];
    [done|by eapply rep_root, vm_rep|simpl; lia|lia| |].
  { exists 0, (tick s), sh, []. split_and!; auto using tick_vm_inv, tick_grow. }
  destruct (walk_enter [] 1 s1 root sh1 l1 [PX 2 va] q1 va) as
    [[-> ->]|(s2&sh2&l2&q2&->&Hinv2&Hg2&Hq2&Hpte2)]; [done|done|simpl; lia|lia| |].
  { exists 0, (tick s1), sh1, []. split_and!; auto using tick_vm_inv.
    eapply pt_grow_trans; [done|apply tick_grow]. }
  exists (q2 + 8 * PX 0 va), s2, sh2, l2. split_and!; try done.
  - by eapply pt_grow_trans.
  - intros va'. by rewrite Hpte2, Hpte1.
  - right. unfold leaf_addr. by rewrite (Hq2 : sh2 !! [_; _] = _).
Qed.

(** ** Storing an entry *)

Lemma set_leaf s root sh l va a v :
  vm_inv s root sh l → leaf_addr sh va = Some a → 0 ≤ va < MAXVA →
  0 ≤ v < 18446744073709551616 →
  let s' := set_k_mem (st64 (k_mem s) a v) s in
  vm_inv s' root sh l ∧ pt_grow s sh l s' sh l ∧
  ∀ va', 0 ≤ va' < MAXVA → leaf_pte (k_mem s') sh va' =
    if decide (va' / 4096 = va / 4096) then v else leaf_pte (k_mem s) sh va'.
Proof.
  intros [Hrep Hk Hd] Ha Hva Hv s'.
  destruct (leaf_addr_slot _ _ _ _ _ Hrep Ha) as (p&Hp&->&Hpok&_).
  pose proof (PX_range 0 va ltac:(lia)) as Hi.
  split_and!.
  - split; [| |done].
    + eapply pt_rep_ext; [done|]. intros π q j Hq Hlen Hj. cbn.
      rewrite ld64_slot; [|by apply Hpok|by eapply rep_page|done..].
      rewrite decide_False; [done|]. intros [-> _].
      rewrite (rep_inj _ _ _ Hrep _ _ _ Hq Hp) in Hlen. simpl in Hlen. lia.
    + apply kmem_inv_mem; [done|]. intros q Hq.
      pose proof (kmem_pages _ _ Hk) as Hl. rewrite Forall_forall in Hl.
      replace q with (q + 8 * 0) by lia. rewrite ld64_slot by (done || lia || apply Hpok || by apply Hl).
      rewrite decide_False; [done|]. intros [-> _]. by apply (Hd _ _ Hp).
  - split_and!; [apply mem_frame_set_mem|done|]. exists [].
    split_and!; [done| |].
    { intros x. rewrite elem_of_nil. split; [done|]. intros (π&?&?). congruence. }
    intros b Hb. cbn. apply ld8_st64_other.
    specialize (Hb p (ex_intro _ _ Hp)). unfold PGSIZE in Hb. lia.
  - intros va' Hva'. unfold leaf_pte. case_decide as Hpg.
    + assert (leaf_addr sh va' = Some (p + 8 * PX 0 va)) as ->.
      { unfold leaf_addr in *. by rewrite !(PX_page _ va' va) by (done || lia). }
      cbn. rewrite ld64_st64_same. by apply u64_small.
    + destruct (leaf_addr sh va') as [a'|] eqn:Ha'; [|done]. cbn.
      destruct (leaf_addr_slot _ _ _ _ _ Hrep Ha') as (p'&Hp'&->&[Hpa' _]&_).
      pose proof (PX_range 0 va' ltac:(lia)). rewrite ld64_slot by (done || apply Hpok).
      rewrite decide_False; [done|]. intros [-> Heq]. apply Hpg.
      apply (leaf_addr_inj _ _ _ va' va _ Hrep Hva' Hva Ha'). by rewrite Ha, Heq.
Qed.

(** ** Translation *)

(** On a well-formed page table, [walkaddr] returns the physical address
    that the Sv39 tree gives to a valid, user-accessible page, and 0 for every
    other address (also those at or above MAXVA); it changes nothing. *)
Lemma walkaddr_correct s root sh va :
  pt_rep (k_mem s) sh root → 0 ≤ va →
  walkaddr root va s = Ret (translate (k_mem s) sh va) s.
Proof.
  intros Hrep Hva. unfold walkaddr, translate. case_test; [done|].
  rewrite (bind_Ret _ _ _ _ _ (walk_ro s root sh va Hrep ltac:(lia))).
  unfold leaf_pte. destruct (leaf_addr sh va) as [a|] eqn:Ha; simpl.
  - destruct (leaf_addr_slot _ _ _ _ _ Hrep Ha) as (_&_&_&_&Ha0).
    rewrite (proj2 (Z.eqb_neq _ _) Ha0). unfold load64. rewrite bind_gets. unfold valid, user.
    by destruct (_ =? 0), (Z.land _ PTE_U =? 0).
  - done.
Qed.

(** ** mappages *)

Lemma mapped_step f a b pa flags va :
  a mod 4096 = 0 → a + 4096 ≤ b →
  mapped (λ x, if decide (x / 4096 = a / 4096) then mk_pte pa flags else f x)
    (a + 4096) b (pa + 4096) flags va = mapped f a b pa flags va.
Proof.
  intros Ha Hb. unfold mapped. rewrite !PGROUNDDOWN_eq.
  repeat case_decide; try (exfalso; zdm); try done; f_equal; zdm.
Qed.

(** One page of [mappages]. *)
Lemma map_page s root sh l a pa perm :
  vm_inv s root sh l → 0 ≤ a < MAXVA → 0 ≤ pa < 2 ^ 56 → 0 ≤ perm < 1024 →
  valid (leaf_pte (k_mem s) sh a) = false →
  ∃ s' sh' l', vm_inv s' root sh' l' ∧ pt_grow s sh l s' sh' l' ∧
    ((l' = [] ∧ (∀ va, leaf_pte (k_mem s') sh' va = leaf_pte (k_mem s) sh va) ∧
      ∀ n last, mappages_loop (S n) root a last pa perm s = Ret (-1) s') ∨
     ((∀ va, 0 ≤ va < MAXVA → leaf_pte (k_mem s') sh' va =
        if decide (va / 4096 = a / 4096) then mk_pte pa (Z.lor perm PTE_V)
        else leaf_pte (k_mem s) sh va) ∧
      ∀ n last, mappages_loop (S n) root a last pa perm s =
        (if a =? last then mret 0
         else mappages_loop n root (u64 (a + PGSIZE)) last (u64 (pa + PGSIZE)) perm) s')).
Proof.
  intros Hinv Ha Hpa Hperm Hun.
  destruct (walk_alloc s root sh l a Hinv Ha) as (pte&s1&sh1&l1&Hrun&Hinv1&Hg1&Hpte1&Hr).
  destruct Hr as [[-> ->]|Hr].
  { exists s1, sh1, []. split_and!; [done..|]. left. split_and!; [done..|].
    intros n last. cbn [mappages_loop]. by rewrite (bind_Ret _ _ _ _ _ Hrun). }
  destruct (leaf_addr_slot _ _ _ _ _ (vm_rep _ _ _ _ Hinv1) Hr) as (_&_&_&_&Hr0).
  assert (0 ≤ Z.lor perm PTE_V < 1024) as Hf by (apply (lor_range _ _ 10); [lia|lia|done]).
  assert (Z.lor (Z.lor (PA2PTE pa) perm) PTE_V = mk_pte pa (Z.lor perm PTE_V)) as Hw.
  { by rewrite <- Z.lor_assoc, PA2PTE_lor. }
  destruct (set_leaf s1 root sh1 l1 a pte (mk_pte pa (Z.lor perm PTE_V)) Hinv1 Hr Ha)
    as (Hinv2&Hg2&Hpte2).
  { unfold mk_pte. change (2 ^ 56) with 72057594037927936 in Hpa. zdm. }
  eexists _, sh1, l1. split_and!; [exact Hinv2|by eapply pt_grow_trans|].
  right. split.
  { intros va Hva. rewrite Hpte2 by done. by rewrite Hpte1. }
  intros n last. cbn [mappages_loop]. rewrite (bind_Ret _ _ _ _ _ Hrun).
  rewrite (proj2 (Z.eqb_neq _ _) Hr0). unfold load64. rewrite bind_gets.
  fold (valid (ld64 (k_mem s1) pte)).
  replace (ld64 (k_mem s1) pte) with (leaf_pte (k_mem s1) sh1 a) by (unfold leaf_pte; by rewrite Hr).
  rewrite Hpte1, Hun, Hw. reflexivity.
Qed.

Lemma mappages_loop_ok n s root sh l a last pa perm :
  vm_inv s root sh l → a mod 4096 = 0 → 0 ≤ a → a + Z.of_nat n * 4096 = last → last < MAXVA →
  0 ≤ pa → pa + (last - a) < 2 ^ 56 → 0 ≤ perm < 1024 →
  (∀ va, a ≤ va < last + 4096 → valid (leaf_pte (k_mem s) sh va) = false) →
  ∃ r s' sh' l' b, mappages_loop (S n) root a last pa perm s = Ret r s' ∧
    vm_inv s' root sh' l' ∧ pt_grow s sh l s' sh' l' ∧ a ≤ b ∧
    (∀ va, 0 ≤ va < MAXVA → leaf_pte (k_mem s') sh' va =
      mapped (leaf_pte (k_mem s) sh) a b pa (Z.lor perm PTE_V) va) ∧
    (r = 0 ∧ b = last + 4096 ∨ r = -1 ∧ l' = [] ∧ b ≤ last).
Proof.
  revert s sh l a pa.
  induction n as [|n IH]; intros s sh l a pa Hinv Ha Ha0 Hlast Hmax Hpa Hpa' Hperm Hun;
  (destruct (map_page s root sh l a pa perm Hinv) as
    (s1&sh1&l1&Hinv1&Hg1&[(->&Hpte&Hrun)|(Hpte&Hrun)]); [lia|lia|done|apply Hun; lia|..]).
  1,3: exists (-1), s1, sh1, [], a; split_and!; [apply Hrun|done..|lia| |right; auto with lia];
    intros va Hva; rewrite Hpte; unfold mapped; by rewrite decide_False by lia.
  - exists 0, s1, sh1, l1, (last + 4096). split_and!; [|done..|lia| |by left].
    { rewrite Hrun. rewrite (proj2 (Z.eqb_eq _ _)) by lia. done. }
    intros va Hva. rewrite Hpte by done. rewrite <- mapped_step by lia.
    unfold mapped at 1. by rewrite (decide_False (P := a + 4096 ≤ va < last + 4096)) by lia.
  - change MAXVA with 274877906944 in *. change (2 ^ 56) with 72057594037927936 in *.
    destruct (IH s1 sh1 l1 (a + 4096) (pa + 4096)) as
      (r&s2&sh2&l2&b&Hrun2&Hinv2&Hg2&Hb&Hpte2&Hr); [done|zdm|lia..|done| |].
    { intros va Hva. rewrite Hpte by zdm. rewrite decide_False by zdm. apply Hun. lia. }
    exists r, s2, sh2, l2, b. split_and!; [|done|by eapply pt_grow_trans|lia| |done].
    { rewrite Hrun. rewrite (proj2 (Z.eqb_neq _ _)) by lia.
      unfold PGSIZE. rewrite !u64_small by lia. exact Hrun2. }
    intros va Hva. rewrite Hpte2 by done. rewrite <- (mapped_step _ a) by lia.
    unfold mapped. case_decide; [done|by rewrite Hpte].
Qed.

(** C16: mapping a range of unmapped pages never panics. When [mappages]
    returns 0, exactly the pages that [va, va+size) touches are mapped, to
    consecutive physical pages from [pa] with [perm|PTE_V]; when it returns -1
    the allocator ran out and a prefix of them is. No other translation
    changes, every page taken from the allocator became a table of this tree,
    and memory outside the tables is untouched. *)
Theorem mappages_correct s root sh l va size pa perm :
  vm_inv s root sh l → 0 ≤ va → 0 < size → va + size ≤ MAXVA →
  0 ≤ pa → pa + size + 4096 < 2 ^ 56 → 0 ≤ perm < 1024 →
  (∀ x, PGROUNDDOWN va ≤ x < PGROUNDDOWN (va + size - 1) + PGSIZE →
     valid (leaf_pte (k_mem s) sh x) = false) →
  ∃ r s' sh' l' b, mappages root va size pa perm s = Ret r s' ∧
    vm_inv s' root sh' l' ∧ pt_grow s sh l s' sh' l' ∧ PGROUNDDOWN va ≤ b ∧
    (∀ x, 0 ≤ x < MAXVA → leaf_pte (k_mem s') sh' x =
      mapped (leaf_pte (k_mem s) sh) (PGROUNDDOWN va) b pa (Z.lor perm PTE_V) x) ∧
    (r = 0 ∧ b = PGROUNDDOWN (va + size - 1) + PGSIZE ∨
     r = -1 ∧ l' = [] ∧ b ≤ PGROUNDDOWN (va + size - 1)).
Proof.
  intros Hinv Hva Hsize Hmax Hpa Hpa' Hperm Hun.
  rewrite !PGROUNDDOWN_eq in *. unfold PGSIZE in *.
  set (a := va / 4096 * 4096) in *. set (last := (va + size - 1) / 4096 * 4096) in *.
  assert (a ≤ last) as Hal by (subst a last; zdm).
  set (n := Z.to_nat ((last - a) / 4096)).
  destruct (mappages_loop_ok n s root sh l a last pa perm) as (r&s'&sh'&l'&b&Hrun&Hrest);
    [done|subst a; zdm|subst a; zdm|subst n a last; zdm|subst last; zdm|done|
     subst a last; zdm|done|done|].
  exists r, s', sh', l', b. split; [|done]. unfold mappages. case_test; [lia|].
  change MAXVA with 274877906944 in *. rewrite u64_small by lia.
  rewrite !PGROUNDDOWN_eq. fold a last. unfold mappages_bound.
  by rewrite (proj2 (Z.leb_le _ _)) by lia.
Qed.

(** ** Unmapping *)

(** Memory changes outside the tables keep the tree. *)
Lemma pt_rep_outside P m m' sh root :
  pt_rep m sh root → mem_same_outside P m m' →
  (∀ q, P q → page_ok q ∧ ∀ π, sh !! π ≠ Some q) →
  pt_rep m' sh root ∧ ∀ va, leaf_pte m' sh va = leaf_pte m sh va.
Proof.
  intros Hrep Hm HP.
  assert (∀ π p i, sh !! π = Some p → 0 ≤ i < 512 → ld64 m' (p + 8 * i) = ld64 m (p + 8 * i)) as Hs.
  { intros π p i Hp Hi. apply (outside_slot P); [done|by eapply rep_page| |done].
    intros q Hq. destruct (HP q Hq) as [Hok Hne]. split; [done|]. intros ->. by apply (Hne π). }
  split; [eapply pt_rep_ext; eauto|]. intros va. apply leaf_pte_ext. eauto.
Qed.

Lemma vm_inv_kfree s root sh l p :
  vm_inv s root sh l → page_ok p → p ∉ l → (∀ π, sh !! π ≠ Some p) →
  kfree p s = Ret tt (after_kfree p s) ∧ vm_inv (after_kfree p s) root sh (p :: l) ∧
  ∀ va, leaf_pte (k_mem (after_kfree p s)) sh va = leaf_pte (k_mem s) sh va.
Proof.
  intros [Hrep Hk Hd] Hp Hpl Hsh. split; [by eapply kfree_eq|].
  destruct (pt_rep_outside _ _ _ sh root Hrep (after_kfree_outside p s)) as [Hrep' Hpte].
  { by intros q ->. }
  split; [|done]. split; [done|by apply after_kfree_inv|].
  intros π q Hq. pose proof (Hd π q Hq). specialize (Hsh π). set_solver.
Qed.

Lemma frames_ext f g n a :
  (∀ va, a ≤ va < a + Z.of_nat n * 4096 → f va = g va) → frames f n a = frames g n a.
Proof.
  revert a. induction n as [|n IH]; intros a Hfg; [done|]. cbn [frames].
  rewrite Hfg by lia. f_equal. apply IH. intros va Hva. apply Hfg. lia.
Qed.

(** One page of [uvmunmap]: the entry of [a] is cleared, its frame freed. *)
Lemma unmap_page s root sh l a last do_free :
  vm_inv s root sh l → 0 ≤ a < last → a < MAXVA →
  valid (leaf_pte (k_mem s) sh a) = true → PTE_FLAGS (leaf_pte (k_mem s) sh a) ≠ PTE_V →
  (do_free = true → data_pages sh l [PTE2PA (leaf_pte (k_mem s) sh a)]) →
  ∃ s', (∀ n, uvmunmap_loop (S n) root a last do_free s =
      uvmunmap_loop n root (u64 (a + PGSIZE)) last do_free s') ∧
    vm_inv s' root sh (if do_free then PTE2PA (leaf_pte (k_mem s) sh a) :: l else l) ∧
    mem_frame s s' ∧
    mem_same_outside (λ p, (∃ π, sh !! π = Some p) ∨
      do_free = true ∧ p = PTE2PA (leaf_pte (k_mem s) sh a)) (k_mem s) (k_mem s') ∧
    ∀ va, 0 ≤ va < MAXVA → leaf_pte (k_mem s') sh va =
      if decide (va / 4096 = a / 4096) then 0 else leaf_pte (k_mem s) sh va.
Proof.
  intros Hinv Ha Hmax Hv Hfl Hdf. set (v := leaf_pte (k_mem s) sh a) in *.
  assert (∃ pte, leaf_addr sh a = Some pte ∧ ld64 (k_mem s) pte = v) as (pte & Hpte & Hld).
  { unfold v, leaf_pte in *. destruct (leaf_addr sh a) as [pte|]; [by exists pte|done]. }
  destruct (leaf_addr_slot _ _ _ _ _ (vm_rep _ _ _ _ Hinv) Hpte) as (_&_&_&_&Hne0).
  assert (∃ s1, when do_free (kfree (PTE2PA v)) s = Ret tt s1 ∧
    vm_inv s1 root sh (if do_free then PTE2PA v :: l else l) ∧ mem_frame s s1 ∧
    mem_same_outside (λ p, do_free = true ∧ p = PTE2PA v) (k_mem s) (k_mem s1) ∧
    ∀ va, leaf_pte (k_mem s1) sh va = leaf_pte (k_mem s) sh va)
    as (s1&Hfree&Hinv1&Hf1&Hm1&Hpte1).
  { destruct do_free; [|by exists s; split_and!]. destruct (Hdf eq_refl) as (_&Hok&Hl&Hsh).
    apply Forall_cons in Hok as [Hok _].
    destruct (vm_inv_kfree s root sh l (PTE2PA v) Hinv) as (Hrun&Hinv'&Hp'); [done|..].
    { apply Hl. set_solver. } { apply Hsh. set_solver. }
    exists (after_kfree (PTE2PA v) s). split_and!; [exact Hrun|done|apply after_kfree_frame| |done].
    eapply mem_same_outside_weaken; [|apply after_kfree_outside]. by intros q ->. }
  destruct (set_leaf s1 root sh _ a pte 0 Hinv1 Hpte) as (Hinv2&(Hf2&_&u&_&_&Hm2)&Hpte2); [lia|lia|].
  eexists. split_and!; [|exact Hinv2|by etransitivity| |].
  - intros n. cbn [uvmunmap_loop]. case_test; [lia|].
    rewrite (bind_Ret _ _ _ _ _ (walk_ro s root sh a (vm_rep _ _ _ _ Hinv) ltac:(lia))).
    rewrite Hpte. simpl. rewrite (proj2 (Z.eqb_neq _ _) Hne0). unfold load64. rewrite bind_gets, Hld.
    unfold valid in Hv. apply negb_true_iff in Hv. rewrite Hv.
    rewrite (proj2 (Z.eqb_neq _ _) Hfl). rewrite (bind_Ret _ _ _ _ _ Hfree). reflexivity.
  - eapply mem_same_outside_trans; (eapply mem_same_outside_weaken; [|done]); cbn; auto.
  - intros va Hva. rewrite Hpte2 by done. by rewrite Hpte1.
Qed.

Lemma data_pages_cons sh l p ps :
  data_pages sh l (p :: ps) → data_pages sh l [p] ∧ data_pages sh (p :: l) ps.
Proof.
  intros ([Hp Hnd]%NoDup_cons&[Hok Hoks]%Forall_cons&Hl&Hsh). split; split_and!; try done.
  - apply NoDup_singleton. - by constructor. - set_solver. - set_solver. - set_solver.
  - set_solver.
Qed.

Lemma unmapped_step f a b va :
  a mod 4096 = 0 → a + 4096 ≤ b →
  unmapped (λ x, if decide (x / 4096 = a / 4096) then 0 else f x) (a + 4096) b va =
    unmapped f a b va.
Proof. intros Ha Hb. unfold unmapped. repeat case_decide; try (exfalso; zdm); done. Qed.

Lemma uvmunmap_loop_ok n s root sh l a last do_free :
  vm_inv s root sh l → a mod 4096 = 0 → 0 ≤ a → a + Z.of_nat n * 4096 = last → last ≤ MAXVA →
  (∀ va, a ≤ va < last → valid (leaf_pte (k_mem s) sh va) = true ∧
     PTE_FLAGS (leaf_pte (k_mem s) sh va) ≠ PTE_V) →
  (do_free = true → data_pages sh l (frames (leaf_pte (k_mem s) sh) n a)) →
  ∃ s', uvmunmap_loop (S n) root a last do_free s = Ret tt s' ∧
    vm_inv s' root sh
      (if do_free then reverse (frames (leaf_pte (k_mem s) sh) n a) ++ l else l) ∧
    mem_frame s s' ∧
    mem_same_outside (λ p, (∃ π, sh !! π = Some p) ∨
      do_free = true ∧ p ∈ frames (leaf_pte (k_mem s) sh) n a) (k_mem s) (k_mem s') ∧
    ∀ va, 0 ≤ va < MAXVA → leaf_pte (k_mem s') sh va =
      unmapped (leaf_pte (k_mem s) sh) a last va.
Proof.
  revert s l a. induction n as [|n IH]; intros s l a Hinv Ha Ha0 Hlast Hmax Hmap Hdata.
  { exists s. cbn [uvmunmap_loop frames]. case_test; [|lia].
    split_and!; [done|by destruct do_free|reflexivity|by intros x|].
    intros va Hva. unfold unmapped. by rewrite decide_False by lia. }
  destruct (Hmap a ltac:(lia)) as [Hv Hfl].
  destruct (unmap_page s root sh l a last do_free Hinv) as (s1&Hrun&Hinv1&Hf1&Hm1&Hp1);
    [lia|lia|done|done|intros Hd; by destruct (data_pages_cons _ _ _ _ (Hdata Hd))|].
  change MAXVA with 274877906944 in *.
  assert (∀ va, a + 4096 ≤ va < last → leaf_pte (k_mem s1) sh va = leaf_pte (k_mem s) sh va) as Hsame.
  { intros va Hva. rewrite Hp1 by lia. rewrite decide_False; [done|zdm]. }
  assert (frames (leaf_pte (k_mem s1) sh) n (a + 4096) =
    frames (leaf_pte (k_mem s) sh) n (a + 4096)) as Hfr.
  { apply frames_ext. intros va Hva. apply Hsame. lia. }
  destruct (IH s1 (if do_free then PTE2PA (leaf_pte (k_mem s) sh a) :: l else l) (a + 4096))
    as (s2&Hrun2&Hinv2&Hf2&Hm2&Hp2); [done|zdm|lia|lia|lia| | |].
  { intros va Hva. rewrite Hsame by lia. apply Hmap. lia. }
  { intros ->. rewrite Hfr. by destruct (data_pages_cons _ _ _ _ (Hdata eq_refl)). }
  rewrite Hfr in Hinv2, Hm2. exists s2. split_and!.
  - rewrite Hrun. unfold PGSIZE. by rewrite u64_small by lia.
  - destruct do_free; [|done]. cbn [frames]. by rewrite reverse_cons, <- app_assoc.
  - by etransitivity.
  - eapply mem_same_outside_trans; (eapply mem_same_outside_weaken; [|done]); cbn [frames];
      intros q [?|[? Hq]]; [by left|right|by left|right];
      (split; [done|]); rewrite elem_of_cons; auto.
  - intros va Hva. rewrite Hp2 by done. rewrite <- (unmapped_step _ a) by lia.
    unfold unmapped. case_decide; [done|by rewrite Hp1].
Qed.

(** C17: unmapping a range of mapped pages never panics: afterwards exactly
    those pages are unmapped, every other translation is as before, and with
    [do_free] their frames, and nothing else, are back on the free list. *)
Theorem uvmunmap_correct s root sh l va npages do_free :
  vm_inv s root sh l → va mod PGSIZE = 0 → 0 ≤ va → 0 ≤ npages → va + npages * PGSIZE ≤ MAXVA →
  (∀ x, va ≤ x < va + npages * PGSIZE → valid (leaf_pte (k_mem s) sh x) = true ∧
     PTE_FLAGS (leaf_pte (k_mem s) sh x) ≠ PTE_V) →
  (do_free = true → data_pages sh l (frames (leaf_pte (k_mem s) sh) (Z.to_nat npages) va)) →
  ∃ s', uvmunmap root va npages do_free s = Ret tt s' ∧
    vm_inv s' root sh
      (if do_free
       then reverse (frames (leaf_pte (k_mem s) sh) (Z.to_nat npages) va) ++ l else l) ∧
    mem_frame s s' ∧
    mem_same_outside (λ p, (∃ π, sh !! π = Some p) ∨ do_free = true ∧
      p ∈ frames (leaf_pte (k_mem s) sh) (Z.to_nat npages) va) (k_mem s) (k_mem s') ∧
    ∀ x, 0 ≤ x < MAXVA → leaf_pte (k_mem s') sh x =
      unmapped (leaf_pte (k_mem s) sh) va (va + npages * PGSIZE) x.
Proof.
  intros Hinv Ha Hva Hn Hmax Hmap Hdata. unfold PGSIZE in *.
  destruct (uvmunmap_loop_ok (Z.to_nat npages) s root sh l va (va + npages * 4096) do_free)
    as (s'&Hrun&Hrest); [done..|lia|done|done|done|].
  exists s'. split; [|exact Hrest]. unfold uvmunmap, PGSIZE. rewrite Ha. cbn [Z.eqb negb].
  change MAXVA with 274877906944 in *. by rewrite u64_small by lia.
Qed.

End theorems.

(** ** An address space with one page *)

Definition demo_mem : gmap Z Z :=
  st64 (st64 (st64 ∅ (0x80200000 + 8 * 0) (mk_pte 0x80201000 1))
    (0x80201000 + 8 * 0) (mk_pte 0x80202000 1)) (0x80202000 + 8 * 0) (mk_pte 0x80203000 0x17).

Definition demo_sh : gmap (list Z) Z :=
  <[[] := 0x80200000]> (<[[0] := 0x80201000]> (<[[0; 0] := 0x80202000]> ∅)).

Definition demo : kernel := set_k_mem demo_mem one_page.

Lemma demo_sh_inv π p :
  demo_sh !! π = Some p →
  (π = [] ∧ p = 0x80200000) ∨ (π = [0] ∧ p = 0x80201000) ∨ (π = [0; 0] ∧ p = 0x80202000).
Proof. unfold demo_sh. rewrite !lookup_insert_Some, lookup_empty. naive_solver. Qed.

Lemma ld64_demo p i :
  p mod PGSIZE = 0 → 0 ≤ i < 512 →
  ld64 demo_mem (p + 8 * i) =
    if decide (0x80202000 = p ∧ 0 = i) then mk_pte 0x80203000 0x17
    else if decide (0x80201000 = p ∧ 0 = i) then mk_pte 0x80202000 1
    else if decide (0x80200000 = p ∧ 0 = i) then mk_pte 0x80201000 1 else 0.
Proof.
  intros Hp Hi. unfold demo_mem. rewrite !ld64_slot by (done || lia).
  repeat case_decide; try done.
Qed.

Lemma demo_pt_rep : @pt_rep image0 demo_mem demo_sh 0x80200000.
Proof.
  split.
  - done.
  - intros π p i [[-> ->]|[[-> ->]|[-> ->]]]%demo_sh_inv Hlen Hi; [| |simpl in Hlen; lia];
    rewrite ld64_demo by done; destruct (decide (i = 0)) as [->|Hi0]; try done;
    (rewrite (proj2 (eq_None_not_Some _)) by (intros [q Hq%demo_sh_inv]; naive_solver));
    by rewrite !decide_False by naive_solver.
  - intros π π' p H1%demo_sh_inv H2%demo_sh_inv. naive_solver.
  - intros π p Hp%demo_sh_inv. destruct Hp as [[_ ->]|[[_ ->]|[_ ->]]]; split; vm_compute; done.
  - intros π i p Hp%demo_sh_inv.
    destruct Hp as [[Hp _]|[[Hp _]|[Hp _]]].
    + by destruct π.
    + destruct π as [|? [|]]; simplify_eq/=. split; [by eexists|lia].
    + destruct π as [|? [|? [|]]]; simplify_eq/=. split; [by eexists|lia].
Qed.

Lemma demo_vm_inv : @vm_inv image0 demo 0x80200000 demo_sh [0x80100000].
Proof.
  split.
  - apply demo_pt_rep.
  - apply (@kmem_inv_mem image0 one_page); [apply one_page_inv|].
    intros p ->%list_elem_of_singleton. vm_compute. done.
  - intros π p Hp%demo_sh_inv. rewrite list_elem_of_singleton.
    destruct Hp as [[_ ->]|[[_ ->]|[_ ->]]]; done.
Qed.

Lemma leaf_pte_demo va :
  0 ≤ va < MAXVA → leaf_pte demo_mem demo_sh va = if decide (va < 4096) then mk_pte 0x80203000 0x17 else 0.
Proof.
  intros Hva. pose proof (page_number va Hva) as Hpn. unfold leaf_pte, leaf_addr.
  pose proof (PX_range 0 va ltac:(lia)). pose proof (PX_range 1 va ltac:(lia)).
  pose proof (PX_range 2 va ltac:(lia)).
  destruct (demo_sh !! [PX 2 va; PX 1 va]) as [p|] eqn:Hp; cbn.
  - apply demo_sh_inv in Hp as [[? _]|[[? _]|[[= E2 E1] ->]]]; [done..|].
    rewrite ld64_demo by done. rewrite E1, E2 in Hpn.
    destruct (decide (PX 0 va = 0)) as [E0|E0].
    + rewrite E0 in *. rewrite (decide_True (P := va < 4096)) by zdm. done.
    + rewrite (decide_False (P := va < 4096)) by zdm.
      rewrite !decide_False by (intros [? ?]; lia). done.
  - rewrite decide_False; [done|]. intros Hlt. assert (PX 2 va = 0 ∧ PX 1 va = 0) as [E2 E1] by zdm.
    by rewrite E1, E2 in Hp.
Qed.

Lemma mappages_correct_witness :
  ∃ r s', @mappages 0x80200000 0x1000 0x1000 0x80204000 6 demo = Ret r s'.
Proof.
  destruct (@mappages_correct image0 _ demo 0x80200000 demo_sh [0x80100000] 0x1000 0x1000
    0x80204000 6) as (r&s'&sh'&l'&b&Hrun&_);
    [apply demo_vm_inv|lia|lia|done|lia|done|lia| |exists r, s'; exact Hrun].
  intros x Hx. rewrite !PGROUNDDOWN_eq in Hx.
  change (0x1000 / 4096 * 4096) with 4096 in Hx.
  change ((0x1000 + 0x1000 - 1) / 4096 * 4096) with 4096 in Hx. unfold PGSIZE in Hx.
  rewrite leaf_pte_demo by (change MAXVA with 274877906944; lia).
  by rewrite decide_False by lia.
Defined.

Lemma uvmunmap_correct_witness :
  ∃ s', @uvmunmap image0 0x80200000 0 1 true demo = Ret tt s' ∧
    @vm_inv image0 s' 0x80200000 demo_sh [0x80203000; 0x80100000].
Proof.
  destruct (@uvmunmap_correct image0 _ demo 0x80200000 demo_sh [0x80100000] 0 1 true)
    as (s'&Hrun&Hinv&_); [apply demo_vm_inv|done|lia|lia|done| | |exists s'; exact (conj Hrun Hinv)].
  - intros x Hx. unfold PGSIZE in Hx.
    rewrite leaf_pte_demo by (change MAXVA with 274877906944; lia).
    rewrite decide_True by lia. split; vm_compute; done.
  - intros _. change (frames _ _ 0) with [0x80203000]. split_and!.
    + apply NoDup_singleton.
    + constructor; [split; vm_compute; done|constructor].
    + intros p ->%list_elem_of_singleton. rewrite list_elem_of_singleton. done.
    + intros p ->%list_elem_of_singleton π Hp%demo_sh_inv. naive_solver.
Defined.
