(* ===== verification/CopySpec.v ===== *)
(** * copyout, copyin and copyinstr (vm.c)

    The kernel's only ways into user memory. They are specified on the bytes
    a page table gives a user program ([umem]): a transfer that succeeds moves
    exactly the bytes asked for, one that fails stops at the first page the
    user may not access, and neither touches anything but user pages. *)

From S2P Require Import Prelude State Mem Kstring Spinlock Kalloc Vm PageTable VmSpec.

(** The byte a user program sees at [va]. *)
Definition umem (m : gmap Z Z) (sh : gmap (list Z) Z) (va : Z) : option Z :=
  let pa := translate m sh va in
  if pa =? 0 then None else Some (ld8 m (pa + va mod 4096)).

(** The bytes of [n] addresses from [va], when the user may access them all. *)
Fixpoint uread (m : gmap Z Z) (sh : gmap (list Z) Z) (n : nat) (va : Z) : option (list Z) :=
  match n with
  | O => Some []
  | S n' => x ← umem m sh va; xs ← uread m sh n' (va + 1); Some (x :: xs)
  end.

(** An address space: user pages are allocated, private, and not tables. *)
Record uvm_inv `{Image} (s : kernel) (root : Z) (sh : gmap (list Z) Z) (l : list Z) : Prop := {
  uvm_vm : vm_inv s root sh l;
  uvm_page va : 0 ≤ va → translate (k_mem s) sh va ≠ 0 →
    page_ok (translate (k_mem s) sh va) ∧ translate (k_mem s) sh va ∉ l ∧
    ∀ π, sh !! π ≠ Some (translate (k_mem s) sh va);
  uvm_inj va va' : 0 ≤ va → 0 ≤ va' → translate (k_mem s) sh va ≠ 0 →
    translate (k_mem s) sh va = translate (k_mem s) sh va' → va / 4096 = va' / 4096;
}.

Section theorems.
Context {I : Image} {IO : ImageOk I}.

Lemma translate_page m sh va va' :
  va / 4096 = va' / 4096 → translate m sh va = translate m sh va'.
Proof.
  intros Hp. unfold translate. rewrite (leaf_pte_page m sh va va' Hp).
  change MAXVA with 274877906944.
  assert (274877906944 <=? va = (274877906944 <=? va')) as ->; [|done].
  apply eq_true_iff_eq. rewrite !Z.leb_le. zdm.
Qed.

Lemma translate_ext m m' sh va :
  (∀ x, leaf_pte m' sh x = leaf_pte m sh x) → translate m' sh va = translate m sh va.
Proof. intros H. unfold translate. by rewrite H. Qed.

(** Writing inside one user page. *)
Lemma user_store s root sh l va bs :
  uvm_inv s root sh l → 0 ≤ va → Forall (λ x, 0 ≤ x < 256) bs →
  translate (k_mem s) sh va ≠ 0 → va mod 4096 + Z.of_nat (length bs) ≤ 4096 →
  let pa := translate (k_mem s) sh va in
  let s' := set_k_mem (st_bytes (k_mem s) (pa + va mod 4096) bs) s in
  uvm_inv s' root sh l ∧ mem_same_outside (λ p, p = pa) (k_mem s) (k_mem s') ∧
  (∀ x, leaf_pte (k_mem s') sh x = leaf_pte (k_mem s) sh x) ∧
  ∀ x, 0 ≤ x → umem (k_mem s') sh x =
    if decide (va ≤ x < va + Z.of_nat (length bs)) then bs !! Z.to_nat (x - va)
    else umem (k_mem s) sh x.
Proof.
  intros [Hinv Hpage Hinj] Hva Hbs Hpa Hlen pa s'.
  destruct (Hpage va Hva Hpa) as (Hok&Hl&Hsh). destruct (page_ok_range pa Hok) as [Hal Hr].
  assert (mem_same_outside (λ p, p = pa) (k_mem s) (k_mem s')) as Hout.
  { intros a Ha. specialize (Ha pa eq_refl). unfold PGSIZE in Ha. cbn.
    apply ld8_st_bytes_other. zdm. }
  destruct Hinv as [Hrep Hk Hd].
  destruct (pt_rep_outside _ _ _ sh root Hrep Hout) as [Hrep' Hpte]; [by intros q ->|].
  assert (∀ x, translate (k_mem s') sh x = translate (k_mem s) sh x) as Htr
    by (intros; by apply translate_ext).
  split_and!; [split|done|done|].
  - split; [done| |done]. apply kmem_inv_mem; [done|]. intros q Hq.
    pose proof (kmem_pages _ _ Hk) as Hall. rewrite Forall_forall in Hall.
    replace q with (q + 8 * 0) by lia. apply (outside_slot (λ p, p = pa)); [done|by apply Hall| |lia].
    intros r ->. split; [done|]. intros Heq. apply Hl. fold pa. by rewrite Heq.
  - intros x. rewrite !Htr. apply Hpage.
  - intros x y. rewrite !Htr. apply Hinj.
  - intros x Hx. unfold umem. rewrite Htr. case_test.
    { case_decide; [|done]. exfalso. apply Hpa. rewrite (translate_page _ _ va x); [done|zdm]. }
    destruct (decide (x / 4096 = va / 4096)) as [Hpg|Hpg].
    + rewrite (translate_page _ _ x va Hpg). fold pa. cbn. case_decide as Hx'.
      * replace (pa + x mod 4096) with (pa + va mod 4096 + Z.of_nat (Z.to_nat (x - va))) by zdm.
        destruct (lookup_lt_is_Some_2 bs (Z.to_nat (x - va))) as [b Hb]; [lia|].
        rewrite Hb. f_equal. by apply ld8_st_bytes.
      * f_equal. apply ld8_st_bytes_other. zdm.
    + rewrite decide_False by zdm. f_equal. apply Hout. intros p ->.
      destruct (Hpage x Hx) as ([Hxa _]&_&_); [done|].
      assert (translate (k_mem s) sh x ≠ pa) by (intros Heq; by destruct (Hpg (Hinj x va Hx Hva ltac:(done) Heq))).
      unfold PGSIZE in *. zdm.
Qed.

(** ** Kernel to user *)

(** The page-sized pieces of a transfer of [len] bytes at [va]. *)
Lemma chunk_ok va len :
  0 ≤ va → 0 < len →
  let k := chunk va (PGROUNDDOWN va) len in
  0 < k ≤ len ∧ va mod 4096 + k ≤ 4096 ∧ va - PGROUNDDOWN va = va mod 4096 ∧
  (k < len → va + k = PGROUNDDOWN va + PGSIZE).
Proof.
  intros Hva Hlen. unfold chunk, PGSIZE. rewrite PGROUNDDOWN_eq. case_test; zdm.
Qed.

Lemma translate_zero_max m sh va : MAXVA ≤ va → translate m sh va = 0.
Proof. intros H. unfold translate. by rewrite (proj2 (Z.leb_le _ _)). Qed.

(** The start of the page translates as the address does. *)
Lemma walkaddr_base s root sh l va :
  uvm_inv s root sh l → 0 ≤ va →
  walkaddr root (PGROUNDDOWN va) s = Ret (translate (k_mem s) sh va) s.
Proof.
  intros [[Hrep _ _] _ _] Hva. rewrite PGROUNDDOWN_eq.
  rewrite (walkaddr_correct s root sh) by (done || zdm).
  f_equal. apply translate_page. zdm.
Qed.

Lemma copyout_loop_ok n s root sh l dstva src :
  uvm_inv s root sh l → 0 ≤ dstva → Forall (λ x, 0 ≤ x < 256) src → (length src ≤ n)%nat →
  ∃ r s' k, copyout_loop n root dstva src s = Ret r s' ∧ uvm_inv s' root sh l ∧
    mem_frame s s' ∧ 0 ≤ k ∧
    mem_same_outside (λ p, p ≠ 0 ∧ ∃ va, dstva ≤ va ∧ p = translate (k_mem s) sh va)
      (k_mem s) (k_mem s') ∧
    (∀ va, leaf_pte (k_mem s') sh va = leaf_pte (k_mem s) sh va) ∧
    (∀ va, 0 ≤ va → umem (k_mem s') sh va =
      if decide (dstva ≤ va < dstva + k) then src !! Z.to_nat (va - dstva)
      else umem (k_mem s) sh va) ∧
    (r = 0 ∧ k = Z.of_nat (length src) ∨
     r = -1 ∧ k < Z.of_nat (length src) ∧ umem (k_mem s) sh (dstva + k) = None).
Proof.
  revert s dstva src. induction n as [|n IH]; intros s dstva src Hinv Hva Hsrc Hn.
  { destruct src; [|simpl in *; lia]. exists 0, s, 0. split_and!; [done|done|apply mem_frame_refl|done|by intros a|done| |by left].
    intros va _. by rewrite decide_False by lia. }
  cbn [copyout_loop]. case_test.
  { destruct src; [|simpl in *; lia]. exists 0, s, 0. split_and!; [done|done|apply mem_frame_refl|done|by intros a|done| |by left].
    intros va _. by rewrite decide_False by lia. }
  set (len := Z.of_nat (length src)) in *.
  destruct (chunk_ok dstva len Hva) as (Hk&Hk4&Hoff&Hnext); [lia|].
  rewrite (bind_Ret _ _ _ _ _ (walkaddr_base s root sh l dstva Hinv Hva)). case_test.
  { exists (-1), s, 0. split_and!; [done|done|apply mem_frame_refl|done|by intros a|done| |].
    - intros va _. by rewrite decide_False by lia.
    - right. split_and!; [done|lia|]. unfold umem. by rewrite Z.add_0_r, (proj2 (Z.eqb_eq _ _)). }
  set (k := chunk dstva (PGROUNDDOWN dstva) len) in *.
  assert (length (take (Z.to_nat k) src) = Z.to_nat k) as Hlk by (rewrite length_take; lia).
  destruct (user_store s root sh l dstva (take (Z.to_nat k) src) Hinv Hva) as (Hinv1&Hm1&Hpte1&Hu1);
    [by apply Forall_take|done|rewrite Hlk; lia|].
  set (s1 := set_k_mem _ s) in *.
  unfold on_mem. rewrite bind_modify, Hoff. fold s1.
  destruct (decide (k = len)) as [Hkl|Hkl].
  - rewrite drop_ge by lia. exists 0, s1, len.
    split_and!; [by destruct n|done|apply mem_frame_set_mem|lia| |done| |by left].
    + eapply mem_same_outside_weaken; [|exact Hm1]. intros p ->. split; [done|]. exists dstva. by split; [lia|].
    + intros va Hx. rewrite Hu1, take_ge by (done || lia). done.
  - assert (dstva < MAXVA) as Hmax.
    { destruct (decide (dstva < MAXVA)); [done|]. rewrite translate_zero_max in * by lia. done. }
    change MAXVA with 274877906944 in Hmax. specialize (Hnext ltac:(lia)).
    rewrite <- Hnext. rewrite u64_small by zdm.
    destruct (IH s1 (dstva + k) (drop (Z.to_nat k) src)) as (r&s2&k2&Hrun&Hinv2&Hf2&Hk2&Hm2&Hpte2&Hu2&Hr);
      [done|lia|by apply Forall_drop|rewrite length_drop; lia|].
    rewrite length_drop in Hr. exists r, s2, (k + k2).
    split_and!; [exact Hrun|done|etransitivity; [apply mem_frame_set_mem|done]|lia| | | |].
    + eapply mem_same_outside_trans; (eapply mem_same_outside_weaken; [|done]).
      * intros p ->. split; [done|]. exists dstva. by split; [lia|].
      * intros p [Hp0 (va&Hx&->)]. split; [done|]. exists va. split; [lia|]. by apply translate_ext.
    + intros va. by rewrite Hpte2.
    + intros va Hx. rewrite Hu2, Hu1 by done. rewrite Hlk, Z2Nat.id by lia.
      repeat case_decide; try lia; try done.
      * rewrite lookup_drop. f_equal. lia.
      * rewrite lookup_take_lt by lia. done.
    + destruct Hr as [[-> ->]|(->&Hk2'&Hnone)]; [left; split; [done|lia]|right].
      split_and!; [done|lia|]. rewrite <- Hnone, Hu1 by lia.
      rewrite Hlk, decide_False by lia. f_equal. lia.
Qed.

(** C18: [copyout] returns for every destination and changes user memory only:
    when it returns 0 the user sees the bytes of [src] at [dstva] and every
    other byte as before; when it returns -1, the bytes before the first
    inaccessible address were written and nothing else changed. The page
    table, the allocator and all memory outside the address space are kept. *)
Theorem copyout_correct s root sh l dstva src :
  uvm_inv s root sh l → 0 ≤ dstva → Forall (λ x, 0 ≤ x < 256) src →
  ∃ r s' k, copyout root dstva src s = Ret r s' ∧ uvm_inv s' root sh l ∧
    mem_frame s s' ∧ 0 ≤ k ∧
    mem_same_outside (λ p, p ≠ 0 ∧ ∃ va, dstva ≤ va ∧ p = translate (k_mem s) sh va)
      (k_mem s) (k_mem s') ∧
    (∀ va, leaf_pte (k_mem s') sh va = leaf_pte (k_mem s) sh va) ∧
    (∀ va, 0 ≤ va → umem (k_mem s') sh va =
      if decide (dstva ≤ va < dstva + k) then src !! Z.to_nat (va - dstva)
      else umem (k_mem s) sh va) ∧
    (r = 0 ∧ k = Z.of_nat (length src) ∨
     r = -1 ∧ k < Z.of_nat (length src) ∧ umem (k_mem s) sh (dstva + k) = None).
Proof. intros. apply copyout_loop_ok; [done..|lia]. Qed.

(** ** User to kernel *)

Lemma uread_app m sh n k va :
  uread m sh (n + k) va =
    xs ← uread m sh n va; ys ← uread m sh k (va + Z.of_nat n); Some (xs ++ ys).
Proof.
  revert va. induction n as [|n IH]; intros va.
  - cbn. rewrite Z.add_0_r. by destruct (uread m sh k va).
  - cbn [uread Nat.add]. rewrite IH. destruct (umem m sh va); [|done]. cbn.
    replace (va + 1 + Z.of_nat n) with (va + Z.of_nat (S n)) by lia.
    destruct (uread m sh n (va + 1)); [|done]. cbn.
    by destruct (uread m sh k _).
Qed.

Lemma uread_page m sh n va :
  0 ≤ va → translate m sh va ≠ 0 → va mod 4096 + Z.of_nat n ≤ 4096 →
  uread m sh n va = Some (ld_bytes n m (translate m sh va + va mod 4096)).
Proof.
  revert va. induction n as [|n IH]; intros va Hva Ht Hn; [done|]. cbn [uread ld_bytes].
  unfold umem at 1. rewrite (proj2 (Z.eqb_neq _ _) Ht). cbn.
  destruct n as [|n]; [done|].
  assert (translate m sh (va + 1) = translate m sh va) as Ht1 by (apply translate_page; zdm).
  rewrite IH by (rewrite ?Ht1; (lia || done || zdm)). cbn. rewrite Ht1.
  replace (translate m sh va + (va + 1) mod 4096) with (translate m sh va + va mod 4096 + 1) by zdm.
  done.
Qed.

Lemma next_page m sh va k :
  0 ≤ va → translate m sh va ≠ 0 → 0 ≤ k → va mod 4096 + k ≤ 4096 → u64 (va + k) = va + k.
Proof.
  intros Hva Ht Hk Hk4. apply u64_small. destruct (decide (MAXVA ≤ va)).
  - by rewrite translate_zero_max in Ht.
  - change MAXVA with 274877906944 in *. zdm.
Qed.

Lemma copyin_loop_ok n s root sh l srcva len :
  uvm_inv s root sh l → 0 ≤ srcva → (Z.to_nat len ≤ n)%nat →
  ∃ r bs, copyin_loop n root srcva len s = Ret (r, bs) s ∧
    uread (k_mem s) sh (length bs) srcva = Some bs ∧
    (r = 0 ∧ length bs = Z.to_nat len ∨
     r = -1 ∧ (length bs < Z.to_nat len)%nat ∧
       umem (k_mem s) sh (srcva + Z.of_nat (length bs)) = None).
Proof.
  intros Hinv. revert srcva len. induction n as [|n IH]; intros srcva len Hva Hn.
  { exists 0, []. cbn [copyin_loop]. case_test; [|lia]. split_and!; [done..|left; split; [done|simpl; lia]]. }
  cbn [copyin_loop]. case_test.
  { exists 0, []. split_and!; [done..|left; split; [done|simpl; lia]]. }
  destruct (chunk_ok srcva len Hva) as (Hk&Hk4&Hoff&Hnext); [lia|].
  rewrite (bind_Ret _ _ _ _ _ (walkaddr_base s root sh l srcva Hinv Hva)). case_test.
  { exists (-1), []. split_and!; [done..|right]. split_and!; [done|simpl; lia|].
    unfold umem. by rewrite Z.add_0_r, (proj2 (Z.eqb_eq _ _)). }
  set (k := chunk srcva (PGROUNDDOWN srcva) len) in *. rewrite bind_gets, Hoff.
  set (pg := ld_bytes _ _ _).
  assert (length pg = Z.to_nat k) as Hpg by apply length_ld_bytes.
  assert (uread (k_mem s) sh (Z.to_nat k) srcva = Some pg) as Hread by (apply uread_page; (done || lia)).
  destruct (decide (k = len)) as [Hkl|Hkl].
  - replace (len - k) with 0 by lia. exists 0, pg.
    split_and!; [|by rewrite Hpg|left; split; [done|lia]].
    rewrite (bind_Ret _ _ _ (0, []) s) by (by destruct n). cbn. by rewrite app_nil_r.
  - rewrite <- Hnext by lia. rewrite (next_page (k_mem s) sh) by (done || lia).
    destruct (IH (srcva + k) (len - k)) as (r&bs&Hrun&Hbs&Hr); [lia|lia|].
    exists r, (pg ++ bs). rewrite length_app, Hpg. split_and!.
    + rewrite (bind_Ret _ _ _ _ _ Hrun). done.
    + rewrite uread_app, Hread. cbn. rewrite Z2Nat.id by lia. by rewrite Hbs.
    + destruct Hr as [[-> ?]|(->&?&Hnone)]; [left|right]; split_and!; try done; try lia.
      rewrite <- Hnone. f_equal. lia.
Qed.

(** C19: [copyin] returns for every source address and changes nothing: the
    bytes it stores are those the user sees there, all [len] of them when it
    returns 0, and those before the first inaccessible address when it
    returns -1. *)
Theorem copyin_correct s root sh l srcva len :
  uvm_inv s root sh l → 0 ≤ srcva →
  ∃ r bs, copyin root srcva len s = Ret (r, bs) s ∧
    uread (k_mem s) sh (length bs) srcva = Some bs ∧
    (r = 0 ∧ length bs = Z.to_nat len ∨
     r = -1 ∧ (length bs < Z.to_nat len)%nat ∧
       umem (k_mem s) sh (srcva + Z.of_nat (length bs)) = None).
Proof. intros. by eapply copyin_loop_ok. Qed.

(** ** Round trip *)

Lemma uread_lookup m sh n va bs :
  length bs = n → (∀ i, (i < n)%nat → umem m sh (va + Z.of_nat i) = bs !! i) →
  uread m sh n va = Some bs.
Proof.
  revert va bs. induction n as [|n IH]; intros va bs Hlen Hu; [by destruct bs|].
  destruct bs as [|b bs]; [done|]. cbn [uread].
  pose proof (Hu 0%nat ltac:(lia)) as H0. rewrite Z.add_0_r in H0. rewrite H0. cbn.
  rewrite (IH _ bs); [done|by injection Hlen|]. intros i Hi.
  change (bs !! i) with ((b :: bs) !! S i). rewrite <- (Hu (S i)) by lia. f_equal. lia.
Qed.

(** what [copyout] puts into user memory, [copyin] gets back. *)
Theorem copy_roundtrip s root sh l va src s' :
  uvm_inv s root sh l → 0 ≤ va → Forall (λ x, 0 ≤ x < 256) src →
  copyout root va src s = Ret 0 s' →
  copyin root va (Z.of_nat (length src)) s' = Ret (0, src) s'.
Proof.
  intros Hinv Hva Hsrc Hrun.
  destruct (copyout_loop_ok (S (length src)) s root sh l va src) as
    (r&s1&k&Hrun1&Hinv1&_&_&_&_&Hu&Hr); [done..|lia|].
  unfold copyout in Hrun. rewrite Hrun in Hrun1. injection Hrun1 as <- <-.
  destruct Hr as [[_ ->]|[? _]]; [|done].
  assert (uread (k_mem s') sh (length src) va = Some src) as Hread.
  { apply uread_lookup; [done|]. intros i Hi. rewrite Hu by lia.
    rewrite decide_True by lia. f_equal. lia. }
  destruct (copyin_loop_ok (length src) s' root sh l va (Z.of_nat (length src))) as (r&bs&Hin&Hbs&Hr);
    [done|done|lia|]. unfold copyin. rewrite Nat2Z.id in *. rewrite Hin.
  destruct Hr as [[-> Hlen]|(_&Hlt&Hnone)].
  - rewrite Hlen, Hread in Hbs. by injection Hbs as ->.
  - rewrite Hu, decide_True in Hnone by lia. apply lookup_ge_None in Hnone. lia.
Qed.

(** ** Strings *)

(** The inner loop stops at the first NUL. *)
Lemma copyinstr_page_ok n m p :
  let r := copyinstr_page n m p in
  r.2 = ld_bytes (length r.2) m p ∧
  (if r.1 then (length r.2 ≤ n)%nat ∧ ∃ str, r.2 = str ++ [0] ∧ Forall (λ x, x ≠ 0) str
   else length r.2 = n ∧ Forall (λ x, x ≠ 0) r.2).
Proof.
  revert p. induction n as [|n IH]; intros p; [by split|]. cbn [copyinstr_page].
  case_test; cbn.
  - split; [congruence|]. split; [lia|]. by exists [].
  - destruct (IH (p + 1)) as [H1 H2]. split; [by f_equal|].
    destruct (copyinstr_page n m (p + 1)).1; [|destruct H2; split; [lia|by constructor]].
    destruct H2 as (Hn&str&Hs&Hstr). split; [lia|]. exists (ld8 m p :: str).
    rewrite Hs. split; [done|by constructor].
Qed.

Lemma copyinstr_loop_ok n s root sh l srcva max :
  uvm_inv s root sh l → 0 ≤ srcva → (Z.to_nat max ≤ n)%nat →
  ∃ r bs, copyinstr_loop n root srcva max s = Ret (r, bs) s ∧
    uread (k_mem s) sh (length bs) srcva = Some bs ∧ (length bs ≤ Z.to_nat max)%nat ∧
    (r = 0 ∧ (∃ str, bs = str ++ [0] ∧ Forall (λ x, x ≠ 0) str) ∨
     r = -1 ∧ Forall (λ x, x ≠ 0) bs ∧ (length bs = Z.to_nat max ∨
       umem (k_mem s) sh (srcva + Z.of_nat (length bs)) = None)).
Proof.
  intros Hinv. revert srcva max. induction n as [|n IH]; intros srcva max Hva Hn.
  { exists (-1), []. cbn [copyinstr_loop]. case_test; [|lia].
    split_and!; [done..|simpl; lia|right; split_and!; [done|done|left; simpl; lia]]. }
  cbn [copyinstr_loop]. case_test.
  { exists (-1), []. split_and!; [done..|simpl; lia|right; split_and!; [done|done|left; simpl; lia]]. }
  destruct (chunk_ok srcva max Hva) as (Hk&Hk4&Hoff&Hnext); [lia|].
  rewrite (bind_Ret _ _ _ _ _ (walkaddr_base s root sh l srcva Hinv Hva)). case_test.
  { exists (-1), []. split_and!; [done..|simpl; lia|right]. split_and!; [done|done|right].
    unfold umem. by rewrite Z.add_0_r, (proj2 (Z.eqb_eq _ _)). }
  set (k := chunk srcva (PGROUNDDOWN srcva) max) in *. rewrite bind_gets, Hoff.
  destruct (copyinstr_page_ok (Z.to_nat k) (k_mem s) (translate (k_mem s) sh srcva + srcva mod 4096))
    as [Hpg Hstr].
  set (pr := copyinstr_page _ _ _) in *. destruct pr as [got pg]. cbn [fst snd] in *.
  assert (length pg ≤ Z.to_nat k)%nat as Hlen by (destruct got; [tauto|lia]).
  assert (uread (k_mem s) sh (length pg) srcva = Some pg) as Hread.
  { rewrite Hpg at 2. apply uread_page; [done..|lia]. }
  destruct got.
  { exists 0, pg. split_and!; [done|done|lia|left]. split; [done|]. by destruct Hstr. }
  destruct Hstr as [Hlk Hnz]. destruct (decide (k = max)) as [Hkl|Hkl].
  - replace (max - k) with 0 by lia. exists (-1), pg.
    split_and!; [|done|lia|right; split_and!; [done|done|left; lia]].
    rewrite (bind_Ret _ _ _ (-1, []) s) by (by destruct n). cbn. by rewrite app_nil_r.
  - rewrite <- Hnext by lia. rewrite (next_page (k_mem s) sh) by (done || lia).
    destruct (IH (srcva + k) (max - k)) as (r&bs&Hrun&Hbs&Hle&Hr); [lia|lia|].
    exists r, (pg ++ bs). rewrite length_app. split_and!.
    + by rewrite (bind_Ret _ _ _ _ _ Hrun).
    + rewrite uread_app, Hread. cbn. rewrite Hlk, Z2Nat.id by lia. by rewrite Hbs.
    + lia.
    + destruct Hr as [(->&str&->&Hs)|(->&Hs&Hend)]; [left|right]; split_and!; try done.
      * exists (pg ++ str). rewrite app_assoc. split; [done|]. by apply Forall_app.
      * by apply Forall_app.
      * destruct Hend as [?|Hnone]; [left; lia|right]. rewrite <- Hnone. f_equal. lia.
Qed.

(** [copyinstr] returns for every source address and changes nothing. It
    returns 0 exactly with a NUL-terminated string, the one the user sees at
    [srcva], of at most [max] bytes with the NUL; it returns -1 when the first
    [max] bytes have no NUL or an inaccessible address comes before one. *)
Theorem copyinstr_correct s root sh l srcva max :
  uvm_inv s root sh l → 0 ≤ srcva →
  ∃ r bs, copyinstr root srcva max s = Ret (r, bs) s ∧
    uread (k_mem s) sh (length bs) srcva = Some bs ∧ (length bs ≤ Z.to_nat max)%nat ∧
    (r = 0 ∧ (∃ str, bs = str ++ [0] ∧ Forall (λ x, x ≠ 0) str) ∨
     r = -1 ∧ Forall (λ x, x ≠ 0) bs ∧ (length bs = Z.to_nat max ∨
       umem (k_mem s) sh (srcva + Z.of_nat (length bs)) = None)).
Proof. intros. by eapply copyinstr_loop_ok. Qed.

End theorems.

(** ** Examples *)

Lemma translate_demo va :
  0 ≤ va → translate demo_mem demo_sh va = if decide (va < 4096) then 0x80203000 else 0.
Proof.
  intros Hva. unfold translate. change MAXVA with 274877906944. case_test.
  { by rewrite decide_False by lia. }
  rewrite leaf_pte_demo by (change MAXVA with 274877906944; lia).
  case_decide; vm_compute; done.
Qed.

Lemma demo_uvm_inv : @uvm_inv image0 demo 0x80200000 demo_sh [0x80100000].
Proof.
  split; [apply demo_vm_inv|..]; change (k_mem demo) with demo_mem.
  - intros va Hva. rewrite translate_demo by done. case_decide; [|done]. intros _. split_and!.
    + split; vm_compute; done.
    + rewrite list_elem_of_singleton. done.
    + intros π Hp%demo_sh_inv. naive_solver.
  - intros va va' Hva Hva'. rewrite !translate_demo by done.
    repeat case_decide; try done. intros _ _. zdm.
Qed.

Lemma copyout_correct_witness : ∃ r s', copyout 0x80200000 4094 [1; 2; 3] demo = Ret r s'.
Proof.
  destruct (@copyout_correct image0 _ demo 0x80200000 demo_sh [0x80100000] 4094 [1; 2; 3])
    as (r&s'&k&Hrun&_); [apply demo_uvm_inv|lia|repeat constructor; lia|].
  exists r, s'. exact Hrun.
Defined.

Lemma copyin_correct_witness : ∃ r, copyin 0x80200000 10 20 demo = Ret r demo.
Proof.
  destruct (@copyin_correct image0 _ demo 0x80200000 demo_sh [0x80100000] 10 20)
    as (r&bs&Hrun&_); [apply demo_uvm_inv|lia|]. exists (r, bs). exact Hrun.
Defined.

Lemma copyinstr_correct_witness : ∃ r, copyinstr 0x80200000 10 20 demo = Ret r demo.
Proof.
  destruct (@copyinstr_correct image0 _ demo 0x80200000 demo_sh [0x80100000] 10 20)
    as (r&bs&Hrun&_); [apply demo_uvm_inv|lia|]. exists (r, bs). exact Hrun.
Defined.

Lemma copy_roundtrip_witness :
  let s' := set_k_mem (st_bytes demo_mem 0x8020300a [7; 8]) demo in
  copyin 0x80200000 10 2 s' = Ret (0, [7; 8]) s'.
Proof.
  apply (@copy_roundtrip image0 _ demo 0x80200000 demo_sh [0x80100000] 10 [7; 8]);
    [apply demo_uvm_inv|lia|repeat constructor; lia|vm_compute; reflexivity].
Defined.
