(* ===== verification/Proc.v ===== *)
(** * kernel/proc.c: the process table, sleep and wakeup

    The table, its allocation and release, the switch to the scheduler, sleep
    and wakeup, kill. The life cycle that needs the file system (fork, exit,
    wait, the scheduler's loop) is in ProcLife. A process is referred to by
    its index in [proc]; [swtch] gives the processor away and the rest of the
    function is the saved context. *)

From S2P Require Import Prelude State Mem Kstring Spinlock Kalloc Vm.

(** ** Access *)

Definition proc_of (i : nat) (s : kernel) : proc := default zero_proc (k_procs s !! i).

Definition on_proc (i : nat) (f : proc → proc) : M unit :=
  modify (λ s, set_k_procs (alter f i (k_procs s)) s).

(** Using a null pointer is a kernel page fault, on which [kerneltrap] panics. *)
Definition deref {A : Type} (p : option A) : M A :=
  match p with Some i => mret i | None => panic "kerneltrap" end.

(** Offsets in [struct trapframe]. *)
Definition tf_kernel_satp : Z := 0.
Definition tf_kernel_sp : Z := 8.
Definition tf_kernel_trap : Z := 16.
Definition tf_epc : Z := 24.
Definition tf_kernel_hartid : Z := 32.
Definition tf_sp : Z := 48.
Definition tf_a0 : Z := 112.
Definition tf_a1 : Z := 120.
Definition tf_a7 : Z := 168.
Definition sizeof_trapframe : nat := 288.

Section model.
Context `{Image}.

Definition procinit : M unit :=
  initlock L_pid "nextpid";;
  initlock L_wait "wait_lock";;
  for_each (seq 0 NPROC) (λ i,
    initlock (L_proc i) "proc";;
    on_proc i (set_p_state UNUSED);;
    on_proc i (set_p_kstack (KSTACK (Z.of_nat i)))).

Definition myproc : M (option nat) :=
  push_off;;
  p ← gets (λ s, c_proc (k_hart s));
  pop_off;;
  mret p.

Definition allocpid : M Z :=
  acquire L_pid;;
  pid ← gets k_nextpid;
  modify (set_k_nextpid (i32 (pid + 1)));;
  release L_pid;;
  mret pid.

(** ** Page tables of processes *)

Definition proc_pagetable (i : nat) : M Z :=
  pagetable ← uvmcreate;
  if pagetable =? 0 then mret 0
  else
    r ← mappages pagetable TRAMPOLINE PGSIZE image_trampoline (Z.lor PTE_R PTE_X);
    if r <? 0 then uvmfree pagetable 0;; mret 0
    else
      tf ← gets (λ s, p_trapframe (proc_of i s));
      r ← mappages pagetable TRAPFRAME PGSIZE tf (Z.lor PTE_R PTE_W);
      if r <? 0 then
        uvmunmap pagetable TRAMPOLINE 1 false;;
        uvmfree pagetable 0;;
        mret 0
      else mret pagetable.

Definition proc_freepagetable (pagetable sz : Z) : M unit :=
  uvmunmap pagetable TRAMPOLINE 1 false;;
  uvmunmap pagetable TRAPFRAME 1 false;;
  uvmfree pagetable sz.

(** ** Allocation *)

(** [p->name[0] = 0]. *)
Definition clear_name (p : proc) : proc := set_p_name (<[0%nat := 0]> (p_name p)) p.

Definition freeproc (i : nat) : M unit :=
  tf ← gets (λ s, p_trapframe (proc_of i s));
  when (negb (tf =? 0)) (kfree tf);;
  on_proc i (set_p_trapframe 0);;
  pagetable ← gets (λ s, p_pagetable (proc_of i s));
  sz ← gets (λ s, p_sz (proc_of i s));
  when (negb (pagetable =? 0)) (proc_freepagetable pagetable sz);;
  on_proc i (set_p_pagetable 0);;
  on_proc i (set_p_sz 0);;
  on_proc i (set_p_pid 0);;
  on_proc i (set_p_parent None);;
  on_proc i clear_name;;
  on_proc i (set_p_chan Ch_null);;
  on_proc i (set_p_killed 0);;
  on_proc i (set_p_xstate 0);;
  on_proc i (set_p_state UNUSED).

(** The search for an unused entry; its lock is held when one is found. *)
Fixpoint allocproc_find (l : list nat) : M (option nat) :=
  match l with
  | [] => mret None
  | i :: l' =>
      acquire (L_proc i);;
      st ← gets (λ s, p_state (proc_of i s));
      if decide (st = UNUSED) then mret (Some i)
      else release (L_proc i);; allocproc_find l'
  end.

Definition allocproc : M (option nat) :=
  found ← allocproc_find (seq 0 NPROC);
  match found with
  | None => mret None
  | Some i =>
      pid ← allocpid;
      on_proc i (set_p_pid pid);;
      on_proc i (set_p_state USED);;
      tf ← kalloc;
      on_proc i (set_p_trapframe tf);;
      if tf =? 0 then freeproc i;; release (L_proc i);; mret None
      else
        pagetable ← proc_pagetable i;
        on_proc i (set_p_pagetable pagetable);;
        if pagetable =? 0 then freeproc i;; release (L_proc i);; mret None
        else
          kstack ← gets (λ s, p_kstack (proc_of i s));
          on_proc i (set_p_context (Context_ image_forkret (u64 (kstack + PGSIZE)) (replicate 12 0)));;
          mret (Some i)
  end.

Definition growproc (n : Z) : M Z :=
  p ← myproc;
  i ← deref p;
  sz ← gets (λ s, p_sz (proc_of i s));
  pagetable ← gets (λ s, p_pagetable (proc_of i s));
  if 0 <? n then
    sz' ← uvmalloc pagetable sz (u64 (sz + n)) PTE_W;
    if sz' =? 0 then mret (-1)
    else on_proc i (set_p_sz sz');; mret 0
  else if n <? 0 then
    sz' ← uvmdealloc pagetable sz (u64 (sz + n));
    on_proc i (set_p_sz sz');; mret 0
  else on_proc i (set_p_sz sz);; mret 0.

(** ** Switching *)

(** [swtch]: the processor goes to another context; this one goes on when
    something switches back to it. *)
Definition swtch : M unit := λ s, Block s (λ s', Ret tt s').

Definition sched : M unit :=
  p ← myproc;
  i ← deref p;
  h ← holding (L_proc i);
  if negb h then panic "sched p->lock"
  else
    noff ← gets (λ s, c_noff (k_hart s));
    if negb (noff =? 1) then panic "sched locks"
    else
      st ← gets (λ s, p_state (proc_of i s));
      if decide (st = RUNNING) then panic "sched running"
      else
        on ← intr_get;
        if (on : bool) then panic "sched interruptible"
        else
          intena ← gets (λ s, c_intena (k_hart s));
          swtch;;
          on_hart (set_c_intena intena).

Definition yield : M unit :=
  p ← myproc;
  i ← deref p;
  acquire (L_proc i);;
  on_proc i (set_p_state RUNNABLE);;
  sched;;
  release (L_proc i).

Definition sleep (ch : chan) (lk : lockid) : M unit :=
  p ← myproc;
  i ← deref p;
  acquire (L_proc i);;
  release lk;;
  on_proc i (set_p_chan ch);;
  on_proc i (set_p_state SLEEPING);;
  sched;;
  on_proc i (set_p_chan Ch_null);;
  release (L_proc i);;
  acquire lk.

Definition wakeup (ch : chan) : M unit :=
  for_each (seq 0 NPROC) (λ i,
    me ← myproc;
    when (negb (bool_decide (me = Some i)))
      (acquire (L_proc i);;
       p ← gets (proc_of i);
       when (bool_decide (p_state p = SLEEPING) && bool_decide (p_chan p = ch))
         (on_proc i (set_p_state RUNNABLE));;
       release (L_proc i))).

Fixpoint kill_loop (l : list nat) (pid : Z) : M Z :=
  match l with
  | [] => mret (-1)
  | i :: l' =>
      acquire (L_proc i);;
      p ← gets (proc_of i);
      if p_pid p =? pid then
        on_proc i (set_p_killed 1);;
        when (bool_decide (p_state p = SLEEPING)) (on_proc i (set_p_state RUNNABLE));;
        release (L_proc i);;
        mret 0
      else release (L_proc i);; kill_loop l' pid
  end.

Definition kill (pid : Z) : M Z := kill_loop (seq 0 NPROC) pid.

Definition setkilled (i : nat) : M unit :=
  acquire (L_proc i);;
  on_proc i (set_p_killed 1);;
  release (L_proc i).

Definition killed (i : nat) : M Z :=
  acquire (L_proc i);;
  k ← gets (λ s, p_killed (proc_of i s));
  release (L_proc i);;
  mret k.

(** ** Copies to and from either kind of address *)

Definition either_copyout (user_dst : bool) (dst : Z) (src : list Z) : M Z :=
  p ← myproc;
  if user_dst then
    i ← deref p;
    pagetable ← gets (λ s, p_pagetable (proc_of i s));
    copyout pagetable dst src
  else on_mem (λ m, st_bytes m dst src);; mret 0.

(** The status and the bytes stored at [dst]. *)
Definition either_copyin (user_src : bool) (src len : Z) : M (Z * list Z) :=
  p ← myproc;
  if user_src then
    i ← deref p;
    pagetable ← gets (λ s, p_pagetable (proc_of i s));
    copyin pagetable src len
  else bs ← gets (λ s, ld_bytes (Z.to_nat len) (k_mem s) src); mret (0, bs).

End model.
