(* ===== verification/ProcSpec.v ===== *)
(** * Running kernel code from an idle state: processes

    [env me H s]: process [me] runs on this hart, no lock but those in [H] is
    held, and the tables have their sizes. From such a state the functions of
    proc.c that take and release locks run to completion; the equations here
    give the state they end in. *)

From S2P Require Import Prelude State Mem Kstring Spinlock Kalloc Vm Proc.

(** ** Description *)

(** The spinlocks that exist once the kernel is up, pipes apart. *)
Definition known (l : lockid) : bool :=
  match l with
  | L_proc i => bool_decide (i < NPROC)%nat
  | L_sleep (SL_buf i) => bool_decide (i < NBUF)%nat
  | L_sleep (SL_inode i) => bool_decide (i < NINODE)%nat
  | L_pipe _ => false
  | _ => true
  end.

Record env (me : nat) (H : list lockid) (s : kernel) : Prop := {
  env_hart : hart_ok (k_hart s);
  env_noff : c_noff (k_hart s) = Z.of_nat (length H);
  env_depth : (length H < 1000)%nat;
  env_proc : c_proc (k_hart s) = Some me;
  env_me : (me < NPROC)%nat;
  env_len : length (k_procs s) = NPROC;
  env_locks l : known l = true → l ∉ H → lock_free l s;
}.

(** A process that [wakeup(ch)], called by [me], makes runnable. *)
Definition wakes (me : nat) (ch : chan) (i : nat) (p : proc) : bool :=
  negb (bool_decide (i = me)) && bool_decide (p_state p = SLEEPING) && bool_decide (p_chan p = ch).

(** The process table after [wakeup(ch)]. *)
Definition woken (me : nat) (ch : chan) (ps : list proc) : list proc :=
  imap (λ i p, if wakes me ch i p then set_p_state RUNNABLE p else p) ps.

(** The same, restricted to indices [j <= i < j + n]. *)
Definition woken_range (me : nat) (ch : chan) (j n : nat) (ps : list proc) : list proc :=
  imap (λ i p, if bool_decide (j ≤ i < j + n)%nat && wakes me ch i p
               then set_p_state RUNNABLE p else p) ps.

(** ** Locks *)

Lemma lock_free_acquired l l' s : l ≠ l' → lock_free l s → lock_free l (acquired l' s).
Proof.
  intros Hne [name Hl]. exists name. unfold acquired, put_lock. cbn.
  by rewrite lookup_insert_ne.
Qed.

Lemma hart_tick_noff h : 0 < c_noff h → hart_tick h = h.
Proof. intros Hn. unfold hart_tick. case_test; [lia|done]. Qed.

Lemma tick_id s : 0 < c_noff (k_hart s) → tick s = s.
Proof. intros Hn. unfold tick. by rewrite hart_tick_noff, set_k_hart_id. Qed.

Lemma tick_tick s : tick (tick s) = tick s.
Proof.
  unfold tick. rewrite set_k_hart_twice. cbn [k_hart set_k_hart]. by rewrite hart_tick_idemp.
Qed.

Lemma hart_push_proc h : c_proc (hart_push h) = c_proc h.
Proof. unfold hart_push. by destruct (c_noff h =? 0). Qed.

Lemma hart_tick_noff_eq h : c_noff (hart_tick h) = c_noff h.
Proof. unfold hart_tick. by destruct (c_noff h =? 0). Qed.

Lemma env_acquired me H l s : env me H s → (length H < 999)%nat → env me (l :: H) (acquired l s).
Proof.
  intros [Hh Hn Hd Hp Hme Hlen Hl] Hd'. split; cbn [k_hart acquired put_lock set_k_locks set_k_hart length].
  - apply hart_push_ok; [done|lia].
  - rewrite hart_push_noff by done. lia.
  - lia.
  - by rewrite hart_push_proc.
  - done.
  - done.
  - intros l' Hk [Hne Hnin]%not_elem_of_cons. apply lock_free_acquired; auto.
Qed.

(** What [env] depends on. *)
Lemma env_ext me H s s' :
  env me H s → (k_hart s' = k_hart s ∨ k_hart s' = hart_tick (k_hart s)) →
  k_locks s' = k_locks s → length (k_procs s') = length (k_procs s) → env me H s'.
Proof.
  intros [Hh Hn Hd Hp Hme Hlen Hl] Hhart Hlocks Hprocs. split; try congruence.
  - destruct Hhart as [-> | ->]; [done|by apply hart_tick_ok].
  - destruct Hhart as [-> | ->]; [done|by rewrite hart_tick_noff_eq].
  - destruct Hhart as [-> | ->]; [done|by rewrite hart_tick_proc].
  - intros l Hk Hnin. destruct (Hl l Hk Hnin) as [name Hf]. exists name. by rewrite Hlocks.
Qed.

Lemma env_tick me H s : env me H s → env me H (tick s).
Proof. intros He. apply (env_ext me H s); [done|by right|done|done]. Qed.

(** Inside a critical section the saved interrupt state stays. *)
Lemma env_tick_id me l H s : env me (l :: H) s → tick s = s.
Proof. intros He. apply tick_id. rewrite (env_noff _ _ _ He). cbn [length]. lia. Qed.

Lemma env_free me l s : env me [] s → known l = true → lock_free l s.
Proof. intros He Hk. apply (env_locks _ _ _ He); [done|set_solver]. Qed.

(** ** myproc, killed *)

Lemma myproc_eq s : hart_ok (k_hart s) → myproc s = Ret (c_proc (k_hart s)) (tick s).
Proof.
  intros Hok. unfold myproc. rewrite (bind_Ret _ _ _ _ _ (push_off_eq s)), bind_gets.
  rewrite (bind_Ret _ _ _ _ _ (pop_push_off (k_hart s) s Hok)).
  cbn. by rewrite hart_push_proc.
Qed.

Lemma bind_myproc {B : Type} me H s (f : option nat → M B) :
  env me H s → (myproc ≫= f) s = f (Some me) (tick s).
Proof.
  intros He. rewrite (bind_Ret _ _ _ _ _ (myproc_eq s (env_hart _ _ _ He))).
  by rewrite (env_proc _ _ _ He).
Qed.

(** A critical section on [l] whose body changes neither locks nor hart. *)
Lemma crit {A : Type} me H l (body : M A) s a (g : kernel → kernel) :
  env me H s → known l = true → l ∉ H →
  body (acquired l s) = Ret a (g (acquired l s)) →
  k_locks (g (acquired l s)) = k_locks (acquired l s) →
  k_hart (g (acquired l s)) = k_hart (acquired l s) →
  (acquire l;; x ← body; release l;; mret x) s =
    Ret a (set_k_locks (k_locks s) (set_k_hart (hart_tick (k_hart s)) (g (acquired l s)))).
Proof.
  intros He Hk Hnin Hbody Hlk Hh. pose proof (env_locks _ _ _ He l Hk Hnin) as Hfree.
  rewrite bind_acquire by done. rewrite (bind_Ret _ _ _ _ _ Hbody).
  rewrite (bind_release l s) by (done || apply (env_hart _ _ _ He)). done.
Qed.


Lemma killed_eq me H i s :
  env me H s → (i < NPROC)%nat → L_proc i ∉ H →
  killed i s = Ret (p_killed (proc_of i s)) (tick s).
Proof.
  intros He Hi Hnin.
  pose proof (env_locks _ _ _ He (L_proc i) ltac:(cbn; by apply bool_decide_eq_true_2) Hnin) as Hfree.
  unfold killed. rewrite bind_acquire, bind_gets by done.
  rewrite (bind_release (L_proc i) s); [|done|by eapply env_hart|done|done].
  unfold tick, acquired, put_lock. mrun. kernel_eq.
Qed.

(** ** wakeup *)

(** One turn of the loop of [wakeup]. *)
Definition wakeup_body (ch : chan) (i : nat) : M unit :=
  me ← myproc;
  when (negb (bool_decide (me = Some i)))
    (acquire (L_proc i);;
     p ← gets (proc_of i);
     when (bool_decide (p_state p = SLEEPING) && bool_decide (p_chan p = ch))
       (on_proc i (set_p_state RUNNABLE));;
     release (L_proc i)).

Lemma tick_set_procs ps s : tick (set_k_procs ps s) = set_k_procs ps (tick s).
Proof. unfold tick. kernel_eq. Qed.

(** A release with the tick of the section's entry already taken. *)
Lemma release_ticked l s t :
  lock_free l s → hart_ok (k_hart s) →
  k_locks t = k_locks (acquired l (tick s)) → k_hart t = k_hart (acquired l (tick s)) →
  release l t = Ret tt (set_k_locks (k_locks s) (set_k_hart (hart_tick (k_hart s)) t)).
Proof.
  intros Hfree Hok H1 H2. rewrite (release_eq l (tick s)); [|done|by apply hart_tick_ok|done|done].
  unfold tick at 1 2. cbn [k_hart k_locks set_k_hart]. by rewrite hart_tick_idemp.
Qed.

Lemma wakeup_body_eq me H ch i s :
  env me H s → (i < NPROC)%nat → L_proc i ∉ H →
  wakeup_body ch i s = Ret tt (set_k_procs (woken_range me ch i 1 (k_procs s)) (tick s)).
Proof.
  intros He Hi Hnin. unfold wakeup_body. rewrite (bind_myproc me H) by done.
  destruct (lookup_lt_is_Some_2 (k_procs s) i) as [p Hp]; [by rewrite (env_len _ _ _ He)|].
  assert (proc_of i s = p) as Hpi by (unfold proc_of; by rewrite Hp).
  assert (∀ f, (wakes me ch i p = true → f p = set_p_state RUNNABLE p) →
    (wakes me ch i p = false → f p = p) → woken_range me ch i 1 (k_procs s) = alter f i (k_procs s)) as Hw.
  { intros f H1 H2. apply list_eq. intros j. unfold woken_range. rewrite list_lookup_imap.
    destruct (decide (i = j)) as [<-|Hne].
    - rewrite list_lookup_alter_eq, Hp. cbn. rewrite bool_decide_eq_true_2 by lia. cbn.
      destruct (wakes me ch i p); f_equal; symmetry; auto.
    - rewrite list_lookup_alter_ne by done. destruct (k_procs s !! j) as [q|]; [|done]. cbn.
      by rewrite bool_decide_eq_false_2 by lia. }
  destruct (decide (i = me)) as [->|Hne].
  { rewrite bool_decide_eq_true_2 by done. cbn.
    rewrite (Hw id); [|by unfold wakes; rewrite bool_decide_eq_true_2|done].
    rewrite list_alter_id by done. by destruct s. }
  rewrite bool_decide_eq_false_2 by congruence. cbn [negb when].
  pose proof (env_locks _ _ _ He (L_proc i) ltac:(cbn; by apply bool_decide_eq_true_2) Hnin) as Hfree.
  rewrite bind_acquire, bind_gets by done.
  change (proc_of i (acquired (L_proc i) (tick s))) with (proc_of i s). rewrite Hpi.
  unfold on_proc. rewrite bind_when.
  destruct (bool_decide (p_state p = SLEEPING) && bool_decide (p_chan p = ch)) eqn:Hc.
  - rewrite (Hw (set_p_state RUNNABLE)); [|done|].
    2: unfold wakes; rewrite (bool_decide_eq_false_2 (i = me)), <- andb_assoc, Hc by done; done.
    rewrite bind_modify.
    rewrite (release_ticked (L_proc i) s); [|done|by eapply env_hart|done|done].
    unfold acquired, put_lock, tick. kernel_eq.
  - rewrite (Hw id); [| |done].
    2: unfold wakes; rewrite (bool_decide_eq_false_2 (i = me)), <- andb_assoc, Hc by done; done.
    rewrite (release_ticked (L_proc i) s); [|done|by eapply env_hart|done|done].
    rewrite list_alter_id by done. unfold acquired, put_lock, tick. kernel_eq.
Qed.

Lemma woken_range_app me ch j n ps :
  woken_range me ch (S j) n (woken_range me ch j 1 ps) = woken_range me ch j (S n) ps.
Proof.
  apply list_eq. intros i. unfold woken_range. rewrite !list_lookup_imap.
  destruct (ps !! i) as [p|]; [|done]. cbn. f_equal.
  destruct (decide (i = j)) as [->|].
  - rewrite (bool_decide_eq_true_2 (j ≤ j < j + 1)%nat) by lia. cbn.
    rewrite bool_decide_eq_false_2 by lia. cbn. by rewrite bool_decide_eq_true_2 by lia.
  - rewrite (bool_decide_eq_false_2 (j ≤ i < j + 1)%nat) by lia. cbn.
    by rewrite (bool_decide_ext _ (j ≤ i < j + S n)%nat) by lia.
Qed.

Lemma length_woken_range me ch j n ps : length (woken_range me ch j n ps) = length ps.
Proof. apply length_imap. Qed.

Lemma length_woken me ch ps : length (woken me ch ps) = length ps.
Proof. apply length_imap. Qed.

Lemma wakeup_loop_eq me H ch n j s :
  env me H s → tick s = s → (j + n ≤ NPROC)%nat → (∀ i, L_proc i ∉ H) →
  for_each (seq j n) (wakeup_body ch) s =
    Ret tt (set_k_procs (woken_range me ch j n (k_procs s)) s).
Proof.
  revert j s. induction n as [|n IH]; intros j s He Ht Hj Hnin; cbn [seq for_each].
  - assert (woken_range me ch j 0 (k_procs s) = k_procs s) as ->.
    { apply list_eq. intros i. unfold woken_range. rewrite list_lookup_imap.
      destruct (k_procs s !! i); [|done]. cbn. by rewrite bool_decide_eq_false_2 by lia. }
    by destruct s.
  - rewrite (bind_Ret _ _ _ _ _ (wakeup_body_eq me H ch j s He ltac:(lia) (Hnin j))). rewrite Ht.
    set (s1 := set_k_procs _ s).
    rewrite IH; [|apply (env_ext me H s); [done|by left|done|by apply length_woken_range]
                 |unfold s1; by rewrite tick_set_procs, Ht|lia|done].
    cbn [k_procs set_k_procs s1]. by rewrite woken_range_app.
Qed.

Lemma wakeup_eq me H ch s :
  env me H s → (∀ i, L_proc i ∉ H) →
  wakeup ch s = Ret tt (tick (set_k_procs (woken me ch (k_procs s)) s)).
Proof.
  intros He Hnin. change (wakeup ch) with (for_each (seq 0 NPROC) (wakeup_body ch)).
  change (seq 0 NPROC) with (0%nat :: seq 1 63). cbn [for_each].
  rewrite (bind_Ret _ _ _ _ _ (wakeup_body_eq me H ch 0 s He ltac:(unfold NPROC; lia) (Hnin 0%nat))).
  rewrite <- tick_set_procs.
  rewrite (wakeup_loop_eq me H); [|apply env_tick|by rewrite tick_tick|done|done].
  2: apply (env_ext me H s); [done|by left|done|by apply length_woken_range].
  cbn [k_procs tick set_k_hart set_k_procs]. rewrite woken_range_app. rewrite tick_set_procs.
  assert (woken_range me ch 0 64 (k_procs s) = woken me ch (k_procs s)) as ->.
  { unfold woken_range, woken. apply imap_ext. intros i p Hp. cbn.
    rewrite bool_decide_eq_true_2; [done|]. apply lookup_lt_Some in Hp.
    rewrite (env_len _ _ _ He) in Hp. unfold NPROC in Hp. lia. }
  unfold tick. kernel_eq.
Qed.

(** ** A running kernel

    Process 0 on the processor, interrupts on, every lock initialised and
    free, all tables as the program starts with them. *)

Definition known_locks : list lockid :=
  [L_kmem; L_pid; L_wait; L_bcache; L_log; L_itable; L_ftable; L_cons; L_uart; L_vdisk; L_ticks; L_pr] ++
  (L_proc <$> seq 0 NPROC) ++ ((λ i, L_sleep (SL_buf i)) <$> seq 0 NBUF) ++
  ((λ i, L_sleep (SL_inode i)) <$> seq 0 NINODE).

Definition running_hart : hart := Hart 0 2 0 0 0 0 0 0 (Some 0%nat) zero_context 0 0.

Definition running_kernel : kernel :=
  set_k_hart running_hart
    (set_k_procs (alter (λ p, set_p_pid 1 (set_p_state RUNNING p)) 0%nat (k_procs zero_kernel))
      (set_k_locks (list_to_map ((λ l, (l, Spinlock "" 0 None)) <$> known_locks)) zero_kernel)).

Lemma known_in l : known l = true → l ∈ known_locks.
Proof.
  unfold known_locks. rewrite !elem_of_app, !list_elem_of_fmap.
  destruct l as [| | |i| |[i|i]| | | | | | | | |]; cbn [known]; intros Hk; try (left; set_solver); try done.
  - right. left. exists i. split; [done|]. apply elem_of_seq. apply bool_decide_eq_true in Hk. lia.
  - do 2 right. left. exists i. split; [done|]. apply elem_of_seq. apply bool_decide_eq_true in Hk. lia.
  - do 3 right. exists i. split; [done|]. apply elem_of_seq. apply bool_decide_eq_true in Hk. lia.
Qed.

Lemma lookup_known (ls : list lockid) (x : spinlock) l :
  l ∈ ls → (list_to_map ((λ l, (l, x)) <$> ls) : gmap lockid spinlock) !! l = Some x.
Proof.
  induction ls as [|y ls IH]; intros Hl; [by apply elem_of_nil in Hl|]. rewrite fmap_cons. cbn.
  destruct (decide (y = l)) as [->|Hne]; [by rewrite lookup_insert_eq|].
  rewrite lookup_insert_ne by done. apply IH. apply elem_of_cons in Hl as [->|]; done.
Qed.

Lemma running_env : env 0 [] running_kernel.
Proof.
  split; [split; [done|]|done|simpl; lia|done|unfold NPROC; lia| |].
  - done.
  - unfold running_kernel. cbn [k_procs set_k_hart set_k_procs]. by rewrite length_alter.
  - intros l Hl%known_in _. exists ""%string. by apply lookup_known.
Qed.
