(* ===== verification/SchedSpec.v ===== *)
(** * Giving the processor away (proc.c: sched, sleep, yield)

    A process that gives the processor away holds its own lock and no other;
    the scheduler releases it, and holds it again when it switches back. The
    outcome [Block t k] is that moment: [t] is what the scheduler finds, [k]
    what the process does when it runs again. *)

From S2P Require Import Prelude State Mem Kstring Spinlock Kalloc Vm Proc ProcSpec.

(** ** Description *)

(** [t] is [s] with lock [l] taken and other changes than to locks and hart. *)
Definition within (l : lockid) (s t : kernel) : Prop :=
  k_locks t = k_locks (acquired l s) ∧ k_hart t = k_hart (acquired l s).

(** The process table with [me] asleep on [ch]. *)
Definition asleep (me : nat) (ch : chan) (ps : list proc) : list proc :=
  alter (set_p_state SLEEPING) me (alter (set_p_chan ch) me ps).

(** [sleep] and [yield] after the switch back, at state [u]: the interrupt
    state [intena] saved by [sched] is put back. *)
Definition sched_back (intena : Z) : M unit := on_hart (set_c_intena intena).

Definition sleep_back (me : nat) (lk : lockid) (intena : Z) : M unit :=
  sched_back intena;;
  on_proc me (set_p_chan Ch_null);;
  release (L_proc me);;
  acquire lk.

(** The processor is given back to [me] at [u]: some hart of which [v] is the
    idle view holds [me]'s lock for it. *)
Definition given_back (me : nat) (intena : Z) (u v : kernel) : Prop :=
  env me [] v ∧ k_locks u = k_locks (acquired (L_proc me) v) ∧
  set_c_intena intena (k_hart u) = hart_push (k_hart v).

(** ** Lemmas *)

Lemma known_proc i : (i < NPROC)%nat → known (L_proc i) = true.
Proof. intros. cbn. by apply bool_decide_eq_true_2. Qed.

Lemma holding_within l s t : within l s t → holding l t = Ret true t.
Proof.
  intros [Hl Hh]. unfold holding, gets. f_equal. unfold lock_of. rewrite Hl, Hh.
  unfold acquired, put_lock. cbn. rewrite lookup_insert_eq. cbn. unfold is_holding. cbn.
  rewrite hart_push_tp. by apply bool_decide_eq_true_2.
Qed.

Lemma within_env me l s t :
  env me [] s → within l s t → length (k_procs t) = NPROC → env me [l] t.
Proof.
  intros He [Hl Hh] Hn. apply (env_ext me _ (acquired l s)); [|by left|done|].
  - by apply env_acquired; [|simpl; lia].
  - rewrite Hn. symmetry. apply (env_len _ _ _ He).
Qed.

(** What follows a call that gave the processor away runs after the rest of it. *)
Lemma bind_Block {A B : Type} (m m' : M A) (f : A → M B) s t :
  m s = Block t m' → (m ≫= f) s = Block t (m' ≫= f).
Proof. intros H. unfold mbind, M_bind. by rewrite H. Qed.

Lemma proc_of_alter f i s t :
  (i < length (k_procs t))%nat → k_procs s = alter f i (k_procs t) → proc_of i s = f (proc_of i t).
Proof.
  intros Hi Hp. unfold proc_of. rewrite Hp, list_lookup_alter_eq.
  destruct (lookup_lt_is_Some_2 _ _ Hi) as [p ->]. done.
Qed.

Lemma sched_eq me s t :
  env me [] s → within (L_proc me) s t → length (k_procs t) = NPROC → p_state (proc_of me t) ≠ RUNNING →
  sched t = Block t (sched_back (c_intena (hart_push (k_hart s)))).
Proof.
  intros He Hw Hn Hst. pose proof (within_env me _ s t He Hw Hn) as Het.
  unfold sched. rewrite (bind_myproc me [L_proc me]) by done. rewrite (env_tick_id me _ _ _ Het).
  cbn [deref]. rewrite bind_mret, (bind_Ret _ _ _ _ _ (holding_within _ s t Hw)). cbn [negb].
  rewrite bind_gets, (env_noff _ _ _ Het). change (negb (Z.of_nat (length [L_proc me]) =? 1)) with false. cbv match.
  rewrite bind_gets, decide_False by done.
  assert (intr_get t = Ret false t) as Hi.
  { pose proof (hart_push_off (k_hart s)) as Ho. unfold intr_get, r_sstatus. rewrite bind_gets.
    destruct Hw as [_ Hh]. unfold mret, M_ret. f_equal. rewrite Hh. exact Ho. }
  rewrite (bind_Ret _ _ _ _ _ Hi), bind_gets. destruct Hw as [_ ->]. reflexivity.
Qed.

(** Releasing [lk] while [l], taken after it, stays held. *)
Lemma release_under me lk l s t :
  env me [] s → lock_free lk s → lk ≠ l → within lk s t →
  release lk (acquired l t) =
    Ret tt (set_k_locks (k_locks (acquired l s)) (set_k_hart (k_hart (acquired l s)) t)).
Proof.
  intros He [name Hf] Hne [Hl Hh]. set (v := set_k_locks (k_locks (acquired l s)) (set_k_hart (k_hart (acquired l s)) t)).
  rewrite (release_eq lk v).
  - unfold v, tick. cbn. rewrite hart_tick_noff by (rewrite hart_push_noff by apply He; rewrite (env_noff _ _ _ He); cbn; lia).
    kernel_eq.
  - exists name. unfold v, acquired, put_lock. cbn. by rewrite lookup_insert_ne.
  - cbn. apply hart_push_ok; [apply He|]. rewrite (env_noff _ _ _ He). cbn. lia.
  - unfold v, acquired, put_lock, lock_of. cbn. rewrite Hl, Hh. unfold acquired, put_lock, lock_of. cbn.
    rewrite lookup_insert_ne by done. rewrite insert_insert_ne by done. rewrite hart_push_tp.
    by rewrite (lookup_insert_ne _ l lk) by done.
  - unfold v, acquired, put_lock. cbn. by rewrite Hh.
Qed.

(** [sleep(ch, lk)]: [lk] is free, [me] is asleep on [ch] and its own lock is
    held. *)
Lemma sleep_eq me ch lk s t :
  env me [] s → known lk = true → lk ≠ L_proc me → within lk s t → length (k_procs t) = NPROC →
  sleep ch lk t =
    Block (set_k_procs (asleep me ch (k_procs t)) (set_k_locks (k_locks (acquired (L_proc me) s))
             (set_k_hart (k_hart (acquired (L_proc me) s)) t)))
      (sleep_back me lk (c_intena (hart_push (k_hart s)))).
Proof.
  intros He Hk Hne Hw Hn. pose proof (within_env me _ s t He Hw Hn) as Het.
  unfold sleep. rewrite (bind_myproc me [lk]) by done. rewrite (env_tick_id me _ _ _ Het).
  cbn [deref]. rewrite bind_mret, bind_acquire.
  2: { apply (env_locks _ _ _ Het); [apply known_proc, He|]. intros ?%list_elem_of_singleton. done. }
  rewrite (bind_Ret _ _ _ _ _ (release_under me lk (L_proc me) s t He (env_free _ _ _ He Hk) Hne Hw)).
  unfold on_proc. rewrite !bind_modify. cbn [k_procs set_k_procs set_k_locks set_k_hart].
  set (u := set_k_procs _ _). assert (k_procs u = asleep me ch (k_procs t)) as Hu by done.
  rewrite (bind_Block _ (sched_back (c_intena (hart_push (k_hart s)))) _ _ u); [done|].
  apply (sched_eq me s); [done|done|rewrite Hu; unfold asleep; by rewrite !length_alter|].
  rewrite (proc_of_alter (set_p_state SLEEPING) me u (set_k_procs (alter (set_p_chan ch) me (k_procs t)) t)); [done| |done].
  cbn. rewrite length_alter, Hn. apply He.
Qed.

(** [sleep] when the scheduler gives the processor back: [me] waits for
    nothing, its lock is free and it holds [lk] again. *)
Lemma sleep_back_eq me lk i0 u v :
  given_back me i0 u v → known lk = true →
  sleep_back me lk i0 u =
    Ret tt (acquired lk (set_k_procs (alter (set_p_chan Ch_null) me (k_procs u))
      (set_k_locks (k_locks v) (set_k_hart (hart_tick (k_hart v)) u)))).
Proof.
  intros (He&Hl&Hh) Hk. unfold sleep_back, sched_back, on_proc, on_hart. rewrite !bind_modify.
  rewrite (bind_release (L_proc me) v).
  - cbn [k_procs set_k_procs set_k_hart]. rewrite acquire_eq; [done|].
    destruct (env_free _ _ _ He Hk) as [name Hf]. by exists name.
  - apply (env_free _ _ _ He), known_proc, He.
  - apply He.
  - exact Hl.
  - exact Hh.
Qed.

Definition yield_back (me : nat) (intena : Z) : M unit := sched_back intena;; release (L_proc me).

Lemma yield_eq me s :
  env me [] s →
  yield s = Block (set_k_procs (alter (set_p_state RUNNABLE) me (k_procs s)) (acquired (L_proc me) (tick s)))
    (yield_back me (c_intena (hart_push (hart_tick (k_hart s))))).
Proof.
  intros He. unfold yield. rewrite (bind_myproc me []) by done. cbn [deref].
  rewrite bind_mret, bind_acquire by (apply (env_free me), known_proc, He; by apply env_tick).
  unfold on_proc. rewrite bind_modify. set (u := set_k_procs _ _).
  rewrite (bind_Block _ (sched_back (c_intena (hart_push (hart_tick (k_hart s))))) _ _ u); [done|].
  apply (sched_eq me (tick s)); [by apply env_tick|done|cbn; rewrite length_alter; apply He|].
  rewrite (proc_of_alter (set_p_state RUNNABLE) me u s); [done|rewrite (env_len _ _ _ He); apply He|done].
Qed.

Lemma yield_back_eq me i0 u v :
  given_back me i0 u v →
  yield_back me i0 u = Ret tt (set_k_locks (k_locks v) (set_k_hart (hart_tick (k_hart v)) u)).
Proof.
  intros (He&Hl&Hh). unfold yield_back, sched_back, on_hart. rewrite bind_modify.
  rewrite (release_eq (L_proc me) v); [done| |apply He|exact Hl|exact Hh].
  apply (env_free _ _ _ He), known_proc, He.
Qed.
