(* ===== verification/Signal.v ===== *)
(** * wakeup and kill (proc.c)

    What the two scans of the process table do, from a state in which no
    process lock is held, and what kill does to a slot that is not in use. *)

From S2P Require Import Prelude State Mem Kstring Spinlock Kalloc Vm Proc ProcSpec.

(** ** Description *)

(** The process [kill] finds: the first one with this pid. *)
Fixpoint find_pid (pid : Z) (l : list nat) (s : kernel) : option nat :=
  match l with
  | [] => None
  | i :: l' => if p_pid (proc_of i s) =? pid then Some i else find_pid pid l' s
  end.

(** What [kill] does to it. *)
Definition kill_mark (p : proc) : proc :=
  if bool_decide (p_state p = SLEEPING) then set_p_state RUNNABLE (set_p_killed 1 p)
  else set_p_killed 1 p.

(** ** kill *)

Lemma kill_loop_eq me l pid s :
  env me [] s → (∀ i, i ∈ l → (i < NPROC)%nat) →
  kill_loop l pid s =
    match find_pid pid l s with
    | Some i => Ret 0 (tick (set_k_procs (alter kill_mark i (k_procs s)) s))
    | None => Ret (-1) (match l with [] => s | _ => tick s end)
    end.
Proof.
  revert s. induction l as [|i l IH]; intros s He Hl; [done|]. cbn [kill_loop find_pid].
  pose proof (env_free me (L_proc i) s He ltac:(cbn; apply bool_decide_eq_true_2, Hl; by left)) as Hfree.
  rewrite bind_acquire, bind_gets by done.
  change (proc_of i (acquired (L_proc i) s)) with (proc_of i s).
  destruct (p_pid (proc_of i s) =? pid).
  - unfold on_proc. rewrite bind_modify, bind_when.
    assert (∀ ps, (release (L_proc i);; (mret 0 : M Z)) (set_k_procs ps (acquired (L_proc i) s)) =
      Ret 0 (tick (set_k_procs ps s))) as Hrel.
    { intros ps. rewrite (bind_release (L_proc i) s); [|done|by eapply env_hart|done|done].
      unfold tick, acquired, put_lock. mrun. kernel_eq. }
    assert (∃ p, k_procs s !! i = Some p) as [p Hp].
    { apply lookup_lt_is_Some_2. rewrite (env_len _ _ _ He). apply Hl. by left. }
    assert (proc_of i s = p) as -> by (unfold proc_of; by rewrite Hp).
    assert (∀ f, f p = kill_mark p → alter f i (k_procs s) = alter kill_mark i (k_procs s)) as Halt.
    { intros f Hf. apply list_eq. intros j. destruct (decide (i = j)) as [<-|].
      - rewrite !list_lookup_alter_eq, Hp. cbn. by rewrite Hf.
      - by rewrite !list_lookup_alter_ne. }
    destruct (bool_decide (p_state p = SLEEPING)) eqn:E.
    + rewrite bind_modify, <- (Halt (λ p, set_p_state RUNNABLE (set_p_killed 1 p))),
        <- (list_alter_alter (set_p_state RUNNABLE) (set_p_killed 1)).
      * exact (Hrel (alter (set_p_state RUNNABLE) i (alter (set_p_killed 1) i (k_procs s)))).
      * unfold kill_mark. by rewrite E.
    + rewrite <- (Halt (set_p_killed 1)) by (unfold kill_mark; by rewrite E).
      exact (Hrel (alter (set_p_killed 1) i (k_procs s))).
  - rewrite (bind_release (L_proc i) s); [|done|by eapply env_hart|done|done].
    replace (set_k_locks _ _) with (tick s) by (unfold tick, acquired, put_lock; kernel_eq).
    rewrite IH; [|by apply env_tick|intros j Hj; apply Hl; by right].
    replace (find_pid pid l (tick s)) with (find_pid pid l s).
    2: { clear. induction l as [|j l IH]; cbn; [done|]. by rewrite IH. }
    destruct (find_pid pid l s); [|destruct l; [done|by rewrite tick_tick]].
    f_equal. unfold tick. cbn. rewrite hart_tick_idemp. kernel_eq.
Qed.

Lemma find_pid_Some pid l s i : find_pid pid l s = Some i → i ∈ l ∧ p_pid (proc_of i s) = pid.
Proof.
  induction l as [|j l IH]; cbn; [done|]. case_test.
  - intros [= ->]. split; [by left|done].
  - intros [Hi Hp]%IH. split; [by right|done].
Qed.

Lemma find_pid_None pid l s : find_pid pid l s = None → ∀ i, i ∈ l → p_pid (proc_of i s) ≠ pid.
Proof.
  induction l as [|j l IH]; cbn; [by intros _ i Hi%elem_of_nil|]. case_test; [done|].
  intros Hn i [->|Hi]%elem_of_cons; auto.
Qed.

(** The first one: those before it have other pids. *)
Lemma find_pid_seq pid j n s i :
  find_pid pid (seq j n) s = Some i → ∀ k, (j ≤ k < i)%nat → p_pid (proc_of k s) ≠ pid.
Proof.
  revert j. induction n as [|n IH]; intros j; cbn; [done|]. case_test.
  - intros [= <-] k Hk. lia.
  - intros Hf k Hk. destruct (decide (k = j)) as [->|]; [done|]. apply (IH (S j)); [done|lia].
Qed.

(** ** Contracts *)

(** [wakeup] makes runnable exactly the processes, other than the caller,
    that sleep on the channel; it returns, with any locks held but those of
    processes, and changes nothing else. *)
Theorem wakeup_correct me H ch s :
  env me H s → (∀ i, L_proc i ∉ H) →
  ∃ s', wakeup ch s = Ret tt s' ∧ s' = set_k_hart (k_hart s') (set_k_procs (k_procs s') s) ∧
    length (k_procs s') = length (k_procs s) ∧
    ∀ i p, k_procs s !! i = Some p → k_procs s' !! i = Some
      (if decide (i ≠ me ∧ p_state p = SLEEPING ∧ p_chan p = ch) then set_p_state RUNNABLE p else p).
Proof.
  intros He Hnin. eexists. split; [by apply (wakeup_eq me H)|]. split_and!.
  - unfold tick. kernel_eq.
  - apply length_woken.
  - intros i p Hp. cbn. unfold woken. rewrite list_lookup_imap, Hp. cbn. f_equal. unfold wakes.
    repeat case_bool_decide; case_decide; naive_solver.
Qed.

(** [kill] marks the first process with the given pid killed, wakes it if
    it sleeps, and returns 0; it returns -1 and changes nothing when no
    process has the pid. *)
Theorem kill_correct me pid s :
  env me [] s →
  ∃ r s', kill pid s = Ret r s' ∧ s' = set_k_hart (k_hart s') (set_k_procs (k_procs s') s) ∧
    (r = 0 ∧ (∃ i p, k_procs s !! i = Some p ∧ p_pid p = pid ∧
        (∀ j q, (j < i)%nat → k_procs s !! j = Some q → p_pid q ≠ pid) ∧
        k_procs s' = <[i := kill_mark p]> (k_procs s)) ∨
     r = -1 ∧ (∀ i p, k_procs s !! i = Some p → p_pid p ≠ pid) ∧ k_procs s' = k_procs s).
Proof.
  intros He. unfold kill. rewrite (kill_loop_eq me) by (done || (intros i Hi%elem_of_seq; lia)).
  assert (∀ i p, k_procs s !! i = Some p → proc_of i s = p) as Hof by (intros i p Hp; unfold proc_of; by rewrite Hp).
  destruct (find_pid pid (seq 0 NPROC) s) as [i|] eqn:Hf.
  - eexists 0, _. split_and!; [done|unfold tick; kernel_eq|]. left. split; [done|].
    pose proof (find_pid_Some _ _ _ _ Hf) as [Hi%elem_of_seq Hpid].
    destruct (lookup_lt_is_Some_2 (k_procs s) i) as [p Hp]; [rewrite (env_len _ _ _ He); lia|].
    exists i, p. rewrite (Hof _ _ Hp) in Hpid. split_and!; [done|done| |].
    + intros j q Hj Hq. rewrite <- (Hof _ _ Hq). apply (find_pid_seq _ _ _ _ _ Hf). lia.
    + cbn. apply list_eq. intros j. destruct (decide (i = j)) as [<-|].
      * rewrite list_lookup_alter_eq, Hp, list_lookup_insert_eq; [done|]. by eapply lookup_lt_Some.
      * by rewrite list_lookup_alter_ne, list_lookup_insert_ne.
  - eexists (-1), _. split_and!; [done|unfold tick; kernel_eq|]. right. split_and!; [done| |done].
    intros i p Hp. rewrite <- (Hof _ _ Hp). apply (find_pid_None _ _ _ Hf). apply elem_of_seq.
    apply lookup_lt_Some in Hp. rewrite (env_len _ _ _ He) in Hp. lia.
Qed.

Lemma wakeup_correct_witness :
  ∃ s', wakeup Ch_ticks running_kernel = Ret tt s' ∧ length (k_procs s') = 64%nat.
Proof.
  destruct (wakeup_correct 0 [] Ch_ticks running_kernel) as (s'&Hr&_&Hl&_).
  - apply running_env.
  - intros i Hi. by apply elem_of_nil in Hi.
  - exists s'. split; [exact Hr|]. rewrite Hl. reflexivity.
Defined.

Lemma kill_correct_witness : ∃ r s', kill 1 running_kernel = Ret r s'.
Proof.
  destruct (kill_correct 0 1 running_kernel) as (r&s'&Hr&_); [apply running_env|].
  exists r, s'. exact Hr.
Defined.

(** ** kill(0)

    A slot that is not in use has pid 0, so [kill(0)] finds one. *)

(** Four free pages, for a trap frame and a page table. *)
Definition born_kernel : kernel :=
  match (for_each [0x80100000; 0x80101000; 0x80102000; 0x80103000] (@kfree image0)) running_kernel with
  | Ret _ s => s
  | _ => running_kernel
  end.

