(* ===== verification/SleepWake.v ===== *)
(** * sleep and wakeup do not miss each other (proc.c)

    A process waits for a condition that the lock [lk] protects:
    [acquire(lk); while(!cond) sleep(chan, lk); ...; release(lk)]. Any number
    of other threads make it true: [acquire(lk); cond = 1; wakeup(chan);
    release(lk)]. The steps below are the lock operations and the assignments
    of [sleep], [wakeup], [sched] and [scheduler] in the order of the code,
    interleaved arbitrarily. *)

From S2P Require Import Prelude State.

Module SleepWake.

(** Where the sleeping process is. *)
Inductive spc : Type :=
| S_out      (* outside *)
| S_check    (* holds lk; about to test the condition *)
| S_lockp    (* sleep: holds lk; at acquire(&p->lock) *)
| S_rel      (* holds lk and p->lock; at release(lk) *)
| S_set      (* holds p->lock; about to set p->chan and p->state *)
| S_sched    (* SLEEPING, holds p->lock; about to switch to the scheduler *)
| S_off      (* switched out; the scheduler has released p->lock *)
| S_on       (* switched in by the scheduler, which holds p->lock for it *)
| S_relock   (* p->lock released; at acquire(lk) *)
| S_use.     (* holds lk; the condition was true *)

(** Where another thread is. *)
Inductive wpc : Type :=
| W_out      (* outside *)
| W_set      (* holds lk; about to make the condition true *)
| W_wake     (* wakeup: holds lk; at acquire(&p->lock) *)
| W_test     (* holds lk and p->lock; about to test p->state and p->chan *)
| W_rel.     (* holds lk; about to release it *)

Inductive actor : Type := Sleeper | Waker (j : nat).

Record st : Type := MkSt {
  cond : bool;
  lk : option actor;
  pl : option actor;
  pstate : procstate;
  pchan : bool;          (* p->chan == chan *)
  sp : spc;
  wp : nat → wpc;
}.

Definition set_wp (j : nat) (w : wpc) (f : nat → wpc) : nat → wpc :=
  λ i, if decide (j = i) then w else f i.

Inductive step : st → st → Prop :=
| s_acquire c q p ch f :
    step (MkSt c None q p ch S_out f) (MkSt c (Some Sleeper) q p ch S_check f)
| s_true l q p ch f :
    step (MkSt true l q p ch S_check f) (MkSt true l q p ch S_use f)
| s_false l q p ch f :
    step (MkSt false l q p ch S_check f) (MkSt false l q p ch S_lockp f)
| s_lockp c l p ch f :
    step (MkSt c l None p ch S_lockp f) (MkSt c l (Some Sleeper) p ch S_rel f)
| s_release c l q p ch f :
    step (MkSt c l q p ch S_rel f) (MkSt c None q p ch S_set f)
| s_set c l q p ch f :
    step (MkSt c l q p ch S_set f) (MkSt c l q SLEEPING true S_sched f)
| s_sched c l q p ch f :
    step (MkSt c l q p ch S_sched f) (MkSt c l None p ch S_off f)
| s_run c l ch f :
    step (MkSt c l None RUNNABLE ch S_off f) (MkSt c l (Some Sleeper) RUNNING ch S_on f)
| s_resume c l q p ch f :
    step (MkSt c l q p ch S_on f) (MkSt c l None p false S_relock f)
| s_relock c q p ch f :
    step (MkSt c None q p ch S_relock f) (MkSt c (Some Sleeper) q p ch S_check f)
| s_use c c' l q p ch f :
    step (MkSt c l q p ch S_use f) (MkSt c' None q p ch S_out f)
| w_acquire j c q p ch s f :
    f j = W_out → step (MkSt c None q p ch s f) (MkSt c (Some (Waker j)) q p ch s (set_wp j W_set f))
| w_set j c l q p ch s f :
    f j = W_set → step (MkSt c l q p ch s f) (MkSt true l q p ch s (set_wp j W_wake f))
| w_lockp j c l p ch s f :
    f j = W_wake → step (MkSt c l None p ch s f) (MkSt c l (Some (Waker j)) p ch s (set_wp j W_test f))
| w_test j c l q p ch s f :
    f j = W_test →
    step (MkSt c l q p ch s f)
      (MkSt c l None (if bool_decide (p = SLEEPING) && ch then RUNNABLE else p) ch s (set_wp j W_rel f))
| w_release j c l q p ch s f :
    f j = W_rel → step (MkSt c l q p ch s f) (MkSt c None q p ch s (set_wp j W_out f)).

Inductive reachable : st → Prop :=
| reach_init c : reachable (MkSt c None None RUNNING false S_out (λ _, W_out))
| reach_step x y : reachable x → step x y → reachable y.

(** Who holds the locks, by program counter. *)
Definition s_holds_lk (s : spc) : bool :=
  match s with S_check | S_lockp | S_rel | S_use => true | _ => false end.
Definition s_holds_pl (s : spc) : bool :=
  match s with S_rel | S_set | S_sched | S_on => true | _ => false end.
Definition w_holds_lk (w : wpc) : bool := match w with W_out => false | _ => true end.
Definition w_holds_pl (w : wpc) : bool := match w with W_test => true | _ => false end.

(** The waker has made the condition true and has yet to look at the process. *)
Definition pending (w : wpc) : bool := match w with W_wake | W_test => true | _ => false end.

Record inv (x : st) : Prop := {
  i_lk_s : lk x = Some Sleeper ↔ s_holds_lk (sp x) = true;
  i_lk_w j : lk x = Some (Waker j) ↔ w_holds_lk (wp x j) = true;
  i_pl_s : pl x = Some Sleeper ↔ s_holds_pl (sp x) = true;
  i_pl_w j : pl x = Some (Waker j) ↔ w_holds_pl (wp x j) = true;
  i_state : match sp x with
            | S_sched => pstate x = SLEEPING ∧ pchan x = true
            | S_off => pstate x = SLEEPING ∧ pchan x = true ∨ pstate x = RUNNABLE
            | _ => pstate x = RUNNING
            end;
  i_false : sp x = S_lockp ∨ sp x = S_rel → cond x = false;
  i_wake : sp x = S_set ∨ sp x = S_sched ∨ sp x = S_off ∧ pstate x = SLEEPING →
    cond x = true → ∃ j, pending (wp x j) = true;
}.

End SleepWake.

Module SleepWakeFacts.
Import SleepWake.

Lemma set_wp_same j w f : set_wp j w f j = w.
Proof. unfold set_wp. by rewrite decide_True. Qed.

Lemma set_wp_other j w f i : j ≠ i → set_wp j w f i = f i.
Proof. intros. unfold set_wp. by rewrite decide_False. Qed.

Ltac wcase :=
  match goal with
  | |- context [set_wp ?j _ _ ?i] =>
      destruct (decide (j = i)) as [<-|?]; [rewrite set_wp_same|rewrite set_wp_other by done]
  end.

Lemma inv_init c : inv (MkSt c None None RUNNING false S_out (λ _, W_out)).
Proof. split; cbn; intuition congruence. Qed.

(** The locks. *)
Definition locks_inv (x : st) : Prop :=
  (lk x = Some Sleeper ↔ s_holds_lk (sp x) = true) ∧ (∀ j, lk x = Some (Waker j) ↔ w_holds_lk (wp x j) = true) ∧
  (pl x = Some Sleeper ↔ s_holds_pl (sp x) = true) ∧ (∀ j, pl x = Some (Waker j) ↔ w_holds_pl (wp x j) = true).

Lemma step_locks x y : locks_inv x → step x y → locks_inv y.
Proof.
  intros (H1&H2&H3&H4) Hs. destruct Hs; unfold locks_inv in *; cbn in *;
    try (match goal with H : _ = _ |- _ => pose proof (H2 j) as H2j; pose proof (H4 j) as H4j; rewrite H in H2j, H4j end; cbn in *);
    split_and!; try (intros k; pose proof (H2 k); pose proof (H4 k)); try wcase; cbn in *; intuition congruence.
Qed.

(** A waker that holds a lock keeps the sleeper away from it. *)
Lemma waker_excludes x j :
  inv x → (w_holds_lk (wp x j) = true → s_holds_lk (sp x) = false) ∧
          (w_holds_pl (wp x j) = true → s_holds_pl (sp x) = false).
Proof.
  intros [H1 H2 H3 H4 _ _ _]. rewrite <- H2, <- H4. split; intros E; apply not_true_iff_false;
    rewrite <- ?H1, <- ?H3; congruence.
Qed.

Lemma step_state x y : inv x → step x y →
  match sp y with
  | S_sched => pstate y = SLEEPING ∧ pchan y = true
  | S_off => pstate y = SLEEPING ∧ pchan y = true ∨ pstate y = RUNNABLE
  | _ => pstate y = RUNNING
  end.
Proof.
  intros Hinv Hs. pose proof (i_state _ Hinv) as H5. destruct Hs; cbn in *; try done; try tauto.
  destruct (waker_excludes _ j Hinv) as [_ Hp]. cbn in Hp. rewrite H in Hp. specialize (Hp eq_refl).
  destruct s; cbn in *; try done; try (by subst p).
  destruct H5 as [[-> ->]| ->]; by right.
Qed.

Lemma step_false x y : inv x → step x y → sp y = S_lockp ∨ sp y = S_rel → cond y = false.
Proof.
  intros Hinv Hs. pose proof (i_false _ Hinv) as H6. destruct Hs; cbn in *; try (intuition congruence).
  destruct (waker_excludes _ j Hinv) as [Hl _]. cbn in Hl. rewrite H in Hl. specialize (Hl eq_refl).
  intros [-> | ->]; done.
Qed.

Lemma pending_other j w f : pending (f j) = false → (∃ i, pending (f i) = true) → ∃ i, pending (set_wp j w f i) = true.
Proof.
  intros Hj [i Hi]. exists i. rewrite set_wp_other; [done|]. intros <-. congruence.
Qed.

Lemma step_wake x y : inv x → step x y →
  sp y = S_set ∨ sp y = S_sched ∨ sp y = S_off ∧ pstate y = SLEEPING →
  cond y = true → ∃ j, pending (wp y j) = true.
Proof.
  intros Hinv Hs. pose proof (i_wake _ Hinv) as H7. pose proof (i_false _ Hinv) as H6.
  pose proof (i_state _ Hinv) as H5.
  destruct Hs; cbn in *; intros Hsp Hc; try (intuition congruence).
  - apply pending_other; [by rewrite H|auto].
  - exists j. by rewrite set_wp_same.
  - exists j. by rewrite set_wp_same.
  - exfalso. destruct (waker_excludes _ j Hinv) as [_ Hp]. cbn in Hp. rewrite H in Hp. specialize (Hp eq_refl).
    destruct Hsp as [-> |[-> |[-> Hst]]]; try done. by destruct H5 as [[-> ->]| ->].
  - apply pending_other; [by rewrite H|auto].
Qed.

Lemma reachable_ok x : reachable x → inv x.
Proof.
  induction 1 as [c|x y _ IH Hs]; [apply inv_init|].
  assert (locks_inv y) as (L1&L2&L3&L4) by (eapply step_locks; [|done]; destruct IH; by split_and!).
  split; try done; [by eapply step_state|by eapply step_false|by eapply step_wake].
Qed.

(** C6: no wakeup is lost. However [sleep], the wakers and the scheduler
    interleave, a process that sleeps while its condition is true is one a
    waker is about to wake: it holds the condition's lock and has yet to look
    at the process. So whenever that lock is free, a sleeping process sleeps
    because its condition is false; and the waker's look wakes it. *)
Theorem no_lost_wakeup x :
  reachable x → sp x = S_off → pstate x = SLEEPING → cond x = true →
  lk x ≠ None ∧ ∃ j, lk x = Some (Waker j) ∧
    ((wp x j = W_wake ∧ ∃ y, step x y ∧ wp y j = W_test) ∨
     (wp x j = W_test ∧ ∃ y, step x y ∧ pstate y = RUNNABLE)).
Proof.
  intros Hr Hsp Hst Hc. pose proof (reachable_ok x Hr) as Hinv.
  destruct (i_wake _ Hinv) as [j Hj]; [tauto|done|].
  assert (lk x = Some (Waker j)) as Hlk by (apply (i_lk_w _ Hinv); by destruct (wp x j)).
  split; [by rewrite Hlk|]. exists j. split; [done|].
  pose proof (i_state _ Hinv) as Hs. rewrite Hsp, Hst in Hs. destruct Hs as [[_ Hch]|?]; [|done].
  pose proof (i_lk_w _ Hinv) as Hw. pose proof (i_pl_w _ Hinv) as Hpw. pose proof (i_pl_s _ Hinv) as Hps.
  destruct x as [c l q p ch s f]; cbn in *. subst. destruct (f j) eqn:Hf; try done; [left|right]; split; try done.
  - assert (q = None) as ->.
    { destruct q as [[|k]|]; [by destruct (proj1 Hps)| |done].
      pose proof (proj1 (Hpw k) eq_refl) as Hk. assert (w_holds_lk (f k) = true) as Hk' by (by destruct (f k)).
      apply Hw in Hk'. injection Hk' as <-. by rewrite Hf in Hk. }
    eexists. split; [by apply (w_lockp j)|]. cbn. apply set_wp_same.
  - eexists. split; [by apply (w_test j)|]. done.
Qed.

(** The run in which the waker gets between [release(lk)] and the switch. *)
Lemma no_lost_wakeup_witness :
  ∃ x, reachable x ∧ sp x = S_off ∧ pstate x = SLEEPING ∧ lk x ≠ None.
Proof.
  pose (x := MkSt true (Some (Waker 0)) None SLEEPING true S_off (set_wp 0 W_wake (set_wp 0 W_set (λ _, W_out)))).
  assert (reachable x) as Hr.
  { eapply reach_step; [|apply s_sched].
    eapply reach_step; [|apply (s_set true _ _ RUNNING false)].
    eapply reach_step; [|apply (w_set 0 false); reflexivity].
    eapply reach_step; [|apply w_acquire; reflexivity].
    eapply reach_step; [|apply (s_release _ (Some Sleeper))].
    eapply reach_step; [|apply s_lockp].
    eapply reach_step; [|apply s_false].
    eapply reach_step; [|apply s_acquire]. apply reach_init. }
  exists x. destruct (no_lost_wakeup x Hr eq_refl eq_refl eq_refl) as [Hl _].
  split; [exact Hr|]. split; [reflexivity|]. split; [reflexivity|exact Hl].
Defined.

End SleepWakeFacts.
