(* ===== verification/Uart.v ===== *)
(** * kernel/uart.c: the 16550 UART driver

    Device registers are read and written through the class [Mmio]; the
    transmit ring, its indices and the code that moves bytes from it to the
    device are the source's. *)

From S2P Require Import Prelude State Mem Kstring Spinlock Kalloc Vm Proc.

(** Loads and stores to memory-mapped device registers. *)
Class Mmio := {
  mmio_read : Z → M Z;
  mmio_write : Z → Z → M unit;
}.

(** ** Model *)

Definition RHR : Z := 0.
Definition THR : Z := 0.
Definition IER : Z := 1.
Definition IER_RX_ENABLE : Z := Z.shiftl 1 0.
Definition IER_TX_ENABLE : Z := Z.shiftl 1 1.
Definition FCR : Z := 2.
Definition FCR_FIFO_ENABLE : Z := Z.shiftl 1 0.
Definition FCR_FIFO_CLEAR : Z := Z.shiftl 3 1.
Definition LCR : Z := 3.
Definition LCR_EIGHT_BITS : Z := Z.shiftl 3 0.
Definition LCR_BAUD_LATCH : Z := Z.shiftl 1 7.
Definition LSR : Z := 5.
Definition LSR_RX_READY : Z := Z.shiftl 1 0.
Definition LSR_TX_IDLE : Z := Z.shiftl 1 5.
Definition UART_TX_BUF_SIZE : Z := 32.

(** [for(;;) ;] *)
Definition hang {A : Type} : M A := out_of_fuel.

Section model.
Context `{Fuel} `{Mmio}.

Definition ReadReg (reg : Z) : M Z := mmio_read (UART0 + reg).
Definition WriteReg (reg v : Z) : M unit := mmio_write (UART0 + reg) (u8 v).

Definition on_uart (f : uart → uart) : M unit := modify (λ s, set_k_uart (f (k_uart s)) s).

Definition uartinit : M unit :=
  WriteReg IER 0x00;;
  WriteReg LCR LCR_BAUD_LATCH;;
  WriteReg 0 0x03;;
  WriteReg 1 0x00;;
  WriteReg LCR LCR_EIGHT_BITS;;
  WriteReg FCR (Z.lor FCR_FIFO_ENABLE FCR_FIFO_CLEAR);;
  WriteReg IER (Z.lor IER_TX_ENABLE IER_RX_ENABLE);;
  initlock L_uart "uart".

(** Each round removes a byte from the ring, which holds at most
    [uart_tx_w - uart_tx_r]. *)
Fixpoint uartstart_loop (n : nat) : M unit :=
  match n with
  | O => out_of_fuel
  | S n' =>
      u ← gets k_uart;
      if uart_tx_w u =? uart_tx_r u then mret tt
      else
        lsr ← ReadReg LSR;
        if Z.land lsr LSR_TX_IDLE =? 0 then mret tt
        else
          let c := default 0 (uart_tx_buf u !! Z.to_nat (uart_tx_r u mod UART_TX_BUF_SIZE)) in
          on_uart (set_uart_tx_r (u64 (uart_tx_r u + 1)));;
          wakeup Ch_uart_tx_r;;
          WriteReg THR c;;
          uartstart_loop n'
  end.

Definition uartstart : M unit :=
  u ← gets k_uart;
  uartstart_loop (S (Z.to_nat (u64 (uart_tx_w u - uart_tx_r u)))).

Fixpoint uartputc_wait (n : nat) : M unit :=
  u ← gets k_uart;
  if uart_tx_w u =? u64 (uart_tx_r u + UART_TX_BUF_SIZE) then
    match n with
    | O => out_of_fuel
    | S n' => sleep Ch_uart_tx_r L_uart;; uartputc_wait n'
    end
  else mret tt.

Definition uartputc (c : Z) : M unit :=
  acquire L_uart;;
  panicked ← gets k_panicked;
  if negb (panicked =? 0) then hang
  else
    uartputc_wait fuel;;
    u ← gets k_uart;
    on_uart (set_uart_tx_buf
      (<[Z.to_nat (uart_tx_w u mod UART_TX_BUF_SIZE) := u8 c]> (uart_tx_buf u)));;
    on_uart (set_uart_tx_w (u64 (uart_tx_w u + 1)));;
    uartstart;;
    release L_uart.

(** [while((ReadReg(LSR) & LSR_TX_IDLE) == 0) ;] *)
Fixpoint tx_idle_wait (n : nat) : M unit :=
  lsr ← ReadReg LSR;
  if Z.land lsr LSR_TX_IDLE =? 0 then
    match n with O => out_of_fuel | S n' => tx_idle_wait n' end
  else mret tt.

Definition uartputc_sync (c : Z) : M unit :=
  push_off;;
  panicked ← gets k_panicked;
  if negb (panicked =? 0) then hang
  else
    tx_idle_wait fuel;;
    WriteReg THR c;;
    pop_off.

Definition uartgetc : M Z :=
  lsr ← ReadReg LSR;
  if negb (Z.land lsr 0x01 =? 0) then ReadReg RHR else mret (-1).

End model.
