(* ===== verification/UartSpec.v ===== *)
(** * The UART sends bytes in order (uart.c)

    The 16550 behind the registers is the class [Uart16550]: a byte written to
    the transmit register while the line status says it is idle is sent. Under
    it the transmit ring is a queue in front of the line: what was sent
    followed by what is queued grows by exactly the bytes of [uartputc]. *)

From S2P Require Import Prelude Ring State Mem Kstring Spinlock Kalloc Vm Proc ProcSpec SchedSpec Uart.

(** ** The device *)

(** [tx_busy]: how many more times the line status reads busy. A byte written
    while it is not 0 may be lost. *)
Class Uart16550 (FU : Fuel) (U : Mmio) := {
  tx_busy : gmap Z Z → nat;
  read_lsr s : ∃ v d, mmio_read (UART0 + LSR) s = Ret v (set_k_dev d s) ∧
    (Z.land v LSR_TX_IDLE = 0 ↔ tx_busy (k_dev s) ≠ 0%nat) ∧ (tx_busy d ≤ pred (tx_busy (k_dev s)))%nat;
  write_thr s c : tx_busy (k_dev s) = 0%nat →
    ∃ d, mmio_write (UART0 + THR) c s = Ret tt (set_k_dev d (set_k_out (k_out s ++ [c]) s));
  tx_drains d : (tx_busy d ≤ fuel)%nat;
}.

(** A line that is busy for two readings after each byte, and loses a byte
    written meanwhile. *)
Definition slow_busy (d : gmap Z Z) : nat := Nat.min 2 (Z.to_nat (default 0 (d !! UART0))).

#[global] Instance slow_uart : Mmio := {|
  mmio_read a s :=
    if a =? UART0 + LSR
    then Ret (if decide (slow_busy (k_dev s) = 0%nat) then LSR_TX_IDLE else 0)
             (set_k_dev (<[UART0 := Z.of_nat (pred (slow_busy (k_dev s)))]> (k_dev s)) s)
    else Ret 0 s;
  mmio_write a v s :=
    if a =? UART0 + THR
    then if decide (slow_busy (k_dev s) = 0%nat)
         then Ret tt (set_k_dev (<[UART0 := 2]> (k_dev s)) (set_k_out (k_out s ++ [v]) s))
         else Ret tt s
    else Ret tt s;
|}.

(** ** Description *)

Definition uart_ok (s : kernel) : Prop :=
  ring_ok 32 18446744073709551616 (uart_tx_buf (k_uart s)) (uart_tx_r (k_uart s)) (uart_tx_w (k_uart s)).

Definition uart_queue (s : kernel) : list Z :=
  ring_queue 32 18446744073709551616 (uart_tx_buf (k_uart s)) (uart_tx_r (k_uart s)) (uart_tx_w (k_uart s)).

(** From [t] to [t'] the bytes [xs] left the queue and went out; if there are
    any, who waits for room was woken. *)
Record sent (me : nat) (xs : list Z) (t t' : kernel) : Prop := {
  se_ok : uart_ok t';
  se_queue : uart_queue t = xs ++ uart_queue t';
  se_out : k_out t' = k_out t ++ xs;
  se_procs : k_procs t' = if decide (xs = []) then k_procs t else woken me Ch_uart_tx_r (k_procs t);
  se_frame : t' = set_k_dev (k_dev t') (set_k_out (k_out t') (set_k_uart (k_uart t')
    (set_k_procs (k_procs t') t)));
}.

(** ** Lemmas *)

Lemma slow_uart_ok (FU : Fuel) : (2 ≤ fuel)%nat → Uart16550 FU slow_uart.
Proof.
  intros Hf. refine {| tx_busy := slow_busy |}.
  - intros s. do 2 eexists. split; [reflexivity|]. split.
    + destruct (decide _); [by vm_compute in *|]. done.
    + unfold slow_busy at 1. rewrite lookup_insert_eq. cbn [from_option id]. unfold id. lia.
  - intros s c Hb. eexists. cbn. by rewrite decide_True.
  - intros d. unfold slow_busy. lia.
Defined.

Lemma woken_idemp me ch ps : woken me ch (woken me ch ps) = woken me ch ps.
Proof.
  apply list_eq. intros i. unfold woken. rewrite !list_lookup_imap.
  destruct (ps !! i) as [p|]; cbn; [|done]. destruct (wakes me ch i p) eqn:Hw; [|by rewrite Hw].
  unfold wakes. cbn. rewrite (bool_decide_eq_false_2 (RUNNABLE = SLEEPING)) by done. by rewrite andb_false_r.
Qed.

Section uart.
Context {FU : Fuel} {U : Mmio} {UO : Uart16550 FU U}.
Context (me : nat).

Lemma sent_refl t d : uart_ok t → sent me [] t (set_k_dev d t).
Proof. intros Ho. split; [done|done|by rewrite app_nil_r|done|kernel_eq]. Qed.

Lemma sent_cons x xs t t1 t2 : sent me [x] t t1 → sent me xs t1 t2 → sent me (x :: xs) t t2.
Proof.
  intros [O1 Q1 U1 P1 F1] [O2 Q2 U2 P2 F2]. split.
  - done.
  - by rewrite Q1, Q2.
  - by rewrite U2, U1, <- app_assoc.
  - rewrite P2, P1. rewrite (decide_False (P := [x] = [])), (decide_False (P := x :: xs = [])) by done. destruct (decide (xs = [])); [done|apply woken_idemp].
  - rewrite F2. rewrite F1 at 1. kernel_eq.
Qed.

(** One round of [uartstart]. *)
Lemma send_one H t d d' :
  env me H t → uart_ok t → uart_tx_w (k_uart t) ≠ uart_tx_r (k_uart t) →
  ∃ x xs, uart_queue t = x :: xs ∧ 0 ≤ x < 256 ∧
    sent me [x] t (set_k_dev d' (set_k_out (k_out t ++ [x]) (set_k_procs (woken me Ch_uart_tx_r (k_procs t))
      (set_k_uart (set_uart_tx_r (u64 (uart_tx_r (k_uart t) + 1)) (k_uart t)) (set_k_dev d t))))) ∧
    x = default 0 (uart_tx_buf (k_uart t) !! Z.to_nat (uart_tx_r (k_uart t) mod UART_TX_BUF_SIZE)).
Proof.
  intros He Ho Hne.
  destruct (ring_ok_pop 32 18446744073709551616 ltac:(done) ltac:(done) ltac:(done) _ _ _ Ho Hne) as [H1 H2].
  pose proof (ring_front_byte 32 18446744073709551616 _ _ _ Ho) as Hb.
  eexists _, _. split; [exact H2|]. split; [exact Hb|]. split; [|done].
  split; [exact H1|exact H2|done|done|kernel_eq].
Qed.

Lemma sent_env H xs t t' : env me H t → sent me xs t t' → env me H t'.
Proof.
  intros He [_ _ _ Hp Hf]. apply (env_ext me H t); [done|left; by rewrite Hf|by rewrite Hf|].
  rewrite Hp. case_decide; [done|apply length_woken].
Qed.

(** [uartstart] empties the queue as long as the line takes bytes, and sends
    at least one if the line is idle. *)
Lemma uartstart_loop_ok l H n t :
  env me (l :: H) t → (∀ i, L_proc i ∉ l :: H) → uart_ok t → (length (uart_queue t) < n)%nat →
  ∃ xs t', uartstart_loop n t = Ret tt t' ∧ sent me xs t t' ∧
    (tx_busy (k_dev t) = 0%nat → uart_queue t ≠ [] → xs ≠ []).
Proof.
  intros He Hl. revert t He. induction n as [|n IH]; intros t He Ho Hn; [lia|].
  cbn [uartstart_loop]. rewrite bind_gets.
  destruct (uart_tx_w (k_uart t) =? uart_tx_r (k_uart t)) eqn:Hwr.
  { apply Z.eqb_eq in Hwr. exists [], t. split; [done|]. split.
    - split; [done|done|by rewrite app_nil_r|done|by destruct t].
    - intros _ []. unfold uart_queue. apply ring_empty; [done..|apply Ho|apply Ho|done]. }
  apply Z.eqb_neq in Hwr. destruct (read_lsr t) as (v&d&Hr&Hv&Hd).
  unfold ReadReg at 1. rewrite (bind_Ret _ _ _ _ _ Hr).
  destruct (Z.land v LSR_TX_IDLE =? 0) eqn:Hi.
  { apply Z.eqb_eq, Hv in Hi. exists [], (set_k_dev d t). split; [done|]. split; [by apply sent_refl|]. done. }
  assert (tx_busy (k_dev t) = 0%nat) as Hb by (apply Z.eqb_neq in Hi; destruct (tx_busy (k_dev t)); [done|by destruct Hi; apply Hv]).
  unfold on_uart. rewrite bind_modify. set (t1 := set_k_uart _ _).
  assert (env me (l :: H) t1) as He1 by (by apply (env_ext me _ t); [done|left|..]).
  rewrite (bind_Ret _ _ _ _ _ (wakeup_eq me _ Ch_uart_tx_r t1 He1 Hl)).
  rewrite tick_set_procs, (env_tick_id me _ _ _ He1).
  destruct (write_thr (set_k_procs (woken me Ch_uart_tx_r (k_procs t1)) t1)
    (u8 (default 0 (uart_tx_buf (k_uart t) !! Z.to_nat (uart_tx_r (k_uart t) mod UART_TX_BUF_SIZE))))) as [d' Hw];
    [cbn; lia|].
  unfold WriteReg. rewrite (bind_Ret _ _ _ _ _ Hw).
  destruct (send_one (l :: H) t d d' He Ho Hwr) as (x&xs&Hq&Hx&Hs&->). rewrite u8_small by done.
  destruct (IH _ (sent_env _ _ _ _ He Hs) (se_ok _ _ _ _ Hs)) as (ys&t'&Hrun&Hs'&_).
  { rewrite (se_queue _ _ _ _ Hs) in Hn. cbn in Hn. cbn. lia. }
  eexists _, t'. split; [exact Hrun|]. split; [by eapply sent_cons|done].
Qed.

Lemma uartstart_ok l H t :
  env me (l :: H) t → (∀ i, L_proc i ∉ l :: H) → uart_ok t →
  ∃ xs t', uartstart t = Ret tt t' ∧ sent me xs t t' ∧
    (tx_busy (k_dev t) = 0%nat → uart_queue t ≠ [] → xs ≠ []).
Proof.
  intros He Hl Ho. unfold uartstart. rewrite bind_gets. apply (uartstart_loop_ok l H); try done.
  unfold uart_queue. rewrite ring_length. unfold u64. lia.
Qed.

(** [c] joined the queue and the bytes [xs] went out, from [t] to [t']. *)
Definition uart_sends (c : Z) (xs : list Z) (t t' : kernel) : Prop :=
  uart_ok t' ∧ uart_queue t ++ [u8 c] = xs ++ uart_queue t' ∧ k_out t' = k_out t ++ xs ∧
  k_procs t' = (if decide (xs = []) then k_procs t else woken me Ch_uart_tx_r (k_procs t)) ∧
  t' = set_k_hart (k_hart t') (set_k_locks (k_locks t') (set_k_dev (k_dev t') (set_k_out (k_out t')
    (set_k_uart (k_uart t') (set_k_procs (k_procs t') t))))).

(** [uartputc] once there is room. *)
Definition uart_finish (c : Z) : M unit :=
  u ← gets k_uart;
  on_uart (set_uart_tx_buf (<[Z.to_nat (uart_tx_w u mod UART_TX_BUF_SIZE) := u8 c]> (uart_tx_buf u)));;
  on_uart (set_uart_tx_w (u64 (uart_tx_w u + 1)));;
  uartstart;;
  release L_uart.

Lemma uart_finish_ok c s t :
  env me [] s → within L_uart s t → length (k_procs t) = NPROC → uart_ok t → (length (uart_queue t) < 32)%nat →
  ∃ xs t', uart_finish c t = Ret tt t' ∧ uart_sends c xs t t' ∧ (tx_busy (k_dev t) = 0%nat → xs ≠ []) ∧
    k_locks t' = k_locks s ∧ k_hart t' = hart_tick (k_hart s).
Proof.
  intros He Hw Hn Ho Hlt. pose proof (within_env me _ s t He Hw Hn) as Het. destruct Hw as [Hwl Hwh].
  unfold uart_finish. rewrite bind_gets. unfold on_uart. rewrite !bind_modify. set (s2 := set_k_uart _ (set_k_uart _ t)).
  destruct (ring_ok_push 32 18446744073709551616 ltac:(done) ltac:(done) ltac:(done) _ _ _ (u8 c) Ho) as [Ho2 Hq2];
    [unfold uart_queue in Hlt; lia|apply u8_range|].
  assert (env me [L_uart] s2) as He2 by (apply (env_ext me _ t); [done|left| |]; done).
  destruct (uartstart_ok L_uart [] s2 He2 ltac:(set_solver) Ho2) as (xs&s3&Hr&Hs&Hsome).
  rewrite (bind_Ret _ _ _ _ _ Hr). destruct Hs as [Ho3 Hq3 Hout Hprocs Hframe].
  rewrite (release_eq L_uart s); [|by apply (env_free me)|apply He|by rewrite Hframe|by rewrite Hframe].
  eexists xs, _. split; [reflexivity|]. split; [split_and!|split_and!; [|done..]].
  - exact Ho3.
  - etrans; [symmetry; exact Hq2|]. etrans; [exact Hq3|]. done.
  - cbn. by rewrite Hout.
  - exact Hprocs.
  - cbn. rewrite Hframe. kernel_eq.
  - intros Hb. apply Hsome; [exact Hb|].
    assert (uart_queue s2 = uart_queue t ++ [u8 c]) as -> by exact Hq2. by destruct (uart_queue t).
Qed.

Lemma uartputc_wait_room n t :
  uart_ok t → (length (uart_queue t) < 32)%nat → uartputc_wait n t = Ret tt t.
Proof.
  intros Ho Hlt. assert (uart_tx_w (k_uart t) =? u64 (uart_tx_r (k_uart t) + UART_TX_BUF_SIZE) = false) as Hf.
  { apply Z.eqb_neq. intros Hf. apply (ring_full_iff 32 18446744073709551616 ltac:(done) ltac:(done) _ _ _ Ho) in Hf.
    unfold uart_queue in Hlt. lia. }
  destruct n; cbn [uartputc_wait]; rewrite bind_gets; by rewrite Hf.
Qed.

Lemma uartputc_enter c s :
  env me [] s → k_panicked s = 0 →
  uartputc c s = (uartputc_wait fuel;; uart_finish c) (acquired L_uart s).
Proof.
  intros He Hp. unfold uartputc. rewrite bind_acquire by (by apply (env_free me)). rewrite bind_gets.
  change (k_panicked (acquired L_uart s)) with (k_panicked s). by rewrite Hp.
Qed.

Lemma uartputc_room c s :
  env me [] s → uart_ok s → k_panicked s = 0 → (length (uart_queue s) < 32)%nat →
  ∃ xs s', uartputc c s = Ret tt s' ∧ uart_sends c xs s s' ∧ (tx_busy (k_dev s) = 0%nat → xs ≠ []) ∧
    k_locks s' = k_locks s ∧ k_hart s' = hart_tick (k_hart s).
Proof.
  intros He Ho Hp Hlt. rewrite uartputc_enter by done.
  rewrite (bind_Ret _ _ _ _ _ (uartputc_wait_room fuel (acquired L_uart s) Ho Hlt)).
  destruct (uart_finish_ok c s (acquired L_uart s) He) as (xs&s'&Hr&Hs&Hrest); [done|apply He|done|done|].
  exists xs, s'. split; [exact Hr|]. split; [|exact Hrest].
  destruct Hs as (A&B&C&D&E). split_and!; [done..|]. rewrite E at 1. unfold acquired. kernel_eq.
Qed.

(** A full ring: the process sleeps until there is room, then goes on. *)
Lemma uartputc_full c s n :
  env me [] s → uart_ok s → k_panicked s = 0 → length (uart_queue s) = 32%nat → fuel = S n →
  uartputc c s = Block (set_k_procs (asleep me Ch_uart_tx_r (k_procs s)) (acquired (L_proc me) s))
    ((sleep_back me L_uart (c_intena (hart_push (k_hart s)));; uartputc_wait n);; uart_finish c).
Proof.
  intros He Ho Hp Hfull Hf. rewrite uartputc_enter by done. apply bind_Block. rewrite Hf. cbn [uartputc_wait].
  rewrite bind_gets. change (k_uart (acquired L_uart s)) with (k_uart s).
  assert (uart_tx_w (k_uart s) =? u64 (uart_tx_r (k_uart s) + UART_TX_BUF_SIZE) = true) as ->.
  { apply Z.eqb_eq. by apply (ring_full_iff 32 18446744073709551616 ltac:(done) ltac:(done) _ _ _ Ho). }
  apply bind_Block. rewrite (sleep_eq me Ch_uart_tx_r L_uart s); [|done..|apply He].
  unfold acquired, put_lock. f_equal.
Qed.

Lemma uart_back_ok c i0 n u v :
  given_back me i0 u v → length (k_procs u) = NPROC → uart_ok u → (length (uart_queue u) < 32)%nat →
  ∃ xs s', (((sleep_back me L_uart i0;; uartputc_wait n);; uart_finish c) : M unit) u = Ret tt s' ∧
    uart_sends c xs (set_k_procs (alter (set_p_chan Ch_null) me (k_procs u)) u) s' ∧
    (tx_busy (k_dev u) = 0%nat → xs ≠ []) ∧ k_locks s' = k_locks v ∧ k_hart s' = hart_tick (k_hart v).
Proof.
  intros Hb Hn Ho Hlt. set (w := acquired L_uart (set_k_procs (alter (set_p_chan Ch_null) me (k_procs u))
      (set_k_locks (k_locks v) (set_k_hart (hart_tick (k_hart v)) u)))).
  pose proof Hb as (Hv&_&_).
  rewrite (bind_Ret (sleep_back me L_uart i0;; uartputc_wait n) _ _ tt w).
  2: { rewrite (bind_Ret _ _ _ _ _ (sleep_back_eq me L_uart i0 u v Hb eq_refl)). by apply uartputc_wait_room. }
  destruct (uart_finish_ok c (tick v) w) as (xs&s'&Hr&Hs&Hbz&Hl&Hh);
    [by apply env_tick|done|cbn; by rewrite length_alter|done|done|].
  exists xs, s'. split; [exact Hr|]. split; [|split_and!; [done|done|]].
  - destruct Hs as (A&B&C&D&E). split_and!; [done..|]. rewrite E at 1. unfold w, acquired. kernel_eq.
  - rewrite Hh. cbn. apply hart_tick_idemp.
Qed.

(** ** Polled output *)

Lemma tx_idle_wait_ok n t :
  (tx_busy (k_dev t) ≤ n)%nat → ∃ d, tx_idle_wait n t = Ret tt (set_k_dev d t) ∧ tx_busy d = 0%nat.
Proof.
  revert t. induction n as [|n IH]; intros t Hn; cbn [tx_idle_wait]; destruct (read_lsr t) as (v&d&Hr&Hv&Hd);
    unfold ReadReg; rewrite (bind_Ret _ _ _ _ _ Hr);
    (destruct (Z.land v LSR_TX_IDLE =? 0) eqn:Hi; [apply Z.eqb_eq, Hv in Hi|]).
  - lia.
  - exists d. split; [done|lia].
  - destruct (IH (set_k_dev d t)) as (d'&Hr'&Hd'); [cbn; lia|]. by exists d'.
  - exists d. split; [done|]. apply Z.eqb_neq in Hi. destruct (tx_busy (k_dev t)); [lia|]. destruct Hi. by apply Hv.
Qed.

(** The kernel after [bs] went out by polling. *)
Definition put_out (d : gmap Z Z) (bs : list Z) (s : kernel) : kernel :=
  tick (set_k_dev d (set_k_out (k_out s ++ bs) s)).

Lemma uartputc_sync_ok c s :
  hart_ok (k_hart s) → k_panicked s = 0 → ∃ d, uartputc_sync c s = Ret tt (put_out d [u8 c] s).
Proof.
  intros Hh Hp. unfold uartputc_sync. rewrite (bind_Ret _ _ _ _ _ (push_off_eq s)), bind_gets.
  cbn [k_panicked set_k_hart]. rewrite Hp. cbn [Z.eqb negb].
  destruct (tx_idle_wait_ok fuel (set_k_hart (hart_push (k_hart s)) s) (tx_drains _)) as (d&Hw&Hd).
  rewrite (bind_Ret _ _ _ _ _ Hw).
  destruct (write_thr (set_k_dev d (set_k_hart (hart_push (k_hart s)) s)) (u8 c) Hd) as [d' Ht].
  unfold WriteReg. rewrite (bind_Ret _ _ _ _ _ Ht). exists d'.
  etrans; [exact (pop_push_off (k_hart s)
    (set_k_dev d' (set_k_out (k_out s ++ [u8 c]) (set_k_hart (hart_push (k_hart s)) s))) Hh)|].
  unfold put_out, tick. f_equal.
Qed.

End uart.

(** [uartputc] puts its byte at the end of the line: if there is room in
    the ring, what was sent followed by what is queued grows by exactly that
    byte, an idle line takes at least one byte, and processes waiting for room
    are woken when there is. With a full ring the process sleeps, nothing is
    sent or lost, and it puts the byte when it runs again and there is room. *)
Theorem uartputc_correct {FU : Fuel} {U : Mmio} {UO : Uart16550 FU U} me c s :
  env me [] s → uart_ok s → k_panicked s = 0 → (0 < fuel)%nat →
  ((length (uart_queue s) < 32)%nat →
   ∃ xs s', uartputc c s = Ret tt s' ∧ uart_sends me c xs s s' ∧ (tx_busy (k_dev s) = 0%nat → xs ≠ []) ∧
     k_locks s' = k_locks s ∧ k_hart s' = hart_tick (k_hart s)) ∧
  (length (uart_queue s) = 32%nat →
   ∃ k, uartputc c s = Block (set_k_procs (asleep me Ch_uart_tx_r (k_procs s)) (acquired (L_proc me) s)) k ∧
     ∀ u v, given_back me (c_intena (hart_push (k_hart s))) u v → length (k_procs u) = NPROC →
       uart_ok u → (length (uart_queue u) < 32)%nat →
       ∃ xs s', k u = Ret tt s' ∧ uart_sends me c xs (set_k_procs (alter (set_p_chan Ch_null) me (k_procs u)) u) s' ∧
         (tx_busy (k_dev u) = 0%nat → xs ≠ []) ∧ k_locks s' = k_locks v ∧ k_hart s' = hart_tick (k_hart v)).
Proof.
  intros He Ho Hp Hf. split; [by apply uartputc_room|]. intros Hfull.
  destruct (fuel) as [|n] eqn:E; [lia|]. eexists. split; [by apply (uartputc_full me c s n)|].
  intros u v. apply uart_back_ok.
Qed.

Lemma running_uart : uart_ok running_kernel ∧ uart_queue running_kernel = [].
Proof. split; [|done]. split; [done|by apply Forall_replicate|done|done|done]. Qed.

(** The first byte goes straight to the line. *)
Lemma uartputc_correct_witness :
  ∃ s', uartputc (H := 5%nat) (H0 := slow_uart) 65 running_kernel = Ret tt s' ∧ k_out s' = [65].
Proof.
  destruct (uartputc_correct (FU := 5%nat) (U := slow_uart) (UO := slow_uart_ok 5%nat ltac:(unfold fuel; lia)) 0 65 running_kernel running_env
    (proj1 running_uart) eq_refl ltac:(unfold fuel; lia)) as [H _].
  destruct H as (xs&s'&H1&(_&H2&H3&_)&H4&_); [rewrite (proj2 running_uart); simpl; lia|]. exists s'. split; [exact H1|]. clear H1.
  rewrite H3. rewrite (proj2 running_uart) in H2. specialize (H4 eq_refl).
  destruct xs as [|x [|y xs]]; [done| |done]. cbn in H2. injection H2 as <- _. done.
Defined.
