(* ===== verification/Printf.v ===== *)
(** * kernel/printf.c and console.c's consputc: formatted output *)

From S2P Require Import Prelude State Mem Kstring Spinlock Kalloc Vm Proc Uart.

(** ** Model *)

Definition BACKSPACE : Z := 0x100.

(** What follows the format: the arguments [va_arg] takes. A string is the
    list of its bytes, [None] the null pointer. *)
Inductive parg : Type := P_int (x : Z) | P_ptr (x : Z) | P_str (s : option (list Z)).

Definition digits : list Z := str_bytes "0123456789abcdef".

Definition digit (k : Z) : Z := default 0 (digits !! Z.to_nat k).

(** A line feed as a format. *)
Definition nl : string := String (Ascii.ascii_of_nat 10) "".

Section model.
Context `{Fuel} `{Mmio}.

Definition consputc (c : Z) : M unit :=
  if c =? BACKSPACE then uartputc_sync 8;; uartputc_sync 32;; uartputc_sync 8
  else uartputc_sync c.

(** The [do ... while] of [printint]: the digits, least significant first.
    A 32-bit number has at most 32 digits. *)
Fixpoint int_digits (n : nat) (x base : Z) : list Z :=
  match n with
  | O => []
  | S n' => digit (x mod base) :: (if x / base =? 0 then [] else int_digits n' (x / base) base)
  end.

(** The contents of [buf[]] when its bytes are printed, last to first. *)
Definition int_buf (xx base : Z) (sign : bool) : list Z :=
  let neg := sign && (xx <? 0) in
  let x := u32 (if neg then - xx else xx) in
  int_digits 32 x base ++ (if neg then [45] else []).

Definition printint (xx base : Z) (sign : bool) : M unit :=
  for_each (reverse (int_buf xx base sign)) consputc.

(** [for (i = 0; i < 16; i++, x <<= 4)]. *)
Fixpoint printptr_loop (n : nat) (x : Z) : M unit :=
  match n with
  | O => mret tt
  | S n' => consputc (digit (Z.shiftr x 60));; printptr_loop n' (u64 (Z.shiftl x 4))
  end.

Definition printptr (x : Z) : M unit := consputc 48;; consputc 120;; printptr_loop 16 x.

(** The conversion after a percent sign; the arguments left. A missing or
    mistyped argument is undefined in C. *)
Definition conversion (c : Z) (args : list parg) : M (list parg) :=
  if c =? 100 then
    match args with P_int x :: args' => printint x 10 true;; mret args' | _ => out_of_fuel end
  else if c =? 120 then
    match args with P_int x :: args' => printint x 16 true;; mret args' | _ => out_of_fuel end
  else if c =? 112 then
    match args with P_ptr x :: args' => printptr x;; mret args' | _ => out_of_fuel end
  else if c =? 115 then
    match args with
    | P_str s :: args' => for_each (default (str_bytes "(null)") s) consputc;; mret args'
    | _ => out_of_fuel
    end
  else if c =? 37 then consputc 37;; mret args
  else consputc 37;; consputc c;; mret args.

Fixpoint printf_loop (fmt : list Z) (args : list parg) : M unit :=
  match fmt with
  | [] => mret tt
  | c :: fmt' =>
      if negb (c =? 37) then consputc c;; printf_loop fmt' args
      else
        match fmt' with
        | [] => mret tt
        | c' :: fmt'' => args' ← conversion c' args; printf_loop fmt'' args'
        end
  end.

Definition printf (fmt : string) (args : list parg) : M unit :=
  locking ← gets k_locking;
  when (negb (locking =? 0)) (acquire L_pr);;
  printf_loop (str_bytes fmt) args;;
  when (negb (locking =? 0)) (release L_pr).

(** What [panic] does before it stops; the outcome [Panic] stands for a call
    of [panic]. *)
Definition panic_print (msg : string) : M unit :=
  modify (set_k_locking 0);;
  printf "panic: " [];;
  printf msg [];;
  printf nl [];;
  modify (set_k_panicked 1);;
  hang.

Definition printfinit : M unit := initlock L_pr "pr";; modify (set_k_locking 1).

Definition state_name (st : procstate) : string :=
  match st with
  | UNUSED => "unused" | USED => "used" | SLEEPING => "sleep " | RUNNABLE => "runble"
  | RUNNING => "run   " | ZOMBIE => "zombie"
  end.

(** [procdump] (proc.c). *)
Definition procdump : M unit :=
  printf nl [];;
  for_each (seq 0 NPROC) (λ i,
    p ← gets (proc_of i);
    if decide (p_state p = UNUSED) then mret tt
    else
      printf "%d %s %s" [P_int (p_pid p); P_str (Some (str_bytes (state_name (p_state p))));
                         P_str (Some (cstr (p_name p)))];;
      printf nl []).

End model.
