(* ===== verification/PrintfSpec.v ===== *)
(** * What printf prints (printf.c)

    [render fmt args]: the bytes a format and its arguments stand for. Numbers
    are described by their digits and the value these have. *)

From S2P Require Import Prelude Ring State Mem Kstring Spinlock Kalloc Vm Proc ProcSpec SchedSpec Uart UartSpec Printf.

(** ** Description *)

(** The value of digits, least significant first. *)
Fixpoint digits_value (base : Z) (ds : list Z) : Z :=
  match ds with [] => 0 | d :: ds' => d + base * digits_value base ds' end.

(** [ds] is [x] in positional notation: digits in range, no leading zero, the
    value [x]. *)
Definition numeral (base x : Z) (ds : list Z) : Prop :=
  Forall (λ d, 0 ≤ d < base) ds ∧ digits_value base ds = x ∧ ds ≠ [] ∧ (last ds = Some 0 → ds = [0]).

(** What [consputc] sends. *)
Definition echo (c : Z) : list Z := if c =? BACKSPACE then [8; 32; 8] else [u8 c].

Fixpoint ptr_digits (n : nat) (x : Z) : list Z :=
  match n with
  | O => []
  | S n' => digit (Z.shiftr x 60) :: ptr_digits n' (u64 (Z.shiftl x 4))
  end.

(** The text of a conversion and the arguments left; [None] for arguments that
    do not match the format. *)
Definition render_conv (c : Z) (args : list parg) : option (list Z * list parg) :=
  if c =? 100 then
    match args with P_int x :: args' => Some (reverse (int_buf x 10 true), args') | _ => None end
  else if c =? 120 then
    match args with P_int x :: args' => Some (reverse (int_buf x 16 true), args') | _ => None end
  else if c =? 112 then
    match args with P_ptr x :: args' => Some ([48; 120] ++ ptr_digits 16 x, args') | _ => None end
  else if c =? 115 then
    match args with P_str s :: args' => Some (default (str_bytes "(null)") s, args') | _ => None end
  else Some (if c =? 37 then [37] else [37; c], args).

Fixpoint render (fmt : list Z) (args : list parg) : option (list Z) :=
  match fmt with
  | [] => Some []
  | c :: fmt' =>
      if negb (c =? 37) then (λ l, c :: l) <$> render fmt' args
      else
        match fmt' with
        | [] => Some []
        | c' :: fmt'' => p ← render_conv c' args; (λ l, p.1 ++ l) <$> render fmt'' p.2
        end
  end.

(** ** Numbers *)

Lemma int_digits_ok n k x base :
  2 ≤ base ≤ 16 → 0 ≤ x < base ^ Z.of_nat k → (0 < k ≤ n)%nat →
  ∃ ds, int_digits n x base = digit <$> ds ∧ numeral base x ds ∧ (length ds ≤ k)%nat.
Proof.
  intros Hb. revert k x. induction n as [|n IH]; intros k x Hx Hn; [lia|]. cbn [int_digits].
  pose proof (Z.mod_pos_bound x base ltac:(lia)) as Hm. pose proof (Z.div_mod x base ltac:(lia)) as Hdm.
  destruct (x / base =? 0) eqn:Hq.
  - apply Z.eqb_eq in Hq. exists [x mod base]. split; [done|]. split; [|simpl; lia]. split_and!.
    + by constructor; [|constructor].
    + cbn. lia.
    + done.
    + by intros [= ->].
  - apply Z.eqb_neq in Hq. assert (0 ≤ x / base) as Hp by (apply Z.div_pos; lia).
    destruct k as [|k]; [lia|]. assert (x / base < base ^ Z.of_nat k) as Hlt.
    { apply Z.div_lt_upper_bound; [lia|]. rewrite Nat2Z.inj_succ, Z.pow_succ_r in Hx by lia. lia. }
    destruct k as [|k]; [cbn in Hlt; lia|].
    destruct (IH (S k) (x / base)) as (ds&He&(H1&H2&H3&H4)&Hl); [lia|lia|].
    exists (x mod base :: ds). split; [by rewrite He|]. split; [|simpl; lia]. split_and!.
    + by constructor.
    + cbn [digits_value]. rewrite H2. lia.
    + done.
    + rewrite last_cons. destruct (last ds) eqn:El; [|by apply last_None in El]. intros [= ->].
      rewrite H4 in H2 by done. cbn in H2. lia.
Qed.

(** The buffer of [printint]: at most 11 of its 16 bytes are used. *)
Lemma int_buf_ok xx base sign :
  base = 10 ∨ base = 16 → -2147483648 ≤ xx < 2147483648 →
  ∃ ds, int_buf xx base sign = (digit <$> ds) ++ (if sign && (xx <? 0) then [45] else []) ∧
    numeral base (if sign then Z.abs xx else u32 xx) ds ∧ (length (int_buf xx base sign) ≤ 11)%nat.
Proof.
  intros Hb Hx. unfold int_buf.
  assert (u32 (if sign && (xx <? 0) then - xx else xx) = if sign then Z.abs xx else u32 xx) as ->.
  { destruct sign; cbn [andb]; [|done]. destruct (xx <? 0) eqn:E; [apply Z.ltb_lt in E|apply Z.ltb_ge in E];
      rewrite u32_small by lia; lia. }
  set (x := if sign then Z.abs xx else u32 xx).
  assert (0 ≤ x < 4294967296) as Hx' by (unfold x; destruct sign; [lia|apply u32_range]).
  destruct (int_digits_ok 32 10 x base) as (ds&He&Hd&Hl).
  - lia.
  - destruct Hb as [-> | ->]; cbn; lia.
  - lia.
  - rewrite He. exists ds. split; [done|]. split; [done|]. rewrite length_app, length_fmap.
    destruct (sign && _); cbn [length]; lia.
Qed.

(** ** Output *)

Section printf.
Context {FU : Fuel} {U : Mmio} {UO : Uart16550 FU U}.

Lemma put_out_hart d bs s : hart_ok (k_hart s) → hart_ok (k_hart (put_out d bs s)).
Proof. intros Hh. by apply hart_tick_ok. Qed.

Lemma put_out_twice d d' bs bs' s : put_out d' bs' (put_out d bs s) = put_out d' (bs ++ bs') s.
Proof. unfold put_out, tick. cbn. by rewrite hart_tick_idemp, app_assoc. Qed.

Lemma consputc_ok c s :
  hart_ok (k_hart s) → k_panicked s = 0 → ∃ d, consputc c s = Ret tt (put_out d (echo c) s).
Proof.
  intros Hh Hp. unfold consputc, echo. destruct (c =? BACKSPACE); [|by apply uartputc_sync_ok].
  destruct (uartputc_sync_ok 8 s Hh Hp) as [d1 H1]. rewrite (bind_Ret _ _ _ _ _ H1).
  destruct (uartputc_sync_ok 32 (put_out d1 [u8 8] s)) as [d2 H2]; [by apply put_out_hart|done|].
  rewrite (bind_Ret _ _ _ _ _ H2), put_out_twice.
  destruct (uartputc_sync_ok 8 (put_out d2 ([u8 8] ++ [u8 32]) s)) as [d3 H3]; [by apply put_out_hart|done|].
  rewrite H3, put_out_twice. by exists d3.
Qed.

(** [s'] is [s] after the bytes [bs] were printed. *)
Definition printed (bs : list Z) (s s' : kernel) : Prop :=
  s' = set_k_hart (k_hart s') (set_k_dev (k_dev s') (set_k_out (k_out s ++ bs) s)) ∧
  (k_hart s' = k_hart s ∨ k_hart s' = hart_tick (k_hart s)).

(** A call that prints [bs]. *)
Definition prints {A : Type} (m : M A) (a : A) (bs : list Z) : Prop :=
  ∀ s, hart_ok (k_hart s) → k_panicked s = 0 → ∃ s', m s = Ret a s' ∧ printed bs s s'.

Lemma prints_ret {A : Type} (a : A) : prints (mret a) a [].
Proof. intros s _ _. exists s. split; [done|]. split; [rewrite app_nil_r; by destruct s|by left]. Qed.

Lemma prints_bind {A B : Type} (m : M A) (f : A → M B) a b bs bs' :
  prints m a bs → prints (f a) b bs' → prints (m ≫= f) b (bs ++ bs').
Proof.
  intros H1 H2 s Hh Hp. destruct (H1 s Hh Hp) as (s1&R1&F1&T1). rewrite (bind_Ret _ _ _ _ _ R1).
  destruct (H2 s1) as (s2&R2&F2&T2).
  - destruct T1 as [-> | ->]; [done|by apply hart_tick_ok].
  - by rewrite F1.
  - exists s2. split; [done|]. split.
    + rewrite F2. rewrite F1 at 1 2. cbn. by rewrite app_assoc.
    + destruct T1 as [E | E], T2 as [E' | E']; rewrite E', E; auto. rewrite hart_tick_idemp. auto.
Qed.

Lemma prints_consputc c : prints (consputc c) tt (echo c).
Proof.
  intros s Hh Hp. destruct (consputc_ok c s Hh Hp) as [d Hd]. eexists. split; [exact Hd|]. split; [done|by right].
Qed.

Lemma prints_for l : prints (for_each l consputc) tt (l ≫= echo).
Proof.
  induction l as [|c l IH]; [apply prints_ret|]. apply (prints_bind _ _ tt); [apply prints_consputc|exact IH].
Qed.

Lemma prints_ptr n x : prints (printptr_loop n x) tt (ptr_digits n x ≫= echo).
Proof.
  revert x. induction n as [|n IH]; intros x; [apply prints_ret|].
  apply (prints_bind _ _ tt); [apply prints_consputc|apply IH].
Qed.

Lemma prints_conv c args bs args' :
  render_conv c args = Some (bs, args') → prints (conversion c args) args' (bs ≫= echo).
Proof.
  assert (∀ (m : M unit) l, prints m tt (l ≫= echo) → prints (m;; mret args') args' (l ≫= echo)) as Hret.
  { intros m l Hm. rewrite <- (app_nil_r (l ≫= echo)). apply (prints_bind _ _ tt); [done|apply prints_ret]. }
  assert (∀ c' (m : M (list parg)) l, prints m args' (l ≫= echo) →
    prints (consputc c';; m) args' ((c' :: l) ≫= echo)) as Hput.
  { intros c' m l Hm. apply (prints_bind _ _ tt); [apply prints_consputc|done]. }
  unfold render_conv, conversion. intros Hr. repeat case_match; simplify_eq.
  1,2,4: apply Hret, prints_for.
  - apply Hret. apply (prints_bind _ _ tt _ (echo 48)); [apply prints_consputc|].
    apply (prints_bind _ _ tt _ (echo 120)); [apply prints_consputc|apply prints_ptr].
  - apply Hput, prints_ret.
  - apply Hput, Hput, prints_ret.
Qed.

Lemma prints_fmt n fmt args out :
  (length fmt ≤ n)%nat → render fmt args = Some out → prints (printf_loop fmt args) tt (out ≫= echo).
Proof.
  revert fmt args out. induction n as [|n IH]; intros [|c fmt] args out Hn; cbn [length] in Hn; try lia.
  1,2: intros [= <-]; apply prints_ret.
  cbn [render printf_loop]. destruct (negb (c =? 37)).
  - intros (l&Hl&->)%fmap_Some. apply (prints_bind _ _ tt _ (echo c)); [apply prints_consputc|apply IH; [lia|done]].
  - destruct fmt as [|c' fmt]; [intros [= <-]; apply prints_ret|]. cbn [length] in Hn.
    intros ([bs args']&Hc&Hr)%bind_Some. apply fmap_Some in Hr as (l&Hl&->). rewrite bind_app.
    apply (prints_bind _ _ args'); [by apply prints_conv|apply IH; [lia|done]].
Qed.

Lemma echo_bytes l : Forall (λ b, 0 ≤ b < 256) l → l ≫= echo = l.
Proof.
  induction 1 as [|b l Hb _ IH]; [done|]. change ((b :: l) ≫= echo) with (echo b ++ (l ≫= echo)). rewrite IH.
  unfold echo, BACKSPACE. case_test; [lia|]. by rewrite u8_small.
Qed.

Lemma printf_ok fmt args out me s :
  env me [] s → k_panicked s = 0 → render (str_bytes fmt) args = Some out → Forall (λ b, 0 ≤ b < 256) out →
  ∃ s', printf fmt args s = Ret tt s' ∧ printed out s s'.
Proof.
  intros He Hp Hr Hb. pose proof (prints_fmt _ _ _ _ (le_n _) Hr) as Hpr. rewrite echo_bytes in Hpr by done.
  unfold printf. rewrite bind_gets. destruct (negb (k_locking s =? 0)); unfold when.
  - rewrite bind_acquire by (by apply (env_free me)).
    destruct (Hpr (acquired L_pr s)) as (s'&Hs'&Hf&Hh).
    + apply (env_acquired me [] L_pr s); [done|simpl; lia].
    + done.
    + rewrite (bind_Ret _ _ _ _ _ Hs'). rewrite (release_eq L_pr s).
      * eexists. split; [reflexivity|]. split; [|by right]. rewrite Hf. unfold acquired. kernel_eq.
      * by apply (env_free me).
      * apply He.
      * by rewrite Hf.
      * destruct Hh as [-> | ->]; [done|]. apply hart_tick_noff. cbn. rewrite hart_push_noff by apply He.
        rewrite (env_noff _ _ _ He). cbn. lia.
  - rewrite bind_mret. destruct (Hpr s (env_hart _ _ _ He) Hp) as (s'&Hs'&Hpd).
    rewrite (bind_Ret _ _ _ _ _ Hs'). by exists s'.
Qed.

End printf.

(** [printf] prints exactly what its format and arguments stand for, with
    the lock taken and released, and changes nothing else. *)
Theorem printf_correct {FU : Fuel} {U : Mmio} {UO : Uart16550 FU U} me fmt args out s :
  env me [] s → k_panicked s = 0 → render (str_bytes fmt) args = Some out → Forall (λ b, 0 ≤ b < 256) out →
  ∃ s', printf fmt args s = Ret tt s' ∧ printed out s s'.
Proof. intros. by eapply printf_ok. Qed.

(** the buffer of [printint] never overflows: it holds at most 11 of its
    16 bytes. They are the digits of the number in its base without leading
    zeros, least significant first, and then a minus sign for a negative
    number; the smallest int, whose negation overflows, is no exception. *)
Theorem printint_correct xx base sign :
  base = 10 ∨ base = 16 → -2147483648 ≤ xx < 2147483648 →
  ∃ ds, int_buf xx base sign = (digit <$> ds) ++ (if sign && (xx <? 0) then [45] else []) ∧
    numeral base (if sign then Z.abs xx else u32 xx) ds ∧ (length (int_buf xx base sign) ≤ 11)%nat.
Proof. apply int_buf_ok. Qed.

Lemma printf_correct_witness :
  ∃ s', printf (H := 5%nat) (H0 := slow_uart) "pid %d: %s" [P_int (-7); P_str (Some [105; 100])] running_kernel =
    Ret tt s' ∧ printed (str_bytes "pid -7: id") running_kernel s'.
Proof.
  destruct (printf_correct (FU := 5%nat) (U := slow_uart) (UO := slow_uart_ok 5%nat ltac:(unfold fuel; lia)) 0
    "pid %d: %s" [P_int (-7); P_str (Some [105; 100])] (str_bytes "pid -7: id") running_kernel running_env)
    as (s'&H1&H2).
  - reflexivity.
  - vm_compute. reflexivity.
  - vm_compute. repeat constructor; discriminate.
  - exists s'. exact (conj H1 H2).
Defined.

(** The smallest int. *)
Lemma printint_correct_witness :
  ∃ ds, int_buf (-2147483648) 10 true = (digit <$> ds) ++ [45] ∧ numeral 10 2147483648 ds.
Proof.
  destruct (printint_correct (-2147483648) 10 true) as (ds&H1&H2&_); [by left|lia|].
  exists ds. exact (conj H1 H2).
Defined.
