(* ===== verification/Console.v ===== *)
(** * kernel/console.c: the console device

    Line input with editing in a ring of 128 bytes: [cons_r] is where readers
    are, [cons_w] where complete lines end, [cons_e] where typing goes. *)

From S2P Require Import Prelude State Mem Kstring Spinlock Kalloc Vm Proc Uart Printf.

(** ** Model *)

Definition INPUT_BUF_SIZE : Z := 128.
Definition CONSOLE : nat := 1.

(** Control-x. *)
Definition ctrl (x : Z) : Z := x - 64.

Section model.
Context `{Fuel} `{Mmio}.

Definition on_cons (f : cons → cons) : M unit := modify (λ s, set_k_cons (f (k_cons s)) s).

(** [cons.buf[i % INPUT_BUF_SIZE]]. *)
Definition cons_at (c : cons) (i : Z) : Z :=
  default 0 (cons_buf c !! Z.to_nat (i mod INPUT_BUF_SIZE)).

(** The loop of [consolewrite] from byte [i]. *)
Fixpoint consolewrite_loop (k : nat) (user_src : bool) (src i : Z) : M Z :=
  match k with
  | O => mret i
  | S k' =>
      r ← either_copyin user_src (u64 (src + i)) 1;
      if r.1 =? -1 then mret i
      else uartputc (default 0 (head r.2));; consolewrite_loop k' user_src src (i + 1)
  end.

Definition consolewrite (user_src : bool) (src n : Z) : M Z :=
  consolewrite_loop (Z.to_nat n) user_src src 0.

(** [while(cons.r == cons.w)]; false when the process was killed. *)
Fixpoint consoleread_wait (k : nat) : M bool :=
  c ← gets k_cons;
  if cons_r c =? cons_w c then
    p ← myproc;
    i ← deref p;
    kl ← killed i;
    if negb (kl =? 0) then release L_cons;; mret false
    else
      match k with
      | O => out_of_fuel
      | S k' => sleep Ch_cons_r L_cons;; consoleread_wait k'
      end
  else mret true.

(** The outer loop, over the bytes still wanted; what is left of [n], or [None]
    when it returned -1. *)
Fixpoint consoleread_loop (k : nat) (user_dst : bool) (dst n target : Z) : M (option Z) :=
  match k with
  | O => mret (Some n)
  | S k' =>
      ok ← consoleread_wait fuel;
      if negb ok then mret None
      else
        cs ← gets k_cons;
        let c := cons_at cs (cons_r cs) in
        on_cons (set_cons_r (u32 (cons_r cs + 1)));;
        if c =? ctrl 68 then
          when (u32 n <? target) (on_cons (λ cs, set_cons_r (u32 (cons_r cs - 1)) cs));;
          mret (Some n)
        else
          r ← either_copyout user_dst dst [c];
          if r =? -1 then mret (Some n)
          else if c =? 10 then mret (Some (n - 1))
          else consoleread_loop k' user_dst (u64 (dst + 1)) (n - 1) target
  end.

Definition consoleread (user_dst : bool) (dst n : Z) : M Z :=
  acquire L_cons;;
  left ← consoleread_loop (Z.to_nat n) user_dst dst n (u32 n);
  match left with
  | None => mret (-1)
  | Some n' => release L_cons;; mret (i32 (u32 n - n'))
  end.

(** Control-U: erase back to the start of the line being typed. *)
Fixpoint kill_line (k : nat) : M unit :=
  match k with
  | O => out_of_fuel
  | S k' =>
      c ← gets k_cons;
      if negb (cons_e c =? cons_w c) && negb (cons_at c (u32 (cons_e c - 1)) =? 10) then
        on_cons (set_cons_e (u32 (cons_e c - 1)));;
        consputc BACKSPACE;;
        kill_line k'
      else mret tt
  end.

Definition consoleintr (c : Z) : M unit :=
  acquire L_cons;;
  (if c =? ctrl 80 then procdump
   else if c =? ctrl 85 then
     cs ← gets k_cons;
     kill_line (S (Z.to_nat (u32 (cons_e cs - cons_w cs))))
   else if (c =? ctrl 72) || (c =? 0x7f) then
     cs ← gets k_cons;
     when (negb (cons_e cs =? cons_w cs))
       (on_cons (set_cons_e (u32 (cons_e cs - 1)));; consputc BACKSPACE)
   else
     cs ← gets k_cons;
     when (negb (c =? 0) && (u32 (cons_e cs - cons_r cs) <? INPUT_BUF_SIZE))
       (let c := if c =? 13 then 10 else c in
        consputc c;;
        cs ← gets k_cons;
        on_cons (set_cons_buf
          (<[Z.to_nat (cons_e cs mod INPUT_BUF_SIZE) := u8 c]> (cons_buf cs)));;
        on_cons (set_cons_e (u32 (cons_e cs + 1)));;
        cs ← gets k_cons;
        when ((c =? 10) || (c =? ctrl 68) || (u32 (cons_e cs - cons_r cs) =? INPUT_BUF_SIZE))
          (on_cons (set_cons_w (cons_e cs));; wakeup Ch_cons_r)));;
  release L_cons.

Definition consoleinit : M unit :=
  initlock L_cons "cons";;
  uartinit;;
  modify (λ s, set_k_devsw (<[CONSOLE := Some Dev_console]> (k_devsw s)) s).

(** [uartintr] (uart.c): hand every received byte to the console, then send. *)
Fixpoint uartintr_loop (k : nat) : M unit :=
  c ← uartgetc;
  if c =? -1 then mret tt
  else
    consoleintr c;;
    match k with O => out_of_fuel | S k' => uartintr_loop k' end.

Definition uartintr : M unit :=
  uartintr_loop fuel;;
  acquire L_uart;;
  uartstart;;
  release L_uart.

End model.
