(* ===== verification/ConsoleSpec.v ===== *)
(** * The line discipline of the console (console.c)

    The input ring holds the complete lines readers may take, [committed], and
    the line being typed, [typed]. [edit] says what a key does to the two, in
    terms of lists; [consoleintr] does that. *)

From S2P Require Import Prelude Ring State Mem Kstring Spinlock Kalloc Vm Proc ProcSpec SchedSpec Uart UartSpec.
From S2P Require Import Printf PrintfSpec Console.

(** ** Description *)

Definition W32 : Z := 4294967296.

Definition committed (c : cons) : list Z := ring_queue 128 W32 (cons_buf c) (cons_r c) (cons_w c).
Definition typed (c : cons) : list Z := ring_queue 128 W32 (cons_buf c) (cons_w c) (cons_e c).

(** A line being typed has no line feed: it would be complete. *)
Record cons_ok (c : cons) : Prop := {
  co_ring : ring_ok 128 W32 (cons_buf c) (cons_r c) (cons_e c);
  co_w : 0 ≤ cons_w c < W32;
  co_order : (cons_w c - cons_r c) mod W32 ≤ (cons_e c - cons_r c) mod W32;
  co_line : 10 ∉ typed c;
}.

(** The effect of a key. *)
Record edited : Type := Edited {
  ed_committed : list Z;
  ed_typed : list Z;
  ed_echo : list Z;
  ed_wake : bool;
}.

Definition rubout : list Z := [8; 32; 8].

Definition edit (key : Z) (cm ty : list Z) : edited :=
  if key =? ctrl 85 then Edited cm [] (concat (replicate (length ty) rubout)) false
  else if (key =? ctrl 72) || (key =? 0x7f) then
    if decide (ty = []) then Edited cm [] [] false else Edited cm (removelast ty) rubout false
  else if (key =? 0) || (128 <=? length (cm ++ ty))%nat then Edited cm ty [] false
  else
    let k := if key =? 13 then 10 else key in
    if (k =? 10) || (k =? ctrl 68) || (length (cm ++ ty ++ [k]) =? 128)%nat
    then Edited (cm ++ ty ++ [k]) [] [k] true
    else Edited cm (ty ++ [k]) [k] false.

(** ** The ring *)

Lemma cons_split c :
  cons_ok c → ring_queue 128 W32 (cons_buf c) (cons_r c) (cons_e c) = committed c ++ typed c.
Proof. intros Hc. apply ring_split; try done. apply Hc. Qed.

Lemma typed_nonempty c :
  cons_ok c → cons_e c ≠ cons_w c ↔ typed c ≠ [].
Proof.
  intros Hc. unfold typed.
  assert (cons_w c = cons_e c ↔ ring_queue 128 W32 (cons_buf c) (cons_w c) (cons_e c) = []) as <-.
  { apply ring_empty; try done; [apply Hc|apply (co_ring _ Hc)]. }
  split; congruence.
Qed.

(** [cons.e--] on a line that is not empty. *)
Lemma erase_ok c :
  cons_ok c → cons_e c ≠ cons_w c →
  let c' := set_cons_e (u32 (cons_e c - 1)) c in
  cons_ok c' ∧ committed c' = committed c ∧ typed c = typed c' ++ [cons_at c (u32 (cons_e c - 1))].
Proof.
  intros Hc Hne c'. pose proof Hc as [[Hd Hb Hr He Hcnt] Hw Ho Hl].
  assert (0 < (cons_e c - cons_w c) mod W32) as Hpos.
  { apply typed_nonempty in Hne; [|done]. unfold typed in Hne.
    assert (Z.of_nat (length (typed c)) = (cons_e c - cons_w c) mod W32) as <- by (by apply ring_count).
    unfold typed. destruct (ring_queue _ _ _ _ _); [done|cbn; lia]. }
  assert ((cons_e c - cons_r c) mod W32 = (cons_w c - cons_r c) mod W32 + (cons_e c - cons_w c) mod W32) as Hs
    by (by apply (count_split 128 W32)).
  assert ((u32 (cons_e c - 1) - cons_r c) mod W32 = (cons_e c - cons_r c) mod W32 - 1) as Hpred.
  { pose proof (Z.mod_pos_bound (cons_w c - cons_r c) W32 ltac:(done)). apply (count_pred 128 W32); try done. lia. }
  assert (typed c = typed c' ++ [cons_at c (u32 (cons_e c - 1))]) as Ht by (apply ring_back; done).
  split_and!; [|done|done]. split; [split|..].
  - done.
  - done.
  - done.
  - apply u32_range.
  - cbn. lia.
  - done.
  - cbn. lia.
  - rewrite Ht in Hl. intros Hin. apply Hl. apply elem_of_app. by left.
Qed.

(** [cons.buf[cons.e++ % INPUT_BUF_SIZE] = k]. *)
Definition typed_key (k : Z) (c : cons) : cons :=
  set_cons_e (u32 (cons_e c + 1)) (set_cons_buf (<[Z.to_nat (cons_e c mod INPUT_BUF_SIZE) := k]> (cons_buf c)) c).

Lemma typed_key_ok c k :
  cons_ok c → 0 ≤ k < 256 → (length (committed c ++ typed c) < 128)%nat →
  let c' := typed_key k c in
  ring_ok 128 W32 (cons_buf c') (cons_r c') (cons_e c') ∧
  (cons_w c' - cons_r c') mod W32 ≤ (cons_e c' - cons_r c') mod W32 ∧
  committed c' = committed c ∧ typed c' = typed c ++ [k].
Proof.
  intros Hc Hk Hlt c'. rewrite <- cons_split in Hlt by done.
  destruct (ring_ok_push 128 W32 ltac:(done) ltac:(done) ltac:(done) _ _ _ k (co_ring _ Hc)) as [Ho Hq]; [lia|done|].
  assert ((cons_w c' - cons_r c') mod W32 ≤ (cons_e c' - cons_r c') mod W32) as Hle.
  { pose proof (co_order _ Hc). cbn. unfold u32. rewrite (count_succ 128); try done; [lia|].
    assert (Z.of_nat (length (ring_queue 128 W32 (cons_buf c) (cons_r c) (cons_e c))) =
      (cons_e c - cons_r c) mod W32) as <- by (by apply ring_count). lia. }
  split; [exact Ho|]. split; [exact Hle|].
  assert (committed c' ++ typed c' = committed c ++ (typed c ++ [k])) as Happ.
  { rewrite app_assoc, <- (cons_split c Hc), <- Hq. symmetry. apply ring_split; try done. }
  apply app_inj_1 in Happ as [H1 H2]; [done|]. unfold committed. by rewrite !ring_length.
Qed.

Lemma plain_key_ok c k :
  cons_ok c → 0 ≤ k < 256 → k ≠ 10 → (length (committed c ++ typed c) < 128)%nat → cons_ok (typed_key k c).
Proof.
  intros Hc Hk Hne Hlt. destruct (typed_key_ok c k Hc Hk Hlt) as (H1&H2&H3&H4). split.
  - exact H1.
  - apply Hc.
  - exact H2.
  - rewrite H4. pose proof (co_line _ Hc). set_solver.
Qed.

(** [cons.w = cons.e]. *)
Lemma commit_key_ok c k :
  cons_ok c → 0 ≤ k < 256 → (length (committed c ++ typed c) < 128)%nat →
  let c' := set_cons_w (cons_e (typed_key k c)) (typed_key k c) in
  cons_ok c' ∧ committed c' = committed c ++ typed c ++ [k] ∧ typed c' = [].
Proof.
  intros Hc Hk Hlt c'. destruct (typed_key_ok c k Hc Hk Hlt) as (H1&H2&H3&H4).
  assert (typed c' = []) as Ht.
  { unfold typed, c', ring_queue. cbn. by rewrite Z.sub_diag. }
  split_and!; [split|..].
  - exact H1.
  - apply (ro_w _ _ _ _ _ H1).
  - done.
  - rewrite Ht. set_solver.
  - rewrite <- H4, <- H3. apply ring_split; try done.
  - done.
Qed.

Section console.
Context {FU : Fuel} {U : Mmio} {UO : Uart16550 FU U}.
Context (me : nat).

(** Inside the critical section: changes to the ring, the output and who is
    awake. *)
Definition inner (c : cons) (o : list Z) (ps : list proc) (t t' : kernel) : Prop :=
  t' = set_k_dev (k_dev t') (set_k_out (k_out t ++ o) (set_k_cons c (set_k_procs ps t))).

Lemma echo_in H t key :
  env me (L_cons :: H) t → k_panicked t = 0 →
  ∃ t', consputc key t = Ret tt t' ∧ inner (k_cons t) (echo key) (k_procs t) t t'.
Proof.
  intros He Hp. destruct (consputc_ok key t (env_hart _ _ _ He) Hp) as [d Hd].
  eexists. split; [exact Hd|]. unfold put_out. rewrite (env_tick_id me L_cons H); [|by apply (env_ext me _ t); [|left|..]].
  unfold inner. destruct t; done.
Qed.

Lemma inner_env H c o ps t t' : env me H t → inner c o ps t t' → length ps = NPROC → env me H t'.
Proof.
  intros He Hi Hn. apply (env_ext me H t); [done|left; by rewrite Hi|by rewrite Hi|].
  rewrite Hi. cbn. rewrite Hn. symmetry. apply He.
Qed.

Lemma inner_trans c1 c2 o1 o2 p1 p2 t t1 t2 :
  inner c1 o1 p1 t t1 → inner c2 o2 p2 t1 t2 → inner c2 (o1 ++ o2) p2 t t2.
Proof. unfold inner. intros H1 H2. rewrite H2. rewrite H1 at 1 2. cbn. by rewrite app_assoc. Qed.

(** Control-U. *)
Lemma kill_line_ok H n t :
  env me (L_cons :: H) t → k_panicked t = 0 → cons_ok (k_cons t) → (length (typed (k_cons t)) < n)%nat →
  ∃ c' t', kill_line n t = Ret tt t' ∧ cons_ok c' ∧ committed c' = committed (k_cons t) ∧ typed c' = [] ∧
    inner c' (concat (replicate (length (typed (k_cons t))) rubout)) (k_procs t) t t'.
Proof.
  revert t. induction n as [|n IH]; intros t He Hp Hc Hn; [lia|]. cbn [kill_line]. rewrite bind_gets.
  destruct (decide (cons_e (k_cons t) = cons_w (k_cons t))) as [Heq|Hne].
  - rewrite Heq, Z.eqb_refl. cbn [negb andb]. assert (typed (k_cons t) = []) as Ht.
    { destruct (typed (k_cons t)) eqn:E; [done|]. destruct (proj2 (typed_nonempty _ Hc)); [by rewrite E|done]. }
    exists (k_cons t), t. rewrite Ht. split_and!; try done. unfold inner. cbn. rewrite app_nil_r. by destruct t.
  - rewrite (proj2 (Z.eqb_neq _ _) Hne). destruct (erase_ok _ Hc Hne) as (Hc'&Hcm&Hty).
    assert (cons_at (k_cons t) (u32 (cons_e (k_cons t) - 1)) =? 10 = false) as ->.
    { apply Z.eqb_neq. intros E. apply (co_line _ Hc). rewrite Hty, E. set_solver. }
    cbn [negb andb]. unfold on_cons. rewrite bind_modify. set (t1 := set_k_cons _ t).
    assert (env me (L_cons :: H) t1) as He1 by (by apply (env_ext me _ t); [|left|..]).
    destruct (echo_in H t1 BACKSPACE He1 Hp) as (t2&H2&Hi2). rewrite (bind_Ret _ _ _ _ _ H2).
    assert (k_cons t2 = k_cons t1) as Hcons2 by (by rewrite Hi2).
    destruct (IH t2) as (c'&t'&Hr&Hok&Hcm'&Hty'&Hi').
    + apply (inner_env _ _ _ _ _ _ He1 Hi2). apply He1.
    + by rewrite Hi2.
    + by rewrite Hcons2.
    + rewrite Hcons2. rewrite Hty, length_app in Hn. cbn in Hn. cbn. lia.
    + exists c', t'. split_and!; [done|done| |done|].
      * rewrite Hcm', Hcons2. done.
      * rewrite Hty, length_app, Nat.add_comm. cbn [length Nat.add replicate concat].
        rewrite Hcons2 in Hi'. pose proof (inner_trans _ _ _ _ _ _ _ _ _ Hi2 Hi') as Hi.
        unfold inner in *. rewrite Hi. by rewrite Hi2.
Qed.

(** [consoleintr] between [acquire] and [release]. *)
Definition intr_body (c : Z) : M unit :=
  if c =? ctrl 80 then procdump
  else if c =? ctrl 85 then
    cs ← gets k_cons;
    kill_line (S (Z.to_nat (u32 (cons_e cs - cons_w cs))))
  else if (c =? ctrl 72) || (c =? 0x7f) then
    cs ← gets k_cons;
    when (negb (cons_e cs =? cons_w cs))
      (on_cons (set_cons_e (u32 (cons_e cs - 1)));; consputc BACKSPACE)
  else
    cs ← gets k_cons;
    when (negb (c =? 0) && (u32 (cons_e cs - cons_r cs) <? INPUT_BUF_SIZE))
      (let c := if c =? 13 then 10 else c in
       consputc c;;
       cs ← gets k_cons;
       on_cons (set_cons_buf (<[Z.to_nat (cons_e cs mod INPUT_BUF_SIZE) := u8 c]> (cons_buf cs)));;
       on_cons (set_cons_e (u32 (cons_e cs + 1)));;
       cs ← gets k_cons;
       when ((c =? 10) || (c =? ctrl 68) || (u32 (cons_e cs - cons_r cs) =? INPUT_BUF_SIZE))
         (on_cons (set_cons_w (cons_e cs));; wakeup Ch_cons_r)).

(** What [edit] says, of the critical section. *)
Definition body_effect (key : Z) (t t' : kernel) : Prop :=
  let e := edit key (committed (k_cons t)) (typed (k_cons t)) in
  ∃ c', cons_ok c' ∧ committed c' = ed_committed e ∧ typed c' = ed_typed e ∧
    inner c' (ed_echo e) (if ed_wake e then woken me Ch_cons_r (k_procs t) else k_procs t) t t'.

Lemma inner_same t : inner (k_cons t) [] (k_procs t) t t.
Proof. unfold inner. rewrite app_nil_r. by destruct t. Qed.

Lemma all_count c : cons_ok c → u32 (cons_e c - cons_r c) = Z.of_nat (length (committed c ++ typed c)).
Proof. intros Hc. rewrite <- cons_split by done. symmetry. by apply ring_count. Qed.

Lemma body_erase H key t :
  env me (L_cons :: H) t → k_panicked t = 0 → cons_ok (k_cons t) → (key =? ctrl 72) || (key =? 0x7f) = true →
  ∃ t', intr_body key t = Ret tt t' ∧ body_effect key t t'.
Proof.
  intros He Hp Hc Hk.
  assert (key =? ctrl 80 = false ∧ key =? ctrl 85 = false) as [H1 H2].
  { apply orb_true_iff in Hk. rewrite !Z.eqb_eq in Hk. unfold ctrl in *. split; apply Z.eqb_neq; lia. }
  unfold intr_body, body_effect, edit. rewrite H1, H2, Hk. rewrite bind_gets. unfold when.
  destruct (decide (cons_e (k_cons t) = cons_w (k_cons t))) as [Heq|Hne].
  - rewrite Heq, Z.eqb_refl. cbn [negb]. assert (typed (k_cons t) = []) as Ht.
    { destruct (typed (k_cons t)) eqn:E; [done|]. destruct (proj2 (typed_nonempty _ Hc)); [by rewrite E|done]. }
    rewrite decide_True by done. exists t. split; [done|]. exists (k_cons t). split_and!; try done. apply inner_same.
  - rewrite (proj2 (Z.eqb_neq _ _) Hne). cbn [negb]. destruct (erase_ok _ Hc Hne) as (Hc'&Hcm&Hty).
    unfold on_cons. rewrite bind_modify. set (t1 := set_k_cons _ t).
    destruct (echo_in H t1 BACKSPACE) as (t2&Hr&Hi); [by apply (env_ext me _ t); [|left|..]|done|].
    rewrite decide_False by (by apply typed_nonempty). exists t2. split; [exact Hr|].
    exists (k_cons t1). split_and!; [done|done| |exact Hi]. cbn. by rewrite Hty, removelast_last.
Qed.

Lemma body_kill H t :
  env me (L_cons :: H) t → k_panicked t = 0 → cons_ok (k_cons t) →
  ∃ t', intr_body (ctrl 85) t = Ret tt t' ∧ body_effect (ctrl 85) t t'.
Proof.
  intros He Hp Hc. unfold intr_body, body_effect, edit.
  change (ctrl 85 =? ctrl 80) with false. change (ctrl 85 =? ctrl 85) with true. cbv match. rewrite bind_gets.
  destruct (kill_line_ok H (S (Z.to_nat (u32 (cons_e (k_cons t) - cons_w (k_cons t))))) t He Hp Hc) as (c'&t'&Hr&H1&H2&H3&H4).
  { unfold typed. rewrite ring_length. unfold u32, W32. lia. }
  exists t'. split; [exact Hr|]. by exists c'.
Qed.

(** Storing key [k] and, if it ends a line or fills the ring, committing. *)
Definition store_key (k : Z) : M unit :=
  cs ← gets k_cons;
  on_cons (set_cons_buf (<[Z.to_nat (cons_e cs mod INPUT_BUF_SIZE) := u8 k]> (cons_buf cs)));;
  on_cons (set_cons_e (u32 (cons_e cs + 1)));;
  cs ← gets k_cons;
  when ((k =? 10) || (k =? ctrl 68) || (u32 (cons_e cs - cons_r cs) =? INPUT_BUF_SIZE))
    (on_cons (set_cons_w (cons_e cs));; wakeup Ch_cons_r).

Lemma store_key_ok H k t :
  env me (L_cons :: H) t → (∀ i, L_proc i ∉ L_cons :: H) → cons_ok (k_cons t) → 0 ≤ k < 256 →
  (length (committed (k_cons t) ++ typed (k_cons t)) < 128)%nat →
  let e := (k =? 10) || (k =? ctrl 68) ||
           (length (committed (k_cons t) ++ typed (k_cons t) ++ [k]) =? 128)%nat in
  ∃ c' t', store_key k t = Ret tt t' ∧ cons_ok c' ∧
    committed c' = (if e then committed (k_cons t) ++ typed (k_cons t) ++ [k] else committed (k_cons t)) ∧
    typed c' = (if e then [] else typed (k_cons t) ++ [k]) ∧
    inner c' [] (if e then woken me Ch_cons_r (k_procs t) else k_procs t) t t'.
Proof.
  intros He Hnin Hc Hk Hlt e. unfold store_key, on_cons. rewrite bind_gets, !bind_modify, bind_gets.
  cbn [k_cons set_k_cons]. rewrite u8_small by done. set (c1 := set_cons_e _ _).
  assert (c1 = typed_key k (k_cons t)) as Hc1 by done.
  destruct (typed_key_ok _ k Hc Hk Hlt) as (_&H2&H3&H4).
  assert ((k =? 10) || (k =? ctrl 68) || (u32 (cons_e c1 - cons_r c1) =? INPUT_BUF_SIZE) = e) as ->.
  { unfold e. f_equal. rewrite Hc1. assert (u32 (cons_e (typed_key k (k_cons t)) - cons_r (typed_key k (k_cons t))) =
      Z.of_nat (length (committed (k_cons t) ++ typed (k_cons t) ++ [k]))) as ->.
    { rewrite <- H3, <- H4. unfold committed, typed. rewrite <- (ring_split 128 W32); try done.
      symmetry. by apply ring_count. }
    unfold INPUT_BUF_SIZE. apply Bool.eq_true_iff_eq. rewrite Z.eqb_eq, Nat.eqb_eq. lia. }
  destruct e eqn:Ee; unfold when.
  - rewrite bind_modify. cbn [k_cons set_k_cons]. set (t1 := set_k_cons _ _).
    assert (env me (L_cons :: H) t1) as He1 by (by apply (env_ext me _ t); [|left|..]).
    rewrite (wakeup_eq me _ Ch_cons_r t1 He1 Hnin), tick_set_procs, (env_tick_id me _ _ _ He1).
    destruct (commit_key_ok _ k Hc Hk Hlt) as (A&B&C).
    eexists (k_cons t1), _. split; [reflexivity|]. split_and!; [exact A|exact B|exact C|].
    unfold inner. rewrite app_nil_r. by destruct t.
  - eexists c1, _. split; [reflexivity|]. split_and!.
    + apply plain_key_ok; [done|done| |done]. intros ->. by apply orb_false_iff in Ee as [[? _]%orb_false_iff _].
    + exact H3.
    + exact H4.
    + unfold inner. rewrite app_nil_r. by destruct t.
Qed.

Lemma body_plain H key t :
  env me (L_cons :: H) t → (∀ i, L_proc i ∉ L_cons :: H) → k_panicked t = 0 → cons_ok (k_cons t) → 0 ≤ key < 256 →
  key =? ctrl 80 = false → key =? ctrl 85 = false → (key =? ctrl 72) || (key =? 0x7f) = false →
  ∃ t', intr_body key t = Ret tt t' ∧ body_effect key t t'.
Proof.
  intros He Hnin Hp Hc Hkey H1 H2 H3. unfold intr_body, body_effect, edit. rewrite H1, H2, H3, bind_gets.
  rewrite (all_count _ Hc). unfold INPUT_BUF_SIZE.
  assert (negb (key =? 0) && (Z.of_nat (length (committed (k_cons t) ++ typed (k_cons t))) <? 128) =
    negb ((key =? 0) || (128 <=? length (committed (k_cons t) ++ typed (k_cons t)))%nat)) as ->.
  { rewrite negb_orb. f_equal. rewrite <- Nat.ltb_antisym. apply Bool.eq_true_iff_eq. rewrite Z.ltb_lt, Nat.ltb_lt. lia. }
  destruct ((key =? 0) || _) eqn:Hfull; cbn [negb when].
  { exists t. split; [done|]. exists (k_cons t). split_and!; try done. apply inner_same. }
  apply orb_false_iff in Hfull as [_ Hlt]. apply Nat.leb_gt in Hlt.
  set (k := if key =? 13 then 10 else key). assert (0 ≤ k < 256) as Hk by (unfold k; case_test; lia).
  destruct (echo_in H t k He Hp) as (t1&Hr1&Hi1).
  assert (k_cons t1 = k_cons t ∧ k_procs t1 = k_procs t) as [Hc1 Hp1] by (by rewrite Hi1).
  assert (env me (L_cons :: H) t1) as He1 by (apply (inner_env _ _ _ _ _ _ He Hi1), He).
  destruct (store_key_ok H k t1 He1 Hnin) as (c'&t'&Hr2&A&B&C&Hi2); [by rewrite Hc1|done|by rewrite Hc1|].
  rewrite Hc1, Hp1 in *. exists t'. split; [rewrite (bind_Ret _ _ _ _ _ Hr1); exact Hr2|]. exists c'.
  pose proof (inner_trans _ _ _ _ _ _ _ _ _ Hi1 Hi2) as Hi. rewrite app_nil_r in Hi.
  assert (echo k = [k]) as Hek by (unfold echo, BACKSPACE; case_test; [lia|by rewrite u8_small]). rewrite Hek in Hi.
  fold k. clear H3. destruct (_ || _); split_and!; done.
Qed.

(** The effect of a key on an idle kernel. *)
Definition key_effect (key : Z) (s s' : kernel) : Prop :=
  let e := edit key (committed (k_cons s)) (typed (k_cons s)) in
  cons_ok (k_cons s') ∧ committed (k_cons s') = ed_committed e ∧ typed (k_cons s') = ed_typed e ∧
  s' = tick (set_k_dev (k_dev s') (set_k_out (k_out s ++ ed_echo e) (set_k_cons (k_cons s')
    (set_k_procs (if ed_wake e then woken me Ch_cons_r (k_procs s) else k_procs s) s)))).

Lemma consoleintr_ok key s :
  env me [] s → k_panicked s = 0 → cons_ok (k_cons s) → 0 ≤ key < 256 → key ≠ ctrl 80 →
  ∃ s', consoleintr key s = Ret tt s' ∧ key_effect key s s'.
Proof.
  intros He Hp Hc Hkey Hnp. pose proof (env_free me L_cons s He eq_refl) as Hfree.
  assert (env me [L_cons] (acquired L_cons s)) as He1 by (by apply env_acquired; [|simpl; lia]).
  assert (∃ t', intr_body key (acquired L_cons s) = Ret tt t' ∧ body_effect key (acquired L_cons s) t') as (t'&Hr&c'&A&B&C&Hi).
  { destruct (key =? ctrl 85) eqn:E85; [apply Z.eqb_eq in E85 as ->; by apply (body_kill [])|].
    destruct ((key =? ctrl 72) || (key =? 0x7f)) eqn:Eer; [by apply (body_erase [])|].
    apply (body_plain []); [done|set_solver|done|done|done|by apply Z.eqb_neq|done|done]. }
  change (consoleintr key) with (acquire L_cons;; intr_body key;; release L_cons).
  rewrite bind_acquire by done. rewrite (bind_Ret _ _ _ _ _ Hr).
  rewrite (release_eq L_cons s); [|done|apply He|by rewrite Hi|by rewrite Hi].
  assert (k_cons t' = c') as Hc' by (by rewrite Hi).
  eexists. split; [reflexivity|]. split_and!; cbn [k_cons set_k_locks set_k_hart]; try (by rewrite Hc').
  rewrite Hc'. rewrite Hi. unfold tick, acquired. kernel_eq.
Qed.

End console.

(** C36: [consoleintr] is the line editor [edit]: Control-U erases the line
    being typed, Backspace and Delete its last character, a carriage return
    counts as a line feed, and a key is dropped when 128 bytes are waiting. A
    line feed, Control-D or the 128th byte completes the line, gives it to the
    readers and wakes them. What is shown is what [edit] echoes, and the input
    ring stays well formed. *)
Theorem consoleintr_correct {FU : Fuel} {U : Mmio} {UO : Uart16550 FU U} me key s :
  env me [] s → k_panicked s = 0 → cons_ok (k_cons s) → 0 ≤ key < 256 → key ≠ ctrl 80 →
  ∃ s', consoleintr key s = Ret tt s' ∧ key_effect me key s s'.
Proof. intros. by apply consoleintr_ok. Qed.

Lemma running_cons : cons_ok (k_cons running_kernel).
Proof. split; [split; [done|by apply Forall_replicate|done..]|done|done|]. apply not_elem_of_nil. Qed.

Lemma consoleintr_correct_witness :
  ∃ s', consoleintr (H := 5%nat) (H0 := slow_uart) 13 running_kernel = Ret tt s' ∧ committed (k_cons s') = [10].
Proof.
  destruct (consoleintr_correct (FU := 5%nat) (U := slow_uart) (UO := slow_uart_ok 5%nat ltac:(unfold fuel; lia)) 0
    13 running_kernel running_env eq_refl running_cons ltac:(lia) ltac:(done)) as (s'&H1&_&H2&_).
  exists s'. exact (conj H1 H2).
Defined.
