(* ===== verification/Sleeplock.v ===== *)
(** * kernel/sleeplock.c: long-term locks

    A sleep lock is a flag protected by a spinlock; a process that finds it
    taken sleeps on it. The loop of [acquiresleep] is bounded by the number of
    times it may be woken in vain. *)

From S2P Require Import Prelude State Mem Kstring Spinlock Kalloc Vm Proc.

(** ** Model *)

Definition slock_of (l : slid) (s : kernel) : sleeplock :=
  default (Sleeplock "" 0 0) (k_slocks s !! l).

Definition put_slock (l : slid) (lk : sleeplock) (s : kernel) : kernel :=
  set_k_slocks (<[l := lk]> (k_slocks s)) s.

Definition initsleeplock (l : slid) (name : string) : M unit :=
  initlock (L_sleep l) "sleep lock";;
  modify (put_slock l (Sleeplock name 0 0)).

Fixpoint acquiresleep_loop (n : nat) (l : slid) : M unit :=
  locked ← gets (λ s, sl_locked (slock_of l s));
  if locked =? 0 then mret tt
  else
    match n with
    | O => out_of_fuel
    | S n' => sleep (Ch_sleeplock l) (L_sleep l);; acquiresleep_loop n' l
    end.

(** [myproc()->pid]. *)
Definition mypid : M Z := p ← myproc; i ← deref p; gets (λ s, p_pid (proc_of i s)).

Definition acquiresleep `{Fuel} (l : slid) : M unit :=
  acquire (L_sleep l);;
  acquiresleep_loop fuel l;;
  pid ← mypid;
  modify (λ s, put_slock l (Sleeplock (sl_name (slock_of l s)) 1 pid) s);;
  release (L_sleep l).

Definition releasesleep (l : slid) : M unit :=
  acquire (L_sleep l);;
  modify (λ s, put_slock l (Sleeplock (sl_name (slock_of l s)) 0 0) s);;
  wakeup (Ch_sleeplock l);;
  release (L_sleep l).

Definition holdingsleep (l : slid) : M bool :=
  acquire (L_sleep l);;
  lk ← gets (slock_of l);
  r ← (if sl_locked lk =? 0 then mret false
       else pid ← mypid; mret (sl_pid lk =? pid));
  release (L_sleep l);;
  mret r.
