(* ===== verification/SleepSpec.v ===== *)
(** * Sleep locks from an idle state

    Equations for sleeplock.c on the states of [env], for a lock that is not
    taken, and the holder's own calls. *)

From S2P Require Import Prelude State Mem Kstring Spinlock Kalloc Vm Proc ProcSpec Sleeplock.

(** The caller's pid. *)
Definition pid_of (me : nat) (s : kernel) : Z := p_pid (proc_of me s).

(** The sleep lock taken by, or free for, process [me]. *)
Definition slock_taken (me : nat) (l : slid) (s : kernel) : sleeplock :=
  Sleeplock (sl_name (slock_of l s)) 1 (pid_of me s).

Definition slock_freed (l : slid) (s : kernel) : sleeplock :=
  Sleeplock (sl_name (slock_of l s)) 0 0.

Lemma mypid_eq me H s : env me H s → mypid s = Ret (pid_of me s) (tick s).
Proof. intros He. unfold mypid. by rewrite (bind_myproc me H). Qed.

Section laws.
Context {FU : Fuel}.

Lemma acquiresleep_eq me H l s :
  env me H s → (length H < 999)%nat → known (L_sleep l) = true → L_sleep l ∉ H →
  sl_locked (slock_of l s) = 0 →
  acquiresleep l s = Ret tt (tick (put_slock l (slock_taken me l s) s)).
Proof.
  intros He Hd Hk Hnin Hfree. pose proof (env_locks _ _ _ He _ Hk Hnin) as Hlk.
  pose proof (env_acquired me H (L_sleep l) s He Hd) as He1.
  unfold acquiresleep. rewrite bind_acquire by done.
  rewrite (bind_Ret _ _ _ tt (acquired (L_sleep l) s)).
  2: { unfold acquiresleep_loop. destruct fuel; rewrite bind_gets;
       change (slock_of l (acquired (L_sleep l) s)) with (slock_of l s); by rewrite Hfree. }
  rewrite (bind_Ret _ _ _ _ _ (mypid_eq me _ _ He1)). rewrite (env_tick_id me _ _ _ He1).
  rewrite bind_modify. rewrite (release_eq (L_sleep l) s); [|done|by eapply env_hart|done|done].
  unfold tick, acquired, put_slock, put_lock, slock_taken. kernel_eq.
Qed.

End laws.

Lemma releasesleep_eq me H l s :
  env me H s → (length H < 999)%nat → known (L_sleep l) = true → L_sleep l ∉ H →
  (∀ i, L_proc i ∉ H) →
  releasesleep l s = Ret tt (tick (set_k_procs (woken me (Ch_sleeplock l) (k_procs s))
    (put_slock l (slock_freed l s) s))).
Proof.
  intros He Hd Hk Hnin Hproc. pose proof (env_locks _ _ _ He _ Hk Hnin) as Hlk.
  pose proof (env_acquired me H (L_sleep l) s He Hd) as He1.
  unfold releasesleep. rewrite bind_acquire, bind_modify by done.
  set (s1 := put_slock l _ (acquired (L_sleep l) s)).
  assert (env me (L_sleep l :: H) s1) as He1' by (apply (env_ext me _ (acquired (L_sleep l) s)); auto).
  assert (tick s1 = s1) as Ht.
  { by eapply env_tick_id. }
  rewrite (bind_Ret _ _ _ _ _ (wakeup_eq me _ (Ch_sleeplock l) s1 He1' ltac:(set_solver))).
  rewrite tick_set_procs, Ht.
  rewrite (release_eq (L_sleep l) s); [|done|by eapply env_hart|done|done].
  unfold s1, tick, acquired, put_slock, put_lock, slock_freed. kernel_eq.
Qed.

Lemma holdingsleep_eq me H l s :
  env me H s → (length H < 999)%nat → known (L_sleep l) = true → L_sleep l ∉ H →
  holdingsleep l s = Ret (negb (sl_locked (slock_of l s) =? 0) &&
    (sl_pid (slock_of l s) =? pid_of me s)) (tick s).
Proof.
  intros He Hd Hk Hnin. pose proof (env_locks _ _ _ He _ Hk Hnin) as Hlk.
  pose proof (env_acquired me H (L_sleep l) s He Hd) as He1.
  unfold holdingsleep. rewrite bind_acquire, bind_gets by done.
  change (slock_of l (acquired (L_sleep l) s)) with (slock_of l s).
  assert (∀ b : bool, (release (L_sleep l);; (mret b : M bool)) (acquired (L_sleep l) s) = Ret b (tick s)) as Hrel.
  { intros b. rewrite (bind_release (L_sleep l) s); [|done|by eapply env_hart|done|done].
    unfold tick, acquired, put_lock. mrun. kernel_eq. }
  destruct (sl_locked (slock_of l s) =? 0) eqn:E.
  - rewrite bind_mret. by rewrite Hrel.
  - rewrite (bind_assoc _ _ _ _ _ _ (mypid_eq me _ _ He1)). rewrite bind_mret.
    rewrite (env_tick_id me _ _ _ He1). by rewrite Hrel.
Qed.
