(* ===== verification/Bio.v ===== *)
(** * kernel/bio.c: the buffer cache

    A fixed array of buffers on a doubly linked list, most recently used
    first. Buffers are referred to by index, [NBUF] being the list head
    [bcache.head]; the links are fields of the buffers, as in C. The disk
    driver is the class [Disk]. *)

From S2P Require Import Prelude State Mem Kstring Spinlock Kalloc Vm Proc Sleeplock.

(** The driver's entry point, [virtio_disk_rw(b, write)]. *)
Class Disk := virtio_disk_rw : nat → bool → M unit.

(** ** Model *)

Definition buf_of (i : nat) (s : kernel) : buf := default zero_buf (k_bufs s !! i).

Definition on_buf (i : nat) (f : buf → buf) : M unit :=
  modify (λ s, set_k_bufs (alter f i (k_bufs s)) s).

Definition binit : M unit :=
  initlock L_bcache "bcache";;
  on_buf NBUF (set_b_prev NBUF);;
  on_buf NBUF (set_b_next NBUF);;
  for_each (seq 0 NBUF) (λ b,
    next ← gets (λ s, b_next (buf_of NBUF s));
    on_buf b (set_b_next next);;
    on_buf b (set_b_prev NBUF);;
    initsleeplock (SL_buf b) "buffer";;
    next ← gets (λ s, b_next (buf_of NBUF s));
    on_buf next (set_b_prev b);;
    on_buf NBUF (set_b_next b)).

(** [for(b = bcache.head.next; b != &bcache.head; b = b->next)], looking for
    the block. The list has at most NBUF elements. *)
Fixpoint bget_cached (n : nat) (b : nat) (dev blockno : Z) : M (option nat) :=
  if decide (b = NBUF) then mret None
  else
    match n with
    | O => out_of_fuel
    | S n' =>
        x ← gets (buf_of b);
        if (b_dev x =? dev) && (b_blockno x =? blockno) then mret (Some b)
        else bget_cached n' (b_next x) dev blockno
    end.

(** [for(b = bcache.head.prev; ...; b = b->prev)], looking for an unused one. *)
Fixpoint bget_lru (n : nat) (b : nat) : M (option nat) :=
  if decide (b = NBUF) then mret None
  else
    match n with
    | O => out_of_fuel
    | S n' =>
        x ← gets (buf_of b);
        if b_refcnt x =? 0 then mret (Some b) else bget_lru n' (b_prev x)
    end.

Definition bget `{Fuel} (dev blockno : Z) : M nat :=
  acquire L_bcache;;
  first ← gets (λ s, b_next (buf_of NBUF s));
  hit ← bget_cached NBUF first dev blockno;
  match hit with
  | Some b =>
      on_buf b (λ x, set_b_refcnt (u32 (b_refcnt x + 1)) x);;
      release L_bcache;;
      acquiresleep (SL_buf b);;
      mret b
  | None =>
      last ← gets (λ s, b_prev (buf_of NBUF s));
      free ← bget_lru NBUF last;
      match free with
      | Some b =>
          on_buf b (set_b_dev dev);;
          on_buf b (set_b_blockno blockno);;
          on_buf b (set_b_valid 0);;
          on_buf b (set_b_refcnt 1);;
          release L_bcache;;
          acquiresleep (SL_buf b);;
          mret b
      | None => panic "bget: no buffers"
      end
  end.

Definition bread `{Fuel} `{Disk} (dev blockno : Z) : M nat :=
  b ← bget dev blockno;
  valid ← gets (λ s, b_valid (buf_of b s));
  when (valid =? 0) (virtio_disk_rw b false;; on_buf b (set_b_valid 1));;
  mret b.

Definition bwrite `{Disk} (b : nat) : M unit :=
  h ← holdingsleep (SL_buf b);
  if negb h then panic "bwrite" else virtio_disk_rw b true.

Definition brelse (b : nat) : M unit :=
  h ← holdingsleep (SL_buf b);
  if negb h then panic "brelse"
  else
    releasesleep (SL_buf b);;
    acquire L_bcache;;
    on_buf b (λ x, set_b_refcnt (u32 (b_refcnt x - 1)) x);;
    x ← gets (buf_of b);
    when (b_refcnt x =? 0)
      (on_buf (b_next x) (set_b_prev (b_prev x));;
       on_buf (b_prev x) (set_b_next (b_next x));;
       first ← gets (λ s, b_next (buf_of NBUF s));
       on_buf b (set_b_next first);;
       on_buf b (set_b_prev NBUF);;
       on_buf first (set_b_prev b);;
       on_buf NBUF (set_b_next b));;
    release L_bcache.

Definition bpin (b : nat) : M unit :=
  acquire L_bcache;;
  on_buf b (λ x, set_b_refcnt (u32 (b_refcnt x + 1)) x);;
  release L_bcache.

Definition bunpin (b : nat) : M unit :=
  acquire L_bcache;;
  on_buf b (λ x, set_b_refcnt (u32 (b_refcnt x - 1)) x);;
  release L_bcache.
