(* ===== verification/BioList.v ===== *)
(** * The buffer cache's list (bio.c)

    The circular doubly linked list of bio.c as two link functions, and the
    pointer surgery of [brelse]: unlinking an element and pushing it to the
    front. *)

From S2P Require Import Prelude.

(** ** Description *)

(** From [a], following [nx], come the elements of [l] and then [z]; following
    [pv] back from [z] comes the same. *)
Fixpoint linked (nx pv : nat → nat) (a : nat) (l : list nat) (z : nat) : Prop :=
  match l with
  | [] => nx a = z ∧ pv z = a
  | x :: l' => nx a = x ∧ pv x = a ∧ linked nx pv x l' z
  end.

Definition upd (f : nat → nat) (i v : nat) : nat → nat := λ j, if decide (i = j) then v else f j.

(** ** Lemmas *)

Lemma upd_eq f i v : upd f i v i = v.
Proof. unfold upd. by rewrite decide_True. Qed.

Lemma upd_ne f i v j : i ≠ j → upd f i v j = f j.
Proof. intros. unfold upd. by rewrite decide_False. Qed.

Lemma linked_ext nx pv nx' pv' a l z :
  (∀ i, i = a ∨ i ∈ l → nx' i = nx i) → (∀ i, i ∈ l ∨ i = z → pv' i = pv i) →
  linked nx pv a l z → linked nx' pv' a l z.
Proof.
  revert a. induction l as [|x l IH]; intros a Hnx Hpv Hl; cbn in *.
  - destruct Hl. rewrite Hnx, Hpv by auto. done.
  - destruct Hl as (H1&H2&H3). rewrite Hnx, Hpv by set_solver. split_and!; [done..|].
    apply IH; [intros i Hi; apply Hnx; set_solver|intros i Hi; apply Hpv; set_solver|done].
Qed.

Lemma linked_app nx pv a l1 b l2 z :
  linked nx pv a (l1 ++ b :: l2) z ↔ linked nx pv a l1 b ∧ linked nx pv b l2 z.
Proof.
  revert a. induction l1 as [|x l1 IH]; intros a; cbn; [tauto|]. rewrite IH. tauto.
Qed.

(** The element before the end. *)
Lemma linked_last nx pv a l z : linked nx pv a l z → pv z = default a (last l).
Proof.
  revert a. induction l as [|x l IH]; intros a Hl; cbn in *; [tauto|].
  destruct Hl as (_&_&Hl%IH). rewrite Hl, last_cons. by destruct (last l).
Qed.

Lemma linked_head nx pv a l z : linked nx pv a l z → nx a = default z (head l).
Proof. destruct l; cbn; tauto. Qed.

Lemma last_in {A : Type} (a : A) l : default a (last l) = a ∨ default a (last l) ∈ l.
Proof.
  destruct (last l) as [x|] eqn:E; [right|by left]. by apply last_Some_elem_of.
Qed.

(** Letting a chain end at [z] instead of [b]. *)
Lemma linked_retarget nx pv a l b z :
  linked nx pv a l b → NoDup l → a ∉ l → z ∉ l →
  linked (upd nx (default a (last l)) z) (upd pv z (default a (last l))) a l z.
Proof.
  revert a. induction l as [|x l IH]; intros a Hl Hnd Ha Hz.
  { cbn. by rewrite !upd_eq. }
  cbn [linked] in Hl |- *. destruct Hl as (H1&H2&H3).
  apply NoDup_cons in Hnd as [Hx Hnd]. apply not_elem_of_cons in Ha as [Hax Hal].
  apply not_elem_of_cons in Hz as [Hzx Hzl].
  assert (default a (last (x :: l)) = default x (last l)) as ->
    by (rewrite last_cons; by destruct (last l)).
  specialize (IH x H3 Hnd Hx Hzl). split_and!; [|by rewrite upd_ne|done].
  rewrite upd_ne; [done|]. intros Heq. destruct (last_in x l) as [Hx'|Hin]; [congruence|].
  apply Hal. by rewrite <- Heq.
Qed.

(** [b->next->prev = b->prev; b->prev->next = b->next]. *)
Lemma linked_unlink nx pv h l1 b l2 :
  linked nx pv h (l1 ++ b :: l2) h → NoDup (l1 ++ b :: l2) → h ∉ l1 ++ b :: l2 →
  linked (upd nx (pv b) (nx b)) (upd pv (nx b) (pv b)) h (l1 ++ l2) h.
Proof.
  intros [H1 H2]%linked_app (Hnd1&Hdis&Hnd2)%NoDup_app Hh.
  apply NoDup_cons in Hnd2 as [Hb Hnd2].
  assert (h ∉ l1 ∧ h ≠ b ∧ h ∉ l2) as (Hh1&Hhb&Hh2) by set_solver.
  assert (b ∉ l1) as Hb1 by set_solver.
  rewrite (linked_last _ _ _ _ _ H1). set (p := default h (last l1)) in *.
  assert (p = h ∨ p ∈ l1) as Hp by apply last_in.
  destruct l2 as [|c l2]; cbn [linked] in H2.
  - destruct H2 as [-> _]. rewrite app_nil_r. by apply (linked_retarget nx pv h l1 b).
  - destruct H2 as (Hc&Hpc&H2). rewrite Hc. apply linked_app. split.
    + apply (linked_retarget nx pv h l1 b); [done..|set_solver].
    + apply NoDup_cons in Hnd2 as [Hcl2 _].
      eapply linked_ext; [| |exact H2].
      * intros i Hi. apply upd_ne. intros <-. destruct Hp as [->|Hp]; set_solver.
      * intros i Hi. apply upd_ne. intros <-. destruct Hi as [?| ->]; set_solver.
Qed.

(** [b->next = head.next; b->prev = &head; head.next->prev = b; head.next = b]. *)
Lemma linked_push nx pv h l b :
  linked nx pv h l h → h ∉ l → b ∉ l → b ≠ h → NoDup l →
  linked (upd (upd nx b (nx h)) h b) (upd (upd pv b h) (nx h) b) h (b :: l) h.
Proof.
  intros Hl Hh Hb Hbh Hnd. pose proof (linked_head _ _ _ _ _ Hl) as Hn. cbn [linked].
  destruct l as [|x l]; cbn in Hn; rewrite Hn; cbn [linked] in *.
  - rewrite upd_eq. rewrite (upd_ne _ h b b) by done. rewrite upd_eq.
    rewrite (upd_ne _ h b b), !upd_eq by done. done.
  - destruct Hl as (H1&H2&H3). apply NoDup_cons in Hnd as [Hx Hnd].
    apply not_elem_of_cons in Hh as [Hhx Hh]. apply not_elem_of_cons in Hb as [Hbx Hb].
    rewrite upd_eq. rewrite (upd_ne _ x b b), upd_eq by done.
    rewrite (upd_ne _ h b b), !upd_eq by done. split_and!; [done..|].
    eapply linked_ext; [| |exact H3].
    + intros i Hi. rewrite !upd_ne; [done|..]; intros <-; destruct Hi; set_solver.
    + intros i Hi. rewrite !upd_ne; [done|..]; intros <-; destruct Hi; set_solver.
Qed.

(** Walking the list from the front or the back. *)
Lemma linked_rev nx pv a l z : linked nx pv a l z → linked pv nx z (reverse l) a.
Proof.
  revert a. induction l as [|x l IH]; intros a Hl; [cbn in *; tauto|].
  cbn [linked] in Hl. destruct Hl as (H1&H2&H3%IH). rewrite reverse_cons. apply linked_app. split; [done|done].
Qed.
