(* ===== verification/BioSpec.v ===== *)
(** * The buffer cache's contract (bio.c)

    [bcache me s ring held]: the cache is consistent, its list in use order is
    [ring], process [me] holds the locks of the buffers [held] and nobody else
    holds any. The contents a reader sees are [view]; a disk driver is any
    [Disk] with the law [DiskOk]. The functions of bio.c are specified by what
    they do to the view, the disk, the reference counts and the order. *)

From S2P Require Import Prelude State Mem Kstring Spinlock Kalloc Vm Proc ProcSpec.
From S2P Require Import Sleeplock SleepSpec Bio BioList.

(** ** Description *)

(** The contents of a block of the disk. *)
Definition disk_block (d : gmap Z (list Z)) (bno : Z) : list Z :=
  default (replicate (Z.to_nat BSIZE) 0) (d !! bno).

(** What a transfer does: a write stores the buffer's data in its block, a read
    loads it. *)
Definition after_rw (b : nat) (write : bool) (s : kernel) : kernel :=
  let x := buf_of b s in
  if write then
    set_k_disk (<[b_blockno x := b_data x]> (k_disk s))
      (set_k_writes (k_writes s ++ [(b_blockno x, b_data x)]) s)
  else set_k_bufs (alter (set_b_data (disk_block (k_disk s) (b_blockno x))) b (k_bufs s)) s.

(** What the cache relies on: called from an idle state, the driver returns
    when the transfer is complete. *)
Class DiskOk (D : Disk) : Prop :=
  disk_rw_eq me b write s : env me [] s → (b < NBUF)%nat →
    virtio_disk_rw b write s = Ret tt (tick (after_rw b write s)).

(** A disk whose requests complete at once. *)
Definition polled_disk : Disk := λ b write s, Ret tt (tick (after_rw b write s)).

#[export] Instance polled_disk_ok : DiskOk polled_disk.
Proof. by intros me b write s _ _. Qed.

(** The first element that satisfies [P]. *)
Fixpoint first_match (P : nat → bool) (l : list nat) : option nat :=
  match l with
  | [] => None
  | x :: l' => if P x then Some x else first_match P l'
  end.

(** Buffer [i] is the one for block [bno]. *)
Definition caches (s : kernel) (bno : Z) (i : nat) : bool :=
  (b_dev (buf_of i s) =? ROOTDEV) && (b_blockno (buf_of i s) =? bno).

Definition find_buf (s : kernel) (bno : Z) : option nat := first_match (caches s bno) (seq 0 NBUF).

(** The contents of block [bno] that a reader sees. *)
Definition view (s : kernel) (bno : Z) : list Z :=
  match find_buf s bno with
  | Some i => if b_valid (buf_of i s) =? 0 then disk_block (k_disk s) bno else b_data (buf_of i s)
  | None => disk_block (k_disk s) bno
  end.

(** The references to the buffer of block [bno]. *)
Definition refs (s : kernel) (bno : Z) : Z :=
  match find_buf s bno with Some i => b_refcnt (buf_of i s) | None => 0 end.

(** The list: [ring] is every buffer, most recently used first. *)
Record ring_ok (s : kernel) (ring : list nat) : Prop := {
  ring_len : length (k_bufs s) = S NBUF;
  ring_nodup : NoDup ring;
  ring_all i : i ∈ ring ↔ (i < NBUF)%nat;
  ring_links : linked (λ i, b_next (buf_of i s)) (λ i, b_prev (buf_of i s)) NBUF ring NBUF;
}.

(** The buffers: no block is cached twice, locks and references agree, and a
    buffer nobody refers to holds what is on the disk. *)
Record bufs_ok (me : nat) (s : kernel) (held : gset nat) : Prop := {
  bo_uniq bno i j : (i < NBUF)%nat → (j < NBUF)%nat → caches s bno i = true →
    caches s bno j = true → i = j;
  bo_free i : (i < NBUF)%nat → i ∉ held → sl_locked (slock_of (SL_buf i) s) = 0;
  bo_held i : i ∈ held → (i < NBUF)%nat ∧ sl_locked (slock_of (SL_buf i) s) = 1 ∧
    sl_pid (slock_of (SL_buf i) s) = pid_of me s ∧ b_valid (buf_of i s) ≠ 0 ∧
    b_dev (buf_of i s) = ROOTDEV ∧ 1 ≤ b_refcnt (buf_of i s);
  bo_ref i : (i < NBUF)%nat → 0 ≤ b_refcnt (buf_of i s) < 1000000;
  bo_used i : (i < NBUF)%nat → b_refcnt (buf_of i s) ≠ 0 → b_dev (buf_of i s) = ROOTDEV;
  bo_clean i : (i < NBUF)%nat → b_dev (buf_of i s) = ROOTDEV → b_refcnt (buf_of i s) = 0 →
    b_valid (buf_of i s) ≠ 0 → b_data (buf_of i s) = disk_block (k_disk s) (b_blockno (buf_of i s));
}.

Record bcache (me : nat) (s : kernel) (ring : list nat) (held : gset nat) : Prop := {
  bc_env : env me [] s;
  bc_ring : ring_ok s ring;
  bc_bufs : bufs_ok me s held;
}.

(** There is a buffer for block [bno]. *)
Definition room (s : kernel) (bno : Z) : Prop :=
  is_Some (find_buf s bno) ∨ ∃ j, (j < NBUF)%nat ∧ b_refcnt (buf_of j s) = 0.

(** Everything outside the cache, the disk, the sleep locks and the process
    states is as it was. *)
Definition bio_frame (s s' : kernel) : Prop :=
  s' = set_k_hart (k_hart s') (set_k_procs (k_procs s') (set_k_bufs (k_bufs s')
    (set_k_slocks (k_slocks s') (set_k_disk (k_disk s') (set_k_writes (k_writes s') s))))) ∧
  (∀ i, slock_of (SL_inode i) s' = slock_of (SL_inode i) s) ∧
  ∀ i, p_pid (proc_of i s') = p_pid (proc_of i s).

(** ** Searching *)

Lemma first_match_Some P l x : first_match P l = Some x → x ∈ l ∧ P x = true.
Proof.
  induction l as [|y l IH]; cbn; [done|]. destruct (P y) eqn:E.
  - intros [= ->]. split; [by left|done].
  - intros H%IH. set_solver.
Qed.

Lemma first_match_None P l : first_match P l = None → ∀ x, x ∈ l → P x = false.
Proof.
  induction l as [|y l IH]; cbn; [set_solver|]. destruct (P y) eqn:E; [done|].
  intros Hn x [->|Hx]%elem_of_cons; [done|]. by apply IH.
Qed.

Lemma first_match_is P l x :
  x ∈ l → P x = true → (∀ y, y ∈ l → P y = true → y = x) → first_match P l = Some x.
Proof.
  intros Hx HP Hu. destruct (first_match P l) as [y|] eqn:E.
  - apply first_match_Some in E as [Hy HPy]. f_equal. auto.
  - rewrite (first_match_None _ _ E x Hx) in HP. done.
Qed.

Lemma first_match_ext P Q l : (∀ x, x ∈ l → P x = Q x) → first_match P l = first_match Q l.
Proof.
  induction l as [|y l IH]; intros H; cbn; [done|]. rewrite (H y) by set_solver.
  destruct (Q y); [done|]. apply IH. set_solver.
Qed.

Lemma first_match_exists P l x : x ∈ l → P x = true → is_Some (first_match P l).
Proof.
  intros Hx HP. destruct (first_match P l) eqn:E; [done|].
  by rewrite (first_match_None _ _ E x Hx) in HP.
Qed.

Lemma bget_cached_eq n a l s dev blockno :
  linked (λ i, b_next (buf_of i s)) (λ i, b_prev (buf_of i s)) a l NBUF → NBUF ∉ l →
  (length l ≤ n)%nat →
  bget_cached n (b_next (buf_of a s)) dev blockno s =
    Ret (first_match (λ i, (b_dev (buf_of i s) =? dev) && (b_blockno (buf_of i s) =? blockno)) l) s.
Proof.
  revert n a. induction l as [|x l IH]; intros n a Hl Hnin Hn; cbn [linked] in Hl.
  - destruct Hl as [-> _]. destruct n; cbn [bget_cached]; by rewrite decide_True.
  - destruct Hl as (->&_&Hl). apply not_elem_of_cons in Hnin as [Hx Hnin].
    destruct n as [|n]; [cbn in Hn; lia|]. cbn [bget_cached].
    rewrite decide_False by done. rewrite bind_gets. cbn [first_match].
    destruct (_ && _); [done|]. apply IH; [done|done|cbn in Hn; lia].
Qed.

Lemma bget_lru_eq n z l s :
  linked (λ i, b_prev (buf_of i s)) (λ i, b_next (buf_of i s)) z l NBUF → NBUF ∉ l →
  (length l ≤ n)%nat →
  bget_lru n (b_prev (buf_of z s)) s = Ret (first_match (λ i, b_refcnt (buf_of i s) =? 0) l) s.
Proof.
  revert n z. induction l as [|x l IH]; intros n z Hl Hnin Hn; cbn [linked] in Hl.
  - destruct Hl as [-> _]. destruct n; cbn [bget_lru]; by rewrite decide_True.
  - destruct Hl as (->&_&Hl). apply not_elem_of_cons in Hnin as [Hx Hnin].
    destruct n as [|n]; [cbn in Hn; lia|]. cbn [bget_lru].
    rewrite decide_False by done. rewrite bind_gets. cbn [first_match].
    destruct (b_refcnt _ =? 0); [done|]. apply IH; [done|done|cbn in Hn; lia].
Qed.

Lemma buf_of_alter f i j s bs :
  (i < length bs)%nat →
  buf_of j (set_k_bufs (alter f i bs) s) =
    if decide (i = j) then f (default zero_buf (bs !! i)) else default zero_buf (bs !! j).
Proof.
  intros Hi. unfold buf_of. cbn. destruct (decide (i = j)) as [<-|Hne].
  - rewrite list_lookup_alter_eq. by destruct (lookup_lt_is_Some_2 bs i Hi) as [x ->].
  - by rewrite list_lookup_alter_ne.
Qed.

(** ** Finding a block's buffer *)

Section cache.
Context (me : nat).

Lemma find_buf_Some s held bno i :
  bufs_ok me s held → find_buf s bno = Some i ↔ (i < NBUF)%nat ∧ caches s bno i = true.
Proof.
  intros Hb. unfold find_buf. split.
  - intros [Hi%elem_of_seq Hc]%first_match_Some. split; [lia|done].
  - intros [Hi Hc]. apply first_match_is; [apply elem_of_seq; lia|done|].
    intros j Hj%elem_of_seq Hcj. eapply bo_uniq; [done| |done|done|done]. lia.
Qed.

Lemma find_buf_None s bno i : find_buf s bno = None → (i < NBUF)%nat → caches s bno i = false.
Proof. intros Hn Hi. eapply first_match_None; [done|]. apply elem_of_seq. lia. Qed.

Lemma caches_eq s bno i :
  caches s bno i = true ↔ b_dev (buf_of i s) = ROOTDEV ∧ b_blockno (buf_of i s) = bno.
Proof. unfold caches. rewrite andb_true_iff, !Z.eqb_eq. done. Qed.

Lemma find_buf_none_iff s bno :
  find_buf s bno = None ↔ ∀ i, (i < NBUF)%nat → caches s bno i = false.
Proof.
  split; [intros Hn i; by apply find_buf_None|]. intros Hall.
  destruct (find_buf s bno) as [i|] eqn:E; [|done].
  apply first_match_Some in E as [Hi%elem_of_seq Hc]. rewrite Hall in Hc; [done|lia].
Qed.

(** *** The effect of bread

    Buffer [i] now holds block [bno], referenced once more and locked by [me];
    nothing else changed. *)
Section read_effect.
Context (s s' : kernel) (held : gset nat) (bno : Z) (i : nat).
Hypothesis Hb : bufs_ok me s held.
Hypothesis Hih : i ∉ held.
Hypothesis Hi : (i < NBUF)%nat.
Hypothesis Hwhich : caches s bno i = true ∨ find_buf s bno = None ∧ b_refcnt (buf_of i s) = 0.
Hypothesis Hoth : ∀ j, j ≠ i → buf_of j s' = buf_of j s.
Hypothesis Hsl : ∀ j, j ≠ i → slock_of (SL_buf j) s' = slock_of (SL_buf j) s.
Hypothesis Hdev : b_dev (buf_of i s') = ROOTDEV.
Hypothesis Hbno : b_blockno (buf_of i s') = bno.
Hypothesis Hval : b_valid (buf_of i s') ≠ 0.
Hypothesis Href : b_refcnt (buf_of i s') = b_refcnt (buf_of i s) + 1.
Hypothesis Hmax : b_refcnt (buf_of i s) < 999999.
Hypothesis Hdata : b_data (buf_of i s') = view s bno.
Hypothesis Hlk : sl_locked (slock_of (SL_buf i) s') = 1.
Hypothesis Hpid : sl_pid (slock_of (SL_buf i) s') = pid_of me s.
Hypothesis Hpid' : pid_of me s' = pid_of me s.
Hypothesis Hdisk : k_disk s' = k_disk s.

Lemma read_caches_other b j : j ≠ i → caches s' b j = caches s b j.
Proof. intros Hj. unfold caches. by rewrite Hoth. Qed.

Lemma read_caches b : caches s' b i = true ↔ b = bno.
Proof. rewrite caches_eq. split; [intros [_ ?]; congruence|by intros ->]. Qed.

Lemma read_only b j : (j < NBUF)%nat → j ≠ i → caches s' b j = true → b ≠ bno.
Proof.
  intros Hj Hne Hcj ->. rewrite read_caches_other in Hcj by done.
  destruct Hwhich as [Hw|[Hn _]]; [by destruct Hne; eapply bo_uniq|].
  by rewrite (find_buf_None s bno j) in Hcj.
Qed.

Lemma read_bufs_ok : bufs_ok me s' ({[i]} ∪ held).
Proof.
  pose proof (bo_ref _ _ _ Hb i Hi) as Hr. split.
  - intros b j k Hj Hk Hcj Hck.
    destruct (decide (j = i)) as [->|Hji], (decide (k = i)) as [->|Hki]; [done|..].
    + apply read_caches in Hcj. by destruct (read_only b k).
    + apply read_caches in Hck. by destruct (read_only b j).
    + rewrite read_caches_other in Hcj, Hck by done. by eapply bo_uniq.
  - intros j Hj Hnj. rewrite Hsl by set_solver. eapply bo_free; [done|done|set_solver].
  - intros j [->%elem_of_singleton|Hj]%elem_of_union.
    + rewrite Hpid'. split_and!; try done. lia.
    + assert (j ≠ i) by set_solver. rewrite Hoth, Hsl, Hpid' by done. by eapply bo_held.
  - intros j Hj. destruct (decide (j = i)) as [->|]; [lia|]. rewrite Hoth by done. by eapply bo_ref.
  - intros j Hj. destruct (decide (j = i)) as [->|]; [done|]. rewrite Hoth by done. by eapply bo_used.
  - intros j Hj. destruct (decide (j = i)) as [->|]; [lia|]. rewrite Hoth, Hdisk by done.
    by eapply bo_clean.
Qed.

Lemma read_find b :
  find_buf s' b =
    if decide (b = bno) then Some i
    else match find_buf s b with Some j => if decide (j = i) then None else Some j | None => None end.
Proof.
  case_decide as Hbb.
  { eapply find_buf_Some; [apply read_bufs_ok|]. split; [done|by apply read_caches]. }
  assert (caches s' b i = false) as Hci by (apply not_true_iff_false; by rewrite read_caches).
  destruct (find_buf s b) as [j|] eqn:Hj.
  - apply (find_buf_Some _ held) in Hj as [Hj Hcj]; [|done]. destruct (decide (j = i)) as [->|Hji].
    + apply find_buf_none_iff. intros k Hk. destruct (decide (k = i)) as [->|]; [done|].
      rewrite read_caches_other by done. apply not_true_iff_false. intros Hck.
      assert (k = i) by (by eapply (bo_uniq _ _ _ Hb b)). done.
    + eapply find_buf_Some; [apply read_bufs_ok|]. by rewrite read_caches_other.
  - apply find_buf_none_iff. intros k Hk. destruct (decide (k = i)) as [->|]; [done|].
    rewrite read_caches_other by done. by eapply find_buf_None.
Qed.

(** A buffer that gave up a block was unused. *)
Lemma read_evicted b : b ≠ bno → find_buf s b = Some i →
  b_dev (buf_of i s) = ROOTDEV ∧ b_blockno (buf_of i s) = b ∧ b_refcnt (buf_of i s) = 0.
Proof.
  intros Hne [_ Hc]%(find_buf_Some _ held); [|done]. rewrite caches_eq in Hc. destruct Hc as [H1 H2].
  split_and!; [done..|]. destruct Hwhich as [[_ Hw]%caches_eq|[_ H0]]; [congruence|done].
Qed.

Lemma read_view b : view s' b = view s b.
Proof.
  unfold view. rewrite read_find, Hdisk. case_decide as Hbb.
  { rewrite (proj2 (Z.eqb_neq _ _) Hval), Hdata, Hbb. done. }
  destruct (find_buf s b) as [j|] eqn:Hj; [|done].
  destruct (decide (j = i)) as [->|Hji]; [|by rewrite Hoth].
  destruct (read_evicted b Hbb Hj) as (H1&H2&H3). case_test; [done|].
  rewrite <- H2. symmetry. by eapply bo_clean.
Qed.

Lemma read_refs b : refs s' b = refs s b + if decide (b = bno) then 1 else 0.
Proof.
  unfold refs. rewrite read_find. case_decide as Hbb.
  - rewrite Href, Hbb. destruct Hwhich as [Hw|[Hn H0]].
    + by rewrite (proj2 (find_buf_Some s held bno i Hb)).
    + by rewrite Hn, H0.
  - destruct (find_buf s b) as [j|] eqn:Hj; [|done].
    destruct (decide (j = i)) as [->|Hji]; [|rewrite Hoth by done; lia].
    destruct (read_evicted b Hbb Hj) as (_&_&->). lia.
Qed.

End read_effect.

(** ** Running bget and bread *)

Definition incref (x : buf) : buf := set_b_refcnt (u32 (b_refcnt x + 1)) x.
Definition decref (x : buf) : buf := set_b_refcnt (u32 (b_refcnt x - 1)) x.

(** A recycled buffer. *)
Definition recycle (bno : Z) (x : buf) : buf :=
  set_b_refcnt 1 (set_b_valid 0 (set_b_blockno bno (set_b_dev ROOTDEV x))).

Lemma bind_on_buf {B : Type} i f (k : unit → M B) s :
  (on_buf i f ≫= k) s = k tt (set_k_bufs (alter f i (k_bufs s)) s).
Proof. done. Qed.

Lemma set_bufs_twice bs bs' s : set_k_bufs bs (set_k_bufs bs' s) = set_k_bufs bs s.
Proof. done. Qed.

Lemma tick_set_bufs bs s : tick (set_k_bufs bs s) = set_k_bufs bs (tick s).
Proof. unfold tick. kernel_eq. Qed.

Lemma tick_put_slock l lk s : tick (put_slock l lk s) = put_slock l lk (tick s).
Proof. unfold tick, put_slock. kernel_eq. Qed.

(** Leaving the critical section of the cache. *)
Lemma release_bcache s bs :
  env me [] s →
  release L_bcache (set_k_bufs bs (acquired L_bcache s)) = Ret tt (tick (set_k_bufs bs s)).
Proof.
  intros He. pose proof (env_free me L_bcache s He eq_refl) as Hlk.
  rewrite (release_eq L_bcache s); [|done|by eapply env_hart|done|done].
  unfold tick, acquired, put_lock. kernel_eq.
Qed.

Section run.
Context {FU : Fuel}.

(** The state after [bget] has picked buffer [i] and changed it by [f]. *)
Definition after_bget (f : buf → buf) (i : nat) (s : kernel) : kernel :=
  tick (put_slock (SL_buf i) (slock_taken me (SL_buf i) s) (set_k_bufs (alter f i (k_bufs s)) s)).

Lemma bget_lock s i f :
  env me [] s → (i < NBUF)%nat → sl_locked (slock_of (SL_buf i) s) = 0 →
  (release L_bcache;; acquiresleep (SL_buf i);; mret i)
    (set_k_bufs (alter f i (k_bufs s)) (acquired L_bcache s)) = Ret i (after_bget f i s).
Proof.
  intros He Hi Hfree.
  rewrite (bind_Ret _ _ _ _ _ (release_bcache s (alter f i (k_bufs s)) He)).
  rewrite (bind_Ret _ _ _ tt (after_bget f i s)); [done|].
  rewrite (acquiresleep_eq me []); [|apply env_tick; by apply (env_ext me [] s); auto|simpl; lia|
    cbn; by apply bool_decide_eq_true_2|set_solver|done].
  unfold after_bget. rewrite <- tick_put_slock, tick_tick. reflexivity.
Qed.

Lemma length_ring s ring : ring_ok s ring → (length ring ≤ NBUF)%nat.
Proof.
  intros [_ Hnd Hall _]. assert (length ring ≤ length (seq 0 NBUF))%nat as Hl.
  { apply submseteq_length, NoDup_submseteq; [done|]. intros x Hx%Hall. apply elem_of_seq. lia. }
  by rewrite length_seq in Hl.
Qed.

Lemma bget_hit_eq s ring held bno i :
  bcache me s ring held → first_match (caches s bno) ring = Some i → i ∉ held →
  bget ROOTDEV bno s = Ret i (after_bget incref i s).
Proof.
  intros [He Hring Hb] Hm Hnin. pose proof Hring as [Hlen Hnd Hall Hlinks].
  pose proof (first_match_Some _ _ _ Hm) as [Hi%Hall _].
  unfold bget. rewrite bind_acquire, bind_gets by (by eapply env_free).
  rewrite (bind_Ret _ _ _ (Some i) (acquired L_bcache s)).
  - unfold on_buf. rewrite bind_modify.
    exact (bget_lock s i incref He Hi (bo_free _ _ _ Hb i Hi Hnin)).
  - rewrite (bget_cached_eq NBUF NBUF ring).
    + by rewrite <- Hm.
    + exact Hlinks.
    + rewrite Hall. lia.
    + by eapply length_ring.
Qed.

Lemma bget_miss_eq s ring held bno i :
  bcache me s ring held → first_match (caches s bno) ring = None →
  first_match (λ i, b_refcnt (buf_of i s) =? 0) (reverse ring) = Some i → i ∉ held →
  bget ROOTDEV bno s = Ret i (after_bget (recycle bno) i s).
Proof.
  intros [He Hring Hb] Hm Hlru Hnin. pose proof Hring as [Hlen Hnd Hall Hlinks].
  pose proof (first_match_Some _ _ _ Hlru) as [Hi _].
  rewrite elem_of_reverse, Hall in Hi.
  assert (NBUF ∉ ring) as Hh by (rewrite Hall; lia).
  unfold bget. rewrite bind_acquire, bind_gets by (by eapply env_free).
  rewrite (bind_Ret _ _ _ None (acquired L_bcache s)).
  2: { rewrite (bget_cached_eq NBUF NBUF ring); [by rewrite <- Hm|exact Hlinks|done|].
       by eapply length_ring. }
  rewrite bind_gets. rewrite (bind_Ret _ _ _ (Some i) (acquired L_bcache s)).
  2: { rewrite (bget_lru_eq NBUF NBUF (reverse ring)); [by rewrite <- Hlru| | |].
       - apply linked_rev. exact Hlinks.
       - by rewrite elem_of_reverse.
       - rewrite length_reverse. by eapply length_ring. }
  unfold on_buf. rewrite !bind_modify.
  rewrite <- (bget_lock s i (recycle bno) He Hi (bo_free _ _ _ Hb i Hi Hnin)).
  f_equal. cbn [k_bufs set_k_bufs]. rewrite !set_bufs_twice.
  by rewrite !list_alter_alter.
Qed.

(** *** The states of bget and bread *)

Lemma buf_of_alter_bufs f i j s :
  length (k_bufs s) = S NBUF → (i ≤ NBUF)%nat →
  buf_of j (set_k_bufs (alter f i (k_bufs s)) s) =
    if decide (i = j) then f (buf_of i s) else buf_of j s.
Proof. intros Hl Hi. rewrite buf_of_alter by (rewrite Hl; lia). done. Qed.

Lemma ring_ok_ext s s' ring :
  ring_ok s ring → length (k_bufs s') = length (k_bufs s) →
  (∀ j, b_next (buf_of j s') = b_next (buf_of j s) ∧ b_prev (buf_of j s') = b_prev (buf_of j s)) →
  ring_ok s' ring.
Proof.
  intros [Hl Hnd Hall Hlk] Hl' Hj. split; [congruence|done|done|].
  eapply linked_ext; [| |exact Hlk]; intros j _; apply Hj.
Qed.

Lemma slock_of_put l l' lk s :
  slock_of l (put_slock l' lk s) = if decide (l' = l) then lk else slock_of l s.
Proof.
  unfold slock_of, put_slock. cbn. case_decide as H; [subst; by rewrite lookup_insert_eq|].
  by rewrite lookup_insert_ne.
Qed.

Lemma after_bget_env f i s : env me [] s → env me [] (after_bget f i s).
Proof. intros He. apply env_tick. apply (env_ext me [] s); [done|by left|done|done]. Qed.

(** What [bread] does once [bget] has chosen [i]. *)
Context {D : Disk} {DO : DiskOk D}.

(** The state [bread] ends in. *)
Definition after_bread (f : buf → buf) (i : nat) (s : kernel) : kernel :=
  let s1 := after_bget f i s in
  if b_valid (buf_of i s1) =? 0
  then set_k_bufs (alter (set_b_valid 1) i (k_bufs (tick (after_rw i false s1))))
         (tick (after_rw i false s1))
  else s1.

Lemma bread_run f i s bno :
  env me [] s → (i < NBUF)%nat → bget ROOTDEV bno s = Ret i (after_bget f i s) →
  bread ROOTDEV bno s = Ret i (after_bread f i s).
Proof.
  intros He Hi Hget. unfold bread. rewrite (bind_Ret _ _ _ _ _ Hget). rewrite bind_gets.
  unfold after_bread. set (s1 := after_bget f i s).
  rewrite bind_when. destruct (b_valid (buf_of i s1) =? 0).
  - rewrite (bind_assoc _ _ _ _ _ _ (disk_rw_eq me i false s1 (after_bget_env f i s He) Hi)).
    done.
  - done.
Qed.

(** The buffers after [bread]. *)
Lemma after_bread_bufs f i s :
  length (k_bufs s) = S NBUF → (i < NBUF)%nat →
  length (k_bufs (after_bread f i s)) = S NBUF ∧
  (∀ j, j ≠ i → buf_of j (after_bread f i s) = buf_of j s) ∧
  buf_of i (after_bread f i s) =
    if b_valid (f (buf_of i s)) =? 0
    then set_b_valid 1 (set_b_data (disk_block (k_disk s) (b_blockno (f (buf_of i s)))) (f (buf_of i s)))
    else f (buf_of i s).
Proof.
  intros Hl Hi. set (s0 := set_k_bufs (alter f i (k_bufs s)) s).
  assert (∀ j, buf_of j (after_bget f i s) = buf_of j s0) as H1 by done.
  assert (buf_of i s0 = f (buf_of i s)) as H2.
  { unfold s0. rewrite buf_of_alter_bufs by lia. by rewrite decide_True. }
  assert (length (k_bufs s0) = S NBUF) as Hl0 by (cbn; by rewrite length_alter).
  unfold after_bread. rewrite H1, H2. case_test.
  - assert (∀ j, buf_of j (set_k_bufs (alter (set_b_valid 1) i (k_bufs (tick (after_rw i false
      (after_bget f i s))))) (tick (after_rw i false (after_bget f i s)))) =
      buf_of j (set_k_bufs (alter (λ x, set_b_valid 1 (set_b_data (disk_block (k_disk s)
        (b_blockno (buf_of i s0))) x)) i (k_bufs s0)) s0)) as H3.
    { intros j. rewrite <- (list_alter_alter (set_b_valid 1)
        (set_b_data (disk_block (k_disk s) (b_blockno (buf_of i s0))))). done. }
    split_and!.
    + cbn. by rewrite !length_alter.
    + intros j Hj. rewrite H3, buf_of_alter_bufs by lia. rewrite decide_False by done.
      unfold s0. rewrite buf_of_alter_bufs by lia. by rewrite decide_False.
    + rewrite H3, buf_of_alter_bufs by lia. rewrite decide_True by done. by rewrite H2.
  - split_and!; [done| |by rewrite H1].
    intros j Hj. rewrite H1. unfold s0. rewrite buf_of_alter_bufs by lia. by rewrite decide_False.
Qed.

Lemma after_bread_rest f i s :
  env me [] s →
  env me [] (after_bread f i s) ∧ k_disk (after_bread f i s) = k_disk s ∧
  k_writes (after_bread f i s) = k_writes s ∧ k_procs (after_bread f i s) = k_procs s ∧
  bio_frame s (after_bread f i s) ∧
  ∀ l, slock_of l (after_bread f i s) =
    if decide (SL_buf i = l) then slock_taken me (SL_buf i) s else slock_of l s.
Proof.
  intros He. pose proof (after_bget_env f i s He) as He1.
  assert (∀ l, slock_of l (after_bget f i s) =
    if decide (SL_buf i = l) then slock_taken me (SL_buf i) s else slock_of l s) as Hs.
  { intros l. exact (slock_of_put l (SL_buf i) _ (set_k_bufs (alter f i (k_bufs s)) s)). }
  unfold after_bread. destruct (b_valid _ =? 0).
  - split_and!; [|done..| |exact Hs].
    + apply (env_ext me [] (after_bget f i s)); [done|by right|done|done].
    + split_and!; [unfold after_bget, after_rw, tick, put_slock; kernel_eq| |done]. intros j. etransitivity; [apply Hs|by rewrite decide_False].
  - split_and!; [done..| |exact Hs].
    split_and!; [unfold after_bget, tick, put_slock; kernel_eq| |done]. intros j. etransitivity; [apply Hs|by rewrite decide_False].
Qed.

(** The buffer [bget] chooses: the one that caches the block, or else the least
    recently used one nobody refers to. *)
Definition chosen (s : kernel) (ring : list nat) (bno : Z) (i : nat) : Prop :=
  find_buf s bno = Some i ∨
  find_buf s bno = None ∧ first_match (λ j, b_refcnt (buf_of j s) =? 0) (reverse ring) = Some i.

(** What a caller of [bread] gets. *)
Definition bread_post (s : kernel) (ring : list nat) (held : gset nat) (bno : Z) (i : nat)
    (s' : kernel) : Prop :=
  bcache me s' ring ({[i]} ∪ held) ∧ i ∉ held ∧
  b_blockno (buf_of i s') = bno ∧ b_data (buf_of i s') = view s bno ∧
  (∀ b, view s' b = view s b) ∧
  (∀ b, refs s' b = refs s b + if decide (b = bno) then 1 else 0) ∧
  k_disk s' = k_disk s ∧ k_writes s' = k_writes s ∧ bio_frame s s' ∧
  (∀ j, j ≠ i → buf_of j s' = buf_of j s) ∧ chosen s ring bno i.

Lemma bread_finish s ring held bno i f :
  bcache me s ring held → (i < NBUF)%nat → i ∉ held →
  caches s bno i = true ∨ find_buf s bno = None ∧ b_refcnt (buf_of i s) = 0 →
  chosen s ring bno i → b_refcnt (buf_of i s) < 999999 →
  b_dev (f (buf_of i s)) = ROOTDEV → b_blockno (f (buf_of i s)) = bno →
  b_refcnt (f (buf_of i s)) = b_refcnt (buf_of i s) + 1 →
  b_next (f (buf_of i s)) = b_next (buf_of i s) → b_prev (f (buf_of i s)) = b_prev (buf_of i s) →
  view s bno = (if b_valid (f (buf_of i s)) =? 0 then disk_block (k_disk s) bno
                else b_data (f (buf_of i s))) →
  bread_post s ring held bno i (after_bread f i s).
Proof.
  intros [He Hring Hb] Hi Hnin Hwhich Hch Hmax Hdev Hbno Href Hnx Hpv Hview.
  destruct (after_bread_bufs f i s (ring_len _ _ Hring) Hi) as (Hl&Hoth&Hbuf).
  destruct (after_bread_rest f i s He) as (He'&Hdisk&Hwr&Hps&Hfr&Hsl).
  set (s' := after_bread f i s) in *.
  assert (b_dev (buf_of i s') = ROOTDEV ∧ b_blockno (buf_of i s') = bno ∧ b_valid (buf_of i s') ≠ 0 ∧
    b_refcnt (buf_of i s') = b_refcnt (buf_of i s) + 1 ∧ b_data (buf_of i s') = view s bno ∧
    b_next (buf_of i s') = b_next (buf_of i s) ∧ b_prev (buf_of i s') = b_prev (buf_of i s))
    as (H1&H2&H3&H4&H5&H6&H7).
  { rewrite Hbuf, Hview. case_test; split_and!; cbn; congruence. }
  assert (pid_of me s' = pid_of me s) as Hpid by (unfold pid_of, proc_of; by rewrite Hps).
  assert (∀ j, j ≠ i → slock_of (SL_buf j) s' = slock_of (SL_buf j) s) as Hslo.
  { intros j Hj. rewrite Hsl, decide_False; [done|congruence]. }
  assert (slock_of (SL_buf i) s' = slock_taken me (SL_buf i) s) as Hsli by (by rewrite Hsl, decide_True).
  split_and!; [split| | | |intros b|intros b| | | | |]; try done.
  - apply (ring_ok_ext s); [done|by rewrite Hl, (ring_len _ _ Hring)|].
    intros j. destruct (decide (j = i)) as [->|]; [done|by rewrite Hoth].
  - by apply (read_bufs_ok s s' held bno i); rewrite ?Hsli.
  - by apply (read_view s s' held bno i); rewrite ?Hsli.
  - by apply (read_refs s s' held bno i); rewrite ?Hsli.
Qed.

Lemma bread_ok s ring held bno :
  bcache me s ring held → (∀ j, j ∈ held → b_blockno (buf_of j s) ≠ bno) →
  room s bno → refs s bno < 999999 →
  ∃ i s', bread ROOTDEV bno s = Ret i s' ∧ bread_post s ring held bno i s'.
Proof.
  intros Hbc Hheld Hroom Hmax. pose proof Hbc as [He Hring Hb]. pose proof (ring_all _ _ Hring) as Hall.
  destruct (first_match (caches s bno) ring) as [i|] eqn:Hm.
  - pose proof (first_match_Some _ _ _ Hm) as [Hi%Hall Hc].
    assert (find_buf s bno = Some i) as Hf by (by eapply find_buf_Some).
    pose proof (proj1 (caches_eq _ _ _) Hc) as [Hd Hbn].
    assert (i ∉ held) as Hnin by (intros Hin; by destruct (Hheld i Hin)).
    unfold refs in Hmax. rewrite Hf in Hmax. pose proof (bo_ref _ _ _ Hb i Hi) as Hr.
    exists i, (after_bread incref i s). split.
    + apply bread_run; [done..|by eapply bget_hit_eq].
    + apply bread_finish; try done; [by left|by left|cbn; apply u32_small; lia|].
      unfold view. by rewrite Hf.
  - assert (find_buf s bno = None) as Hf.
    { apply find_buf_none_iff. intros j Hj%Hall. by eapply first_match_None. }
    destruct Hroom as [[? ?]|(j&Hj&Hj0)]; [congruence|].
    destruct (first_match (λ i, b_refcnt (buf_of i s) =? 0) (reverse ring)) as [i|] eqn:Hlru.
    2: { pose proof (first_match_None _ _ Hlru j) as H0. rewrite elem_of_reverse, Hall, Hj0 in H0.
         specialize (H0 Hj). done. }
    pose proof (first_match_Some _ _ _ Hlru) as [Hi Hi0]. rewrite elem_of_reverse, Hall in Hi.
    apply Z.eqb_eq in Hi0.
    assert (i ∉ held) as Hnin by (intros (_&_&_&_&_&?)%(bo_held _ _ _ Hb); lia).
    exists i, (after_bread (recycle bno) i s). split.
    + apply bread_run; [done..|by eapply bget_miss_eq].
    + apply bread_finish; try done; [by right|by right|lia|cbn; lia|]. unfold view. by rewrite Hf.
Qed.

End run.

(** ** Changing the data of a held buffer *)

Section update.
Context (s s' : kernel) (ring : list nat) (held : gset nat) (i : nat).
Hypothesis Hbc : bcache me s ring held.
Hypothesis Hi : i ∈ held.

(** The buffer of [i] is the one of its block. *)
Lemma held_find : find_buf s (b_blockno (buf_of i s)) = Some i.
Proof.
  destruct (bo_held _ _ _ (bc_bufs _ _ _ _ Hbc) i Hi) as (Hlt&_&_&_&Hd&_).
  eapply find_buf_Some; [by eapply bc_bufs|]. split; [done|by apply caches_eq].
Qed.

Lemma held_view : view s (b_blockno (buf_of i s)) = b_data (buf_of i s).
Proof.
  destruct (bo_held _ _ _ (bc_bufs _ _ _ _ Hbc) i Hi) as (_&_&_&Hv&_).
  unfold view. rewrite held_find. by rewrite (proj2 (Z.eqb_neq _ _) Hv).
Qed.

Lemma held_refs : refs s (b_blockno (buf_of i s)) = b_refcnt (buf_of i s).
Proof. unfold refs. by rewrite held_find. Qed.

Lemma held_not_other j b :
  (j < NBUF)%nat → j ≠ i → caches s b j = true → b ≠ b_blockno (buf_of i s).
Proof.
  intros Hj Hne Hc ->. apply Hne.
  destruct (bo_held _ _ _ (bc_bufs _ _ _ _ Hbc) i Hi) as (Hlt&_&_&_&Hd&_).
  eapply bo_uniq; [by eapply bc_bufs|done|done|done|by apply caches_eq].
Qed.

End update.

(** Operations that keep every buffer's block. *)
Definition same_blocks (s s' : kernel) : Prop :=
  ∀ j, b_dev (buf_of j s') = b_dev (buf_of j s) ∧ b_blockno (buf_of j s') = b_blockno (buf_of j s) ∧
       b_valid (buf_of j s') = b_valid (buf_of j s).

Lemma same_blocks_caches s s' b j : same_blocks s s' → caches s' b j = caches s b j.
Proof. intros H. unfold caches. by destruct (H j) as (->&->&_). Qed.

Lemma same_blocks_find s s' b : same_blocks s s' → find_buf s' b = find_buf s b.
Proof.
  intros H. unfold find_buf. apply first_match_ext. intros j _. by apply same_blocks_caches.
Qed.

Lemma bufs_ok_ext s s' held held' :
  bufs_ok me s held → same_blocks s s' → pid_of me s' = pid_of me s →
  (∀ j, (j < NBUF)%nat → j ∉ held' → sl_locked (slock_of (SL_buf j) s') = 0) →
  (∀ j, j ∈ held' → j ∈ held ∧ slock_of (SL_buf j) s' = slock_of (SL_buf j) s ∧
     1 ≤ b_refcnt (buf_of j s')) →
  (∀ j, (j < NBUF)%nat → 0 ≤ b_refcnt (buf_of j s') < 1000000) →
  (∀ j, (j < NBUF)%nat → b_refcnt (buf_of j s') ≠ 0 → b_refcnt (buf_of j s) ≠ 0) →
  (∀ j, (j < NBUF)%nat → b_dev (buf_of j s') = ROOTDEV → b_refcnt (buf_of j s') = 0 →
     b_valid (buf_of j s') ≠ 0 →
     b_data (buf_of j s') = disk_block (k_disk s') (b_blockno (buf_of j s'))) →
  bufs_ok me s' held'.
Proof.
  intros Hb Hsame Hpid Hfree Hheld Href Hused Hclean. split; try done.
  - intros b j k Hj Hk. rewrite !(same_blocks_caches s s') by done. by eapply bo_uniq.
  - intros j Hj. destruct (Hheld j Hj) as (Hin&Hsl&H1). destruct (Hsame j) as (->&_&->).
    rewrite Hsl, Hpid. destruct (bo_held _ _ _ Hb j Hin) as (?&?&?&?&?&_). split_and!; done.
  - intros j Hj Hr. destruct (Hsame j) as (->&_). apply (bo_used _ _ _ Hb); auto.
Qed.

(** *** Moving a buffer to the front of the list *)

Definition same_content (s s' : kernel) : Prop :=
  ∀ j, b_dev (buf_of j s') = b_dev (buf_of j s) ∧ b_blockno (buf_of j s') = b_blockno (buf_of j s) ∧
       b_valid (buf_of j s') = b_valid (buf_of j s) ∧ b_data (buf_of j s') = b_data (buf_of j s) ∧
       b_refcnt (buf_of j s') = b_refcnt (buf_of j s).

(** The relinking of brelse. *)
Definition move_front (b : nat) (x : buf) : M unit :=
  on_buf (b_next x) (set_b_prev (b_prev x));;
  on_buf (b_prev x) (set_b_next (b_next x));;
  first ← gets (λ s, b_next (buf_of NBUF s));
  on_buf b (set_b_next first);;
  on_buf b (set_b_prev NBUF);;
  on_buf first (set_b_prev b);;
  on_buf NBUF (set_b_next b).

(** States that differ from [s] in the links only. *)
Record relinked (s t : kernel) (nx pv : nat → nat) : Prop := {
  rl_bufs : t = set_k_bufs (k_bufs t) s;
  rl_len : length (k_bufs t) = S NBUF;
  rl_same : same_content s t;
  rl_next j : b_next (buf_of j t) = nx j;
  rl_prev j : b_prev (buf_of j t) = pv j;
}.

Lemma relink_next s t nx pv i v :
  relinked s t nx pv → (i ≤ NBUF)%nat →
  relinked s (set_k_bufs (alter (set_b_next v) i (k_bufs t)) t) (upd nx i v) pv.
Proof.
  intros [Hb Hl Hs Hn Hp] Hi. split.
  - rewrite Hb at 2. done.
  - cbn. by rewrite length_alter.
  - intros j. rewrite buf_of_alter_bufs by done. destruct (decide (i = j)) as [<-|]; apply Hs.
  - intros j. rewrite buf_of_alter_bufs by done. unfold upd. by destruct (decide (i = j)) as [<-|].
  - intros j. rewrite buf_of_alter_bufs by done. by destruct (decide (i = j)) as [<-|]; cbn.
Qed.

Lemma relink_prev s t nx pv i v :
  relinked s t nx pv → (i ≤ NBUF)%nat →
  relinked s (set_k_bufs (alter (set_b_prev v) i (k_bufs t)) t) nx (upd pv i v).
Proof.
  intros [Hb Hl Hs Hn Hp] Hi. split.
  - rewrite Hb at 2. done.
  - cbn. by rewrite length_alter.
  - intros j. rewrite buf_of_alter_bufs by done. destruct (decide (i = j)) as [<-|]; apply Hs.
  - intros j. rewrite buf_of_alter_bufs by done. by destruct (decide (i = j)) as [<-|]; cbn.
  - intros j. rewrite buf_of_alter_bufs by done. unfold upd. by destruct (decide (i = j)) as [<-|].
Qed.

Lemma filter_ne_id (i : nat) (l : list nat) : i ∉ l → filter (λ j, j ≠ i) l = l.
Proof.
  induction l as [|x l IH]; [done|]. intros [Hx Hl]%not_elem_of_cons.
  rewrite filter_cons_True by done. by rewrite IH.
Qed.

Lemma filter_ne_split (i : nat) (l1 l2 : list nat) :
  i ∉ l1 → i ∉ l2 → filter (λ j, j ≠ i) (l1 ++ i :: l2) = l1 ++ l2.
Proof.
  intros H1 H2. rewrite filter_app, filter_cons_False by tauto.
  by rewrite !filter_ne_id.
Qed.

Lemma move_front_ok t ring i x :
  ring_ok t ring → i ∈ ring → b_next x = b_next (buf_of i t) → b_prev x = b_prev (buf_of i t) →
  ∃ t', move_front i x t = Ret tt t' ∧ t' = set_k_bufs (k_bufs t') t ∧
    ring_ok t' (i :: filter (λ j, j ≠ i) ring) ∧ same_content t t'.
Proof.
  intros [Hlen Hnd Hall Hlk] (l1&l2&->)%list_elem_of_split Hxn Hxp.
  assert (NBUF ∉ l1 ++ i :: l2) as Hh by (rewrite Hall; lia).
  pose proof Hlk as [H1 H2]%linked_app. pose proof (linked_last _ _ _ _ _ H1) as Hpv.
  pose proof (linked_head _ _ _ _ _ H2) as Hnx.
  pose proof (linked_unlink _ _ _ _ _ _ Hlk Hnd Hh) as Hun.
  pose proof Hnd as (Hnd1&Hdis&[Hi2 Hnd2]%NoDup_cons)%NoDup_app.
  assert (i ∉ l1) as Hi1 by (intros Hi; destruct (Hdis _ Hi); by left).
  assert (NoDup (l1 ++ l2)) as Hnd'.
  { apply NoDup_app. split_and!; [done| |done]. intros y Hy Hy2. apply (Hdis y Hy). by right. }
  assert (∀ j, j ∈ l1 ++ l2 → (j < NBUF)%nat) as Hlt.
  { intros j Hj. apply Hall. rewrite elem_of_app, elem_of_cons. apply elem_of_app in Hj. tauto. }
  assert (i < NBUF)%nat as Hi by (apply Hall; rewrite elem_of_app, elem_of_cons; tauto).
  assert (∀ l : list nat, (∀ j, j ∈ l → j ∈ l1 ++ l2) → default NBUF (head l) ≤ NBUF ∧
    default NBUF (last l) ≤ NBUF)%nat as Hbound.
  { intros l Hsub. split; [destruct l as [|y l]|destruct (last_in NBUF l) as [->|Hy]]; cbn; [done| |done|].
    - enough (y < NBUF)%nat by lia. apply Hlt, Hsub. by left.
    - enough (default NBUF (last l) < NBUF)%nat by lia. apply Hlt, Hsub, Hy. }
  assert (b_next x ≤ NBUF)%nat as Hbn.
  { rewrite Hxn, Hnx. apply (Hbound l2). set_solver. }
  assert (b_prev x ≤ NBUF)%nat as Hbp.
  { rewrite Hxp, Hpv. apply (Hbound l1). set_solver. }
  assert (relinked t t (λ j, b_next (buf_of j t)) (λ j, b_prev (buf_of j t))) as R0
    by (split; [by destruct t|done|by intros j|done|done]).
  pose proof (relink_prev _ _ _ _ (b_next x) (b_prev x) R0 Hbn) as R1.
  pose proof (relink_next _ _ _ _ (b_prev x) (b_next x) R1 Hbp) as R2.
  unfold move_front, on_buf. rewrite !bind_modify, bind_gets, (rl_next _ _ _ _ R2).
  rewrite Hxn, Hxp in R2 |- *.
  set (nx1 := upd (λ j, b_next (buf_of j t)) (b_prev (buf_of i t)) (b_next (buf_of i t))) in *.
  set (pv1 := upd (λ j, b_prev (buf_of j t)) (b_next (buf_of i t)) (b_prev (buf_of i t))) in *.
  assert (nx1 NBUF ≤ NBUF)%nat as Hfirst.
  { rewrite (linked_head _ _ _ _ _ Hun). by apply (Hbound (l1 ++ l2)). }
  rewrite !bind_modify.
  pose proof (relink_next _ _ _ _ i (nx1 NBUF) R2 ltac:(lia)) as R3.
  pose proof (relink_prev _ _ _ _ i NBUF R3 ltac:(lia)) as R4.
  pose proof (relink_prev _ _ _ _ (nx1 NBUF) i R4 Hfirst) as R5.
  pose proof (relink_next _ _ _ _ NBUF i R5 ltac:(lia)) as [R6a R6b R6c R6d R6e].
  eexists. split; [reflexivity|]. split; [exact R6a|]. split; [|exact R6c].
  rewrite filter_ne_split by done. split.
  - exact R6b.
  - apply NoDup_cons. rewrite not_elem_of_app. done.
  - intros j. rewrite <- Hall, elem_of_cons, !elem_of_app, elem_of_cons. tauto.
  - eapply linked_ext; [intros j _; apply R6d|intros j _; apply R6e|].
    apply linked_push; [done| |rewrite not_elem_of_app; done|lia|done].
    intros Hj%Hlt. lia.
Qed.

Section update_ops.
Context (s : kernel) (ring : list nat) (held : gset nat) (i : nat).
Hypothesis Hbc : bcache me s ring held.
Hypothesis Hi : i ∈ held.

Lemma held_lt : (i < NBUF)%nat.
Proof. by destruct (bo_held _ _ _ (bc_bufs _ _ _ _ Hbc) i Hi). Qed.

Lemma buf_of_held g j :
  buf_of j (set_k_bufs (alter g i (k_bufs s)) s) =
    if decide (i = j) then g (buf_of i s) else buf_of j s.
Proof.
  pose proof held_lt. apply buf_of_alter_bufs; [by eapply ring_len, bc_ring|lia].
Qed.

Lemma update_ok (g : buf → buf) d :
  g (buf_of i s) = set_b_data d (buf_of i s) →
  let s' := set_k_bufs (alter g i (k_bufs s)) s in
  bcache me s' ring held ∧
  (∀ b, view s' b = if decide (b = b_blockno (buf_of i s)) then d else view s b) ∧
  (∀ b, refs s' b = refs s b) ∧ bio_frame s s' ∧
  (∀ j, buf_of j s' = if decide (i = j) then set_b_data d (buf_of i s) else buf_of j s).
Proof.
  intros Hg s'. pose proof Hbc as [He Hring Hb].
  destruct (bo_held _ _ _ Hb i Hi) as (Hlt&Hlk&Hpid&Hv&Hd&Hr).
  assert (∀ j, buf_of j s' = if decide (i = j) then set_b_data d (buf_of i s) else buf_of j s) as Hbuf.
  { intros j. unfold s'. rewrite buf_of_held. by rewrite Hg. }
  assert (same_blocks s s') as Hsame by (intros j; rewrite Hbuf; by destruct (decide (i = j)) as [<-|]).
  assert (∀ j, b_refcnt (buf_of j s') = b_refcnt (buf_of j s)) as Href
    by (intros j; rewrite Hbuf; by destruct (decide (i = j)) as [<-|]).
  split_and!; [split|intros b|intros b| |done].
  - by apply (env_ext me [] s); auto.
  - apply (ring_ok_ext s); [done|unfold s'; cbn; by rewrite length_alter|].
    intros j. rewrite Hbuf. by destruct (decide (i = j)) as [<-|].
  - apply (bufs_ok_ext s s' held); try done.
    + exact (bo_free _ _ _ Hb).
    + intros j Hj. rewrite Href. split_and!; [done..|]. by destruct (bo_held _ _ _ Hb j Hj) as (_&_&_&_&_&?).
    + intros j. rewrite Href. by eapply bo_ref.
    + intros j Hj. by rewrite Href.
    + intros j Hj. rewrite Href. rewrite Hbuf. destruct (decide (i = j)) as [<-|]; [lia|].
      exact (bo_clean _ _ _ Hb j Hj).
  - unfold view. rewrite (same_blocks_find s) by done.
    destruct (find_buf s b) as [j|] eqn:Hf.
    + apply (find_buf_Some _ held) in Hf as [Hj Hc]; [|done]. rewrite Hbuf.
      destruct (decide (i = j)) as [<-|Hne].
      * rewrite caches_eq in Hc. destruct Hc as [_ <-]. rewrite decide_True by done. cbn.
        by rewrite (proj2 (Z.eqb_neq _ _) Hv).
      * rewrite decide_False; [done|]. by eapply held_not_other.
    + rewrite decide_False; [done|]. intros ->. by rewrite (held_find s ring held i) in Hf.
  - unfold refs. rewrite (same_blocks_find s) by done. by destruct (find_buf s b).
  - split_and!; [unfold s'; kernel_eq|done|done].
Qed.

(** *** bwrite *)

Lemma holding_held : holdingsleep (SL_buf i) s = Ret true (tick s).
Proof.
  pose proof Hbc as [He _ Hb]. destruct (bo_held _ _ _ Hb i Hi) as (Hlt&Hlk&Hpid&_).
  rewrite (holdingsleep_eq me []); [|done|simpl; lia|cbn; by apply bool_decide_eq_true_2|set_solver].
  by rewrite Hlk, Hpid, Z.eqb_refl.
Qed.

Section writing.
Context {D : Disk} {DO : DiskOk D}.

Lemma bwrite_ok :
  ∃ s', bwrite i s = Ret tt s' ∧ bcache me s' ring held ∧
    k_disk s' = <[b_blockno (buf_of i s) := b_data (buf_of i s)]> (k_disk s) ∧
    k_writes s' = k_writes s ++ [(b_blockno (buf_of i s), b_data (buf_of i s))] ∧
    (∀ b, view s' b = view s b) ∧ (∀ b, refs s' b = refs s b) ∧ bio_frame s s' ∧
    (∀ j, buf_of j s' = buf_of j s).
Proof.
  pose proof Hbc as [He Hring Hb]. destruct (bo_held _ _ _ Hb i Hi) as (Hlt&Hlk&Hpid&Hv&Hd&Hr).
  set (s' := tick (after_rw i true (tick s))).
  assert (∀ j, buf_of j s' = buf_of j s) as Hbuf by done.
  assert (same_blocks s s') as Hsame by (by intros j).
  exists s'. split_and!; [|split|done|done|intros b|intros b| |done].
  - unfold bwrite. rewrite (bind_Ret _ _ _ _ _ holding_held). cbn [negb].
    by rewrite (disk_rw_eq me) by (done || by apply env_tick).
  - apply env_tick. apply (env_ext me [] s); [done|by right|done|done].
  - by apply (ring_ok_ext s).
  - apply (bufs_ok_ext s s' held); try done.
    + exact (bo_free _ _ _ Hb).
    + intros j Hj. split_and!; [done..|]. by destruct (bo_held _ _ _ Hb j Hj) as (_&_&_&_&_&?).
    + exact (bo_ref _ _ _ Hb).
    + intros j Hj Hdj Hrj Hvj. rewrite Hbuf in *.
      assert (j ≠ i) as Hne by (intros ->; lia).
      assert (b_blockno (buf_of j s) ≠ b_blockno (buf_of i s)).
      { by eapply (held_not_other s ring held i Hbc Hi j); [| |apply caches_eq]. }
      rewrite (bo_clean _ _ _ Hb j Hj) by done. unfold disk_block, s'. cbn.
      by rewrite lookup_insert_ne.
  - unfold view. rewrite (same_blocks_find s) by done. destruct (find_buf s b) as [j|] eqn:Hf.
    + apply (find_buf_Some _ held) in Hf as [Hj Hc]; [|done]. rewrite Hbuf. case_test; [|done].
      unfold disk_block, s'. cbn. rewrite lookup_insert_ne; [done|]. intros Heq.
      apply (held_not_other s ring held i Hbc Hi j b); [done| |done|done].
      intros ->. done.
    + unfold disk_block, s'. cbn. rewrite lookup_insert_ne; [done|]. intros Heq.
      change (b_blockno (buf_of i s) = b) in Heq. subst b.
      by rewrite (held_find s ring held i) in Hf.
  - unfold refs. rewrite (same_blocks_find s) by done. done.
  - split_and!; [unfold s', after_rw, tick; kernel_eq|done|done].
Qed.

End writing.

(** *** bpin and bunpin *)

Lemma pin_ok g r :
  b_dev (g (buf_of i s)) = b_dev (buf_of i s) → b_blockno (g (buf_of i s)) = b_blockno (buf_of i s) →
  b_valid (g (buf_of i s)) = b_valid (buf_of i s) → b_data (g (buf_of i s)) = b_data (buf_of i s) →
  b_next (g (buf_of i s)) = b_next (buf_of i s) → b_prev (g (buf_of i s)) = b_prev (buf_of i s) →
  b_refcnt (g (buf_of i s)) = b_refcnt (buf_of i s) + r →
  1 ≤ b_refcnt (buf_of i s) + r < 1000000 →
  let s' := tick (set_k_bufs (alter g i (k_bufs s)) s) in
  (acquire L_bcache;; on_buf i g;; release L_bcache) s = Ret tt s' ∧ bcache me s' ring held ∧
    k_disk s' = k_disk s ∧ k_writes s' = k_writes s ∧ (∀ b, view s' b = view s b) ∧
    (∀ b, refs s' b = refs s b + if decide (b = b_blockno (buf_of i s)) then r else 0) ∧
    bio_frame s s' ∧
    (∀ j, b_blockno (buf_of j s') = b_blockno (buf_of j s) ∧ b_data (buf_of j s') = b_data (buf_of j s)).
Proof.
  intros Hgd Hgb Hgv Hgx Hgn Hgp Hgr Hrange s'. pose proof Hbc as [He Hring Hb].
  destruct (bo_held _ _ _ Hb i Hi) as (Hlt&Hlk&Hpid&Hv&Hd&Hr).
  assert (∀ j, buf_of j s' = if decide (i = j) then g (buf_of i s) else buf_of j s) as Hbuf
    by (intros j; exact (buf_of_held g j)).
  assert (same_blocks s s') as Hsame by (intros j; rewrite Hbuf; by destruct (decide (i = j)) as [<-|]).
  split_and!; [|split|done|done|intros b|intros b| |].
  - rewrite bind_acquire by (by eapply env_free). unfold on_buf. rewrite bind_modify.
    by rewrite (release_bcache s (alter g i (k_bufs s))).
  - apply env_tick. apply (env_ext me [] s); [done|by left|done|done].
  - apply (ring_ok_ext s); [done|unfold s'; cbn; by rewrite length_alter|].
    intros j. rewrite Hbuf. by destruct (decide (i = j)) as [<-|].
  - apply (bufs_ok_ext s s' held); try done.
    + exact (bo_free _ _ _ Hb).
    + intros j Hj. split_and!; [done..|]. rewrite Hbuf. destruct (decide (i = j)) as [<-|]; [lia|].
      by destruct (bo_held _ _ _ Hb j Hj) as (_&_&_&_&_&?).
    + intros j Hj. rewrite Hbuf. destruct (decide (i = j)) as [<-|]; [lia|]. exact (bo_ref _ _ _ Hb j Hj).
    + intros j Hj. rewrite Hbuf. destruct (decide (i = j)) as [<-|]; [lia|done].
    + intros j Hj. rewrite Hbuf. destruct (decide (i = j)) as [<-|]; [lia|]. exact (bo_clean _ _ _ Hb j Hj).
  - unfold view. rewrite (same_blocks_find s) by done. destruct (find_buf s b) as [j|]; [|done].
    rewrite Hbuf. destruct (decide (i = j)) as [<-|]; [|done]. by rewrite Hgv, Hgx.
  - unfold refs. rewrite (same_blocks_find s) by done. destruct (find_buf s b) as [j|] eqn:Hf.
    + apply (find_buf_Some _ held) in Hf as [Hj Hc]; [|done]. rewrite Hbuf.
      destruct (decide (i = j)) as [<-|Hne].
      * rewrite caches_eq in Hc. destruct Hc as [_ <-]. rewrite decide_True by done. done.
      * rewrite decide_False; [lia|]. by eapply held_not_other.
    + rewrite decide_False; [done|]. intros ->. by rewrite (held_find s ring held i) in Hf.
  - split_and!; [unfold s', tick; kernel_eq|done|done].
  - intros j. rewrite Hbuf. by destruct (decide (i = j)) as [<-|].
Qed.

(** *** brelse *)

(** The state after [releasesleep] of the buffer's lock. *)
Definition unlocked : kernel :=
  tick (set_k_procs (woken me (Ch_sleeplock (SL_buf i)) (k_procs s))
    (put_slock (SL_buf i) (slock_freed (SL_buf i) s) s)).

Lemma env_unlocked : env me [] unlocked.
Proof.
  pose proof Hbc as [He _ _]. apply env_tick, (env_ext me [] s); [done|by left|done|].
  apply length_woken.
Qed.

Lemma pid_woken ch ps j :
  p_pid (default zero_proc (woken me ch ps !! j)) = p_pid (default zero_proc (ps !! j)).
Proof.
  unfold woken. rewrite list_lookup_imap. destruct (ps !! j); [|done]. cbn. by destruct (wakes _ _ _ _).
Qed.

Lemma slock_unlocked j :
  slock_of (SL_buf j) unlocked =
    if decide (i = j) then slock_freed (SL_buf i) s else slock_of (SL_buf j) s.
Proof.
  change (slock_of _ unlocked)
    with (slock_of (SL_buf j) (put_slock (SL_buf i) (slock_freed (SL_buf i) s) s)).
  rewrite slock_of_put. destruct (decide (i = j)) as [<-|Hne]; [by rewrite decide_True|].
  rewrite decide_False by congruence. done.
Qed.

Lemma releasing : releasesleep (SL_buf i) (tick s) = Ret tt unlocked.
Proof.
  pose proof Hbc as [He _ Hb]. pose proof held_lt as Hlt.
  rewrite (releasesleep_eq me []); [|by apply env_tick|simpl; lia
    |cbn; by apply bool_decide_eq_true_2|set_solver|set_solver].
  unfold unlocked, tick, put_slock, slock_freed. f_equal. cbn. rewrite hart_tick_idemp. kernel_eq.
Qed.

(** The list after the release: a buffer nobody uses any more comes first. *)
Definition ring_released : list nat :=
  if b_refcnt (buf_of i s) =? 1 then i :: filter (λ j, j ≠ i) ring else ring.

(** The state after the decrement, and after the buffer was moved. *)
Definition decremented : kernel := set_k_bufs (alter decref i (k_bufs s)) unlocked.

Lemma buf_of_decremented j :
  buf_of j decremented = if decide (i = j) then decref (buf_of i s) else buf_of j s.
Proof. exact (buf_of_held decref j). Qed.

Lemma refcnt_decref : b_refcnt (decref (buf_of i s)) = b_refcnt (buf_of i s) - 1.
Proof.
  pose proof Hbc as [_ _ Hb]. destruct (bo_held _ _ _ Hb i Hi) as (Hlt&_&_&_&_&Hr).
  pose proof (bo_ref _ _ _ Hb i Hlt). cbn. by rewrite u32_small by lia.
Qed.

Lemma brelse_run :
  ∃ bs, brelse i s = Ret tt (tick (set_k_bufs bs unlocked)) ∧
    ring_ok (tick (set_k_bufs bs unlocked)) ring_released ∧
    same_content decremented (set_k_bufs bs unlocked).
Proof.
  pose proof Hbc as [He Hring Hb]. pose proof held_lt as Hlt. pose proof env_unlocked as He'.
  pose proof (env_free me L_bcache _ He' eq_refl) as Hfree. pose proof refcnt_decref as Hdec.
  assert (ring_ok (acquired L_bcache decremented) ring) as Hring1.
  { apply (ring_ok_ext s); [done|cbn; by rewrite length_alter|]. intros j.
    change (buf_of j (acquired L_bcache decremented)) with (buf_of j decremented).
    rewrite buf_of_decremented. by destruct (decide (i = j)) as [<-|]. }
  unfold brelse. rewrite (bind_Ret _ _ _ _ _ (holding_held)). cbn [negb].
  rewrite (bind_Ret _ _ _ _ _ releasing), bind_acquire by done.
  rewrite bind_on_buf, bind_gets.
  set (t := set_k_bufs _ (acquired L_bcache unlocked)).
  change (buf_of i t) with (buf_of i decremented). rewrite buf_of_decremented, decide_True by done.
  rewrite Hdec, bind_when. unfold ring_released.
  destruct (b_refcnt (buf_of i s) - 1 =? 0) eqn:E; case_test; try lia.
  - destruct (move_front_ok t ring i (decref (buf_of i s))) as (t'&Hrun&Ht'&Hr'&Hsc).
    + exact Hring1.
    + by apply (ring_all _ _ Hring).
    + change (buf_of i t) with (buf_of i decremented). by rewrite buf_of_decremented, decide_True.
    + change (buf_of i t) with (buf_of i decremented). by rewrite buf_of_decremented, decide_True.
    + exists (k_bufs t'). change (on_buf _ _;; _) with (move_front i (decref (buf_of i s))).
      rewrite (bind_Ret _ _ _ _ _ Hrun), Ht'. unfold t. rewrite set_bufs_twice.
      rewrite release_bcache by done. split_and!; [done| |].
      * apply (ring_ok_ext t'); [done|done|done].
      * exact Hsc.
  - exists (alter decref i (k_bufs s)). unfold t.
    change (alter _ i (k_bufs (acquired L_bcache unlocked))) with (alter decref i (k_bufs s)).
    rewrite release_bcache by done. split_and!; [done| |done]. apply (ring_ok_ext s); [done|cbn; by rewrite length_alter|].
    intros j. change (buf_of j (tick _)) with (buf_of j decremented). rewrite buf_of_decremented.
    by destruct (decide (i = j)) as [<-|].
Qed.

Lemma brelse_ok :
  (b_refcnt (buf_of i s) = 1 →
   b_data (buf_of i s) = disk_block (k_disk s) (b_blockno (buf_of i s))) →
  ∃ s', brelse i s = Ret tt s' ∧ bcache me s' ring_released (held ∖ {[i]}) ∧
    k_disk s' = k_disk s ∧ k_writes s' = k_writes s ∧ (∀ b, view s' b = view s b) ∧
    (∀ b, refs s' b = refs s b - if decide (b = b_blockno (buf_of i s)) then 1 else 0) ∧
    bio_frame s s' ∧
    (∀ j, b_blockno (buf_of j s') = b_blockno (buf_of j s) ∧ b_data (buf_of j s') = b_data (buf_of j s)).
Proof.
  intros Hclean. pose proof Hbc as [He Hring Hb]. pose proof refcnt_decref as Hdec.
  destruct (bo_held _ _ _ Hb i Hi) as (Hlt&_&_&_&_&Hr).
  destruct brelse_run as (bs&Hrun&Hr'&Hsc). set (s' := tick _) in *.
  change (same_content decremented s') in Hsc.
  assert (same_blocks s s') as Hsame.
  { intros j. destruct (Hsc j) as (->&->&->&_). rewrite buf_of_decremented.
    by destruct (decide (i = j)) as [<-|]. }
  assert (∀ j, b_data (buf_of j s') = b_data (buf_of j s)) as Hdata.
  { intros j. destruct (Hsc j) as (_&_&_&->&_). rewrite buf_of_decremented.
    by destruct (decide (i = j)) as [<-|]. }
  assert (∀ j, b_refcnt (buf_of j s') = b_refcnt (buf_of j s) - if decide (i = j) then 1 else 0) as Hcnt.
  { intros j. destruct (Hsc j) as (_&_&_&_&->). rewrite buf_of_decremented.
    destruct (decide (i = j)) as [<-|]; lia. }
  exists s'. split_and!; [done|split; [|done|]|done|done|intros b|intros b| |].
  - apply env_tick, (env_ext me [] unlocked); [exact env_unlocked|by left|done|done].
  - apply (bufs_ok_ext s s' held); [done|done|apply pid_woken|..].
    + intros j Hj Hnin. change (slock_of (SL_buf j) s') with (slock_of (SL_buf j) unlocked).
      rewrite slock_unlocked. destruct (decide (i = j)) as [<-|]; [done|].
      apply (bo_free _ _ _ Hb); [done|]. set_solver.
    + intros j [Hj Hne]%elem_of_difference. rewrite not_elem_of_singleton in Hne.
      change (slock_of (SL_buf j) s') with (slock_of (SL_buf j) unlocked).
      rewrite slock_unlocked, Hcnt, !decide_False by done. split_and!; [done..|].
      destruct (bo_held _ _ _ Hb j Hj) as (_&_&_&_&_&?). lia.
    + intros j Hj. rewrite Hcnt. pose proof (bo_ref _ _ _ Hb j Hj).
      destruct (decide (i = j)) as [<-|]; lia.
    + intros j Hj. rewrite Hcnt. destruct (decide (i = j)) as [<-|]; lia.
    + intros j Hj. destruct (Hsame j) as (->&->&->). rewrite Hcnt, Hdata.
      change (k_disk s') with (k_disk s). intros Hd Hz Hv. destruct (decide (i = j)) as [<-|].
      * apply Hclean. lia.
      * apply (bo_clean _ _ _ Hb j Hj); [done|lia|done].
  - unfold view. rewrite (same_blocks_find s) by done. destruct (find_buf s b) as [j|]; [|done].
    destruct (Hsame j) as (_&_&->). by rewrite Hdata.
  - unfold refs. rewrite (same_blocks_find s) by done. destruct (find_buf s b) as [j|] eqn:Hf.
    + apply (find_buf_Some _ held) in Hf as [Hj Hc]; [|done]. rewrite Hcnt.
      destruct (decide (i = j)) as [<-|Hne].
      * rewrite caches_eq in Hc. destruct Hc as [_ <-]. by rewrite decide_True.
      * rewrite decide_False; [lia|]. by eapply held_not_other.
    + rewrite decide_False; [done|]. intros ->. by rewrite (held_find s ring held i) in Hf.
  - split_and!; [unfold s', unlocked, put_slock, tick; kernel_eq| |apply pid_woken]. intros j. etransitivity; [apply (slock_of_put (SL_inode j))|by rewrite decide_False].
  - intros j. destruct (Hsame j) as (_&->&_). done.
Qed.

End update_ops.

(** ** The counts the clients see *)

Lemma refs_nonneg s held b : bufs_ok me s held → 0 ≤ refs s b.
Proof.
  intros Hb. unfold refs. destruct (find_buf s b) as [j|] eqn:Hf; [|done].
  apply (find_buf_Some _ held) in Hf as [Hj _]; [|done]. apply (bo_ref _ _ _ Hb j Hj).
Qed.

(** A block nobody refers to reads as it is on the disk. *)
Lemma refs_zero_clean s held b :
  bufs_ok me s held → refs s b = 0 → view s b = disk_block (k_disk s) b.
Proof.
  intros Hb. unfold refs, view. destruct (find_buf s b) as [j|] eqn:Hf; [|done]. intros Hr.
  apply (find_buf_Some _ held) in Hf as [Hj [Hd <-]%caches_eq]; [|done].
  case_test; [done|]. by apply (bo_clean _ _ _ Hb j Hj).
Qed.

(** When the blocks referred to are fewer than the buffers, a buffer is free. *)
Lemma room_of_refs s held l :
  bufs_ok me s held → (∀ b, refs s b ≠ 0 → b ∈ l) → (length l < NBUF)%nat →
  ∃ j, (j < NBUF)%nat ∧ b_refcnt (buf_of j s) = 0.
Proof.
  intros Hb Hl Hlen.
  destruct (decide (Exists (λ j, b_refcnt (buf_of j s) = 0) (seq 0 NBUF))) as [He|Hne].
  { apply Exists_exists in He as (j&Hj%elem_of_seq&Hz). exists j. split; [lia|done]. }
  exfalso. assert (∀ j, (j < NBUF)%nat → b_refcnt (buf_of j s) ≠ 0) as Hall.
  { intros j Hj Hz. apply Hne. apply Exists_exists. exists j. split; [apply elem_of_seq; lia|done]. }
  assert (NoDup ((λ j, b_blockno (buf_of j s)) <$> seq 0 NBUF)) as Hnd.
  { apply NoDup_fmap_2_strong; [|apply NoDup_seq]. intros j k Hj%elem_of_seq Hk%elem_of_seq Heq.
    assert (j < NBUF ∧ k < NBUF)%nat as [Hj' Hk'] by lia.
    apply (bo_uniq _ _ _ Hb (b_blockno (buf_of j s))); [done|done|..]; apply caches_eq; split;
      try done; apply (bo_used _ _ _ Hb); auto. }
  assert ((λ j, b_blockno (buf_of j s)) <$> seq 0 NBUF ⊆+ l) as Hsub%submseteq_length.
  { apply NoDup_submseteq; [done|]. intros b (j&->&Hj%elem_of_seq)%list_elem_of_fmap. apply Hl.
    assert (j < NBUF)%nat as Hj' by lia. unfold refs.
    rewrite (proj2 (find_buf_Some s held (b_blockno (buf_of j s)) j Hb)); [by apply Hall|].
    split; [done|]. apply caches_eq. split; [|done]. apply (bo_used _ _ _ Hb); auto. }
  rewrite length_fmap, length_seq in Hsub. lia.
Qed.

End cache.
