(* ===== verification/BioInit.v ===== *)
(** * The buffer cache at start-up (bio.c: binit)

    [binit] links all buffers into the list and leaves an empty cache; the
    contract of [bread] and [brelse] follows. *)

From S2P Require Import Prelude State Mem Kstring Spinlock Kalloc Vm Proc ProcSpec.
From S2P Require Import Sleeplock SleepSpec Bio BioList BioSpec.

(** ** Description *)

(** A buffer as the program starts with it: for no device, unused, invalid. *)
Definition unused_buf (x : buf) : Prop := b_dev x = 0 ∧ b_refcnt x = 0 ∧ b_valid x = 0.

(** One turn of the loop of [binit]. *)
Definition binit_body (b : nat) : M unit :=
  next ← gets (λ s, b_next (buf_of NBUF s));
  on_buf b (set_b_next next);;
  on_buf b (set_b_prev NBUF);;
  initsleeplock (SL_buf b) "buffer";;
  next ← gets (λ s, b_next (buf_of NBUF s));
  on_buf next (set_b_prev b);;
  on_buf NBUF (set_b_next b).

(** After the turns for the buffers below [b]. *)
Record binit_inv (s0 s : kernel) (b : nat) : Prop := {
  bi_len : length (k_bufs s) = S NBUF;
  bi_links : linked (λ j, b_next (buf_of j s)) (λ j, b_prev (buf_of j s)) NBUF (reverse (seq 0 b)) NBUF;
  bi_same j : b_dev (buf_of j s) = b_dev (buf_of j s0) ∧ b_refcnt (buf_of j s) = b_refcnt (buf_of j s0) ∧
    b_valid (buf_of j s) = b_valid (buf_of j s0);
  bi_slocks j : (j < b)%nat → sl_locked (slock_of (SL_buf j) s) = 0;
  bi_locks l : lock_free l s0 → lock_free l s;
  bi_frame : s = set_k_locks (k_locks s) (set_k_slocks (k_slocks s) (set_k_bufs (k_bufs s) s0));
}.

(** The running kernel once [binit] has run. *)
Definition idle_kernel : kernel :=
  match binit running_kernel with Ret _ s => s | _ => running_kernel end.

(** ** binit *)

Lemma bind_initsleeplock {B : Type} l name (k : unit → M B) s :
  (initsleeplock l name ≫= k) s =
    k tt (put_slock l (Sleeplock name 0 0) (put_lock (L_sleep l) (Spinlock "sleep lock" 0 None) s)).
Proof. done. Qed.

Lemma binit_body_ok s0 s b :
  binit_inv s0 s b → (b < NBUF)%nat → ∃ s', binit_body b s = Ret tt s' ∧ binit_inv s0 s' (S b).
Proof.
  intros [Hl Hlk Hsame Hsl Hlocks Hfr] Hb.
  assert (∀ x, x ∈ reverse (seq 0 b) → (x < b)%nat) as Hin.
  { intros x Hx. apply elem_of_reverse, elem_of_seq in Hx. lia. }
  assert (∀ t, relinked t t (λ j, b_next (buf_of j t)) (λ j, b_prev (buf_of j t)) ↔
    length (k_bufs t) = S NBUF) as Hself.
  { intros t. split; [by intros []|]. intros Ht. split; [by destruct t|done|by intros j|done|done]. }
  set (first := b_next (buf_of NBUF s)).
  assert (first ≤ NBUF)%nat as Hfirst.
  { unfold first. rewrite (linked_head _ _ _ _ _ Hlk). destruct (reverse (seq 0 b)) as [|y r] eqn:E; [done|].
    cbn. enough (y < b)%nat by lia. apply Hin. by left. }
  pose proof (proj2 (Hself s) Hl) as R0.
  pose proof (relink_next _ _ _ _ b first R0 ltac:(lia)) as R1.
  pose proof (relink_prev _ _ _ _ b NBUF R1 ltac:(lia)) as R2.
  pose proof (relink_prev _ _ _ _ first b R2 Hfirst) as R3.
  pose proof (relink_next _ _ _ _ NBUF b R3 ltac:(lia)) as [R4a R4b R4c R4d R4e].
  exists (set_k_bufs (alter (set_b_next b) NBUF (alter (set_b_prev b) first (alter (set_b_prev NBUF) b
    (alter (set_b_next first) b (k_bufs s))))) (put_slock (SL_buf b) (Sleeplock "buffer" 0 0)
    (put_lock (L_sleep (SL_buf b)) (Spinlock "sleep lock" 0 None) s))). split.
  - unfold binit_body. rewrite bind_gets, !bind_on_buf. fold first.
    rewrite bind_initsleeplock, bind_gets.
    match goal with |- context [b_next (buf_of NBUF ?t)] =>
      replace (b_next (buf_of NBUF t)) with first; [done|] end.
    symmetry. etrans; [exact (rl_next _ _ _ _ R2 NBUF)|]. apply upd_ne. lia.
  - split.
    + exact R4b.
    + rewrite seq_S, reverse_snoc. cbn [Nat.add].
      eapply linked_ext; [intros j _; apply R4d|intros j _; apply R4e|].
      apply linked_push; [done| | |lia|].
      * intros Hx%Hin. lia.
      * intros Hx%Hin. lia.
      * rewrite reverse_Permutation. apply NoDup_seq.
    + intros j. destruct (R4c j) as (Hd&_&Hv&_&Hr). destruct (Hsame j) as (H1&H2&H3). split_and!; [etrans; [exact Hd|done]|etrans; [exact Hr|done]|etrans; [exact Hv|done]].
    + intros j Hj. change (slock_of (SL_buf j) _) with
        (slock_of (SL_buf j) (put_slock (SL_buf b) (Sleeplock "buffer" 0 0) s)).
      rewrite slock_of_put. case_decide; [done|]. apply Hsl. assert (j ≠ b) by congruence. lia.
    + intros l Hf. destruct (Hlocks l Hf) as [name Hn]. unfold lock_free. cbn.
      destruct (decide (L_sleep (SL_buf b) = l)) as [<-|Hne].
      * exists "sleep lock"%string. by rewrite lookup_insert_eq.
      * exists name. by rewrite lookup_insert_ne.
    + rewrite Hfr. unfold put_slock, put_lock. kernel_eq.
Qed.

Lemma binit_loop s0 n b s :
  binit_inv s0 s b → (b + n ≤ NBUF)%nat →
  ∃ s', for_each (seq b n) binit_body s = Ret tt s' ∧ binit_inv s0 s' (b + n).
Proof.
  revert b s. induction n as [|n IH]; intros b s Hinv Hn; cbn [seq for_each].
  { rewrite Nat.add_0_r. by exists s. }
  destruct (binit_body_ok s0 s b Hinv) as (s1&Hr1&Hi1); [lia|].
  rewrite (bind_Ret _ _ _ _ _ Hr1). destruct (IH (S b) s1 Hi1) as (s2&Hr2&Hi2); [lia|].
  exists s2. split; [done|]. by replace (b + S n)%nat with (S b + n)%nat by lia.
Qed.

Lemma binit_run s :
  length (k_bufs s) = S NBUF →
  ∃ s', binit s = Ret tt s' ∧ binit_inv s s' NBUF ∧ lock_free L_bcache s'.
Proof.
  intros Hl. set (s1 := put_lock L_bcache (Spinlock "bcache" 0 None) s).
  set (s2 := set_k_bufs (alter (set_b_next NBUF) NBUF (alter (set_b_prev NBUF) NBUF (k_bufs s))) s1).
  assert (binit_inv s1 s2 0) as Hinv.
  { assert (∀ j, buf_of j s2 = if decide (NBUF = j) then set_b_next NBUF (set_b_prev NBUF (buf_of j s))
      else buf_of j s) as Hbuf.
    { intros j. unfold s2. rewrite list_alter_alter, buf_of_alter by lia.
      by destruct (decide (NBUF = j)) as [<-|]. }
    split.
    - cbn. by rewrite !length_alter.
    - change (b_next (buf_of NBUF s2) = NBUF ∧ b_prev (buf_of NBUF s2) = NBUF).
      by rewrite Hbuf, decide_True.
    - intros j. rewrite Hbuf. by destruct (decide (NBUF = j)).
    - lia.
    - done.
    - unfold s2. kernel_eq. }
  destruct (binit_loop s1 NBUF 0 s2 Hinv) as (s'&Hr&Hi); [lia|].
  exists s'. split_and!.
  - change binit with (initlock L_bcache "bcache";; on_buf NBUF (set_b_prev NBUF);;
      on_buf NBUF (set_b_next NBUF);; for_each (seq 0 NBUF) binit_body).
    unfold initlock. rewrite bind_modify, !bind_on_buf. exact Hr.
  - destruct Hi as [H1 H2 H3 H4 H5 H6]. split; [done..| |].
    + intros l Hf. apply H5. destruct Hf as [name Hn]. unfold lock_free, s1, put_lock. cbn.
      destruct (decide (L_bcache = l)) as [<-|]; [rewrite lookup_insert_eq; eauto|].
      rewrite lookup_insert_ne by done. eauto.
    + rewrite H6. unfold s1, put_lock. kernel_eq.
  - apply (bi_locks _ _ _ Hi). exists "bcache"%string. unfold s1, put_lock. cbn. by rewrite lookup_insert_eq.
Qed.

(** The list and the buffers [binit] leaves. *)
Lemma binit_ok me s :
  length (k_bufs s) = S NBUF → (∀ j, unused_buf (buf_of j s)) →
  ∃ s', binit s = Ret tt s' ∧ ring_ok s' (reverse (seq 0 NBUF)) ∧ bufs_ok me s' ∅ ∧
    (∀ b, find_buf s' b = None) ∧ (∀ l, lock_free l s → lock_free l s') ∧ lock_free L_bcache s' ∧
    s' = set_k_locks (k_locks s') (set_k_slocks (k_slocks s') (set_k_bufs (k_bufs s') s)).
Proof.
  intros Hl Hu. destruct (binit_run s Hl) as (s'&Hr&Hi&Hbc). exists s'.
  pose proof (bi_same _ _ _ Hi) as Hsame.
  assert (∀ j, unused_buf (buf_of j s')) as Hu'.
  { intros j. destruct (Hsame j) as (H1&H2&H3), (Hu j) as (H4&H5&H6). split_and!; congruence. }
  assert (∀ b j, caches s' b j = false) as Hc.
  { intros b j. unfold caches. destruct (Hu' j) as (->&_). done. }
  split; [exact Hr|]. clear Hr. split_and!; [| | |exact (bi_locks _ _ _ Hi)|exact Hbc|exact (bi_frame _ _ _ Hi)].
  - split; [apply Hi|rewrite reverse_Permutation; apply NoDup_seq| |apply Hi].
    intros i. rewrite elem_of_reverse, elem_of_seq. lia.
  - split.
    + intros b i j _ _ Hci. by rewrite Hc in Hci.
    + intros i Hi' _. by apply (bi_slocks _ _ _ Hi).
    + intros i Hi'. clear -Hi'. set_solver.
    + intros i _. destruct (Hu' i) as (_&->&_). lia.
    + intros i _. destruct (Hu' i) as (_&->&_). done.
    + intros i _. destruct (Hu' i) as (->&_). done.
  - intros b. apply find_buf_none_iff. intros j _. apply Hc.
Qed.

(** ** The cache of the running kernel *)

Lemma running_unused j : unused_buf (buf_of j running_kernel).
Proof.
  change (unused_buf (default zero_buf (replicate (S NBUF) zero_buf !! j))).
  destruct (replicate (S NBUF) zero_buf !! j) as [x|] eqn:E; [|done]. apply lookup_replicate in E as [-> _]. done.
Qed.

Lemma idle_ok :
  bcache 0 idle_kernel (reverse (seq 0 NBUF)) ∅ ∧ (∀ b, find_buf idle_kernel b = None) ∧
  k_disk idle_kernel = ∅ ∧ k_writes idle_kernel = [].
Proof.
  destruct (binit_ok 0 running_kernel) as (s&Hr&Hring&Hb&Hf&Hl&_&Hfr); [done|apply running_unused|].
  assert (idle_kernel = s) as -> by (unfold idle_kernel; by rewrite Hr).
  clear Hr. split_and!; [split; [|done|done]|done|by rewrite Hfr|by rewrite Hfr].
  pose proof running_env as [H1 H2 H3 H4 H5 H6 H7]. split; try (rewrite Hfr; done); try done.
  intros l Hk Hn. auto.
Qed.

Lemma idle_frame :
  idle_kernel = set_k_locks (k_locks idle_kernel) (set_k_slocks (k_slocks idle_kernel)
    (set_k_bufs (k_bufs idle_kernel) running_kernel)).
Proof.
  destruct (binit_ok 0 running_kernel) as (s&Hr&_&_&_&_&_&Hfr); [done|apply running_unused|].
  assert (idle_kernel = s) as -> by (unfold idle_kernel; by rewrite Hr). exact Hfr.
Qed.

#[global] Opaque idle_kernel.

(** ** The cache's contract *)

(** C40: [binit], run on the zeroed buffers, terminates; the list then holds
    every buffer exactly once, in both directions, the buffer locks are free
    and nothing is cached. *)
Theorem binit_correct me s :
  length (k_bufs s) = S NBUF → (∀ j, unused_buf (buf_of j s)) →
  ∃ s', binit s = Ret tt s' ∧ ring_ok s' (reverse (seq 0 NBUF)) ∧ bufs_ok me s' ∅ ∧
    (∀ b, find_buf s' b = None).
Proof.
  intros Hl Hu. destruct (binit_ok me s Hl Hu) as (s'&Hr&H1&H2&H3&_). exists s'.
  split; [exact Hr|]. clear Hr. done.
Qed.

Lemma binit_correct_witness : ∃ s', binit running_kernel = Ret tt s' ∧ ring_ok s' (reverse (seq 0 NBUF)).
Proof.
  destruct (binit_correct 0 running_kernel) as (s'&Hr&Hring&_).
  - reflexivity.
  - intros j. change (unused_buf (default zero_buf (replicate (S NBUF) zero_buf !! j))).
    destruct (replicate (S NBUF) zero_buf !! j) as [x|] eqn:E; [|repeat split].
    apply lookup_replicate in E as [-> _]. repeat split.
  - exists s'. split; [exact Hr|exact Hring].
Defined.

Section contract.
Context (me : nat) {FU : Fuel} {D : Disk} {DO : DiskOk D}.

(** C22: when there is a buffer for the block, [bread] returns a locked buffer
    with the block's current contents, counts one more reference to it, and
    changes neither the contents of any block nor the disk. The buffer is the
    one that caches the block or, if there is none, the least recently used
    one nobody refers to. *)
Theorem bread_correct s ring held bno :
  bcache me s ring held → (∀ j, j ∈ held → b_blockno (buf_of j s) ≠ bno) →
  room s bno → refs s bno < 999999 →
  ∃ i s', bread ROOTDEV bno s = Ret i s' ∧ bread_post me s ring held bno i s'.
Proof. exact (bread_ok me s ring held bno). Qed.

(** [brelse] by the holder unlocks the buffer and counts one reference
    less; a buffer nobody refers to any more becomes the most recently used
    one. It never loses data: a buffer that can be recycled holds what is on
    the disk. *)
Theorem brelse_correct s ring held i :
  bcache me s ring held → i ∈ held →
  (b_refcnt (buf_of i s) = 1 →
   b_data (buf_of i s) = disk_block (k_disk s) (b_blockno (buf_of i s))) →
  ∃ s', brelse i s = Ret tt s' ∧ bcache me s' (ring_released s ring i) (held ∖ {[i]}) ∧
    k_disk s' = k_disk s ∧ k_writes s' = k_writes s ∧ (∀ b, view s' b = view s b) ∧
    (∀ b, refs s' b = refs s b - if decide (b = b_blockno (buf_of i s)) then 1 else 0) ∧
    bio_frame s s'.
Proof.
  intros Hbc Hi Hclean. destruct (brelse_ok me s ring held i Hbc Hi Hclean) as (s'&Hr&H1&H2&H3&H4&H5&H6&_).
  exists s'. split; [exact Hr|]. clear Hr. split_and!; assumption.
Qed.

End contract.

Lemma idle_room b : room idle_kernel b.
Proof.
  right. destruct idle_ok as (Hbc&Hf&_). apply (room_of_refs 0 idle_kernel ∅ []); [apply Hbc| |cbn; unfold NBUF; lia].
  intros x. unfold refs. by rewrite Hf.
Qed.

Lemma idle_refs b : refs idle_kernel b = 0.
Proof. destruct idle_ok as (_&Hf&_). unfold refs. by rewrite Hf. Qed.

Lemma bread_correct_witness :
  ∃ i s', @bread 10%nat polled_disk ROOTDEV 5 idle_kernel = Ret i s' ∧ b_blockno (buf_of i s') = 5.
Proof.
  destruct (@bread_correct 0 10%nat polled_disk polled_disk_ok idle_kernel (reverse (seq 0 NBUF)) ∅ 5)
    as (i&s'&Hr&Hp).
  - apply idle_ok.
  - intros j Hj. exfalso. clear -Hj. set_solver.
  - apply idle_room.
  - rewrite idle_refs. lia.
  - exists i, s'. split; [exact Hr|]. apply Hp.
Defined.

Lemma brelse_correct_witness :
  ∃ i s s', @bread 10%nat polled_disk ROOTDEV 5 idle_kernel = Ret i s ∧ brelse i s = Ret tt s' ∧
    view s' 5 = view s 5.
Proof.
  destruct (@bread_ok 0 10%nat polled_disk polled_disk_ok idle_kernel (reverse (seq 0 NBUF)) ∅ 5)
    as (i&s&Hr&Hp).
  - apply idle_ok.
  - intros j Hj. exfalso. clear -Hj. set_solver.
  - apply idle_room.
  - rewrite idle_refs. lia.
  - destruct Hp as (Hbc&_&Hb&Hdata&_&_&Hd&_).
    destruct (brelse_correct 0 s _ _ i Hbc) as (s'&Hr'&_&_&_&Hv&_).
    + clear. set_solver.
    + intros _. rewrite Hb, Hdata, Hd. destruct idle_ok as (Hbc0&Hf&_). unfold view. by rewrite Hf.
    + exists i, s, s'. split; [exact Hr|]. split; [exact Hr'|]. apply Hv.
Defined.
