(* ===== verification/Virtio.v ===== *)
(** * kernel/virtio_disk.c: the virtio block device driver

    Requests are chains of three descriptors in a table of [NUM] shared with
    the device. The rings' contents are fields of [vdisk]; what a descriptor
    points to is a [daddr]. [vd_used_hw] and [vd_used_ring] are written by the
    device, as are the data of a buffer it reads into and the status bytes. *)

From S2P Require Import Prelude State Mem Kstring Spinlock Kalloc Vm Proc Uart Sleeplock Bio.

(** ** Model *)

Notation VIRTIO_MMIO_MAGIC_VALUE := 0x000%Z (only parsing).
Notation VIRTIO_MMIO_VERSION := 0x004%Z (only parsing).
Notation VIRTIO_MMIO_DEVICE_ID := 0x008%Z (only parsing).
Notation VIRTIO_MMIO_VENDOR_ID := 0x00c%Z (only parsing).
Notation VIRTIO_MMIO_DEVICE_FEATURES := 0x010%Z (only parsing).
Notation VIRTIO_MMIO_DRIVER_FEATURES := 0x020%Z (only parsing).
Notation VIRTIO_MMIO_QUEUE_SEL := 0x030%Z (only parsing).
Notation VIRTIO_MMIO_QUEUE_NUM_MAX := 0x034%Z (only parsing).
Notation VIRTIO_MMIO_QUEUE_NUM := 0x038%Z (only parsing).
Notation VIRTIO_MMIO_QUEUE_READY := 0x044%Z (only parsing).
Notation VIRTIO_MMIO_QUEUE_NOTIFY := 0x050%Z (only parsing).
Notation VIRTIO_MMIO_INTERRUPT_STATUS := 0x060%Z (only parsing).
Notation VIRTIO_MMIO_INTERRUPT_ACK := 0x064%Z (only parsing).
Notation VIRTIO_MMIO_STATUS := 0x070%Z (only parsing).
Notation VIRTIO_MMIO_QUEUE_DESC_LOW := 0x080%Z (only parsing).
Notation VIRTIO_MMIO_QUEUE_DESC_HIGH := 0x084%Z (only parsing).
Notation VIRTIO_MMIO_DRIVER_DESC_LOW := 0x090%Z (only parsing).
Notation VIRTIO_MMIO_DRIVER_DESC_HIGH := 0x094%Z (only parsing).
Notation VIRTIO_MMIO_DEVICE_DESC_LOW := 0x0a0%Z (only parsing).
Notation VIRTIO_MMIO_DEVICE_DESC_HIGH := 0x0a4%Z (only parsing).
Notation VIRTIO_CONFIG_S_ACKNOWLEDGE := 1%Z (only parsing).
Notation VIRTIO_CONFIG_S_DRIVER := 2%Z (only parsing).
Notation VIRTIO_CONFIG_S_DRIVER_OK := 4%Z (only parsing).
Notation VIRTIO_CONFIG_S_FEATURES_OK := 8%Z (only parsing).
Notation VRING_DESC_F_NEXT := 1%Z (only parsing).
Notation VRING_DESC_F_WRITE := 2%Z (only parsing).
Notation VIRTIO_BLK_T_IN := 0%Z (only parsing).
Notation VIRTIO_BLK_T_OUT := 1%Z (only parsing).

(** The feature bits the driver refuses. *)
Definition refused_features : list Z := [5; 7; 11; 12; 27; 29; 28].

Definition clear_features (features : Z) : Z :=
  foldl (λ f bit, Z.land f (Z.lnot (Z.shiftl 1 bit))) features refused_features.

Section model.
Context `{Image} `{Fuel} `{Mmio}.

Definition on_vdisk (f : vdisk → vdisk) : M unit := modify (λ s, set_k_vdisk (f (k_vdisk s)) s).

Definition vread (r : Z) : M Z := mmio_read (VIRTIO0 + r).
Definition vwrite (r v : Z) : M unit := mmio_write (VIRTIO0 + r) (u32 v).

Definition virtio_disk_init : M unit :=
  initlock L_vdisk "virtio_disk";;
  magic ← vread VIRTIO_MMIO_MAGIC_VALUE;
  version ← vread VIRTIO_MMIO_VERSION;
  id ← vread VIRTIO_MMIO_DEVICE_ID;
  vendor ← vread VIRTIO_MMIO_VENDOR_ID;
  if negb (magic =? 0x74726976) || negb (version =? 2) || negb (id =? 2)
     || negb (vendor =? 0x554d4551)
  then panic "could not find virtio disk"
  else
    let status := 0 in
    vwrite VIRTIO_MMIO_STATUS status;;
    let status := Z.lor status VIRTIO_CONFIG_S_ACKNOWLEDGE in
    vwrite VIRTIO_MMIO_STATUS status;;
    let status := Z.lor status VIRTIO_CONFIG_S_DRIVER in
    vwrite VIRTIO_MMIO_STATUS status;;
    features ← vread VIRTIO_MMIO_DEVICE_FEATURES;
    vwrite VIRTIO_MMIO_DRIVER_FEATURES (clear_features features);;
    vwrite VIRTIO_MMIO_STATUS (Z.lor status VIRTIO_CONFIG_S_FEATURES_OK);;
    status ← vread VIRTIO_MMIO_STATUS;
    if Z.land status VIRTIO_CONFIG_S_FEATURES_OK =? 0 then panic "virtio disk FEATURES_OK unset"
    else
      vwrite VIRTIO_MMIO_QUEUE_SEL 0;;
      ready ← vread VIRTIO_MMIO_QUEUE_READY;
      if negb (ready =? 0) then panic "virtio disk should not be ready"
      else
        max ← vread VIRTIO_MMIO_QUEUE_NUM_MAX;
        if max =? 0 then panic "virtio disk has no queue 0"
        else if max <? Z.of_nat NUM then panic "virtio disk max queue too short"
        else
          desc ← kalloc;
          avail ← kalloc;
          used ← kalloc;
          on_vdisk (λ d, set_vd_used_page used (set_vd_avail_page avail (set_vd_desc_page desc d)));;
          if (desc =? 0) || (avail =? 0) || (used =? 0) then panic "virtio disk kalloc"
          else
            on_mem (λ m, memset m desc 0 PGSIZE);;
            on_mem (λ m, memset m avail 0 PGSIZE);;
            on_mem (λ m, memset m used 0 PGSIZE);;
            on_vdisk (λ d, set_vd_used_ring (replicate NUM 0) (set_vd_used_hw 0
              (set_vd_avail_ring (replicate NUM 0) (set_vd_avail_idx 0
                (set_vd_desc (replicate NUM (Vdesc DA_null 0 0 0)) d)))));;
            vwrite VIRTIO_MMIO_QUEUE_NUM (Z.of_nat NUM);;
            vwrite VIRTIO_MMIO_QUEUE_DESC_LOW desc;;
            vwrite VIRTIO_MMIO_QUEUE_DESC_HIGH (Z.shiftr desc 32);;
            vwrite VIRTIO_MMIO_DRIVER_DESC_LOW avail;;
            vwrite VIRTIO_MMIO_DRIVER_DESC_HIGH (Z.shiftr avail 32);;
            vwrite VIRTIO_MMIO_DEVICE_DESC_LOW used;;
            vwrite VIRTIO_MMIO_DEVICE_DESC_HIGH (Z.shiftr used 32);;
            vwrite VIRTIO_MMIO_QUEUE_READY 0x1;;
            on_vdisk (set_vd_free (replicate NUM 1));;
            vwrite VIRTIO_MMIO_STATUS (Z.lor status VIRTIO_CONFIG_S_DRIVER_OK).

(** ** Descriptors *)

Definition free_at (d : vdisk) (i : nat) : Z := default 0 (vd_free d !! i).
Definition desc_at (d : vdisk) (i : nat) : vdesc := default (Vdesc DA_null 0 0 0) (vd_desc d !! i).

Definition set_free (i : nat) (v : Z) : M unit :=
  on_vdisk (λ d, set_vd_free (<[i := v]> (vd_free d)) d).
Definition set_desc (i : nat) (x : vdesc) : M unit :=
  on_vdisk (λ d, set_vd_desc (<[i := x]> (vd_desc d)) d).

Fixpoint alloc_desc_loop (l : list nat) : M (option nat) :=
  match l with
  | [] => mret None
  | i :: l' =>
      d ← gets k_vdisk;
      if negb (free_at d i =? 0) then set_free i 0;; mret (Some i) else alloc_desc_loop l'
  end.

(** [None] is -1. *)
Definition alloc_desc : M (option nat) := alloc_desc_loop (seq 0 NUM).

Definition free_desc (i : nat) : M unit :=
  if decide (NUM ≤ i)%nat then panic "free_desc 1"
  else
    d ← gets k_vdisk;
    if negb (free_at d i =? 0) then panic "free_desc 2"
    else
      set_desc i (Vdesc DA_null 0 0 0);;
      set_free i 1;;
      wakeup Ch_disk_free.

(** A chain has at most NUM descriptors. *)
Fixpoint free_chain_loop (n : nat) (i : nat) : M unit :=
  match n with
  | O => out_of_fuel
  | S n' =>
      x ← gets (λ s, desc_at (k_vdisk s) i);
      free_desc i;;
      if negb (Z.land (d_flags x) VRING_DESC_F_NEXT =? 0)
      then free_chain_loop n' (Z.to_nat (d_next x))
      else mret tt
  end.

Definition free_chain (i : nat) : M unit := free_chain_loop NUM i.

(** The three indices, or [None] for -1, with what was taken given back. *)
Definition alloc3_desc : M (option (nat * nat * nat)) :=
  i0 ← alloc_desc;
  match i0 with
  | None => mret None
  | Some i0 =>
      i1 ← alloc_desc;
      match i1 with
      | None => free_desc i0;; mret None
      | Some i1 =>
          i2 ← alloc_desc;
          match i2 with
          | None => free_desc i0;; free_desc i1;; mret None
          | Some i2 => mret (Some (i0, i1, i2))
          end
      end
  end.

(** ** Requests *)

Fixpoint alloc3_wait (n : nat) : M (nat * nat * nat) :=
  r ← alloc3_desc;
  match r with
  | Some idx => mret idx
  | None =>
      match n with
      | O => out_of_fuel
      | S n' => sleep Ch_disk_free L_vdisk;; alloc3_wait n'
      end
  end.

(** [while(b->disk == 1) sleep(b, ...)]. *)
Fixpoint disk_wait (n : nat) (b : nat) : M unit :=
  disk ← gets (λ s, b_disk (buf_of b s));
  if disk =? 1 then
    match n with
    | O => out_of_fuel
    | S n' => sleep (Ch_buf b) L_vdisk;; disk_wait n' b
    end
  else mret tt.

(** Fill in the chain for buffer [b]. *)
Definition format_request (i0 i1 i2 b : nat) (write : bool) (sector : Z) : M unit :=
  on_vdisk (λ d, set_vd_ops
    (<[i0 := Vop (if write then VIRTIO_BLK_T_OUT else VIRTIO_BLK_T_IN) 0 sector]> (vd_ops d)) d);;
  set_desc i0 (Vdesc (DA_op i0) 16 VRING_DESC_F_NEXT (Z.of_nat i1));;
  set_desc i1 (Vdesc (DA_data b) BSIZE
    (Z.lor (if write then 0 else VRING_DESC_F_WRITE) VRING_DESC_F_NEXT) (Z.of_nat i2));;
  on_vdisk (λ d, set_vd_info_status (<[i0 := 0xff]> (vd_info_status d)) d);;
  set_desc i2 (Vdesc (DA_status i0) 1 VRING_DESC_F_WRITE 0).

Definition virtio_rw (b : nat) (write : bool) : M unit :=
  blockno ← gets (λ s, b_blockno (buf_of b s));
  let sector := u32 (blockno * (BSIZE / 512)) in
  acquire L_vdisk;;
  idx ← alloc3_wait fuel;
  let '(i0, i1, i2) := idx in
  format_request i0 i1 i2 b write sector;;
  on_buf b (set_b_disk 1);;
  on_vdisk (λ d, set_vd_info_b (<[i0 := Some b]> (vd_info_b d)) d);;
  on_vdisk (λ d, set_vd_avail_ring
    (<[Z.to_nat (vd_avail_idx d mod Z.of_nat NUM) := Z.of_nat i0]> (vd_avail_ring d)) d);;
  on_vdisk (λ d, set_vd_avail_idx (u16 (vd_avail_idx d + 1)) d);;
  vwrite VIRTIO_MMIO_QUEUE_NOTIFY 0;;
  disk_wait fuel b;;
  on_vdisk (λ d, set_vd_info_b (<[i0 := None]> (vd_info_b d)) d);;
  free_chain i0;;
  release L_vdisk.

(** ** Completion *)

Fixpoint disk_intr_loop (n : nat) : M unit :=
  d ← gets k_vdisk;
  if vd_used_idx d =? vd_used_hw d then mret tt
  else
    match n with
    | O => out_of_fuel
    | S n' =>
        let id := Z.to_nat (default 0 (vd_used_ring d !! Z.to_nat (vd_used_idx d mod Z.of_nat NUM))) in
        if negb (default 0 (vd_info_status d !! id) =? 0) then panic "virtio_disk_intr status"
        else
          b ← deref (mjoin (vd_info_b d !! id));
          on_buf b (set_b_disk 0);;
          wakeup (Ch_buf b);;
          on_vdisk (λ d, set_vd_used_idx (u16 (vd_used_idx d + 1)) d);;
          disk_intr_loop n'
    end.

Definition virtio_disk_intr : M unit :=
  acquire L_vdisk;;
  st ← vread VIRTIO_MMIO_INTERRUPT_STATUS;
  vwrite VIRTIO_MMIO_INTERRUPT_ACK (Z.land st 0x3);;
  d ← gets k_vdisk;
  disk_intr_loop (Z.to_nat (u16 (vd_used_hw d - vd_used_idx d)));;
  release L_vdisk.

(** The driver is the disk the file system runs on. *)
Definition virtio_disk : Disk := virtio_rw.

End model.
