(* ===== verification/Log.v ===== *)
(** * kernel/log.c: the write-ahead log, the model

    The log occupies [log.size] blocks from [log.start]: a header block with
    the number of logged blocks and their home addresses, then the blocks.
    The theorems are in LogSpec. *)

From S2P Require Import Prelude State Mem Kstring Spinlock Kalloc Vm Proc Sleeplock Bio.

(** ** Model *)

Section model.
Context `{Fuel} `{Disk}.

Definition on_log (f : log → log) : M unit := modify (λ s, set_k_log (f (k_log s)) s).

(** [memmove(b->data, src, BSIZE)]. *)
Definition set_data (b : nat) (d : list Z) : M unit := on_buf b (set_b_data d).

(** The header as it lies in its block: [n], then [block[]]. *)
Definition hd_n (d : list Z) : Z := i32 (get32 d 0).
Definition hd_block (d : list Z) (i : nat) : Z := i32 (get32 d (4 + 4 * i)).
Definition put_hd_n (d : list Z) (n : Z) : list Z := put32 d 0 (u32 n).
Definition put_hd_block (d : list Z) (i : nat) (b : Z) : list Z := put32 d (4 + 4 * i) (u32 b).

Definition install_trans (recovering : bool) : M unit :=
  n ← gets (λ s, lh_n (k_log s));
  for_each (seq 0 (Z.to_nat n)) (λ tail,
    lg ← gets k_log;
    lbuf ← bread (u32 (l_dev lg)) (u32 (l_start lg + Z.of_nat tail + 1));
    dbuf ← bread (u32 (l_dev lg)) (u32 (default 0 (lh_block lg !! tail)));
    d ← gets (λ s, b_data (buf_of lbuf s));
    set_data dbuf d;;
    bwrite dbuf;;
    when (negb recovering) (bunpin dbuf);;
    brelse lbuf;;
    brelse dbuf).

Definition read_head : M unit :=
  lg ← gets k_log;
  b ← bread (u32 (l_dev lg)) (u32 (l_start lg));
  d ← gets (λ s, b_data (buf_of b s));
  on_log (set_lh_n (hd_n d));;
  for_each (seq 0 (Z.to_nat (hd_n d))) (λ i,
    on_log (λ lg, set_lh_block (<[i := hd_block d i]> (lh_block lg)) lg));;
  brelse b.

Definition write_head : M unit :=
  lg ← gets k_log;
  b ← bread (u32 (l_dev lg)) (u32 (l_start lg));
  on_buf b (λ x, set_b_data (put_hd_n (b_data x) (lh_n lg)) x);;
  for_each (seq 0 (Z.to_nat (lh_n lg))) (λ i,
    on_buf b (λ x, set_b_data
      (put_hd_block (b_data x) i (default 0 (lh_block lg !! i))) x));;
  bwrite b;;
  brelse b.

Definition recover_from_log : M unit :=
  read_head;;
  install_trans true;;
  on_log (set_lh_n 0);;
  write_head.

(** [sizeof(struct logheader)]. *)
Definition sizeof_logheader : Z := 4 + 4 * LOGSIZE.

Definition initlog (dev : Z) (sb : superblock) : M unit :=
  if BSIZE <=? sizeof_logheader then panic "initlog: too big logheader"
  else
    initlock L_log "log";;
    on_log (set_l_start (i32 (sb_logstart sb)));;
    on_log (set_l_size (i32 (sb_nlog sb)));;
    on_log (set_l_dev dev);;
    recover_from_log.

Fixpoint begin_op_loop (n : nat) : M unit :=
  lg ← gets k_log;
  if negb (l_committing lg =? 0) || (LOGSIZE <? lh_n lg + (l_outstanding lg + 1) * MAXOPBLOCKS)
  then
    match n with
    | O => out_of_fuel
    | S n' => sleep Ch_log L_log;; begin_op_loop n'
    end
  else
    on_log (set_l_outstanding (l_outstanding lg + 1));;
    release L_log.

Definition begin_op : M unit := acquire L_log;; begin_op_loop fuel.

Definition write_log : M unit :=
  n ← gets (λ s, lh_n (k_log s));
  for_each (seq 0 (Z.to_nat n)) (λ tail,
    lg ← gets k_log;
    to ← bread (u32 (l_dev lg)) (u32 (l_start lg + Z.of_nat tail + 1));
    from ← bread (u32 (l_dev lg)) (u32 (default 0 (lh_block lg !! tail)));
    d ← gets (λ s, b_data (buf_of from s));
    set_data to d;;
    bwrite to;;
    brelse from;;
    brelse to).

Definition commit : M unit :=
  n ← gets (λ s, lh_n (k_log s));
  when (0 <? n)
    (write_log;;
     write_head;;
     install_trans false;;
     on_log (set_lh_n 0);;
     write_head).

Definition end_op : M unit :=
  acquire L_log;;
  on_log (λ lg, set_l_outstanding (l_outstanding lg - 1) lg);;
  lg ← gets k_log;
  if negb (l_committing lg =? 0) then panic "log.committing"
  else
    let do_commit := l_outstanding lg =? 0 in
    (if do_commit then on_log (set_l_committing 1) else wakeup Ch_log);;
    release L_log;;
    when do_commit
      (commit;;
       acquire L_log;;
       on_log (set_l_committing 0);;
       wakeup Ch_log;;
       release L_log).

(** The index at which [log_write] records block [blockno]: that of an earlier
    write to it (absorption), or [n]. *)
Fixpoint log_index (block : list Z) (n : nat) (blockno : Z) : nat :=
  match n, block with
  | S n', x :: block' => if u32 x =? blockno then O else S (log_index block' n' blockno)
  | _, _ => O
  end.

Definition log_write (b : nat) : M unit :=
  acquire L_log;;
  lg ← gets k_log;
  if (LOGSIZE <=? lh_n lg) || (l_size lg - 1 <=? lh_n lg) then panic "too big a transaction"
  else if l_outstanding lg <? 1 then panic "log_write outside of trans"
  else
    blockno ← gets (λ s, b_blockno (buf_of b s));
    let i := log_index (lh_block lg) (Z.to_nat (lh_n lg)) blockno in
    on_log (λ lg, set_lh_block (<[i := i32 blockno]> (lh_block lg)) lg);;
    when (Z.of_nat i =? lh_n lg)
      (bpin b;; on_log (λ lg, set_lh_n (lh_n lg + 1) lg));;
    release L_log.

End model.
