(* ===== verification/LogSpec.v ===== *)
(** * The write-ahead log: commit and recovery are crash safe (log.c)

    The functions of log.c run over the buffer cache's contract. Every block
    write they issue is recorded in [k_writes]; a crash keeps the disk as some
    prefix of them left it. Recovery then runs from a cache that holds
    nothing. *)

From S2P Require Import Prelude State Mem Kstring Spinlock Kalloc Vm Proc ProcSpec.
From S2P Require Import Sleeplock SleepSpec Bio BioList BioSpec Log.

(** ** Description *)

(** The disk after a list of block writes. *)
Definition apply_writes (ws : list (Z * list Z)) (d : gmap Z (list Z)) : gmap Z (list Z) :=
  foldl (λ d w, <[w.1 := w.2]> d) d ws.

(** The same for a function from blocks to contents. *)
Definition overlay (ws : list (Z * list Z)) (v : Z → list Z) : Z → list Z :=
  foldl (λ v w b, if decide (b = w.1) then w.2 else v b) v ws.

(** The writes of [vs] to consecutive blocks from [a], and to the blocks [bs]. *)
Definition seq_writes (a : Z) (vs : list (list Z)) : list (Z * list Z) :=
  imap (λ i v, (a + Z.of_nat i, v)) vs.

(** The log holds the blocks [bs], to be installed from the blocks after
    [start]; they lie outside the log's own area. *)
Record log_rep (lg : log) (start : Z) (bs : list Z) : Prop := {
  lr_dev : l_dev lg = ROOTDEV;
  lr_start : l_start lg = start;
  lr_start_range : 0 ≤ start < 2 ^ 30;
  lr_n : lh_n lg = Z.of_nat (length bs);
  lr_max : (length bs ≤ 30)%nat;
  lr_block i b : bs !! i = Some b → lh_block lg !! i = Some b;
  lr_home b : b ∈ bs → 0 ≤ b < 2 ^ 31 ∧ (b < start ∨ start + 30 < b);
  lr_nodup : NoDup bs;
}.

(** The header block with the home addresses [bs]: what it held before, with
    the count and the first entries overwritten. *)
Fixpoint put_blocks (j : nat) (bs : list Z) (d : list Z) : list Z :=
  match bs with
  | [] => d
  | b :: bs' => put_blocks (S j) bs' (put_hd_block d j b)
  end.

Definition head_data (d : list Z) (bs : list Z) : list Z :=
  put_blocks 0 bs (put_hd_n d (Z.of_nat (length bs))).

(** The cache is consistent and process [me] holds no buffer. *)
Definition quiet (me : nat) (s : kernel) : Prop := ∃ ring, bcache me s ring ∅.

(** The blocks referred to are among [l], which leaves [k] buffers. *)
Definition spare (s : kernel) (l : list Z) (k : nat) : Prop :=
  (∀ b, refs s b ≠ 0 → b ∈ l) ∧ (length l + k ≤ NBUF)%nat.

(** What a step did, as its clients see it. *)
Record effect (s s' : kernel) (ws : list (Z * list Z)) (v : Z → list Z) (r : Z → Z) : Prop := {
  ef_disk : k_disk s' = apply_writes ws (k_disk s);
  ef_writes : k_writes s' = k_writes s ++ ws;
  ef_view b : view s' b = v b;
  ef_refs b : refs s' b = r b;
  ef_frame : bio_frame s s';
}.

(** ** Writes *)

Lemma apply_writes_app ws1 ws2 d : apply_writes (ws1 ++ ws2) d = apply_writes ws2 (apply_writes ws1 d).
Proof. apply foldl_app. Qed.

Lemma overlay_app ws1 ws2 v : overlay (ws1 ++ ws2) v = overlay ws2 (overlay ws1 v).
Proof. unfold overlay. by rewrite foldl_app. Qed.

Lemma overlay_ext ws v v' b : v b = v' b → overlay ws v b = overlay ws v' b.
Proof.
  revert v v'. induction ws as [|[a x] ws IH]; intros v v' Hv; cbn; [done|].
  apply IH. cbn. by rewrite Hv.
Qed.

Lemma overlay_notin ws v b : b ∉ ws.*1 → overlay ws v b = v b.
Proof.
  revert v. induction ws as [|[a x] ws IH]; intros v Hb; cbn; [done|].
  apply not_elem_of_cons in Hb as [Hne Hb]. unfold overlay in IH. rewrite IH by done. cbn.
  by rewrite decide_False.
Qed.

Lemma overlay_in ws v b x : NoDup ws.*1 → (b, x) ∈ ws → overlay ws v b = x.
Proof.
  revert v. induction ws as [|[a y] ws IH]; intros v Hnd Hin; [by apply elem_of_nil in Hin|].
  cbn in Hnd. apply NoDup_cons in Hnd as [Ha Hnd]. apply elem_of_cons in Hin as [[= -> ->]|Hin].
  - cbn. change (overlay ws (λ b, if decide (b = a) then y else v b) a = y).
    rewrite overlay_notin by done. by rewrite decide_True.
  - cbn. by apply (IH (λ b, if decide (b = a) then y else v b)).
Qed.

Lemma disk_apply ws d b : disk_block (apply_writes ws d) b = overlay ws (disk_block d) b.
Proof.
  revert d. induction ws as [|[a x] ws IH]; intros d; cbn; [done|].
  unfold apply_writes in IH. rewrite IH. apply overlay_ext. unfold disk_block.
  destruct (decide (b = a)) as [->|Hne]; [by rewrite lookup_insert_eq|by rewrite lookup_insert_ne].
Qed.

Lemma seq_writes_cons a v vs : seq_writes a (v :: vs) = (a, v) :: seq_writes (a + 1) vs.
Proof.
  unfold seq_writes. rewrite imap_cons. f_equal; [f_equal; lia|]. apply imap_ext. intros i x _. cbn. f_equal. lia.
Qed.

Lemma elem_seq_writes a vs b x :
  (b, x) ∈ seq_writes a vs ↔ ∃ i, vs !! i = Some x ∧ b = a + Z.of_nat i.
Proof.
  unfold seq_writes. rewrite elem_of_lookup_imap. split.
  - intros (i&v&[= -> ->]&Hv). eauto.
  - intros (i&Hv&->). eauto.
Qed.

Lemma seq_writes_fst a vs b : b ∈ (seq_writes a vs).*1 ↔ a ≤ b < a + Z.of_nat (length vs).
Proof.
  rewrite list_elem_of_fmap. split.
  - intros ([b' x]&->&(i&Hi%lookup_lt_Some&->)%elem_seq_writes). cbn. lia.
  - intros Hb. destruct (lookup_lt_is_Some_2 vs (Z.to_nat (b - a))) as [x Hx]; [lia|].
    exists (b, x). split; [done|]. apply elem_seq_writes. exists (Z.to_nat (b - a)). split; [done|lia].
Qed.

Lemma seq_writes_nodup a vs : NoDup (seq_writes a vs).*1.
Proof.
  revert a. induction vs as [|v vs IH]; intros a; [constructor|].
  rewrite seq_writes_cons. cbn. constructor; [|done]. rewrite seq_writes_fst. lia.
Qed.

Ltac dec := repeat first [rewrite decide_True by done|rewrite decide_False by done].

(** ** The header block *)

Lemma length_put_blocks j bs d :
  (4 + 4 * (j + length bs) ≤ length d)%nat → length (put_blocks j bs d) = length d.
Proof.
  revert j d. induction bs as [|b bs IH]; intros j d Hl; [done|]. cbn [put_blocks length] in *.
  assert (length (put_hd_block d j b) = length d) as Hd by (apply length_put32; lia).
  rewrite IH; [done|]. rewrite Hd. lia.
Qed.

Lemma get32_put_blocks j bs d off :
  (4 + 4 * (j + length bs) ≤ length d)%nat → (off + 4 ≤ 4 + 4 * j)%nat →
  get32 (put_blocks j bs d) off = get32 d off.
Proof.
  revert j d. induction bs as [|b bs IH]; intros j d Hl Hoff; [done|]. cbn [put_blocks length] in *.
  assert (length (put_hd_block d j b) = length d) as Hd by (apply length_put32; lia).
  rewrite IH by (rewrite ?Hd; lia). apply get32_put32_other; lia.
Qed.

Lemma hd_block_put_blocks j bs d i b :
  (4 + 4 * (j + length bs) ≤ length d)%nat → bs !! i = Some b → 0 ≤ b < 2 ^ 31 →
  hd_block (put_blocks j bs d) (j + i) = b.
Proof.
  revert j d i. induction bs as [|x bs IH]; intros j d i Hl Hi Hb; [done|]. cbn [put_blocks length] in *.
  assert (length (put_hd_block d j x) = length d) as Hd by (apply length_put32; lia).
  destruct i as [|i]; cbn in Hi.
  - injection Hi as ->. unfold hd_block. rewrite get32_put_blocks by (rewrite ?Hd; lia).
    unfold put_hd_block. rewrite Nat.add_0_r, u32_small, get32_put32_same by lia. apply i32_small; lia.
  - replace (j + S i)%nat with (S j + i)%nat by lia. apply IH; [rewrite Hd; lia|done|done].
Qed.

(** What is read back from a header that was written. *)
Lemma head_data_spec d bs :
  length d = 1024%nat → (length bs ≤ 30)%nat →
  length (head_data d bs) = 1024%nat ∧ hd_n (head_data d bs) = Z.of_nat (length bs) ∧
  ∀ i b, bs !! i = Some b → 0 ≤ b < 2 ^ 31 → hd_block (head_data d bs) i = b.
Proof.
  intros Hd Hbs. assert (length (put_hd_n d (Z.of_nat (length bs))) = 1024%nat) as Hl.
  { unfold put_hd_n. rewrite length_put32; lia. }
  unfold head_data. split_and!.
  - rewrite length_put_blocks; lia.
  - unfold hd_n. rewrite get32_put_blocks by lia. unfold put_hd_n.
    rewrite u32_small, get32_put32_same by lia. apply i32_small. lia.
  - intros i b Hi Hb. apply (hd_block_put_blocks 0); [lia|done|done].
Qed.

(** ** Steps on held buffers *)

Lemma bio_frame_trans s s1 s2 : bio_frame s s1 → bio_frame s1 s2 → bio_frame s s2.
Proof.
  intros (H1&Hs1&Hp1) (H2&Hs2&Hp2). split_and!; [rewrite H2; by rewrite H1|intros i..].
  - by rewrite Hs2.
  - by rewrite Hp2.
Qed.

Lemma bio_frame_log s s' : bio_frame s s' → k_log s' = k_log s.
Proof. by intros [-> _]. Qed.

Section client.
Context (me : nat) {FU : Fuel} {D : Disk} {DO : DiskOk D}.

(** Process [me] holds buffer [i] for block [bno]. *)
Definition holds (s : kernel) (held : gset nat) (i : nat) (bno : Z) : Prop :=
  (∃ ring, bcache me s ring held) ∧ i ∈ held ∧ b_blockno (buf_of i s) = bno.

Lemma holds_data s held i bno : holds s held i bno → b_data (buf_of i s) = view s bno.
Proof. intros ([ring Hbc]&Hi&<-). symmetry. by eapply held_view. Qed.

Lemma read_step s held l bno :
  (∃ ring, bcache me s ring held) → (∀ j, j ∈ held → b_blockno (buf_of j s) ≠ bno) →
  spare s l 1 ∨ refs s bno ≠ 0 → refs s bno < 999999 →
  ∃ i s', bread ROOTDEV bno s = Ret i s' ∧ i ∉ held ∧ holds s' ({[i]} ∪ held) i bno ∧
    effect s s' [] (view s) (λ b, refs s b + if decide (b = bno) then 1 else 0) ∧
    (∀ j, j ≠ i → buf_of j s' = buf_of j s).
Proof.
  intros [ring Hbc] Hnot Hroom Hmax. destruct (bread_ok me s ring held bno Hbc Hnot) as (i&s'&Hrun&Hpost).
  - destruct Hroom as [(Hl&Hlen)|Hr].
    + right. eapply (room_of_refs me s held l); [by eapply bc_bufs|done|lia].
    + left. unfold refs in Hr. by destruct (find_buf s bno).
  - done.
  - destruct Hpost as (Hbc'&Hnin&Hb&_&Hv&Hr&Hd&Hw&Hf&Hoth&_). exists i, s'. split_and!; try done.
    + split_and!; [by exists ring|set_solver|done].
    + split; [done|by rewrite app_nil_r|done|done|done].
Qed.

Lemma update_step s held i bno g d :
  holds s held i bno → g (buf_of i s) = set_b_data d (buf_of i s) →
  ∃ s', on_buf i g s = Ret tt s' ∧ holds s' held i bno ∧
    effect s s' [] (λ b, if decide (b = bno) then d else view s b) (refs s) ∧
    (∀ j, b_blockno (buf_of j s') = b_blockno (buf_of j s)).
Proof.
  intros ([ring Hbc]&Hi&Hb) Hg.
  destruct (update_ok me s ring held i Hbc Hi g d Hg) as (Hbc'&Hv&Hr&Hf&Hbuf).
  eexists. split; [reflexivity|]. subst bno.
  assert (∀ j, b_blockno (buf_of j (set_k_bufs (alter g i (k_bufs s)) s)) =
    b_blockno (buf_of j s)) as Hsame.
  { intros j. rewrite Hbuf. by destruct (decide (i = j)) as [<-|]. }
  split_and!; [by split_and!; [exists ring|..]| |done]. split; [done|by rewrite app_nil_r|done|done|done].
Qed.

Lemma write_step s held i bno :
  holds s held i bno →
  ∃ s', bwrite i s = Ret tt s' ∧ holds s' held i bno ∧
    effect s s' [(bno, view s bno)] (view s) (refs s) ∧
    (∀ j, b_blockno (buf_of j s') = b_blockno (buf_of j s)).
Proof.
  intros ([ring Hbc]&Hi&Hb).
  destruct (bwrite_ok me s ring held i Hbc Hi) as (s'&Hrun&Hbc'&Hd&Hw&Hv&Hr&Hf&Hbuf).
  pose proof (held_view me s ring held i Hbc Hi) as Hx. rewrite Hb in *.
  exists s'. split_and!; [done|split_and!; [by exists ring|done|by rewrite Hbuf]| |intros j; by rewrite Hbuf].
  rewrite <- Hx in Hd, Hw. by split.
Qed.

Lemma release_step s held i bno :
  holds s held i bno → (refs s bno = 1 → view s bno = disk_block (k_disk s) bno) →
  ∃ s', brelse i s = Ret tt s' ∧ (∃ ring, bcache me s' ring (held ∖ {[i]})) ∧
    effect s s' [] (view s) (λ b, refs s b - if decide (b = bno) then 1 else 0) ∧
    (∀ j, b_blockno (buf_of j s') = b_blockno (buf_of j s)).
Proof.
  intros ([ring Hbc]&Hi&Hb) Hclean.
  destruct (brelse_ok me s ring held i Hbc Hi) as (s'&Hrun&Hbc'&Hd&Hw&Hv&Hr&Hf&Hsame).
  { rewrite <- (held_view me s ring held i Hbc Hi), <- (held_refs me s ring held i Hbc Hi), Hb. done. }
  rewrite Hb in Hr. exists s'. split_and!; [done|by eexists| |intros j; apply Hsame].
  split; [done|by rewrite app_nil_r|done|done|done].
Qed.

Lemma unpin_step s held i bno :
  holds s held i bno → 2 ≤ refs s bno →
  ∃ s', bunpin i s = Ret tt s' ∧ holds s' held i bno ∧
    effect s s' [] (view s) (λ b, refs s b - if decide (b = bno) then 1 else 0) ∧
    (∀ j, b_blockno (buf_of j s') = b_blockno (buf_of j s)).
Proof.
  intros ([ring Hbc]&Hi&Hb) Hr2. pose proof (held_refs me s ring held i Hbc Hi) as Hrf. rewrite Hb in Hrf.
  destruct (bo_held _ _ _ (bc_bufs _ _ _ _ Hbc) i Hi) as (Hlt&_).
  pose proof (bo_ref _ _ _ (bc_bufs _ _ _ _ Hbc) i Hlt).
  destruct (pin_ok me s ring held i Hbc Hi decref (-1)) as (Hrun&Hbc'&Hd&Hw&Hv&Hr&Hf&Hsame);
    try done; [cbn; rewrite u32_small by lia; lia|lia|].
  eexists. split; [exact Hrun|]. split_and!; [|split|intros j; apply Hsame].
  { split_and!; [by eexists|done|by rewrite (proj1 (Hsame i))]. }
  - done.
  - by rewrite app_nil_r.
  - done.
  - intros b. rewrite Hr, Hb. case_decide; lia.
  - done.
Qed.

Lemma effect_refl s : effect s s [] (view s) (refs s).
Proof. split; [done|by rewrite app_nil_r|done|done|]. split_and!; [by destruct s|done|done]. Qed.

Lemma effect_trans s s1 s2 ws ws1 ws2 v1 v2 r1 r2 v r :
  effect s s1 ws1 v1 r1 → effect s1 s2 ws2 v2 r2 →
  ws = ws1 ++ ws2 → (∀ b, v2 b = v b) → (∀ b, r2 b = r b) → effect s s2 ws v r.
Proof.
  intros [] [] -> Hv Hr. split.
  - unfold apply_writes. rewrite foldl_app. unfold apply_writes in *. congruence.
  - rewrite app_assoc. congruence.
  - intros b. by rewrite <- Hv.
  - intros b. by rewrite <- Hr.
  - by eapply bio_frame_trans.
Qed.

(** ** The bodies of the loops *)

(** A block counted only by its holder reads as it is on the disk, if it did
    before it was taken. *)
Lemma clean_before s b x : quiet me s → refs s b + 1 = 1 → x = view s b → x = disk_block (k_disk s) b.
Proof. intros [ring Hbc] Hr ->. eapply refs_zero_clean; [by eapply bc_bufs|lia]. Qed.

Lemma two_reads s l A B :
  quiet me s → A ≠ B → spare s l 1 → spare s l 2 ∨ refs s B ≠ 0 → (∀ b, refs s b < 999990) →
  ∃ i k s1 s2, bread ROOTDEV A s = Ret i s1 ∧ bread ROOTDEV B s1 = Ret k s2 ∧ i ≠ k ∧
    holds s2 {[i; k]} i A ∧ holds s2 {[i; k]} k B ∧
    effect s s2 [] (view s)
      (λ b, refs s b + (if decide (b = A) then 1 else 0) + if decide (b = B) then 1 else 0).
Proof.
  intros Hq HAB Hsp Hsp2 Hmax. pose proof Hsp as (Hl&Hlen).
  destruct (read_step s ∅ l A) as (i&s1&Hr1&_&Hh1&He1&_); [done|set_solver|by left|specialize (Hmax A); lia|].
  rewrite union_empty_r_L in Hh1. pose proof Hh1 as (Hbc1&_&HbA).
  pose proof (ef_refs _ _ _ _ _ He1) as Hrefs.
  destruct (read_step s1 {[i]} (A :: l) B) as (k&s2&Hr2&Hnin&Hh2&He2&Hoth).
  - done.
  - intros j ->%elem_of_singleton. congruence.
  - rewrite Hrefs, decide_False by done.
    destruct Hsp2 as [(_&Hlen2)|HB]; [left|right; lia]. split; [|cbn; lia].
    intros b. rewrite Hrefs. destruct (decide (b = A)) as [->|]; [by left|].
    intros Hb. right. apply Hl. lia.
  - rewrite Hrefs, decide_False by done. specialize (Hmax B). lia.
  - assert (i ≠ k) as Hik by set_solver.
    replace ({[k]} ∪ {[i]} : gset nat) with ({[i; k]} : gset nat) in Hh2 by set_solver.
    exists i, k, s1, s2. split_and!; try done.
    + destruct Hh2 as (Hbc2&_&_). split_and!; [done|set_solver|]. by rewrite Hoth.
    + eapply effect_trans; [done|done|done|apply He1|]. intros b. cbn. by rewrite Hrefs.
Qed.

Lemma two_releases s i k A B :
  i ≠ k → holds s {[i; k]} i A → holds s {[i; k]} k B → A ≠ B →
  (refs s A = 1 → view s A = disk_block (k_disk s) A) →
  (refs s B = 1 → view s B = disk_block (k_disk s) B) →
  ∃ s1 s2, brelse i s = Ret tt s1 ∧ brelse k s1 = Ret tt s2 ∧ quiet me s2 ∧
    effect s s2 [] (view s)
      (λ b, refs s b - (if decide (b = A) then 1 else 0) - if decide (b = B) then 1 else 0).
Proof.
  intros Hik Hi Hk HAB HA HB.
  destruct (release_step s _ i A Hi HA) as (s1&Hr1&Hbc1&He1&Hsame).
  replace ({[i; k]} ∖ {[i]} : gset nat) with ({[k]} : gset nat) in Hbc1 by set_solver.
  destruct (release_step s1 {[k]} k B) as (s2&Hr2&Hbc2&He2&_).
  - split_and!; [done|set_solver|]. rewrite Hsame. apply Hk.
  - rewrite (ef_refs _ _ _ _ _ He1), (ef_view _ _ _ _ _ He1), (ef_disk _ _ _ _ _ He1), decide_False by done.
    intros ?. apply HB. lia.
  - rewrite difference_diag_L in Hbc2. exists s1, s2. split_and!; try done.
    eapply effect_trans; [done|done|done|apply He1|]. intros b. cbn. by rewrite (ef_refs _ _ _ _ _ He1).
Qed.

(** The body of the loop of write_log. *)
Definition write_log_body (A B : Z) : M unit :=
  to ← bread ROOTDEV A;
  from ← bread ROOTDEV B;
  d ← gets (λ s, b_data (buf_of from s));
  set_data to d;;
  bwrite to;;
  brelse from;;
  brelse to.

Lemma write_log_body_ok s l A B :
  quiet me s → A ≠ B → spare s l 1 → spare s l 2 ∨ refs s B ≠ 0 → (∀ b, refs s b < 999990) →
  ∃ s', write_log_body A B s = Ret tt s' ∧ quiet me s' ∧
    effect s s' [(A, view s B)] (λ b, if decide (b = A) then view s B else view s b) (refs s).
Proof.
  intros Hq HAB Hsp Hsp2 Hmax.
  destruct (two_reads s l A B) as (i&k&s1&s2&Hr1&Hr2&Hik&Hi&Hk&He2); try done.
  destruct (update_step s2 _ i A (set_b_data (view s B)) (view s B) Hi eq_refl) as (s3&Hr3&Hi3&He3&Hb3).
  destruct (write_step s3 _ i A Hi3) as (s4&Hr4&Hi4&He4&Hb4).
  pose proof Hi4 as (Hbc4&_&_).
  pose proof (ef_view _ _ _ _ _ He3) as Hv3. pose proof (ef_view _ _ _ _ _ He4) as Hv4.
  pose proof (ef_refs _ _ _ _ _ He3) as Hf3. pose proof (ef_refs _ _ _ _ _ He4) as Hf4.
  pose proof (ef_view _ _ _ _ _ He2) as Hv2. pose proof (ef_refs _ _ _ _ _ He2) as Hf2. cbn in *.
  assert (k_disk s4 = <[A := view s B]> (k_disk s)) as Hd.
  { rewrite (ef_disk _ _ _ _ _ He4), (ef_disk _ _ _ _ _ He3), (ef_disk _ _ _ _ _ He2). cbn.
    by rewrite Hv3, decide_True. }
  destruct (two_releases s4 k i B A) as (s5&s6&Hr5&Hr6&Hq6&He6); try done.
  - replace ({[k; i]} : gset nat) with ({[i; k]} : gset nat) by set_solver.
    destruct Hk as (_&?&Hkb). split_and!; [done..|]. by rewrite Hb4, Hb3.
  - by replace ({[k; i]} : gset nat) with ({[i; k]} : gset nat) by set_solver.
  - rewrite Hf4, Hf3, Hf2, Hv4, Hv3, Hv2, Hd. dec. intros Hr.
    unfold disk_block. rewrite lookup_insert_ne by done. apply clean_before; [done|lia|done].
  - intros _. rewrite Hv4, Hv3, Hd, decide_True by done. unfold disk_block. by rewrite lookup_insert_eq.
  - exists s6. split_and!; [|done|].
    + unfold write_log_body. rewrite (bind_Ret _ _ _ _ _ Hr1), (bind_Ret _ _ _ _ _ Hr2), bind_gets.
      rewrite (holds_data s2 _ k B Hk), Hv2.
      rewrite (bind_Ret _ _ _ _ _ Hr3), (bind_Ret _ _ _ _ _ Hr4), (bind_Ret _ _ _ _ _ Hr5). done.
    + destruct He6 as [Hd6 Hw6 Hv6 Hf6 Hfr6]. cbn in *. split.
      * rewrite Hd6, Hd. done.
      * rewrite Hw6, (ef_writes _ _ _ _ _ He4), (ef_writes _ _ _ _ _ He3), (ef_writes _ _ _ _ _ He2).
        rewrite !app_nil_r. by rewrite Hv3, decide_True.
      * intros b. rewrite Hv6, Hv4, Hv3, Hv2. done.
      * intros b. rewrite Hf6, Hf4, Hf3, Hf2. lia.
      * repeat (eapply bio_frame_trans; [by eapply ef_frame|]). done.
Qed.

(** The body of the loop of install_trans. *)
Definition install_body (recovering : bool) (A B : Z) : M unit :=
  lbuf ← bread ROOTDEV A;
  dbuf ← bread ROOTDEV B;
  d ← gets (λ s, b_data (buf_of lbuf s));
  set_data dbuf d;;
  bwrite dbuf;;
  when (negb recovering) (bunpin dbuf);;
  brelse lbuf;;
  brelse dbuf.

(** The references [install_trans] gives up. *)
Definition unpinned (recovering : bool) (B : Z) (r : Z → Z) (b : Z) : Z :=
  r b - if decide (recovering = false ∧ b = B) then 1 else 0.

Lemma when_unpin_step recovering s held k B :
  holds s held k B → (recovering = false → 2 ≤ refs s B) →
  ∃ s', when (negb recovering) (bunpin k) s = Ret tt s' ∧ holds s' held k B ∧
    effect s s' [] (view s) (unpinned recovering B (refs s)) ∧
    (∀ j, b_blockno (buf_of j s') = b_blockno (buf_of j s)).
Proof.
  intros Hk H2. unfold unpinned. destruct recovering; cbn [negb when].
  - exists s. split_and!; [done..| |done]. eapply effect_trans; [apply effect_refl|apply effect_refl|done|done|].
    intros b. rewrite decide_False by (by intros [? _]). lia.
  - destruct (unpin_step s held k B Hk (H2 eq_refl)) as (s'&Hr&Hh&He&Hb). exists s'. split_and!; try done.
    eapply effect_trans; [apply effect_refl|exact He|done|done|]. intros b. cbn.
    destruct (decide (b = B)); [rewrite decide_True by done|rewrite decide_False by (by intros [_ ?])]; done.
Qed.

Lemma install_body_ok recovering s l A B :
  quiet me s → A ≠ B → spare s l 1 → spare s l 2 ∨ refs s B ≠ 0 → (∀ b, refs s b < 999990) →
  (recovering = false → 1 ≤ refs s B) →
  ∃ s', install_body recovering A B s = Ret tt s' ∧ quiet me s' ∧
    effect s s' [(B, view s A)] (λ b, if decide (b = B) then view s A else view s b)
      (unpinned recovering B (refs s)).
Proof.
  intros Hq HAB Hsp Hsp2 Hmax Hpin.
  destruct (two_reads s l A B) as (i&k&s1&s2&Hr1&Hr2&Hik&Hi&Hk&He2); try done.
  destruct (update_step s2 _ k B (set_b_data (view s A)) (view s A) Hk eq_refl) as (s3&Hr3&Hk3&He3&Hb3).
  destruct (write_step s3 _ k B Hk3) as (s4&Hr4&Hk4&He4&Hb4).
  pose proof (ef_view _ _ _ _ _ He3) as Hv3. pose proof (ef_view _ _ _ _ _ He4) as Hv4.
  pose proof (ef_refs _ _ _ _ _ He3) as Hf3. pose proof (ef_refs _ _ _ _ _ He4) as Hf4.
  pose proof (ef_view _ _ _ _ _ He2) as Hv2. pose proof (ef_refs _ _ _ _ _ He2) as Hf2. cbn in *.
  destruct (when_unpin_step recovering s4 _ k B Hk4) as (s5&Hr5&Hk5&He5&Hb5).
  { intros Hrec. rewrite Hf4, Hf3, Hf2. dec. specialize (Hpin Hrec). lia. }
  pose proof (ef_view _ _ _ _ _ He5) as Hv5. pose proof (ef_refs _ _ _ _ _ He5) as Hf5.
  assert (k_disk s5 = <[B := view s A]> (k_disk s)) as Hd.
  { rewrite (ef_disk _ _ _ _ _ He5), (ef_disk _ _ _ _ _ He4), (ef_disk _ _ _ _ _ He3), (ef_disk _ _ _ _ _ He2).
    cbn. by rewrite Hv3, decide_True. }
  destruct (two_releases s5 i k A B) as (s6&s7&Hr6&Hr7&Hq7&He7); try done.
  - destruct Hk5 as (Hbc&_&_), Hi as (_&?&Hib). split_and!; [done..|]. by rewrite Hb5, Hb4, Hb3.
  - rewrite Hf5, Hv5, Hv4, Hv3, Hv2, Hd. unfold unpinned. rewrite Hf4, Hf3, Hf2.
    rewrite (decide_False (P := recovering = false ∧ A = B)) by tauto. dec. intros Hr.
    unfold disk_block. rewrite lookup_insert_ne by done. apply clean_before; [done|lia|done].
  - intros _. rewrite Hv5, Hv4, Hv3, Hd, decide_True by done. unfold disk_block. by rewrite lookup_insert_eq.
  - exists s7. split_and!; [|done|].
    + unfold install_body. rewrite (bind_Ret _ _ _ _ _ Hr1), (bind_Ret _ _ _ _ _ Hr2), bind_gets.
      rewrite (holds_data s2 _ i A Hi), Hv2.
      rewrite (bind_Ret _ _ _ _ _ Hr3), (bind_Ret _ _ _ _ _ Hr4), (bind_Ret _ _ _ _ _ Hr5), (bind_Ret _ _ _ _ _ Hr6). done.
    + destruct He7 as [Hd7 Hw7 Hv7 Hf7 Hfr7]. cbn in *. split.
      * by rewrite Hd7, Hd.
      * rewrite Hw7, (ef_writes _ _ _ _ _ He5), (ef_writes _ _ _ _ _ He4), (ef_writes _ _ _ _ _ He3), (ef_writes _ _ _ _ _ He2).
        rewrite !app_nil_r. by rewrite Hv3, decide_True.
      * intros b. by rewrite Hv7, Hv5, Hv4, Hv3, Hv2.
      * intros b. rewrite Hf7, Hf5. unfold unpinned. rewrite Hf4, Hf3, Hf2. lia.
      * repeat (eapply bio_frame_trans; [by eapply ef_frame|]). done.
Qed.

(** ** The loops *)

Section loops.
Context (lg : log) (start : Z) (bs : list Z) (l : list Z).
Hypothesis Hlg : log_rep lg start bs.

(** Entry [j] of the log, as the loops compute its two addresses. *)
Lemma log_addrs j b :
  bs !! j = Some b →
  u32 (l_dev lg) = ROOTDEV ∧ u32 (l_start lg + Z.of_nat j + 1) = start + 1 + Z.of_nat j ∧
  u32 (default 0 (lh_block lg !! j)) = b ∧ start + 1 + Z.of_nat j ≠ b.
Proof.
  intros Hb. pose proof (lookup_lt_Some _ _ _ Hb) as Hj. destruct Hlg as [Hdev Hst Hsr _ Hmax Hblk Hhome _].
  destruct (Hhome b) as [Hr Hout]; [by eapply list_elem_of_lookup_2|].
  rewrite Hdev, Hst, (Hblk _ _ Hb). cbn [default from_option id]. split_and!; [done|..].
  - rewrite u32_small by lia. lia.
  - apply u32_small. lia.
  - lia.
Qed.

(** The bodies as log.c has them. *)
Definition write_log_at (tail : nat) : M unit :=
  lg ← gets k_log;
  to ← bread (u32 (l_dev lg)) (u32 (l_start lg + Z.of_nat tail + 1));
  from ← bread (u32 (l_dev lg)) (u32 (default 0 (lh_block lg !! tail)));
  d ← gets (λ s, b_data (buf_of from s));
  set_data to d;;
  bwrite to;;
  brelse from;;
  brelse to.

Definition install_at (recovering : bool) (tail : nat) : M unit :=
  lg ← gets k_log;
  lbuf ← bread (u32 (l_dev lg)) (u32 (l_start lg + Z.of_nat tail + 1));
  dbuf ← bread (u32 (l_dev lg)) (u32 (default 0 (lh_block lg !! tail)));
  d ← gets (λ s, b_data (buf_of lbuf s));
  set_data dbuf d;;
  bwrite dbuf;;
  when (negb recovering) (bunpin dbuf);;
  brelse lbuf;;
  brelse dbuf.

Lemma write_log_at_eq j b s :
  bs !! j = Some b → k_log s = lg →
  write_log_at j s = write_log_body (start + 1 + Z.of_nat j) b s.
Proof.
  intros (H1&H2&H3&_)%log_addrs Hk. unfold write_log_at. rewrite bind_gets, Hk, H1, H2, H3. done.
Qed.

Lemma install_at_eq recovering j b s :
  bs !! j = Some b → k_log s = lg →
  install_at recovering j s = install_body recovering (start + 1 + Z.of_nat j) b s.
Proof.
  intros (H1&H2&H3&_)%log_addrs Hk. unfold install_at. rewrite bind_gets, Hk, H1, H2, H3. done.
Qed.

(** The home blocks are not among the log blocks. *)
Lemma home_not_log b i : b ∈ bs → (i < 30)%nat → b ≠ start + 1 + Z.of_nat i.
Proof. intros Hb Hi. destruct (lr_home _ _ _ Hlg b Hb). lia. Qed.

(** What an iteration needs of entry [length bs1] of the log. *)
Lemma log_entry bs1 b bs2 :
  bs = bs1 ++ b :: bs2 → bs !! length bs1 = Some b ∧ b ∈ bs ∧ (length bs1 < 30)%nat ∧
  start + 1 + Z.of_nat (length bs1) ≠ b ∧ (∀ x, x ∈ bs2 → x ∈ bs) ∧
  (∀ x, x ∈ bs2 → x ≠ start + 1 + Z.of_nat (length bs1)) ∧ b ∉ bs2.
Proof.
  intros Heq. pose proof (lr_max _ _ _ Hlg) as Hmax. pose proof (lr_nodup _ _ _ Hlg) as Hnd.
  assert (bs !! length bs1 = Some b) as Hb by (rewrite Heq; by apply list_lookup_middle).
  assert (∀ x, x ∈ bs2 → x ∈ bs) as Hsub by (intros x Hx; rewrite Heq, elem_of_app, elem_of_cons; tauto).
  assert (length bs1 < 30)%nat as Hlt by (apply lookup_lt_Some in Hb; lia).
  split_and!; [done|by eapply list_elem_of_lookup_2|done|by apply log_addrs|done| |].
  - intros x Hx. apply home_not_log; auto.
  - rewrite Heq in Hnd. apply NoDup_app in Hnd as (_&_&[? _]%NoDup_cons). done.
Qed.

Lemma write_log_loop bs1 bs2 s :
  bs = bs1 ++ bs2 → k_log s = lg → quiet me s → spare s l 1 → (∀ b, refs s b < 999990) →
  (∀ b, b ∈ bs → refs s b ≠ 0) →
  let ws := seq_writes (start + 1 + Z.of_nat (length bs1)) (view s <$> bs2) in
  ∃ s', for_each (seq (length bs1) (length bs2)) write_log_at s = Ret tt s' ∧ quiet me s' ∧
    effect s s' ws (overlay ws (view s)) (refs s).
Proof.
  revert bs1 s. induction bs2 as [|b bs2 IH]; intros bs1 s Heq Hk Hq Hsp Hmax Hpin ws; cbn [length seq for_each].
  { exists s. split_and!; [done..|]. apply effect_refl. }
  destruct (log_entry bs1 b bs2 Heq) as (Hb&Hin&Hlt&Hne&Hsub&Hhome&_).
  destruct (write_log_body_ok s l (start + 1 + Z.of_nat (length bs1)) b) as (s1&Hr1&Hq1&He1); [done..|right; auto|done|].
  rewrite (bind_Ret _ _ _ tt s1) by (by rewrite (write_log_at_eq _ b)).
  pose proof (ef_refs _ _ _ _ _ He1) as Hf1.
  destruct (IH (bs1 ++ [b]) s1) as (s2&Hr2&Hq2&He2).
  - by rewrite <- app_assoc.
  - by rewrite (bio_frame_log s s1) by (by eapply ef_frame).
  - done.
  - destruct Hsp as [Hl ?]. split; [|done]. intros x. rewrite Hf1. apply Hl.
  - intros x. by rewrite Hf1.
  - intros x Hx. rewrite Hf1. auto.
  - rewrite length_app in *. cbn [length] in *. rewrite Nat.add_1_r in *. exists s2. split_and!; [done..|].
    assert (view s1 <$> bs2 = view s <$> bs2) as Hview.
    { apply list_fmap_ext. intros i x Hx%list_elem_of_lookup_2. rewrite (ef_view _ _ _ _ _ He1).
      by rewrite decide_False by auto. }
    rewrite Hview in He2. unfold ws. rewrite fmap_cons, seq_writes_cons.
    replace (start + 1 + Z.of_nat (length bs1) + 1) with (start + 1 + Z.of_nat (S (length bs1))) by lia.
    eapply effect_trans; [exact He1|exact He2|done| |done]. intros x. cbn. apply overlay_ext.
    by rewrite (ef_view _ _ _ _ _ He1).
Qed.

(** The references [install_trans] has given up after installing [bs2]. *)
Definition all_unpinned (recovering : bool) (bs2 : list Z) (r : Z → Z) (b : Z) : Z :=
  r b - if decide (recovering = false ∧ b ∈ bs2) then 1 else 0.

Lemma install_loop (recovering : bool) bs1 bs2 vs s :
  bs = bs1 ++ bs2 → k_log s = lg → quiet me s → spare s l 1 → (∀ b, refs s b < 999990) →
  (if recovering then spare s l 2 else ∀ b, b ∈ bs2 → 1 ≤ refs s b) →
  length vs = length bs2 →
  (∀ i v, vs !! i = Some v → view s (start + 1 + Z.of_nat (length bs1 + i)) = v) →
  ∃ s', for_each (seq (length bs1) (length bs2)) (install_at recovering) s = Ret tt s' ∧ quiet me s' ∧
    effect s s' (zip bs2 vs) (overlay (zip bs2 vs) (view s)) (all_unpinned recovering bs2 (refs s)).
Proof.
  revert bs1 vs s. induction bs2 as [|b bs2 IH]; intros bs1 vs s Heq Hk Hq Hsp Hmax Hpin Hlen Hvs; cbn [length seq for_each].
  { exists s. split_and!; [done..|]. eapply effect_trans; [apply effect_refl|apply effect_refl|done|done|].
    intros b. unfold all_unpinned. rewrite decide_False; [lia|set_solver]. }
  destruct vs as [|v vs]; [done|].
  destruct (log_entry bs1 b bs2 Heq) as (Hb&Hin&Hlt&Hne&Hsub&Hhome&Hnin).
  destruct (install_body_ok recovering s l (start + 1 + Z.of_nat (length bs1)) b) as (s1&Hr1&Hq1&He1); try done.
  { destruct recovering; [by left|right]. enough (1 ≤ refs s b) by lia. apply Hpin. by left. }
  { intros ->. apply Hpin. by left. }
  rewrite (bind_Ret _ _ _ tt s1) by (by rewrite (install_at_eq _ _ b)).
  pose proof (ef_refs _ _ _ _ _ He1) as Hf1. pose proof (ef_view _ _ _ _ _ He1) as Hv1.
  assert (∀ x, refs s1 x ≤ refs s x) as Hle by (intros x; rewrite Hf1; unfold unpinned; case_decide; lia).
  assert (∀ x, 0 ≤ refs s1 x) as Hnn.
  { intros x. destruct Hq1 as [ring1 Hbc1]. eapply refs_nonneg. by eapply bc_bufs. }
  assert (∀ n, spare s l n → spare s1 l n) as Hspare.
  { intros n [Hl Hn]. split; [|done]. intros x Hx. apply Hl. specialize (Hle x). specialize (Hnn x). lia. }
  assert (view s (start + 1 + Z.of_nat (length bs1)) = v) as Hv0.
  { rewrite <- (Hvs 0%nat v eq_refl). f_equal. lia. }
  rewrite Hv0 in *.
  destruct (IH (bs1 ++ [b]) vs s1) as (s2&Hr2&Hq2&He2).
  - by rewrite <- app_assoc.
  - by rewrite (bio_frame_log s s1) by (by eapply ef_frame).
  - done.
  - auto.
  - intros x. specialize (Hmax x). specialize (Hle x). lia.
  - destruct recovering; [by auto|]. intros x Hx. rewrite Hf1. unfold unpinned.
    rewrite decide_False; [|intros [_ ->]; done]. rewrite Z.sub_0_r. apply Hpin. by right.
  - cbn in Hlen. lia.
  - intros i w Hw. rewrite Hv1, length_app. cbn [length]. rewrite decide_False.
    + rewrite <- (Hvs (S i) w Hw). f_equal. lia.
    + apply lookup_lt_Some in Hw. intros Hx. symmetry in Hx. revert Hx.
      replace (Z.of_nat (length bs1 + 1 + i)) with (Z.of_nat (length bs1 + 1 + i)%nat) by done.
      apply home_not_log; [done|]. pose proof (lr_max _ _ _ Hlg) as Hm. rewrite Heq, length_app in Hm.
      cbn in Hm, Hlen. lia.
  - rewrite length_app in *. cbn [length] in *. rewrite Nat.add_1_r in *. exists s2. split_and!; [done..|].
    eapply effect_trans; [exact He1|exact He2|done| |].
    + intros x. cbn. apply overlay_ext. by rewrite Hv1.
    + intros x. unfold all_unpinned. rewrite Hf1. unfold unpinned.
      destruct (decide (x = b)) as [->|Hxb].
      * rewrite (decide_False (P := _ ∧ b ∈ bs2)) by tauto.
        destruct recovering; [rewrite !decide_False by (by intros [? _]); lia|].
        rewrite !decide_True; [lia|set_solver|done].
      * rewrite (decide_False (P := _ ∧ x = b)) by tauto.
        rewrite (decide_ext (recovering = false ∧ x ∈ b :: bs2) (recovering = false ∧ x ∈ bs2))
          by (rewrite elem_of_cons; tauto). lia.
Qed.

(** ** The header *)

Lemma head_loop bs1 bs2 s held k :
  bs = bs1 ++ bs2 → holds s held k start →
  ∃ s', for_each (seq (length bs1) (length bs2)) (λ i, on_buf k (λ x, set_b_data
      (put_hd_block (b_data x) i (default 0 (lh_block lg !! i))) x)) s = Ret tt s' ∧
    holds s' held k start ∧
    effect s s' [] (λ b, if decide (b = start) then put_blocks (length bs1) bs2 (view s start) else view s b) (refs s).
Proof.
  revert bs1 s. induction bs2 as [|b bs2 IH]; intros bs1 s Heq Hk; cbn [length seq for_each put_blocks].
  { exists s. split_and!; [done..|]. eapply effect_trans; [apply effect_refl|apply effect_refl|done| |done].
    intros b. by destruct (decide (b = start)) as [->|]. }
  destruct (log_entry bs1 b bs2 Heq) as (Hb&_).
  rewrite (lr_block _ _ _ Hlg _ _ Hb). cbn [default from_option id].
  destruct (update_step s held k start (λ x, set_b_data (put_hd_block (b_data x) (length bs1) b) x)
    (put_hd_block (view s start) (length bs1) b) Hk) as (s1&Hr1&Hk1&He1&_).
  { cbn. by rewrite (holds_data s held k start Hk). }
  rewrite (bind_Ret _ _ _ _ _ Hr1).
  destruct (IH (bs1 ++ [b]) s1) as (s2&Hr2&Hk2&He2); [by rewrite <- app_assoc|done|].
  rewrite length_app in *. cbn [length] in *. rewrite Nat.add_1_r in *. exists s2. split_and!; [done..|].
  pose proof (ef_view _ _ _ _ _ He1) as Hv1.
  eapply effect_trans; [exact He1|exact He2|done| |apply He1]. intros x. cbn. rewrite !Hv1.
  destruct (decide (x = start)) as [->|]; [by rewrite decide_True|done].
Qed.

Lemma write_head_ok s :
  k_log s = lg → quiet me s → spare s l 1 → (∀ b, refs s b < 999990) →
  let ws := [(start, head_data (view s start) bs)] in
  ∃ s', write_head s = Ret tt s' ∧ quiet me s' ∧ effect s s' ws (overlay ws (view s)) (refs s).
Proof.
  intros Hk Hq Hsp Hmax ws. pose proof Hlg as [Hdev Hst Hsr Hn Hm _ _ _].
  destruct (read_step s ∅ l start) as (k&s1&Hr1&_&Hk1&He1&_); [done|set_solver|by left|specialize (Hmax start); lia|].
  rewrite union_empty_r_L in Hk1.
  destruct (update_step s1 {[k]} k start (λ x, set_b_data (put_hd_n (b_data x) (Z.of_nat (length bs))) x)
    (put_hd_n (view s start) (Z.of_nat (length bs))) Hk1) as (s2&Hr2&Hk2&He2&_).
  { cbn. rewrite (holds_data s1 {[k]} k start Hk1), (ef_view _ _ _ _ _ He1). done. }
  destruct (head_loop [] bs s2 {[k]} k eq_refl Hk2) as (s3&Hr3&Hk3&He3).
  destruct (write_step s3 {[k]} k start Hk3) as (s4&Hr4&Hk4&He4&_).
  pose proof (ef_view _ _ _ _ _ He1) as Hv1. pose proof (ef_view _ _ _ _ _ He2) as Hv2.
  pose proof (ef_view _ _ _ _ _ He3) as Hv3. pose proof (ef_view _ _ _ _ _ He4) as Hv4. cbn in *.
  assert (view s3 start = head_data (view s start) bs) as Hhd.
  { rewrite Hv3, decide_True, Hv2, decide_True by done. done. }
  rewrite Hhd in *.
  destruct (release_step s4 {[k]} k start Hk4) as (s5&Hr5&Hq5&He5&_).
  { intros _. rewrite (ef_disk _ _ _ _ _ He4), Hv4, Hhd. cbn. unfold disk_block. by rewrite lookup_insert_eq. }
  rewrite difference_diag_L in Hq5. exists s5. split_and!; [|done|].
  - unfold write_head. rewrite bind_gets, Hk, Hdev, Hst, Hn. rewrite (u32_small start) by lia.
    rewrite (bind_Ret _ _ _ _ _ Hr1), (bind_Ret _ _ _ _ _ Hr2), Nat2Z.id.
    rewrite (bind_Ret _ _ _ _ _ Hr3), (bind_Ret _ _ _ _ _ Hr4). done.
  - destruct He5 as [Hd5 Hw5 Hv5 Hf5 Hfr5]. cbn in *. split.
    + rewrite Hd5, (ef_disk _ _ _ _ _ He4), (ef_disk _ _ _ _ _ He3), (ef_disk _ _ _ _ _ He2), (ef_disk _ _ _ _ _ He1). done.
    + rewrite Hw5, (ef_writes _ _ _ _ _ He4), (ef_writes _ _ _ _ _ He3), (ef_writes _ _ _ _ _ He2), (ef_writes _ _ _ _ _ He1).
      by rewrite !app_nil_r.
    + intros b. rewrite Hv5, Hv4. destruct (decide (b = start)) as [->|]; [exact Hhd|].
      by rewrite Hv3, decide_False, Hv2, decide_False.
    + intros b. rewrite Hf5, (ef_refs _ _ _ _ _ He4), (ef_refs _ _ _ _ _ He3), (ef_refs _ _ _ _ _ He2), (ef_refs _ _ _ _ _ He1). lia.
    + repeat (eapply bio_frame_trans; [by eapply ef_frame|]). done.
Qed.

End loops.

(** ** Changing the log in memory *)

Lemma quiet_set_log s x : quiet me s → quiet me (set_k_log x s).
Proof.
  intros [ring [He Hr Hb]]. exists ring. split.
  - apply (env_ext me [] s); [done|by left|done|done].
  - by apply (ring_ok_ext s).
  - apply (bufs_ok_ext me s _ ∅); try done;
      [exact (bo_free _ _ _ Hb)|exact (bo_ref _ _ _ Hb)|exact (bo_clean _ _ _ Hb)].
Qed.

(** An effect that may change the log in memory too. *)
Definition log_effect (s s' : kernel) (ws : list (Z * list Z)) (r : Z → Z) : Prop :=
  effect (set_k_log (k_log s') s) s' ws (overlay ws (view s)) r.

Lemma log_effect_of s s' ws r : effect s s' ws (overlay ws (view s)) r → log_effect s s' ws r.
Proof.
  intros He. unfold log_effect. rewrite (bio_frame_log s s') by apply He.
  by replace (set_k_log (k_log s) s) with s by (by destruct s).
Qed.

Lemma log_effect_set s x : log_effect s (set_k_log x s) [] (refs s).
Proof. apply (effect_refl (set_k_log x s)). Qed.

Lemma log_effect_trans s s1 s2 ws ws1 ws2 r1 r2 r :
  log_effect s s1 ws1 r1 → log_effect s1 s2 ws2 r2 → ws = ws1 ++ ws2 → (∀ b, r2 b = r b) →
  log_effect s s2 ws r.
Proof.
  intros [Hd1 Hw1 Hv1 _ Hf1] [Hd2 Hw2 Hv2 Hr2 Hf2] -> Hr. split; cbn in *.
  - rewrite Hd2, Hd1. unfold apply_writes. by rewrite foldl_app.
  - rewrite Hw2, Hw1. by rewrite app_assoc.
  - intros b. rewrite Hv2, overlay_app. apply overlay_ext. apply Hv1.
  - intros b. by rewrite Hr2.
  - destruct Hf1 as (Hf1&Hs1&Hp1), Hf2 as (Hf2&Hs2&Hp2). split_and!; [rewrite Hf2; by rewrite Hf1|intros i..].
    + etransitivity; [apply Hs2|apply Hs1].
    + etransitivity; [apply Hp2|apply Hp1].
Qed.

Lemma spare_le s s' l k : quiet me s' → (∀ b, refs s' b ≤ refs s b) → spare s l k → spare s' l k.
Proof.
  intros [ring Hbc] Hle [Hl Hn]. split; [|done]. intros b Hb. apply Hl.
  specialize (Hle b). pose proof (refs_nonneg me s' ∅ b (bc_bufs _ _ _ _ Hbc)). lia.
Qed.

(** ** Commit *)

(** The block writes of a commit of the blocks [bs] with contents [vs]: the log
    blocks, the header, the home blocks, the empty header. *)
Definition commit_writes (start : Z) (h : list Z) (bs : list Z) (vs : list (list Z)) :
    list (Z * list Z) :=
  seq_writes (start + 1) vs ++ (start, head_data h bs) :: zip bs vs ++
    [(start, head_data (head_data h bs) [])].

Lemma log_rep_empty lg start bs : log_rep lg start bs → log_rep (set_lh_n 0 lg) start [].
Proof. intros []. split; try done; [cbn; lia|..]; [by intros b Hb%elem_of_nil|constructor]. Qed.

Lemma log_view_index start vs v i x :
  vs !! i = Some x → overlay (seq_writes (start + 1) vs) v (start + 1 + Z.of_nat i) = x.
Proof.
  intros Hx. apply overlay_in; [apply seq_writes_nodup|]. apply elem_seq_writes. eauto.
Qed.

Lemma commit_ok s start bs l :
  log_rep (k_log s) start bs → bs ≠ [] → quiet me s → spare s l 1 → (∀ b, refs s b < 999990) →
  (∀ b, b ∈ bs → 1 ≤ refs s b) →
  ∃ s', commit s = Ret tt s' ∧ quiet me s' ∧ k_log s' = set_lh_n 0 (k_log s) ∧
    log_effect s s' (commit_writes start (view s start) bs (view s <$> bs))
      (all_unpinned false bs (refs s)).
Proof.
  intros Hlg Hne Hq Hsp Hmax Hpin. set (lg := k_log s). set (vs := view s <$> bs).
  pose proof Hlg as [Hdev Hst Hsr Hn Hm _ Hhome _].
  assert (Z.to_nat (lh_n lg) = length bs) as Hnn by (unfold lg; lia).
  destruct (write_log_loop lg start bs l Hlg [] bs s eq_refl eq_refl Hq Hsp Hmax) as (s1&Hr1&Hq1&He1).
  { intros b Hb. specialize (Hpin b Hb). lia. }
  cbn [length] in Hr1, He1. rewrite Z.add_0_r in He1.
  assert (k_log s1 = lg) as Hk1 by (apply (bio_frame_log s s1), He1).
  pose proof (ef_refs _ _ _ _ _ He1) as Hf1. pose proof (ef_view _ _ _ _ _ He1) as Hv1.
  destruct (write_head_ok lg start bs l Hlg s1 Hk1 Hq1) as (s2&Hr2&Hq2&He2).
  { apply (spare_le s); [done| |done]. intros b. by rewrite Hf1. }
  { intros b. by rewrite Hf1. }
  assert (view s1 start = view s start) as Hst1.
  { rewrite Hv1. apply overlay_notin. rewrite seq_writes_fst. lia. }
  rewrite Hst1 in He2.
  assert (k_log s2 = lg) as Hk2 by (rewrite <- Hk1; apply (bio_frame_log s1 s2), He2).
  pose proof (ef_refs _ _ _ _ _ He2) as Hf2. pose proof (ef_view _ _ _ _ _ He2) as Hv2.
  destruct (install_loop lg start bs l Hlg false [] bs vs s2 eq_refl Hk2 Hq2) as (s3&Hr3&Hq3&He3).
  { apply (spare_le s); [done| |done]. intros b. by rewrite Hf2, Hf1. }
  { intros b. by rewrite Hf2, Hf1. }
  { intros b Hb. rewrite Hf2, Hf1. auto. }
  { by unfold vs; rewrite length_fmap. }
  { intros i x Hx. cbn [length Nat.add]. rewrite Hv2. cbn. rewrite decide_False by lia.
    rewrite Hv1. by apply log_view_index. }
  assert (k_log s3 = lg) as Hk3 by (rewrite <- Hk2; apply (bio_frame_log s2 s3), He3).
  pose proof (ef_refs _ _ _ _ _ He3) as Hf3. pose proof (ef_view _ _ _ _ _ He3) as Hv3.
  set (s4 := set_k_log (set_lh_n 0 lg) s3).
  destruct (write_head_ok (set_lh_n 0 lg) start [] l (log_rep_empty _ _ _ Hlg) s4 eq_refl
    (quiet_set_log s3 _ Hq3)) as (s5&Hr5&Hq5&He5).
  { apply (spare_le s); [by apply quiet_set_log| |done]. intros b.
    change (refs s4 b) with (refs s3 b). rewrite Hf3. unfold all_unpinned. rewrite Hf2, Hf1. case_decide; lia. }
  { intros b. change (refs s4 b) with (refs s3 b). rewrite Hf3. unfold all_unpinned. rewrite Hf2, Hf1.
    specialize (Hmax b). case_decide; lia. }
  assert (view s4 start = head_data (view s start) bs) as Hst4.
  { change (view s4 start) with (view s3 start). rewrite Hv3, overlay_notin, Hv2; [cbn; by rewrite decide_True|].
    intros ([b x]&->&Hb%elem_of_zip_l)%list_elem_of_fmap. cbn in *. destruct (Hhome b Hb). lia. }
  rewrite Hst4 in He5. exists s5. split_and!; [|done| |].
  - unfold commit. rewrite bind_gets. replace (0 <? lh_n (k_log s)) with true.
    2: { symmetry. apply Z.ltb_lt. rewrite Hn. destruct bs; [done|cbn; lia]. }
    cbn [when]. change write_log with (n ← gets (λ s, lh_n (k_log s)); for_each (seq 0 (Z.to_nat n)) write_log_at).
    rewrite (bind_Ret _ _ _ tt s1) by (rewrite bind_gets; fold lg; rewrite Hnn; exact Hr1).
    rewrite (bind_Ret _ _ _ _ _ Hr2).
    change (install_trans false) with (n ← gets (λ s, lh_n (k_log s)); for_each (seq 0 (Z.to_nat n)) (install_at false)).
    rewrite (bind_Ret _ _ _ tt s3) by (rewrite bind_gets, Hk2, Hnn; exact Hr3).
    unfold on_log. rewrite bind_modify, Hk3. exact Hr5.
  - rewrite (bio_frame_log s4 s5); [done|apply He5].
  - unfold commit_writes.
    eapply log_effect_trans; [apply log_effect_of, He1| |reflexivity|].
    eapply log_effect_trans; [apply log_effect_of, He2| |reflexivity|].
    eapply log_effect_trans; [apply log_effect_of, He3| |reflexivity|].
    eapply log_effect_trans; [apply (log_effect_set s3 (set_lh_n 0 lg))|apply log_effect_of, He5|reflexivity|].
    + intros b. reflexivity.
    + intros b. reflexivity.
    + intros b. reflexivity.
    + intros b. cbn. change (refs s4 b) with (refs s3 b). rewrite Hf3. unfold all_unpinned. by rewrite Hf2, Hf1.
Qed.

(** ** Recovery *)

(** A kernel that has just booted: nothing is cached for anybody, and the log's
    place is known from the superblock. *)
Record fresh (t : kernel) (start : Z) : Prop := {
  fr_quiet : quiet me t;
  fr_refs b : refs t b = 0;
  fr_dev : l_dev (k_log t) = ROOTDEV;
  fr_start : l_start (k_log t) = start;
  fr_len : length (lh_block (k_log t)) = 30%nat;
}.

Lemma fresh_view t start b : fresh t start → view t b = disk_block (k_disk t) b.
Proof. intros [[ring Hbc] Hr _ _ _]. eapply refs_zero_clean; [by eapply bc_bufs|done]. Qed.

(** [lh.block] after the loop of read_head. *)
Fixpoint fill (d : list Z) (j n : nat) (blk : list Z) : list Z :=
  match n with
  | O => blk
  | S n' => fill d (S j) n' (<[j := hd_block d j]> blk)
  end.

Lemma length_fill d j n blk : length (fill d j n blk) = length blk.
Proof. revert j blk. induction n as [|n IH]; intros j blk; cbn; [done|]. by rewrite IH, length_insert. Qed.

Lemma lookup_fill d j n blk i :
  (i < length blk)%nat →
  fill d j n blk !! i = if decide (j ≤ i < j + n)%nat then Some (hd_block d i) else blk !! i.
Proof.
  revert j blk. induction n as [|n IH]; intros j blk Hi; cbn [fill].
  { by rewrite decide_False by lia. }
  rewrite IH by (by rewrite length_insert). destruct (decide (i = j)) as [->|Hne].
  - rewrite decide_False by lia. rewrite decide_True by lia. by apply list_lookup_insert_eq.
  - rewrite list_lookup_insert_ne by done.
    by rewrite (decide_ext (S j ≤ i < S j + n)%nat (j ≤ i < j + S n)%nat) by lia.
Qed.

Lemma bind_on_log {B : Type} f (k : unit → M B) s :
  (on_log f ≫= k) s = k tt (set_k_log (f (k_log s)) s).
Proof. done. Qed.

Lemma read_head_loop d j n s :
  for_each (seq j n) (λ i, on_log (λ lg, set_lh_block (<[i := hd_block d i]> (lh_block lg)) lg)) s =
    Ret tt (set_k_log (set_lh_block (fill d j n (lh_block (k_log s))) (k_log s)) s).
Proof.
  revert j s. induction n as [|n IH]; intros j s; cbn [seq for_each fill].
  { unfold mret, M_ret. f_equal. destruct s as [], k_log. done. }
  rewrite bind_on_log, IH. done.
Qed.

Lemma holds_set_log s held i b x : holds s held i b → holds (set_k_log x s) held i b.
Proof.
  intros ([ring [He Hr Hb]]&Hi&Hbn). split_and!; [|done|done]. exists ring. split.
  - apply (env_ext me [] s); [done|by left|done|done].
  - by apply (ring_ok_ext s).
  - apply (bufs_ok_ext me s _ held); try done;
      [exact (bo_free _ _ _ Hb)| |exact (bo_ref _ _ _ Hb)|exact (bo_clean _ _ _ Hb)].
    intros j Hj. split_and!; [done..|]. by destruct (bo_held _ _ _ Hb j Hj) as (_&_&_&_&_&?).
Qed.

(** What [read_head] finds: a header with the addresses [bs]. *)
Record head_rep (d : list Z) (start : Z) (bs : list Z) : Prop := {
  hr_n : hd_n d = Z.of_nat (length bs);
  hr_max : (length bs ≤ 30)%nat;
  hr_block i b : bs !! i = Some b → hd_block d i = b;
  hr_home b : b ∈ bs → 0 ≤ b < 2 ^ 31 ∧ (b < start ∨ start + 30 < b);
  hr_nodup : NoDup bs;
}.

Lemma read_head_ok t start bs :
  fresh t start → 0 ≤ start < 2 ^ 30 → head_rep (view t start) start bs →
  ∃ s', read_head t = Ret tt s' ∧ quiet me s' ∧ log_rep (k_log s') start bs ∧ log_effect t s' [] (refs t).
Proof.
  intros [Hq Hr0 Hdev Hst Hlen] Hrange [Hn Hm Hblk Hhome Hnd].
  destruct (read_step t ∅ [] start) as (k&s1&Hr1&_&Hk1&He1&_);
    [done|set_solver|left; split; [by intros b []|cbn; unfold NBUF; lia]|rewrite Hr0; lia|].
  rewrite union_empty_r_L in Hk1.
  set (lg := set_lh_block (fill (view t start) 0 (length bs) (lh_block (k_log t)))
    (set_lh_n (Z.of_nat (length bs)) (k_log t))).
  set (s2 := set_k_log lg s1).
  destruct (release_step s2 {[k]} k start (holds_set_log _ _ _ _ lg Hk1)) as (s3&Hr3&Hq3&He3&_).
  { change (view s2 start) with (view s1 start). change (k_disk s2) with (k_disk s1).
    rewrite (ef_view _ _ _ _ _ He1), (ef_disk _ _ _ _ _ He1). intros _.
    destruct Hq as [ring Hbc]. eapply refs_zero_clean; [by eapply bc_bufs|done]. }
  rewrite difference_diag_L in Hq3.
  assert (k_log s3 = lg) as Hk3 by (rewrite (bio_frame_log s2 s3); [done|apply He3]).
  exists s3. split_and!; [|done| |].
  - unfold read_head. rewrite bind_gets, Hdev, Hst, (u32_small start) by lia.
    change (u32 ROOTDEV) with ROOTDEV. rewrite (bind_Ret _ _ _ _ _ Hr1), bind_gets.
    rewrite (holds_data s1 {[k]} k start Hk1), (ef_view _ _ _ _ _ He1), Hn, Nat2Z.id.
    rewrite bind_on_log, (bind_Ret _ _ _ _ _ (read_head_loop _ _ _ _)).
    rewrite (bio_frame_log t s1) by apply He1. exact Hr3.
  - rewrite Hk3. unfold lg. split; try done.
    intros i b Hi. cbn. rewrite lookup_fill.
    + rewrite decide_True; [by rewrite (Hblk i b)|]. apply lookup_lt_Some in Hi. lia.
    + apply lookup_lt_Some in Hi. lia.
  - eapply (log_effect_trans t s1 s3 [] [] []); [exact (log_effect_of _ _ [] _ He1)| |done|done].
    eapply (log_effect_trans s1 s2 s3 [] [] []);
      [apply log_effect_set|exact (log_effect_of _ _ [] _ He3)|done|].
    intros b. cbn beta. change (refs s2 b) with (refs s1 b). rewrite (ef_refs _ _ _ _ _ He1). lia.
Qed.

(** The block writes of a recovery that installs [bs] with contents [vs]. *)
Definition recovery_writes (start : Z) (h : list Z) (bs : list Z) (vs : list (list Z)) :
    list (Z * list Z) :=
  zip bs vs ++ [(start, head_data h [])].

Lemma recover_ok t start bs vs :
  fresh t start → 0 ≤ start < 2 ^ 30 → head_rep (view t start) start bs → length vs = length bs →
  (∀ i v, vs !! i = Some v → view t (start + 1 + Z.of_nat i) = v) →
  ∃ s', recover_from_log t = Ret tt s' ∧ quiet me s' ∧ log_rep (k_log s') start [] ∧
    log_effect t s' (recovery_writes start (view t start) bs vs) (refs t).
Proof.
  intros Hfr Hrange Hhd Hlen Hvs. destruct (read_head_ok t start bs Hfr Hrange Hhd) as (s1&Hr1&Hq1&Hlg1&He1).
  pose proof (ef_refs _ _ _ _ _ He1) as Hf1. pose proof (ef_view _ _ _ _ _ He1) as Hv1. cbn in Hv1.
  pose proof Hlg1 as [Hdev Hst Hsr Hn Hm _ Hhome _].
  assert (∀ k, (k ≤ NBUF)%nat → spare s1 [] k) as Hsp1.
  { intros k Hk. split; [|cbn; lia]. intros b. by rewrite Hf1, (fr_refs _ _ Hfr). }
  destruct (install_loop (k_log s1) start bs [] Hlg1 true [] bs vs s1 eq_refl eq_refl Hq1)
    as (s2&Hr2&Hq2&He2); try done; [by apply Hsp1; unfold NBUF; lia| |by apply Hsp1; unfold NBUF; lia| |].
  { intros b. rewrite Hf1, (fr_refs _ _ Hfr). lia. }
  { intros i v Hi. rewrite Hv1. by apply Hvs. }
  assert (k_log s2 = k_log s1) as Hk2 by (apply (bio_frame_log s1 s2), He2).
  pose proof (ef_refs _ _ _ _ _ He2) as Hf2. pose proof (ef_view _ _ _ _ _ He2) as Hv2.
  assert (∀ b, refs s2 b = 0) as Hz2.
  { intros b. rewrite Hf2. unfold all_unpinned. rewrite decide_False by (by intros [? _]).
    rewrite Hf1, (fr_refs _ _ Hfr). done. }
  set (s3 := set_k_log (set_lh_n 0 (k_log s1)) s2).
  destruct (write_head_ok (set_lh_n 0 (k_log s1)) start [] [] (log_rep_empty _ _ _ Hlg1) s3 eq_refl
    (quiet_set_log s2 _ Hq2)) as (s4&Hr4&Hq4&He4).
  { split; [|cbn; unfold NBUF; lia]. intros b. change (refs s3 b) with (refs s2 b). by rewrite Hz2. }
  { intros b. change (refs s3 b) with (refs s2 b). rewrite Hz2. lia. }
  assert (view s3 start = view t start) as Hst3.
  { change (view s3 start) with (view s2 start). rewrite Hv2, overlay_notin; [apply Hv1|].
    intros ([b x]&->&Hb%elem_of_zip_l)%list_elem_of_fmap. cbn in *. destruct (Hhome b Hb). lia. }
  rewrite Hst3 in He4. exists s4. split_and!; [|done| |].
  - unfold recover_from_log. rewrite (bind_Ret _ _ _ _ _ Hr1).
    change (install_trans true) with (n ← gets (λ s, lh_n (k_log s)); for_each (seq 0 (Z.to_nat n)) (install_at true)).
    rewrite (bind_Ret _ _ _ tt s2) by (rewrite bind_gets, Hn, Nat2Z.id; exact Hr2).
    rewrite bind_on_log, Hk2. exact Hr4.
  - rewrite (bio_frame_log s3 s4) by apply He4. by apply (log_rep_empty _ _ bs).
  - unfold recovery_writes.
    eapply (log_effect_trans t s1 s4 _ []); [exact He1| |reflexivity|].
    eapply (log_effect_trans s1 s2 s4); [apply log_effect_of, He2| |reflexivity|].
    eapply (log_effect_trans s2 s3 s4 _ []); [apply log_effect_set|apply log_effect_of, He4|reflexivity|].
    + intros b. reflexivity.
    + intros b. reflexivity.
    + intros b. cbn beta. change (refs s3 b) with (refs s2 b). by rewrite Hz2, (fr_refs _ _ Hfr).
Qed.

(** ** Crashes *)

(** Recovery of a disk [d] gives a disk with contents [f] outside the log, and
    an empty log. *)
Definition recovers (d : gmap Z (list Z)) (start : Z) (f : Z → list Z) : Prop :=
  ∀ t, fresh t start → k_disk t = d →
  ∃ t', recover_from_log t = Ret tt t' ∧ quiet me t' ∧ hd_n (disk_block (k_disk t') start) = 0 ∧
    ∀ b, b < start ∨ start + 30 < b → disk_block (k_disk t') b = f b.

(** The disk holds a log with the blocks [bs] and the contents [g] for them. *)
Record committed (d : gmap Z (list Z)) (start : Z) (bs : list Z) (g : Z → list Z) : Prop := {
  cm_start : 0 ≤ start < 2 ^ 30;
  cm_head : head_rep (disk_block d start) start bs;
  cm_len : length (disk_block d start) = 1024%nat;
  cm_log i b : bs !! i = Some b → disk_block d (start + 1 + Z.of_nat i) = g b;
}.

(** The contents after the blocks [bs] are given the contents [g]. *)
Definition installed (bs : list Z) (g v : Z → list Z) (b : Z) : list Z :=
  if decide (b ∈ bs) then g b else v b.

Lemma overlay_zip bs g v b : overlay (zip bs (g <$> bs)) v b = installed bs g v b.
Proof.
  unfold installed. revert v. induction bs as [|x bs IH]; intros v; [done|].
  change (overlay (zip bs (g <$> bs)) (λ b, if decide (b = x) then g x else v b) b =
    if decide (b ∈ x :: bs) then g b else v b).
  rewrite IH. destruct (decide (b = x)) as [->|Hne].
  - rewrite (decide_True (P := x ∈ x :: bs)) by set_solver. by destruct (decide (x ∈ bs)).
  - by rewrite (decide_ext (b ∈ x :: bs) (b ∈ bs)) by set_solver.
Qed.

Lemma head_rep_empty d start : length d = 1024%nat → head_rep (head_data d []) start [].
Proof.
  intros Hd. destruct (head_data_spec d [] Hd) as (_&Hn&_); [cbn; lia|].
  split; [done|cbn; lia|done|by intros b Hb%elem_of_nil|constructor].
Qed.

Lemma recover_disk t start bs g :
  fresh t start → committed (k_disk t) start bs g →
  ∃ t', recover_from_log t = Ret tt t' ∧ quiet me t' ∧
    k_writes t' = k_writes t ++ recovery_writes start (disk_block (k_disk t) start) bs (g <$> bs) ∧
    hd_n (disk_block (k_disk t') start) = 0 ∧
    ∀ b, b < start ∨ start + 30 < b → disk_block (k_disk t') b = installed bs g (disk_block (k_disk t)) b.
Proof.
  intros Hfr [Hst Hhd Hlen Hlog]. pose proof (fresh_view t start start Hfr) as Hv.
  destruct (recover_ok t start bs (g <$> bs) Hfr Hst) as (t'&Hr&Hq&_&He).
  - by rewrite Hv.
  - by rewrite length_fmap.
  - intros i v (x&->&Hx)%list_lookup_fmap_Some. rewrite (fresh_view t start) by done. by apply Hlog.
  - rewrite Hv in He. exists t'. split_and!; [done..| | |].
    + apply (ef_writes _ _ _ _ _ He).
    + rewrite (ef_disk _ _ _ _ _ He). unfold recovery_writes. rewrite disk_apply, overlay_app. cbn.
      rewrite decide_True by done. apply (hr_n _ _ _ (head_rep_empty _ start Hlen)).
    + intros b Hb. rewrite (ef_disk _ _ _ _ _ He). unfold recovery_writes. rewrite disk_apply, overlay_app. cbn.
      rewrite decide_False by lia. by rewrite overlay_zip.
Qed.

Lemma recovers_committed d start bs g f :
  committed d start bs g →
  (∀ b, b < start ∨ start + 30 < b → installed bs g (disk_block d) b = f b) →
  recovers d start f.
Proof.
  intros Hc Hf t Hfr <-. destruct (recover_disk t start bs g Hfr Hc) as (t'&Hr&Hq&_&Hn&Hb).
  exists t'. split_and!; [done..|]. intros b Hout. rewrite Hb by done. auto.
Qed.

(** A crash while the home blocks are being written: the log is still there. *)
Lemma committed_installing d start bs g m :
  committed d start bs g → committed (apply_writes (take m (zip bs (g <$> bs))) d) start bs g.
Proof.
  intros [Hst Hhd Hlen Hlog].
  assert (∀ b, start ≤ b ≤ start + 30 →
    disk_block (apply_writes (take m (zip bs (g <$> bs))) d) b = disk_block d b) as Hsame.
  { intros b Hb. rewrite disk_apply, overlay_notin; [done|].
    intros ([x v]&->&Hx)%list_elem_of_fmap. apply (subseteq_take m) in Hx. apply elem_of_zip_l in Hx. cbn in *.
    destruct (hr_home _ _ _ Hhd x Hx). lia. }
  split; [done|by rewrite Hsame by lia|by rewrite Hsame by lia|].
  intros i b Hi. rewrite Hsame; [by apply Hlog|]. apply lookup_lt_Some in Hi.
  pose proof (hr_max _ _ _ Hhd). lia.
Qed.

Lemma installed_installing bs g m d b :
  installed bs g (disk_block (apply_writes (take m (zip bs (g <$> bs))) d)) b = installed bs g (disk_block d) b.
Proof.
  unfold installed. case_decide as Hb; [done|]. rewrite disk_apply, overlay_notin; [done|].
  intros ([x v]&->&Hx)%list_elem_of_fmap. apply (subseteq_take m) in Hx. by apply elem_of_zip_l in Hx.
Qed.

Lemma prefix_take_eq {A : Type} (l1 l2 : list A) : l1 `prefix_of` l2 → l1 = take (length l1) l2.
Proof. intros [l3 ->]. by rewrite take_app_length. Qed.

Lemma recovers_prefix d start bs g ws1 :
  committed d start bs g →
  ws1 `prefix_of` recovery_writes start (disk_block d start) bs (g <$> bs) →
  recovers (apply_writes ws1 d) start (installed bs g (disk_block d)).
Proof.
  intros Hc ->%prefix_take_eq. set (k := length ws1). unfold recovery_writes. rewrite take_app.
  set (zs := zip bs (g <$> bs)). destruct (decide (k ≤ length zs)%nat) as [Hk|Hk].
  { replace (k - length zs)%nat with 0%nat by lia.
    rewrite take_0, app_nil_r.
    apply (recovers_committed _ _ bs g); [by apply committed_installing|]. intros b _. apply installed_installing. }
  rewrite (take_ge zs) by lia. rewrite (take_ge [_]) by (cbn; lia).
  destruct Hc as [Hst Hhd Hlen Hlog].
  assert (disk_block (apply_writes (zs ++ [(start, head_data (disk_block d start) [])]) d) start =
    head_data (disk_block d start) []) as Hnew.
  { rewrite disk_apply, overlay_app. cbn. by rewrite decide_True. }
  apply (recovers_committed _ _ [] g).
  - split; [done|rewrite Hnew; by apply head_rep_empty| |done].
    rewrite Hnew. apply (head_data_spec _ [] Hlen). cbn. lia.
  - intros b Hb. unfold installed at 1. rewrite decide_False by (by intros ?%elem_of_nil).
    rewrite disk_apply, overlay_app. cbn. rewrite decide_False by lia. apply overlay_zip.
Qed.

(** A crash before the header is written: the log is still empty. *)
Lemma recovers_logging d start vs k :
  0 ≤ start < 2 ^ 30 → hd_n (disk_block d start) = 0 → length (disk_block d start) = 1024%nat →
  (length vs ≤ 30)%nat →
  recovers (apply_writes (take k (seq_writes (start + 1) vs)) d) start (disk_block d).
Proof.
  intros Hst Hn Hlen Hvs.
  assert (∀ b, b ≤ start ∨ start + 30 < b →
    disk_block (apply_writes (take k (seq_writes (start + 1) vs)) d) b = disk_block d b) as Hsame.
  { intros b Hb. rewrite disk_apply, overlay_notin; [done|].
    intros Hin. assert (b ∈ (seq_writes (start + 1) vs).*1) as Hin'.
    { apply list_elem_of_fmap in Hin as (x&->&Hx). apply list_elem_of_fmap. exists x. split; [done|].
      by apply (subseteq_take k). }
    apply seq_writes_fst in Hin'. lia. }
  apply (recovers_committed _ _ [] (λ _, [])).
  - split; [done| |by rewrite Hsame by lia|done]. rewrite Hsame by lia.
    split; [done|cbn; lia|done|by intros b Hb%elem_of_nil|constructor].
  - intros b Hb. unfold installed. rewrite decide_False by (by intros ?%elem_of_nil). apply Hsame. lia.
Qed.

(** After the header is written the transaction is committed. *)
Lemma committed_header d start h bs g :
  0 ≤ start < 2 ^ 30 → length h = 1024%nat → (length bs ≤ 30)%nat → NoDup bs →
  (∀ b, b ∈ bs → 0 ≤ b < 2 ^ 31 ∧ (b < start ∨ start + 30 < b)) →
  committed (apply_writes (seq_writes (start + 1) (g <$> bs) ++ [(start, head_data h bs)]) d) start bs g.
Proof.
  intros Hst Hlen Hm Hnd Hhome.
  destruct (head_data_spec h bs Hlen Hm) as (Hl&Hn&Hblk). split.
  - done.
  - rewrite disk_apply, overlay_app. cbn. rewrite decide_True by done.
    split; [done|done| |done|done]. intros i b Hi. apply Hblk; [done|].
    apply Hhome. by eapply list_elem_of_lookup_2.
  - rewrite disk_apply, overlay_app. cbn. by rewrite decide_True.
  - intros i b Hi. rewrite disk_apply, overlay_app. cbn. rewrite decide_False by lia.
    apply log_view_index. by rewrite list_lookup_fmap, Hi.
Qed.

(** The disk once the log and the header are written, outside the log. *)
Lemma header_outside d start h bs g b :
  (length bs ≤ 30)%nat → b < start ∨ start + 30 < b →
  disk_block (apply_writes (seq_writes (start + 1) (g <$> bs) ++ [(start, head_data h bs)]) d) b =
  disk_block d b.
Proof.
  intros Hm Hb. rewrite disk_apply, overlay_app. cbn. rewrite decide_False by lia. apply overlay_notin.
  rewrite seq_writes_fst, length_fmap. lia.
Qed.

Lemma commit_prefix_recovers d start h bs g ws1 :
  0 ≤ start < 2 ^ 30 → hd_n (disk_block d start) = 0 → length (disk_block d start) = 1024%nat →
  h = disk_block d start → (length bs ≤ 30)%nat → NoDup bs →
  (∀ b, b ∈ bs → 0 ≤ b < 2 ^ 31 ∧ (b < start ∨ start + 30 < b)) →
  ws1 `prefix_of` commit_writes start h bs (g <$> bs) →
  recovers (apply_writes ws1 d) start
    (if decide (length ws1 ≤ length bs)%nat then disk_block d else installed bs g (disk_block d)).
Proof.
  intros Hst Hn Hlen -> Hm Hnd Hhome Hpre. set (h := disk_block d start) in *.
  set (lws := seq_writes (start + 1) (g <$> bs)) in *.
  assert (length lws = length bs) as Hll by (unfold lws, seq_writes; by rewrite length_imap, length_fmap).
  assert (commit_writes start h bs (g <$> bs) =
    (lws ++ [(start, head_data h bs)]) ++ recovery_writes start (head_data h bs) bs (g <$> bs)) as Heq.
  { unfold commit_writes, recovery_writes. by rewrite <- app_assoc. }
  replace (apply_writes ws1 d)
    with (apply_writes (take (length ws1) (commit_writes start h bs (g <$> bs))) d)
    by (f_equal; symmetry; by apply prefix_take_eq).
  destruct (decide (length ws1 ≤ length bs)%nat) as [Hk|Hk].
  - unfold commit_writes. fold lws. rewrite take_app_le by lia. apply recovers_logging; [done..|]. by rewrite length_fmap.
  - rewrite Heq, take_app, take_ge by (rewrite length_app; cbn; lia).
    set (ws2 := take _ (recovery_writes _ _ _ _)). set (d1 := apply_writes (lws ++ [(start, head_data h bs)]) d).
    rewrite (apply_writes_app _ ws2). fold d1.
    pose proof (committed_header d start h bs g Hst Hlen Hm Hnd Hhome) as Hc. fold lws d1 in Hc.
    assert (recovers (apply_writes ws2 d1) start (installed bs g (disk_block d1))) as Hrec.
    { apply recovers_prefix; [done|]. unfold ws2.
      replace (disk_block d1 start) with (head_data h bs); [apply prefix_take|].
      unfold d1. rewrite disk_apply, overlay_app. cbn. by rewrite decide_True. }
    intros t Hfr Ht. destruct (Hrec t Hfr Ht) as (t'&Hr&Hq&Hn'&Hb). exists t'. split_and!; [done..|].
    intros b Hout. rewrite Hb by done. unfold installed. case_decide; [done|]. by apply header_outside.
Qed.

End client.
