(* ===== verification/LogTxn.v ===== *)
(** * Transactions (log.c)

    What [begin_op], [log_write] and [end_op] do to the log, and a whole
    transaction: system calls that write blocks between the two are atomic
    with respect to crashes. *)

From S2P Require Import Prelude State Mem Kstring Spinlock Kalloc Vm Proc ProcSpec.
From S2P Require Import Sleeplock SleepSpec Bio BioList BioSpec BioInit Log LogSpec.

(** ** log_write *)

Lemma log_index_spec blk bs bno :
  (∀ i b, bs !! i = Some b → blk !! i = Some b) → (∀ b, b ∈ bs → 0 ≤ b < 2 ^ 31) →
  bno ∈ bs ∧ bs !! log_index blk (length bs) bno = Some bno ∨
  bno ∉ bs ∧ log_index blk (length bs) bno = length bs.
Proof.
  revert blk. induction bs as [|b bs IH]; intros blk Hblk Hr.
  { right. split; [by intros ?%elem_of_nil|by destruct blk]. }
  destruct blk as [|x blk]; [by specialize (Hblk 0%nat b eq_refl)|].
  pose proof (Hblk 0%nat b eq_refl) as [= ->]. cbn [length log_index].
  rewrite u32_small by (specialize (Hr b ltac:(by left)); lia). destruct (Z.eqb_spec b bno) as [->|Hne].
  - left. split; [by left|done].
  - destruct (IH blk) as [[Hin Hi]|[Hnin Hi]].
    + intros i y Hy. exact (Hblk (S i) y Hy).
    + intros y Hy. apply Hr. by right.
    + left. split; [by right|]. done.
    + right. split; [by intros [|]%elem_of_cons|]. by rewrite Hi.
Qed.

(** The blocks of the log after [log_write] of block [bno]. *)
Definition logged (bs : list Z) (bno : Z) : list Z :=
  if decide (bno ∈ bs) then bs else bs ++ [bno].

(** What the log of a running transaction satisfies. *)
Record txn_log (lg : log) (start : Z) (bs : list Z) : Prop := {
  tx_rep : log_rep lg start bs;
  tx_size : l_size lg = 30;
  tx_len : length (lh_block lg) = 30%nat;
  tx_out : 1 ≤ l_outstanding lg;
}.

(** The log in memory after [log_write] of block [bno]. *)
Definition log_put (bno : Z) (lg : log) : log :=
  let i := log_index (lh_block lg) (Z.to_nat (lh_n lg)) bno in
  let lg' := set_lh_block (<[i := i32 bno]> (lh_block lg)) lg in
  if Z.of_nat i =? lh_n lg then set_lh_n (lh_n lg + 1) lg' else lg'.

Lemma log_put_rep lg start bs bno :
  txn_log lg start bs → (length bs < 29)%nat → 0 ≤ bno < 2 ^ 31 → bno < start ∨ start + 30 < bno →
  txn_log (log_put bno lg) start (logged bs bno) ∧
  (Z.of_nat (log_index (lh_block lg) (Z.to_nat (lh_n lg)) bno) =? lh_n lg) = negb (bool_decide (bno ∈ bs)).
Proof.
  intros [[Hdev Hst Hsr Hn Hm Hblk Hhome Hnd] Hsz Hlen Hout] Hlt Hbno Hb.
  assert (∀ b, b ∈ bs → 0 ≤ b < 2 ^ 31) as Hr by (intros b; apply Hhome).
  pose proof (log_index_spec (lh_block lg) bs bno Hblk Hr) as Hidx.
  unfold log_put, logged. rewrite Hn, Nat2Z.id, (i32_small bno) by lia.
  set (i := log_index _ _ _) in *.
  destruct Hidx as [[Hin Hi]|[Hnin Hi]].
  - pose proof (lookup_lt_Some _ _ _ Hi) as Hil. rewrite decide_True, bool_decide_eq_true_2 by done.
    assert ((Z.of_nat i =? Z.of_nat (length bs)) = false) as Hz by lia. rewrite Hz. split; [|done].
    rewrite list_insert_id by (by apply Hblk). by destruct lg.
  - rewrite decide_False, bool_decide_eq_false_2 by done.
    assert ((Z.of_nat i =? Z.of_nat (length bs)) = true) as Hz by lia. rewrite Hz. split; [|done].
    split; [split|..]; try done.
    + cbn. rewrite length_app. cbn. lia.
    + rewrite length_app. cbn. lia.
    + intros k b. cbn. rewrite Hi. intros [[Hk1 Hk]|[Hk <-]]%lookup_snoc_Some.
      * rewrite list_lookup_insert_ne by lia. by apply Hblk.
      * subst. apply list_lookup_insert_eq. lia.
    + intros b [?| ->%list_elem_of_singleton]%elem_of_app; auto.
    + apply NoDup_app. split_and!; [done|set_solver|apply NoDup_singleton].
    + cbn. by rewrite length_insert.
Qed.

Section txn.
Context (me : nat) {FU : Fuel} {D : Disk} {DO : DiskOk D}.

(** [log_write] of a buffer, as a change of the state. *)
Definition log_written (i : nat) (bno : Z) (s : kernel) : kernel :=
  let fresh_block := Z.of_nat (log_index (lh_block (k_log s)) (Z.to_nat (lh_n (k_log s))) bno) =?
                     lh_n (k_log s) in
  tick (set_k_log (log_put bno (k_log s))
    (if fresh_block then set_k_bufs (alter incref i (k_bufs s)) s else s)).

Lemma log_write_run s i bno :
  env me [] s → b_blockno (buf_of i s) = bno → lh_n (k_log s) < 29 → l_size (k_log s) = 30 →
  1 ≤ l_outstanding (k_log s) →
  log_write i s = Ret tt (log_written i bno s).
Proof.
  intros He Hb Hn Hsz Hout. pose proof (env_free me L_log s He eq_refl) as Hfree.
  pose proof (env_acquired me [] L_log s He ltac:(simpl; lia)) as He1.
  unfold log_write. rewrite bind_acquire, bind_gets by done.
  change (k_log (acquired L_log s)) with (k_log s). rewrite Hsz.
  replace (LOGSIZE <=? lh_n (k_log s)) with false by (symmetry; apply Z.leb_gt; unfold LOGSIZE, MAXOPBLOCKS; lia).
  replace (30 - 1 <=? lh_n (k_log s)) with false by (symmetry; apply Z.leb_gt; lia).
  replace (l_outstanding (k_log s) <? 1) with false by (symmetry; apply Z.ltb_ge; lia). cbn [orb].
  rewrite bind_gets. change (buf_of i (acquired L_log s)) with (buf_of i s). rewrite Hb.
  unfold log_written, log_put. set (j := log_index _ _ _).
  rewrite bind_on_log, bind_when. destruct (Z.of_nat j =? lh_n (k_log s)).
  - set (s1 := set_k_log _ (acquired L_log s)).
    assert (env me [L_log] s1) as He1' by (apply (env_ext me _ (acquired L_log s)); auto).
    assert (hart_tick (k_hart s1) = k_hart s1) as Ht.
    { apply hart_tick_noff. rewrite (env_noff _ _ _ He1'). done. }
    assert (lock_free L_bcache s1) as Hf1 by (apply (env_locks _ _ _ He1'); [done|set_solver]).
    assert (bpin i s1 = Ret tt (set_k_bufs (alter incref i (k_bufs s1)) s1)) as Hpin.
    { unfold bpin. rewrite bind_acquire by done. rewrite bind_on_buf.
      rewrite (release_eq L_bcache s1); [|done|by eapply env_hart|done|done]. f_equal.
      rewrite Ht. unfold acquired, put_lock. kernel_eq. }
    rewrite (bind_assoc _ _ _ _ _ _ Hpin), bind_on_log.
    rewrite (release_eq L_log s); [|done|by eapply env_hart|done|done].
    unfold s1, tick, acquired, put_lock. kernel_eq.
  - rewrite (release_eq L_log s); [|done|by eapply env_hart|done|done].
    unfold tick, acquired, put_lock. kernel_eq.
Qed.

(** What [bcache] depends on. *)
Lemma bcache_ext s s' ring held :
  bcache me s ring held → k_bufs s' = k_bufs s → (∀ i, slock_of (SL_buf i) s' = slock_of (SL_buf i) s) → k_disk s' = k_disk s →
  (∀ i, p_pid (proc_of i s') = p_pid (proc_of i s)) → length (k_procs s') = length (k_procs s) →
  k_locks s' = k_locks s → k_hart s' = k_hart s ∨ k_hart s' = hart_tick (k_hart s) →
  bcache me s' ring held.
Proof.
  intros [He Hr Hb] H1 H2 H3 H4 H5 H6 H7.
  assert (∀ j, buf_of j s' = buf_of j s) as Hbuf by (intros j; unfold buf_of; by rewrite H1).
  split.
  - by apply (env_ext me [] s).
  - apply (ring_ok_ext s); [done|by rewrite H1|]. intros j. by rewrite Hbuf.
  - apply (bufs_ok_ext me s _ held); [done| |apply H4|..].
    + intros j. by rewrite Hbuf.
    + intros j. rewrite H2. apply (bo_free _ _ _ Hb).
    + intros j Hj. rewrite H2, Hbuf. split_and!; [done..|]. by destruct (bo_held _ _ _ Hb j Hj) as (_&_&_&_&_&?).
    + intros j. rewrite Hbuf. apply (bo_ref _ _ _ Hb).
    + intros j. by rewrite Hbuf.
    + intros j. rewrite Hbuf, H3. apply (bo_clean _ _ _ Hb).
Qed.

Lemma log_write_ok s held i bno start bs :
  holds me s held i bno → txn_log (k_log s) start bs → (length bs < 29)%nat →
  0 ≤ bno < 2 ^ 31 → bno < start ∨ start + 30 < bno → refs s bno < 999990 →
  ∃ s', log_write i s = Ret tt s' ∧ holds me s' held i bno ∧ txn_log (k_log s') start (logged bs bno) ∧
    log_effect s s' [] (λ b, refs s b + if decide (b = bno ∧ bno ∉ bs) then 1 else 0) ∧
    k_log s' = log_put bno (k_log s) ∧
    (∀ j, b_blockno (buf_of j s') = b_blockno (buf_of j s)).
Proof.
  intros ([ring Hbc]&Hi&Hb) Hlog Hlt Hbno Hhome Hmax. pose proof Hbc as [He _ Hbo].
  destruct (log_put_rep (k_log s) start bs bno Hlog Hlt Hbno Hhome) as [Hlog' Hfresh].
  exists (log_written i bno s). split.
  { apply log_write_run; try done; [|apply Hlog|apply Hlog]. rewrite (lr_n _ _ _ (tx_rep _ _ _ Hlog)). lia. }
  unfold log_written. rewrite Hfresh. destruct (bool_decide (bno ∈ bs)) eqn:Hin; cbn [negb].
  - apply bool_decide_eq_true in Hin. split_and!; [|done| |done|done].
    + split_and!; [|done|done]. exists ring. apply (bcache_ext s); try done. by right.
    + eapply log_effect_trans; [apply (log_effect_set s (log_put bno (k_log s)))| |done|].
      * apply log_effect_of. split; [done|by rewrite app_nil_r|done|intros b; reflexivity|].
        split_and!; [unfold tick; kernel_eq|done|done].
      * intros b. rewrite decide_False by tauto. change (refs _ b) with (refs s b). lia.
  - apply bool_decide_eq_false in Hin. destruct (bo_held _ _ _ Hbo i Hi) as (Hlt'&_&_&_&_&Hr).
    pose proof (held_refs me s ring held i Hbc Hi) as Hrf. rewrite Hb in Hrf.
    destruct (pin_ok me s ring held i Hbc Hi incref 1) as (_&Hbc'&Hd&Hw&Hv&Hr'&Hf&Hsame);
      try done; [cbn; rewrite u32_small by lia; done|lia|].
    set (s1 := tick (set_k_bufs _ s)) in *.
    assert (tick (set_k_log (log_put bno (k_log s)) (set_k_bufs (alter incref i (k_bufs s)) s)) =
      set_k_log (log_put bno (k_log s)) s1) as -> by (unfold s1, tick; kernel_eq).
    split_and!; [|done| |done|intros j; apply Hsame].
    + split_and!; [|done|by rewrite <- Hb; apply Hsame]. exists ring. apply (bcache_ext s1); try done. by left.
    + eapply (log_effect_trans s s1 _ [] [] []); [|apply (log_effect_set s1)|done|].
      * apply log_effect_of. split; [exact Hd|rewrite app_nil_r; exact Hw|exact Hv|exact Hr'|exact Hf].
      * intros b. rewrite Hr', Hb. destruct (decide (b = bno)); [rewrite decide_True by done|rewrite decide_False by tauto]; done.
Qed.

(** ** begin_op and end_op *)

Lemma begin_op_run s :
  env me [] s → l_committing (k_log s) = 0 →
  lh_n (k_log s) + (l_outstanding (k_log s) + 1) * MAXOPBLOCKS ≤ LOGSIZE →
  begin_op s = Ret tt (tick (set_k_log (set_l_outstanding (l_outstanding (k_log s) + 1) (k_log s)) s)).
Proof.
  intros He Hc Hn. pose proof (env_free me L_log s He eq_refl) as Hfree.
  unfold begin_op. rewrite bind_acquire by done.
  assert (∀ n, begin_op_loop n (acquired L_log s) = (on_log (set_l_outstanding (l_outstanding (k_log s) + 1));;
    release L_log) (acquired L_log s)) as ->.
  { intros n. destruct n; cbn [begin_op_loop]; rewrite bind_gets;
      change (k_log (acquired L_log s)) with (k_log s); rewrite Hc;
      (replace (LOGSIZE <? _) with false by (symmetry; apply Z.ltb_ge; lia)); done. }
  rewrite bind_on_log. rewrite (release_eq L_log s); [|done|by eapply env_hart|done|done].
  unfold tick, acquired, put_lock. kernel_eq.
Qed.

(** The first and the last critical section of [end_op] when it commits. *)
Definition closing (s : kernel) : kernel :=
  tick (set_k_log (set_l_committing 1 (set_l_outstanding (l_outstanding (k_log s) - 1) (k_log s))) s).

Definition closed (s : kernel) : kernel :=
  tick (set_k_procs (woken me Ch_log (k_procs s)) (set_k_log (set_l_committing 0 (k_log s)) s)).

Lemma end_op_run s s1 :
  env me [] s → l_committing (k_log s) = 0 → l_outstanding (k_log s) = 1 →
  commit (closing s) = Ret tt s1 → env me [] s1 →
  end_op s = Ret tt (closed s1).
Proof.
  intros He Hc Ho Hcommit He1. pose proof (env_free me L_log s He eq_refl) as Hfree.
  pose proof (env_free me L_log s1 He1 eq_refl) as Hfree1.
  unfold end_op. rewrite bind_acquire, bind_on_log, bind_gets by done.
  cbn [k_log set_k_log acquired put_lock set_k_locks set_k_hart l_committing set_l_outstanding l_outstanding].
  rewrite Hc, Ho. cbn [Z.eqb negb]. change (1 - 1 =? 0) with true. cbv iota.
  rewrite bind_on_log. rewrite (bind_release L_log s); [|done|by eapply env_hart|done|done].
  match goal with |- context [when true _ ?t] => replace t with (closing s) end.
  2: { unfold closing, tick, acquired, put_lock. rewrite Ho. kernel_eq. }
  cbn [when]. rewrite (bind_Ret _ _ _ _ _ Hcommit), bind_acquire, bind_on_log by done.
  pose proof (env_acquired me [] L_log s1 He1 ltac:(simpl; lia)) as He2.
  set (s2 := set_k_log _ (acquired L_log s1)).
  assert (env me [L_log] s2) as He2' by (apply (env_ext me _ (acquired L_log s1)); auto).
  rewrite (bind_Ret _ _ _ _ _ (wakeup_eq me [L_log] Ch_log s2 He2' ltac:(set_solver))).
  rewrite tick_set_procs, (env_tick_id me _ _ _ He2').
  rewrite (release_eq L_log s1); [|done|by eapply env_hart|done|done].
  unfold s2, closed, tick, acquired, put_lock. kernel_eq.
Qed.

(** ** A transaction *)

(** A system call's use of the log: each update reads a block, changes it,
    logs it and releases it. *)
Definition update_block (u : Z * list Z) : M unit :=
  b ← bread ROOTDEV u.1;
  set_data b u.2;;
  log_write b;;
  brelse b.

Definition transaction (ups : list (Z * list Z)) : M unit :=
  begin_op;;
  for_each ups update_block;;
  end_op.

(** Between transactions: nothing is logged or in use, and the header on the
    disk says so. *)
Record idle_log (s : kernel) (start : Z) : Prop := {
  il_quiet : quiet me s;
  il_refs b : refs s b = 0;
  il_rep : log_rep (k_log s) start [];
  il_size : l_size (k_log s) = 30;
  il_len : length (lh_block (k_log s)) = 30%nat;
  il_out : l_outstanding (k_log s) = 0;
  il_com : l_committing (k_log s) = 0;
  il_head : hd_n (disk_block (k_disk s) start) = 0;
  il_hlen : length (disk_block (k_disk s) start) = 1024%nat;
}.

(** Within a transaction that started in [s0] and has made the updates [ups]. *)
Record in_txn (s0 s : kernel) (start : Z) (ups : list (Z * list Z)) (bs : list Z) : Prop := {
  it_quiet : quiet me s;
  it_log : txn_log (k_log s) start bs;
  it_out : l_outstanding (k_log s) = 1;
  it_com : l_committing (k_log s) = 0;
  it_refs b : refs s b = if decide (b ∈ bs) then 1 else 0;
  it_view b : view s b = overlay ups (view s0) b;
  it_disk : k_disk s = k_disk s0;
  it_writes : k_writes s = k_writes s0;
  it_blocks b : b ∈ bs ↔ b ∈ ups.*1;
  it_len : (length bs ≤ length ups)%nat;
}.

Lemma log_put_rest bno lg :
  l_outstanding (log_put bno lg) = l_outstanding lg ∧ l_committing (log_put bno lg) = l_committing lg.
Proof. unfold log_put. by destruct (_ =? _). Qed.

Lemma length_logged bs b : (length (logged bs b) ≤ S (length bs))%nat.
Proof. unfold logged. case_decide; [lia|]. rewrite length_app. cbn. lia. Qed.

Lemma elem_logged bs b x : x ∈ logged bs b ↔ x ∈ bs ∨ x = b.
Proof. unfold logged. case_decide; [|set_solver]. split; [tauto|]. by intros [| ->]. Qed.

Lemma update_block_ok s0 s start ups bs b d :
  in_txn s0 s start ups bs → (length bs < 29)%nat → 0 ≤ b < 2 ^ 31 → b < start ∨ start + 30 < b →
  ∃ s', update_block (b, d) s = Ret tt s' ∧ in_txn s0 s' start (ups ++ [(b, d)]) (logged bs b).
Proof.
  intros [Hq Hlog Hout Hcom Hrefs Hview Hdisk Hwr Hblk Hlen] Hlt Hb Hhome.
  destruct (read_step me s ∅ bs b) as (i&s1&Hr1&_&Hh1&He1&_).
  { done. }
  { clear. set_solver. }
  { left. split; [|unfold NBUF; lia]. intros x. rewrite Hrefs. by case_decide. }
  { rewrite Hrefs. case_decide; lia. }
  rewrite union_empty_r_L in Hh1. unfold update_block. cbn [fst snd]. rewrite (bind_Ret _ _ _ _ _ Hr1).
  destruct (update_step me s1 _ i b (set_b_data d) d Hh1 eq_refl) as (s2&Hr2&Hh2&He2&_).
  change (set_data i d) with (on_buf i (set_b_data d)). rewrite (bind_Ret _ _ _ _ _ Hr2).
  pose proof (ef_refs _ _ _ _ _ He1) as Hf1. pose proof (ef_refs _ _ _ _ _ He2) as Hf2.
  assert (k_log s2 = k_log s) as Hk2.
  { rewrite (bio_frame_log s1 s2) by apply He2. apply (bio_frame_log s s1), He1. }
  destruct (log_write_ok s2 _ i b start bs Hh2) as (s3&Hr3&Hh3&Hlog3&He3&Hk3&_); rewrite ?Hk2; try done.
  { rewrite Hf2, Hf1, Hrefs. repeat case_decide; lia. }
  rewrite (bind_Ret _ _ _ _ _ Hr3). pose proof (ef_refs _ _ _ _ _ He3) as Hf3. cbn in Hf3.
  destruct (release_step me s3 _ i b Hh3) as (s4&Hr4&Hq4&He4&_).
  { rewrite Hf3, Hf2, Hf1, Hrefs, (decide_True (P := b = b)) by done.
    intros Hx. exfalso. revert Hx. destruct (decide (b ∈ bs)).
    - by destruct (decide (b = b ∧ b ∉ bs)).
    - by rewrite decide_True. }
  rewrite difference_diag_L in Hq4.
  assert (k_log s4 = k_log s3) as Hk4 by (apply (bio_frame_log s3 s4), He4).
  assert (k_log s4 = log_put b (k_log s)) as Hk by (by rewrite Hk4, Hk3, Hk2).
  destruct (log_put_rest b (k_log s)) as [Ho Hc].
  exists s4. split; [done|]. split; try (rewrite Hk, ?Ho, ?Hc; done).
  - done.
  - by rewrite Hk4.
  - intros x. rewrite (ef_refs _ _ _ _ _ He4), Hf3, Hf2, Hf1, Hrefs.
    rewrite (decide_ext (x ∈ logged bs b) (x ∈ bs ∨ x = b)) by apply elem_logged.
    destruct (decide (x = b)) as [->|Hne].
    + rewrite (decide_True (P := _ ∨ b = b)) by tauto. destruct (decide (b ∈ bs)).
      * rewrite decide_False by tauto. lia.
      * rewrite decide_True by done. lia.
    + rewrite (decide_False (P := x = b ∧ _)) by tauto.
      rewrite (decide_ext (x ∈ bs ∨ x = b) (x ∈ bs)) by tauto. lia.
  - intros x. rewrite (ef_view _ _ _ _ _ He4), (ef_view _ _ _ _ _ He3). cbn.
    rewrite (ef_view _ _ _ _ _ He2), (ef_view _ _ _ _ _ He1), overlay_app. cbn. by rewrite Hview.
  - rewrite (ef_disk _ _ _ _ _ He4), (ef_disk _ _ _ _ _ He3). cbn.
    rewrite (ef_disk _ _ _ _ _ He2), (ef_disk _ _ _ _ _ He1). done.
  - rewrite (ef_writes _ _ _ _ _ He4), (ef_writes _ _ _ _ _ He3). cbn.
    rewrite (ef_writes _ _ _ _ _ He2), (ef_writes _ _ _ _ _ He1), !app_nil_r. done.
  - intros x. rewrite elem_logged, fmap_app, elem_of_app, Hblk. cbn. by rewrite list_elem_of_singleton.
  - pose proof (length_logged bs b). rewrite length_app. cbn. lia.
Qed.

(** Updates a transaction can make: to blocks outside the log. *)
Definition ups_ok (start : Z) (ups : list (Z * list Z)) : Prop :=
  ∀ b, b ∈ ups.*1 → 0 ≤ b < 2 ^ 31 ∧ (b < start ∨ start + 30 < b).

Lemma updates_ok s0 start ups2 ups1 bs s :
  in_txn s0 s start ups1 bs → (length ups1 + length ups2 ≤ 29)%nat → ups_ok start ups2 →
  ∃ s' bs', for_each ups2 update_block s = Ret tt s' ∧ in_txn s0 s' start (ups1 ++ ups2) bs'.
Proof.
  revert ups1 bs s. induction ups2 as [|[b d] ups2 IH]; intros ups1 bs s Hin Hlen Hok; cbn [for_each].
  { exists s, bs. by rewrite app_nil_r. }
  destruct (Hok b) as [Hb Hhome]; [by left|]. cbn in Hlen.
  destruct (update_block_ok s0 s start ups1 bs b d Hin) as (s1&Hr1&Hin1);
    [pose proof (it_len _ _ _ _ _ Hin); lia|done|done|].
  rewrite (bind_Ret _ _ _ _ _ Hr1).
  destruct (IH _ _ _ Hin1) as (s2&bs2&Hr2&Hin2).
  - rewrite length_app. cbn. lia.
  - intros x Hx. apply Hok. by right.
  - exists s2, bs2. split; [done|]. by rewrite <- app_assoc in Hin2.
Qed.

Lemma quiet_tick_log s x : quiet me s → quiet me (tick (set_k_log x s)).
Proof. intros [ring Hbc]. exists ring. apply (bcache_ext s); try done. by right. Qed.

Lemma begin_ok s start :
  idle_log s start → ∃ s', begin_op s = Ret tt s' ∧ in_txn s s' start [] [].
Proof.
  intros [Hq Hr Hlog Hsz Hlen Ho Hc _ _]. pose proof Hq as [ring [He _ _]].
  eexists. split; [apply begin_op_run; [done|done|]|].
  - rewrite (lr_n _ _ _ Hlog), Ho. unfold LOGSIZE, MAXOPBLOCKS. cbn. lia.
  - rewrite Ho. split; try done; [by apply quiet_tick_log|].
    split; [|done|done|done]. by destruct Hlog.
Qed.

(** The log's writes in a transaction that logged [bs]. *)
Definition txn_writes (s : kernel) (start : Z) (bs : list Z) : list (Z * list Z) :=
  if decide (bs = []) then []
  else commit_writes start (view s start) bs (view s <$> bs).

Lemma commit_empty s : lh_n (k_log s) = 0 → commit s = Ret tt s.
Proof. intros Hn. unfold commit. by rewrite bind_gets, Hn. Qed.

Lemma commit_closing s0 s start ups bs :
  in_txn s0 s start ups bs → (length bs ≤ 29)%nat →
  ∃ s', commit (closing s) = Ret tt s' ∧ quiet me s' ∧
    k_log s' = set_lh_n 0 (k_log (closing s)) ∧
    log_effect (closing s) s' (txn_writes s start bs) (λ _, 0).
Proof.
  intros [Hq Hlog _ _ Hrefs _ _ _ _ _] Hlen. unfold txn_writes.
  assert (log_rep (k_log (closing s)) start bs) as Hrep by (by destruct (tx_rep _ _ _ Hlog)).
  pose proof (quiet_tick_log s _ Hq : quiet me (closing s)) as Hqc.
  destruct (decide (bs = [])) as [->|Hne].
  - exists (closing s). split_and!; [|done| |].
    + apply commit_empty, Hrep.
    + pose proof (lr_n _ _ _ Hrep) as Hn. 
      change (k_log (closing s)) with
        (set_l_committing 1 (set_l_outstanding (l_outstanding (k_log s) - 1) (k_log s))) in Hn |- *.
      clear -Hn. destruct (k_log s). cbn in Hn. by subst.
    + eapply (log_effect_trans _ (closing s) _ [] [] []); [apply log_effect_of, effect_refl|apply log_effect_of, effect_refl|done|].
      intros b. change (refs (closing s) b) with (refs s b). rewrite Hrefs.
      rewrite decide_False; [done|]. by intros ?%elem_of_nil.
  - destruct (commit_ok me (closing s) start bs bs Hrep Hne Hqc) as (s'&Hr&Hq'&Hk&He).
    + split; [|unfold NBUF; lia]. intros b. change (refs (closing s) b) with (refs s b). rewrite Hrefs.
      by destruct (decide (b ∈ bs)).
    + intros b. change (refs (closing s) b) with (refs s b). rewrite Hrefs. destruct (decide (b ∈ bs)); lia.
    + intros b Hb. change (refs (closing s) b) with (refs s b). rewrite Hrefs, decide_True by done. lia.
    + exists s'. split_and!; [done..|].
      eapply (log_effect_trans _ _ s' _ [] _); [apply log_effect_of, effect_refl|exact He|done|].
      intros b. unfold all_unpinned. change (refs (closing s) b) with (refs s b). rewrite Hrefs.
      destruct (decide (b ∈ bs)); [by rewrite decide_True|]. rewrite decide_False by tauto. done.
Qed.

(** The disk after the whole transaction. *)
Lemma txn_disk s0 s start ups bs b :
  in_txn s0 s start ups bs → (∀ x, refs s0 x = 0) → quiet me s0 → (length bs ≤ 30)%nat →
  b < start ∨ start + 30 < b →
  overlay (txn_writes s start bs) (disk_block (k_disk s0)) b = overlay ups (disk_block (k_disk s0)) b.
Proof.
  intros Hin Hr0 [ring0 Hbc0] Hlen Hb. pose proof (it_blocks _ _ _ _ _ Hin b) as Hblk. unfold txn_writes.
  assert (view s b = overlay ups (disk_block (k_disk s0)) b) as Hv.
  { rewrite (it_view _ _ _ _ _ Hin). apply overlay_ext. eapply refs_zero_clean; [by eapply bc_bufs|done]. }
  destruct (decide (bs = [])) as [->|Hne].
  - cbn. symmetry. apply overlay_notin. rewrite <- Hblk. by intros ?%elem_of_nil.
  - unfold commit_writes. rewrite overlay_app. cbn.
    change (overlay (zip bs (view s <$> bs) ++ [(start, head_data (head_data (view s start) bs) [])])
      (λ b, if decide (b = start) then head_data (view s start) bs else
         overlay (seq_writes (start + 1) (view s <$> bs)) (disk_block (k_disk s0)) b) b =
      overlay ups (disk_block (k_disk s0)) b).
    rewrite overlay_app. cbn. rewrite decide_False by lia. rewrite overlay_zip. unfold installed.
    destruct (decide (b ∈ bs)) as [Hx|Hx]; [done|]. rewrite decide_False by lia.
    rewrite overlay_notin by (rewrite seq_writes_fst, length_fmap; lia).
    symmetry. apply overlay_notin. by rewrite <- Hblk.
Qed.

Lemma recovers_ext d start f f' :
  recovers me d start f → (∀ b, b < start ∨ start + 30 < b → f b = f' b) → recovers me d start f'.
Proof.
  intros Hrec Hf t Hfr Ht. destruct (Hrec t Hfr Ht) as (t'&Hr&Hq&Hn&Hb). exists t'.
  split_and!; [done..|]. intros b Hout. rewrite Hb by done. auto.
Qed.

(** The header as the transaction sees it. *)
Lemma view_start s0 s start ups bs :
  in_txn s0 s start ups bs → view s start = disk_block (k_disk s0) start.
Proof.
  intros Hin. rewrite <- (it_disk _ _ _ _ _ Hin). destruct (it_quiet _ _ _ _ _ Hin) as [ring Hbc].
  eapply refs_zero_clean; [by eapply bc_bufs|]. rewrite (it_refs _ _ _ _ _ Hin), decide_False; [done|].
  intros Hx. destruct (lr_home _ _ _ (tx_rep _ _ _ (it_log _ _ _ _ _ Hin)) start Hx). lia.
Qed.

(** What a crash after some of the log's writes leaves. *)
Lemma txn_crash s0 s start ups bs ws1 :
  idle_log s0 start → in_txn s0 s start ups bs → (length bs ≤ 29)%nat →
  ws1 `prefix_of` txn_writes s start bs →
  recovers me (apply_writes ws1 (k_disk s0)) start (disk_block (k_disk s0)) ∨
  recovers me (apply_writes ws1 (k_disk s0)) start (overlay ups (disk_block (k_disk s0))).
Proof.
  intros [Hq Hr0 Hlog _ _ _ _ Hn Hl] Hin Hlen Hpre. pose proof (lr_start_range _ _ _ Hlog) as Hst.
  pose proof (tx_rep _ _ _ (it_log _ _ _ _ _ Hin)) as Hrep.
  pose proof (view_start _ _ _ _ _ Hin) as Hvs.
  destruct (decide (bs = [])) as [->|Hne].
  { unfold txn_writes in Hpre. rewrite decide_True in Hpre by done. apply prefix_nil_inv in Hpre as ->. left.
    apply (recovers_logging me (k_disk s0) start [] 0); [done..|cbn; lia]. }
  unfold txn_writes in Hpre. rewrite decide_False in Hpre by done.
  pose proof (commit_prefix_recovers me (k_disk s0) start (view s start) bs (view s) ws1 Hst Hn Hl Hvs
    (lr_max _ _ _ Hrep) (lr_nodup _ _ _ Hrep) (lr_home _ _ _ Hrep) Hpre) as Hrec.
  destruct (decide (length ws1 ≤ length bs)%nat); [by left|right].
  eapply recovers_ext; [exact Hrec|]. intros b _. unfold installed.
  pose proof (it_blocks _ _ _ _ _ Hin b) as Hblk. destruct (decide (b ∈ bs)) as [Hx|Hx].
  - rewrite (it_view _ _ _ _ _ Hin). apply overlay_ext. destruct Hq as [ring Hbc].
    eapply refs_zero_clean; [by eapply bc_bufs|done].
  - symmetry. apply overlay_notin. by rewrite <- Hblk.
Qed.

Lemma txn_head s0 s start ups bs :
  idle_log s0 start → in_txn s0 s start ups bs → (length bs ≤ 29)%nat →
  let h := overlay (txn_writes s start bs) (disk_block (k_disk s0)) start in
  hd_n h = 0 ∧ length h = 1024%nat.
Proof.
  intros Hidle Hin Hlen. unfold txn_writes. destruct (decide (bs = [])) as [->|Hne]; [by destruct Hidle|].
  unfold commit_writes. rewrite app_comm_cons, app_assoc, overlay_app. cbn. rewrite decide_True by done.
  rewrite (view_start _ _ _ _ _ Hin). pose proof (il_hlen _ _ Hidle) as Hl.
  destruct (head_data_spec (disk_block (k_disk s0) start) bs Hl) as (Hl1&_); [lia|].
  destruct (head_data_spec (head_data (disk_block (k_disk s0) start) bs) [] Hl1) as (Hl2&Hn2&_); [cbn; lia|].
  done.
Qed.

(** [end_op] of the only transaction. *)
Lemma end_ok s s2 start ups bs :
  idle_log s start → in_txn s s2 start ups bs → (length bs ≤ 29)%nat →
  ∃ s' ws, end_op s2 = Ret tt s' ∧ idle_log s' start ∧
    k_writes s' = k_writes s ++ ws ∧ k_disk s' = apply_writes ws (k_disk s) ∧
    (∀ b, b < start ∨ start + 30 < b →
       disk_block (k_disk s') b = overlay ups (disk_block (k_disk s)) b) ∧
    ∀ ws1, ws1 `prefix_of` ws →
      recovers me (apply_writes ws1 (k_disk s)) start (disk_block (k_disk s)) ∨
      recovers me (apply_writes ws1 (k_disk s)) start (overlay ups (disk_block (k_disk s))).
Proof.
  intros Hidle Hin2 Hbs.
  destruct (commit_closing s s2 start ups bs Hin2 Hbs) as (s3&Hr3&Hq3&Hk3&He3).
  pose proof Hq3 as [ring3 Hbc3].
  assert (end_op s2 = Ret tt (closed s3)) as Hend.
  { pose proof (it_quiet _ _ _ _ _ Hin2) as [ring2 Hbc2].
    apply end_op_run; [apply Hbc2|apply Hin2|apply Hin2|done|apply Hbc3]. }
  assert (k_disk s3 = apply_writes (txn_writes s2 start bs) (k_disk s)) as Hd3.
  { rewrite (ef_disk _ _ _ _ _ He3). cbn. by rewrite (it_disk _ _ _ _ _ Hin2). }
  exists (closed s3), (txn_writes s2 start bs). split_and!.
  - exact Hend.
  - pose proof (it_log _ _ _ _ _ Hin2) as [Hrep Hsz Hlb _].
    assert (k_log (closed s3) = set_l_committing 0 (k_log s3)) as Hk by done.
    destruct (txn_head s s2 start ups bs Hidle Hin2 Hbs) as [Hn Hl].
    change (k_log (closing s2)) with
      (set_l_committing 1 (set_l_outstanding (l_outstanding (k_log s2) - 1) (k_log s2))) in Hk3.
    split; rewrite ?Hk, ?Hk3; try done.
    + exists ring3. apply (bcache_ext s3); try done; [|by apply length_woken|by right].
      intros i. apply (pid_woken me).
    + intros b. change (refs (closed s3) b) with (refs s3 b). apply (ef_refs _ _ _ _ _ He3).
    + by destruct (log_rep_empty _ _ _ Hrep).
    + cbn. rewrite (it_out _ _ _ _ _ Hin2). done.
    + change (k_disk (closed s3)) with (k_disk s3). by rewrite Hd3, disk_apply.
    + change (k_disk (closed s3)) with (k_disk s3). by rewrite Hd3, disk_apply.
  - change (k_writes (closed s3)) with (k_writes s3). rewrite (ef_writes _ _ _ _ _ He3). cbn.
    by rewrite (it_writes _ _ _ _ _ Hin2).
  - exact Hd3.
  - intros b Hb. change (k_disk (closed s3)) with (k_disk s3). rewrite Hd3, disk_apply.
    apply (txn_disk s); [done|apply Hidle|apply Hidle|lia|done].
  - intros ws1. by apply (txn_crash s s2 start ups bs).
Qed.

Lemma transaction_ok s start ups :
  idle_log s start → (length ups ≤ 29)%nat → ups_ok start ups →
  ∃ s' ws, transaction ups s = Ret tt s' ∧ idle_log s' start ∧
    k_writes s' = k_writes s ++ ws ∧ k_disk s' = apply_writes ws (k_disk s) ∧
    (∀ b, b < start ∨ start + 30 < b →
       disk_block (k_disk s') b = overlay ups (disk_block (k_disk s)) b) ∧
    ∀ ws1, ws1 `prefix_of` ws →
      recovers me (apply_writes ws1 (k_disk s)) start (disk_block (k_disk s)) ∨
      recovers me (apply_writes ws1 (k_disk s)) start (overlay ups (disk_block (k_disk s))).
Proof.
  intros Hidle Hlen Hok. destruct (begin_ok s start Hidle) as (s1&Hr1&Hin1).
  destruct (updates_ok s start ups [] [] s1 Hin1) as (s2&bs&Hr2&Hin2); [cbn; lia|done|]. cbn [app] in Hin2.
  destruct (end_ok s s2 start ups bs Hidle Hin2) as (s'&ws&Hr3&Hrest); [pose proof (it_len _ _ _ _ _ Hin2); lia|].
  exists s', ws. split; [|exact Hrest]. unfold transaction.
  by rewrite (bind_Ret _ _ _ _ _ Hr1), (bind_Ret _ _ _ _ _ Hr2).
Qed.

End txn.

(** ** The log's contract *)

Section contract.
Context (me : nat) {FU : Fuel} {D : Disk} {DO : DiskOk D}.


(** the header write is the commit point. [commit] of the logged blocks
    terminates; after a crash within its block writes, recovery gives the old
    disk if at most the log blocks were written, and the new one from the
    header write on. *)
Theorem commit_crash_safe s start bs l :
  log_rep (k_log s) start bs → bs ≠ [] → quiet me s → spare s l 1 → (∀ b, refs s b < 999990) →
  (∀ b, b ∈ bs → 1 ≤ refs s b) → refs s start = 0 →
  hd_n (disk_block (k_disk s) start) = 0 → length (disk_block (k_disk s) start) = 1024%nat →
  ∃ s' ws, commit s = Ret tt s' ∧ k_log s' = set_lh_n 0 (k_log s) ∧
    k_writes s' = k_writes s ++ ws ∧ k_disk s' = apply_writes ws (k_disk s) ∧
    ∀ ws1, ws1 `prefix_of` ws →
      recovers me (apply_writes ws1 (k_disk s)) start
        (if decide (length ws1 ≤ length bs)%nat then disk_block (k_disk s)
         else installed bs (view s) (disk_block (k_disk s))).
Proof.
  intros Hlg Hne Hq Hsp Hmax Hpin Hr0 Hn Hl.
  destruct (commit_ok me s start bs l Hlg Hne Hq Hsp Hmax Hpin) as (s'&Hr&_&Hk&He).
  eexists s', _. split; [exact Hr|]. clear Hr.
  split_and!; [exact Hk|apply (ef_writes _ _ _ _ _ He)|apply (ef_disk _ _ _ _ _ He)|].
  assert (view s start = disk_block (k_disk s) start) as Hvs.
  { destruct Hq as [ring Hbc]. eapply refs_zero_clean; [by eapply bc_bufs|done]. }
  intros ws1 Hpre. destruct Hlg. eapply (commit_prefix_recovers me); try done.
Qed.


(** [log_write] within a transaction records the block in the log once: a
    block that is already logged is absorbed, a new one is appended and its
    buffer pinned. It writes nothing to the disk and changes no contents. *)
Theorem log_write_correct s held i bno start bs :
  holds me s held i bno → txn_log (k_log s) start bs → (length bs < 29)%nat →
  0 ≤ bno < 2 ^ 31 → bno < start ∨ start + 30 < bno → refs s bno < 999990 →
  ∃ s', log_write i s = Ret tt s' ∧ holds me s' held i bno ∧ txn_log (k_log s') start (logged bs bno) ∧
    log_effect s s' [] (λ b, refs s b + if decide (b = bno ∧ bno ∉ bs) then 1 else 0).
Proof.
  intros Hh Hl H1 H2 H3 H4. destruct (log_write_ok me s held i bno start bs Hh Hl H1 H2 H3 H4)
    as (s'&Hr&Ha&Hb&Hc&_). exists s'. split; [exact Hr|]. clear Hr. done.
Qed.


End contract.

(** ** Examples *)

Lemma empty_cache_disk me s ring d :
  bcache me s ring ∅ → (∀ b, find_buf s b = None) → bcache me (set_k_disk d s) ring ∅.
Proof.
  intros [He Hr Hb] Hf. split.
  - apply (env_ext me [] s); [done|by left|done|done].
  - by apply (ring_ok_ext s).
  - apply (bufs_ok_ext me s _ ∅); try done; [exact (bo_free _ _ _ Hb)|exact (bo_ref _ _ _ Hb)|].
    intros j Hj Hd. exfalso. assert (caches s (b_blockno (buf_of j s)) j = true) as Hc by (by apply caches_eq).
    by rewrite (find_buf_None s (b_blockno (buf_of j s)) j) in Hc.
Qed.

(** The idle kernel with a log at block 2 of an empty disk, and with disk [d]. *)
Definition log0 : log := Log 2 30 0 0 1 0 (replicate 30 0).
Definition with_log (d : gmap Z (list Z)) (s : kernel) : kernel := set_k_log log0 (set_k_disk d s).
Definition logging_kernel (d : gmap Z (list Z)) : kernel := with_log d idle_kernel.

Lemma with_log_find d s b : find_buf (with_log d s) b = find_buf s b.
Proof. done. Qed.

Lemma with_log_quiet d s ring :
  bcache 0 s ring ∅ → (∀ b, find_buf s b = None) → quiet 0 (with_log d s).
Proof.
  intros Hbc Hf. exists ring. apply (bcache_ext 0 (set_k_disk d s)); try done; [|by left].
  by apply empty_cache_disk.
Qed.

Lemma logging_refs d b : refs (logging_kernel d) b = 0.
Proof. unfold refs, logging_kernel. destruct idle_ok as (_&Hf&_). by rewrite with_log_find, Hf. Qed.

Lemma logging_quiet d : quiet 0 (logging_kernel d).
Proof. destruct idle_ok as (Hbc&Hf&_). exact (with_log_quiet d idle_kernel _ Hbc Hf). Qed.

Lemma log0_rep : log_rep log0 2 [].
Proof. split; try done; [cbn; lia|by intros b Hb%elem_of_nil|constructor]. Qed.

Lemma with_log_idle s : quiet 0 (with_log ∅ s) → (∀ b, refs (with_log ∅ s) b = 0) → idle_log 0 (with_log ∅ s) 2.
Proof. intros Hq Hr. split; try done. apply log0_rep. Qed.

Lemma logging_idle : idle_log 0 (logging_kernel ∅) 2.
Proof. exact (with_log_idle idle_kernel (logging_quiet ∅) (logging_refs ∅)). Qed.

Lemma with_log_writes d s : k_writes (with_log d s) = k_writes s.
Proof. done. Qed.

Lemma with_log_disk d s : k_disk (with_log d s) = d.
Proof. done. Qed.

Lemma with_log_fresh d s : quiet 0 (with_log d s) → (∀ b, refs (with_log d s) b = 0) → fresh 0 (with_log d s) 2.
Proof. intros Hq Hr. by split. Qed.


(** A transaction that has logged block 40. *)
Lemma logged_state :
  ∃ s bs, in_txn 0 (logging_kernel ∅) s 2 [(40, [7])] bs ∧ bs ≠ [] ∧ (length bs ≤ 1)%nat.
Proof.
  destruct (begin_ok 0 (FU := 10%nat) (logging_kernel ∅) 2 logging_idle) as (s1&_&Hin).
  destruct (updates_ok 0 (FU := 10%nat) (D := polled_disk) (logging_kernel ∅) 2 [(40, [7])] [] [] s1 Hin)
    as (s2&bs&_&Hin2); [cbn; lia| |].
  - intros b Hb. cbn in Hb. apply elem_of_cons in Hb as [->|[]%elem_of_nil]; lia.
  - exists s2, bs. cbn [app] in Hin2. split_and!; [done| |apply (it_len _ _ _ _ _ _ Hin2)].
    intros ->. pose proof (proj2 (it_blocks _ _ _ _ _ _ Hin2 40) ltac:(by left)) as H40.
    by apply elem_of_nil in H40.
Qed.

Lemma commit_crash_safe_witness :
  ∃ s s', @commit 10%nat polled_disk s = Ret tt s' ∧ lh_n (k_log s') = 0.
Proof.
  destruct logged_state as (s&bs&Hin&Hne&Hlen).
  pose proof (it_refs _ _ _ _ _ _ Hin) as Hrefs.
  pose proof (tx_rep _ _ _ (it_log _ _ _ _ _ _ Hin)) as Hrep.
  destruct (@commit_crash_safe 0 10%nat polled_disk polled_disk_ok s 2 bs bs) as (s'&ws&Hr&Hk&_).
  - exact Hrep.
  - exact Hne.
  - apply Hin.
  - split; [|unfold NBUF; lia]. intros b. rewrite Hrefs. by destruct (decide (b ∈ bs)).
  - intros b. rewrite Hrefs. destruct (decide (b ∈ bs)); lia.
  - intros b Hb. rewrite Hrefs, decide_True by done. lia.
  - rewrite Hrefs, decide_False; [done|]. intros Hx. destruct (lr_home _ _ _ Hrep 2 Hx). lia.
  - rewrite (it_disk _ _ _ _ _ _ Hin). unfold logging_kernel. rewrite with_log_disk. reflexivity.
  - rewrite (it_disk _ _ _ _ _ _ Hin). unfold logging_kernel. rewrite with_log_disk. reflexivity.
  - exists s, s'. split; [exact Hr|]. rewrite Hk. reflexivity.
Defined.

(** A disk whose log holds block 40. *)
Definition crashed_disk : gmap Z (list Z) :=
  apply_writes (seq_writes (2 + 1) ((λ _, [7]) <$> [40]) ++
    [(2, head_data (disk_block ∅ 2) [40])]) ∅.


Lemma log_write_correct_witness :
  ∃ i s s', @bread 10%nat polled_disk ROOTDEV 40 (logging_kernel ∅) = Ret i s ∧
    log_write i (set_k_log (set_l_outstanding 1 log0) s) = Ret tt s' ∧ lh_n (k_log s') = 1.
Proof.
  destruct (read_step 0 (FU := 10%nat) (D := polled_disk) (logging_kernel ∅) ∅ [] 40)
    as (i&s&Hr&_&Hh&He&_).
  - apply logging_quiet.
  - intros j Hj. exfalso. clear -Hj. set_solver.
  - left. split; [|cbn; unfold NBUF; lia]. intros b. by rewrite logging_refs.
  - rewrite logging_refs. lia.
  - destruct (log_write_correct 0 (D := polled_disk)
      (set_k_log (set_l_outstanding 1 log0) s) _ i 40 2 [] (holds_set_log _ _ _ _ _ _ Hh)) as (s'&Hr'&_&Hl&_).
    + split; [destruct log0_rep; by split|reflexivity|reflexivity|cbn; lia].
    + cbn. lia.
    + lia.
    + lia.
    + change (refs s 40 < 999990). rewrite (ef_refs _ _ _ _ _ He), logging_refs.
      rewrite decide_True by done. lia.
    + exists i, s, s'. split; [exact Hr|]. split; [exact Hr'|]. rewrite (lr_n _ _ _ (tx_rep _ _ _ Hl)). reflexivity.
Defined.

