(* ===== verification/FsTxn.v ===== *)
(** * File-system operations within a transaction (fs.c over log.c and bio.c)

    [txn me s start bs hs]: process [me] runs a transaction that has logged the
    blocks [bs], and holds the buffers [hs], each with its block. This is what
    the layers of fs.c see of the cache and the log: blocks are read as
    [view], changed and logged, and released. Whatever an operation does to
    blocks by these steps is atomic with respect to crashes. *)

From S2P Require Import Prelude State Mem Kstring Spinlock Kalloc Vm Proc ProcSpec.
From S2P Require Import Sleeplock SleepSpec Bio BioList BioSpec BioInit Log LogSpec LogTxn.

(** ** Description *)

(** Everything outside the log, the cache, the disk and the process states is
    as it was. *)
Definition fs_frame (s s' : kernel) : Prop :=
  s' = set_k_hart (k_hart s') (set_k_procs (k_procs s') (set_k_bufs (k_bufs s')
    (set_k_slocks (k_slocks s') (set_k_disk (k_disk s') (set_k_writes (k_writes s')
      (set_k_log (k_log s') s)))))).

(** From [s] to [s'] the blocks changed to [v], in memory only. *)
Record fs_step (s s' : kernel) (v : Z → list Z) : Prop := {
  fp_view b : view s' b = v b;
  fp_disk : k_disk s' = k_disk s;
  fp_writes : k_writes s' = k_writes s;
  fp_out : l_outstanding (k_log s') = l_outstanding (k_log s);
  fp_com : l_committing (k_log s') = l_committing (k_log s);
  fp_frame : fs_frame s s';
  fp_slock i : slock_of (SL_inode i) s' = slock_of (SL_inode i) s;
  fp_pid i : p_pid (proc_of i s') = p_pid (proc_of i s);
}.

Section fstxn.
Context (me : nat) {FU : Fuel} {D : Disk} {DO : DiskOk D}.

(** The cache as a reader sees it: the blocks [bs] are pinned, the buffers [hs]
    are held, and a block that is not pinned is as on the disk. *)
Record cached (s : kernel) (bs : list Z) (hs : list (nat * Z)) : Prop := {
  ca_cache : ∃ ring, bcache me s ring (list_to_set hs.*1);
  ca_block i b : (i, b) ∈ hs → b_blockno (buf_of i s) = b;
  ca_nodup : NoDup hs.*1;
  ca_uniq : NoDup hs.*2;
  ca_refs b : refs s b = (if decide (b ∈ bs) then 1 else 0) + (if decide (b ∈ hs.*2) then 1 else 0);
  ca_clean b : b ∉ bs → view s b = disk_block (k_disk s) b;
}.

(** A transaction that has logged, and so pinned, the blocks [bs]. *)
Record txn (s : kernel) (start : Z) (bs : list Z) (hs : list (nat * Z)) : Prop := {
  tn_cached : cached s bs hs;
  tn_log : txn_log (k_log s) start bs;
}.

(** A block a transaction may log. *)
Definition home (start b : Z) : Prop := 0 ≤ b < 2 ^ 31 ∧ (b < start ∨ start + 30 < b).

(** ** Steps *)

Lemma fs_frame_bio s s' : bio_frame s s' → fs_frame s s'.
Proof. intros Hf. unfold fs_frame. rewrite (bio_frame_log s s' Hf). destruct Hf as [Hf _]. rewrite Hf at 1. by destruct s. Qed.

Lemma fs_frame_trans s s1 s2 : fs_frame s s1 → fs_frame s1 s2 → fs_frame s s2.
Proof. unfold fs_frame. intros H1 H2. rewrite H2. rewrite H1 at 1. done. Qed.

Lemma fs_step_refl s : fs_step s s (view s).
Proof. split; [done..| |done|done]. unfold fs_frame. by destruct s. Qed.

Lemma fs_step_trans s s1 s2 v1 v2 : fs_step s s1 v1 → fs_step s1 s2 v2 → fs_step s s2 v2.
Proof. intros [] []. split; [done|..|by eapply fs_frame_trans| |]; congruence. Qed.

Lemma fs_step_of s s' v r : effect s s' [] v r → fs_step s s' v.
Proof.
  intros [H1 H2 H3 H4 H5]. pose proof (bio_frame_log s s' H5) as Hk.
  split; [done|done|by rewrite app_nil_r in H2|by rewrite Hk|by rewrite Hk|by apply fs_frame_bio|apply H5|apply H5].
Qed.

Lemma fs_step_view s s' v w : fs_step s s' v → (∀ b, v b = w b) → fs_step s s' w.
Proof. intros [] Hv. split; [|done..]. intros b. by rewrite <- Hv. Qed.

Lemma held_neq s bs hs b :
  cached s bs hs → b ∉ hs.*2 →
  ∀ j, j ∈ (list_to_set hs.*1 : gset nat) → b_blockno (buf_of j s) ≠ b.
Proof.
  intros Ht Hb j Hj%elem_of_list_to_set. apply list_elem_of_fmap in Hj as ([j' b']&->&Hin).
  cbn. rewrite (ca_block _ _ _ Ht _ _ Hin). intros ->. apply Hb. apply list_elem_of_fmap. by exists (j', b).
Qed.

Lemma cached_bread s bs hs b :
  cached s bs hs → b ∉ hs.*2 → (length bs + length hs < 30)%nat →
  ∃ i s', bread ROOTDEV b s = Ret i s' ∧ cached s' bs ((i, b) :: hs) ∧ fs_step s s' (view s) ∧
    b_data (buf_of i s') = view s b ∧ k_log s' = k_log s.
Proof.
  intros Ht Hb Hlen. pose proof Ht as [Hc Hbl Hnd Hu Hrefs Hclean].
  destruct (read_step me s (list_to_set hs.*1) (bs ++ hs.*2) b) as (i&s'&Hr&Hni&Hh&He&Hother).
  - done.
  - by eapply held_neq.
  - left. split; [|rewrite length_app, length_fmap; unfold NBUF; lia]. intros x. rewrite Hrefs, elem_of_app.
    repeat case_decide; tauto || lia.
  - rewrite Hrefs. repeat case_decide; lia.
  - pose proof (fs_step_of _ _ _ _ He) as Hs. exists i, s'. split_and!; [exact Hr| |done| |].
    + split; cbn [fmap list_fmap fst snd].
      * destruct Hh as (Hring&_). by rewrite list_to_set_cons.
      * intros j b' [[= -> ->]|Hin]%elem_of_cons; [apply Hh|]. rewrite Hother; [by apply Hbl|].
        intros ->. apply Hni, elem_of_list_to_set, list_elem_of_fmap. by exists (i, b').
      * constructor; [|done]. intros Hin. by apply Hni, elem_of_list_to_set.
      * by constructor.
      * intros x. rewrite (ef_refs _ _ _ _ _ He), Hrefs. rewrite (decide_ext (x ∈ b :: hs.*2) (x = b ∨ x ∈ hs.*2)) by apply elem_of_cons.
        destruct (decide (x = b)) as [->|]; [rewrite (decide_False (P := b ∈ hs.*2)) by done; rewrite (decide_True (P := b = b ∨ _)) by tauto; lia|].
        rewrite (decide_ext (x = b ∨ x ∈ hs.*2) (x ∈ hs.*2)) by tauto. lia.
      * intros x Hx. rewrite (fp_view _ _ _ Hs), (fp_disk _ _ _ Hs). by apply Hclean.
    + rewrite (holds_data me s' _ i b Hh). apply (fp_view _ _ _ Hs).
    + apply (bio_frame_log s s'), He.
Qed.

Lemma txn_bread s start bs hs b :
  txn s start bs hs → b ∉ hs.*2 → (length bs + length hs < 30)%nat →
  ∃ i s', bread ROOTDEV b s = Ret i s' ∧ txn s' start bs ((i, b) :: hs) ∧ fs_step s s' (view s) ∧
    b_data (buf_of i s') = view s b.
Proof.
  intros [Hc Hl] Hb Hlen. destruct (cached_bread s bs hs b Hc Hb Hlen) as (i&s'&Hr&Hc'&Hs&Hd&Hk).
  exists i, s'. split_and!; [exact Hr| |done|done]. split; [done|by rewrite Hk].
Qed.

(** The buffer held last. *)
Lemma cached_holds s bs i b hs :
  cached s bs ((i, b) :: hs) → holds me s (list_to_set (i :: hs.*1)) i b.
Proof.
  intros Ht. split_and!; [apply (ca_cache _ _ _ Ht)|set_solver|apply (ca_block _ _ _ Ht)]. by left.
Qed.

Definition put_block (b : Z) (d : list Z) (v : Z → list Z) : Z → list Z :=
  λ x, if decide (x = b) then d else v x.

(** Changing the data of a buffer and logging it. *)
Lemma txn_modify s start bs i b hs g d :
  txn s start bs ((i, b) :: hs) → g (buf_of i s) = set_b_data d (buf_of i s) → home start b → (length bs < 29)%nat →
  ∃ s1 s', on_buf i g s = Ret tt s1 ∧ log_write i s1 = Ret tt s' ∧ txn s' start (logged bs b) ((i, b) :: hs) ∧
    fs_step s s' (put_block b d (view s)).
Proof.
  intros Ht Hg [Hb Hhome] Hlen. pose proof Ht as [[_ Hbl Hnd Hu Hrefs Hclean] Hlog].
  destruct (update_step me s _ i b g d (cached_holds _ _ _ _ _ (tn_cached _ _ _ _ Ht)) Hg) as (s1&Hr1&Hh1&He1&Hsame1).
  assert (k_log s1 = k_log s) as Hk1 by (apply (bio_frame_log s s1), He1).
  assert (b ∈ ((i, b) :: hs).*2) as Hin by (cbn; by left).
  assert (refs s b = (if decide (b ∈ bs) then 1 else 0) + 1) as Hrb by (by rewrite Hrefs, (decide_True (P := b ∈ _.*2))).
  destruct (log_write_ok me s1 _ i b start bs Hh1) as (s2&Hr2&Hh2&Hlog2&He2&Hk2&Hsame2).
  { by rewrite Hk1. } { done. } { done. } { done. }
  { rewrite (ef_refs _ _ _ _ _ He1), Hrb. case_decide; lia. }
  assert (∀ j, b_blockno (buf_of j s2) = b_blockno (buf_of j s)) as Hsame by (intros j; by rewrite Hsame2, Hsame1).
  assert (fs_step s s2 (put_block b d (view s))) as Hs.
  { destruct He1 as [A1 B1 C1 _ F1]. destruct He2 as [A2 B2 C2 _ F2]. cbn in *. rewrite app_nil_r in B1, B2. split.
    - intros x. rewrite C2, C1. done.
    - by rewrite A2, A1.
    - by rewrite B2, B1.
    - rewrite Hk2, Hk1. apply log_put_rest.
    - rewrite Hk2, Hk1. apply log_put_rest.
    - apply (fs_frame_trans s s1); [by apply fs_frame_bio|]. unfold fs_frame. destruct F2 as [F2 _].
      rewrite F2 at 1. done.
    - intros x. destruct F1 as (_&F1&_), F2 as (_&F2&_). etransitivity; [apply F2|apply F1].
    - intros x. destruct F1 as (_&_&F1), F2 as (_&_&F2). etransitivity; [apply F2|apply F1]. }
  exists s1, s2. split_and!; [exact Hr1|exact Hr2| |done]. split; [split|done].
  - destruct Hh2 as (Hring&_). exact Hring.
  - intros j x Hj. rewrite Hsame. by apply Hbl.
  - done.
  - done.
  - intros x. rewrite (ef_refs _ _ _ _ _ He2), (ef_refs _ _ _ _ _ He1), Hrefs.
    rewrite (decide_ext (x ∈ logged bs b) (x ∈ bs ∨ x = b)) by apply elem_logged.
    destruct (decide (x ∈ bs)) as [Hx|Hx], (decide (x = b)) as [->|Hne].
    + rewrite (decide_False (P := b = b ∧ b ∉ bs)), (decide_True (P := b ∈ bs ∨ b = b)) by tauto. lia.
    + rewrite (decide_False (P := x = b ∧ b ∉ bs)), (decide_True (P := x ∈ bs ∨ x = b)) by tauto. lia.
    + rewrite (decide_True (P := b = b ∧ b ∉ bs)), (decide_True (P := b ∈ bs ∨ b = b)) by tauto. lia.
    + rewrite (decide_False (P := x = b ∧ b ∉ bs)), (decide_False (P := x ∈ bs ∨ x = b)) by tauto. lia.
  - intros x Hx. rewrite elem_logged in Hx. rewrite (fp_view _ _ _ Hs), (fp_disk _ _ _ Hs). unfold put_block.
    rewrite decide_False by tauto. apply Hclean. tauto.
Qed.

Lemma cached_brelse s bs i b hs :
  cached s bs ((i, b) :: hs) →
  ∃ s', brelse i s = Ret tt s' ∧ cached s' bs hs ∧ fs_step s s' (view s) ∧ k_log s' = k_log s.
Proof.
  intros Ht. pose proof Ht as [_ Hbl Hnd Hu Hrefs Hclean]. cbn in Hnd, Hu.
  apply NoDup_cons in Hnd as [Hi Hnd]. apply NoDup_cons in Hu as [Hb Hu].
  destruct (release_step me s _ i b (cached_holds _ _ _ _ _ Ht)) as (s'&Hr&Hq&He&Hsame).
  { intros H1. apply Hclean. intros Hin. revert H1. rewrite Hrefs, (decide_True (P := b ∈ bs)) by done.
    rewrite decide_True by (cbn; by left). lia. }
  pose proof (fs_step_of _ _ _ _ He) as Hs. exists s'. split_and!; [exact Hr| |done|apply (bio_frame_log s s'), He]. split.
  - destruct Hq as [ring Hq]. exists ring. replace (list_to_set hs.*1) with ((list_to_set (i :: hs.*1) : gset nat) ∖ {[i]}); [done|].
    apply set_eq. intros j. rewrite elem_of_difference, elem_of_singleton, !elem_of_list_to_set, elem_of_cons. 
    split; [tauto|]. intros Hj. split; [tauto|]. by intros ->.
  - intros j x Hj. rewrite Hsame. apply Hbl. by right.
  - done.
  - done.
  - intros x. rewrite (ef_refs _ _ _ _ _ He), Hrefs. cbn [fmap list_fmap snd].
    rewrite (decide_ext (x ∈ b :: hs.*2) (x = b ∨ x ∈ hs.*2)) by apply elem_of_cons.
    destruct (decide (x = b)) as [->|].
    + rewrite (decide_True (P := b = b ∨ _)), (decide_False (P := b ∈ hs.*2)) by tauto. lia.
    + rewrite (decide_ext (x = b ∨ x ∈ hs.*2) (x ∈ hs.*2)) by tauto. lia.
  - intros x Hx. rewrite (fp_view _ _ _ Hs), (fp_disk _ _ _ Hs). by apply Hclean.
Qed.

Lemma txn_brelse s start bs i b hs :
  txn s start bs ((i, b) :: hs) → ∃ s', brelse i s = Ret tt s' ∧ txn s' start bs hs ∧ fs_step s s' (view s).
Proof.
  intros [Hc Hl]. destruct (cached_brelse s bs i b hs Hc) as (s'&Hr&Hc'&Hs&Hk).
  exists s'. split_and!; [exact Hr| |done]. split; [done|by rewrite Hk].
Qed.

(** What [cached], [txn] and [view] depend on. *)
Definition same_cache (s s' : kernel) : Prop :=
  k_bufs s' = k_bufs s ∧ (∀ i, slock_of (SL_buf i) s' = slock_of (SL_buf i) s) ∧ k_disk s' = k_disk s ∧
  (∀ i, p_pid (proc_of i s') = p_pid (proc_of i s)) ∧ length (k_procs s') = length (k_procs s) ∧
  k_locks s' = k_locks s ∧ (k_hart s' = k_hart s ∨ k_hart s' = hart_tick (k_hart s)).

Lemma view_ext s s' b : k_bufs s' = k_bufs s → k_disk s' = k_disk s → view s' b = view s b.
Proof.
  intros H1 H3. assert (∀ j, buf_of j s' = buf_of j s) as Hbuf by (intros j; unfold buf_of; by rewrite H1).
  assert (find_buf s' b = find_buf s b) as Hfind.
  { unfold find_buf. apply first_match_ext. intros i _. unfold caches. by rewrite Hbuf. }
  unfold view. rewrite Hfind. destruct (find_buf s b); [by rewrite Hbuf, H3|by rewrite H3].
Qed.

Lemma cached_ext s s' bs hs : cached s bs hs → same_cache s s' → cached s' bs hs.
Proof.
  intros [[ring Hc] Hbl Hnd Hu Hrefs Hclean] (H1&H2&H3&H5&H6&H7&H8).
  assert (∀ j, buf_of j s' = buf_of j s) as Hbuf by (intros j; unfold buf_of; by rewrite H1).
  split.
  - exists ring. by apply (bcache_ext me s).
  - intros i b. rewrite Hbuf. apply Hbl.
  - done.
  - done.
  - intros b. rewrite <- Hrefs. unfold refs. assert (find_buf s' b = find_buf s b) as ->.
    { unfold find_buf. apply first_match_ext. intros i _. unfold caches. by rewrite Hbuf. }
    destruct (find_buf s b); [by rewrite Hbuf|done].
  - intros b Hb. rewrite (view_ext s s'), H3 by done. by apply Hclean.
Qed.

Lemma txn_ext s s' start bs hs : txn s start bs hs → same_cache s s' → k_log s' = k_log s → txn s' start bs hs.
Proof. intros [Hc Hl] Hs Hk. split; [by eapply cached_ext|by rewrite Hk]. Qed.

Lemma cached_env s bs hs : cached s bs hs → env me [] s.
Proof. intros Ht. destruct (ca_cache _ _ _ Ht) as [ring Hc]. apply Hc. Qed.

Lemma txn_env s start bs hs : txn s start bs hs → env me [] s.
Proof. intros [Hc _]. by apply cached_env in Hc. Qed.

(** ** Atomicity *)

(** Between [begin_op] and [end_op] an operation ends with nothing held and at
    most 29 blocks logged; it writes nothing itself. *)
Definition well_behaved {A : Type} (body : M A) (start : Z) (t : kernel) : Prop :=
  ∃ a t' bs, body t = Ret a t' ∧ txn t' start bs [] ∧ (length bs ≤ 29)%nat ∧
    k_disk t' = k_disk t ∧ k_writes t' = k_writes t ∧
    l_outstanding (k_log t') = l_outstanding (k_log t) ∧ l_committing (k_log t') = l_committing (k_log t).

Lemma in_txn_start s start s1 : idle_log me s start → in_txn me s s1 start [] [] → txn s1 start [] [].
Proof.
  intros Hi [Hq Hlog _ _ Hr _ _ _ _ _]. split; [|done]. split; cbn [fmap list_fmap].
  - done.
  - by intros i b ?%elem_of_nil.
  - constructor.
  - constructor.
  - intros b. rewrite Hr. by repeat (rewrite decide_False by (by intros ?%elem_of_nil)).
  - intros b _. destruct Hq as [ring Hbc]. eapply refs_zero_clean; [by eapply bc_bufs|].
    rewrite Hr. by rewrite decide_False by (by intros ?%elem_of_nil).
Qed.

(** What a transaction changed, block by block. *)
Lemma txn_in_txn s s1 start t bs :
  idle_log me s start → in_txn me s s1 start [] [] → txn t start bs [] →
  k_disk t = k_disk s1 → k_writes t = k_writes s1 →
  l_outstanding (k_log t) = l_outstanding (k_log s1) → l_committing (k_log t) = l_committing (k_log s1) →
  in_txn me s t start ((λ b, (b, view t b)) <$> bs) bs.
Proof.
  intros Hi Hin [[Hc Hbl Hnd Hu Hrefs Hclean] Hlog] Hd Hw Ho Hco.
  assert (((λ b, (b, view t b)) <$> bs).*1 = bs) as Hfst by (rewrite <- list_fmap_compose; apply list_fmap_id).
  split.
  - exact Hc.
  - done.
  - by rewrite Ho, (it_out _ _ _ _ _ _ Hin).
  - by rewrite Hco, (it_com _ _ _ _ _ _ Hin).
  - intros b. rewrite Hrefs. cbn [fmap list_fmap]. rewrite (decide_False (P := b ∈ [])) by (by intros ?%elem_of_nil). lia.
  - intros b. destruct (decide (b ∈ bs)) as [Hb|Hb].
    + symmetry. apply overlay_in; [rewrite Hfst; apply (lr_nodup _ _ _ (tx_rep _ _ _ Hlog))|].
      apply list_elem_of_fmap. by exists b.
    + rewrite overlay_notin by (by rewrite Hfst). rewrite Hclean, Hd, (it_disk _ _ _ _ _ _ Hin) by done. symmetry.
      destruct (il_quiet _ _ _ Hi) as [ring Hbc]. eapply refs_zero_clean; [by eapply bc_bufs|apply Hi].
  - by rewrite Hd, (it_disk _ _ _ _ _ _ Hin).
  - by rewrite Hw, (it_writes _ _ _ _ _ _ Hin).
  - intros b. by rewrite Hfst.
  - by rewrite length_fmap.
Qed.

Lemma begin_frame s s' start : idle_log me s start → begin_op s = Ret tt s' → fs_frame s s'.
Proof.
  intros [[ring Hbc] _ Hlog _ _ Ho Hc _ _] Hr. rewrite (begin_op_run me) in Hr; [|apply Hbc|done|].
  - injection Hr as <-. unfold fs_frame, tick. kernel_eq.
  - rewrite (lr_n _ _ _ Hlog), Ho. unfold LOGSIZE, MAXOPBLOCKS. cbn. lia.
Qed.

(** The blocks a transaction leaves in the cache are the new contents. *)
Lemma op_ok {A : Type} (body : M A) s start :
  idle_log me s start → (∀ t, begin_op s = Ret tt t → txn t start [] [] → well_behaved body start t) →
  ∃ t a t' s' ws, begin_op s = Ret tt t ∧ body t = Ret a t' ∧ (begin_op;; a ← body; end_op;; mret a) s = Ret a s' ∧
    idle_log me s' start ∧ k_writes s' = k_writes s ++ ws ∧ k_disk s' = apply_writes ws (k_disk s) ∧
    (∀ b, b < start ∨ start + 30 < b → disk_block (k_disk s') b = view t' b) ∧
    ∀ ws1, ws1 `prefix_of` ws →
      recovers me (apply_writes ws1 (k_disk s)) start (disk_block (k_disk s)) ∨
      recovers me (apply_writes ws1 (k_disk s)) start (view t').
Proof.
  intros Hi Hbody. destruct (begin_ok me s start Hi) as (s1&Hr1&Hin1).
  destruct (Hbody s1 Hr1 (in_txn_start _ _ _ Hi Hin1)) as (a&t&bs&Hr2&Ht&Hlen&Hd&Hw&Ho&Hc).
  pose proof (txn_in_txn s s1 start t bs Hi Hin1 Ht Hd Hw Ho Hc) as Hin2.
  destruct (end_ok me s t start _ bs Hi Hin2 Hlen) as (s'&ws&Hr3&Hi'&Hws&Hdisk&Hnew&Hcrash).
  assert (∀ b, overlay ((λ b, (b, view t b)) <$> bs) (disk_block (k_disk s)) b = view t b) as Hv.
  { intros b. rewrite (it_view _ _ _ _ _ _ Hin2). apply overlay_ext. symmetry.
    destruct (il_quiet _ _ _ Hi) as [ring Hbc]. eapply refs_zero_clean; [by eapply bc_bufs|apply Hi]. }
  exists s1, a, t, s', ws. refine (conj Hr1 (conj Hr2 (conj _ (conj Hi' (conj Hws (conj Hdisk (conj _ _))))))).
  - rewrite (bind_Ret _ _ _ _ _ Hr1), (bind_Ret _ _ _ _ _ Hr2), (bind_Ret _ _ _ _ _ Hr3). done.
  - intros b Hb. rewrite Hnew by done. apply Hv.
  - intros ws1 Hp. destruct (Hcrash ws1 Hp) as [H1|H2]; [by left|right]. eapply recovers_ext; [exact H2|]. intros b _. apply Hv.
Qed.

End fstxn.

(** ** An example file system

    The idle kernel of BioInit with disk [d], whose log at block 2 is empty, and
    superblock [sb]. *)

Definition with_fs (d : gmap Z (list Z)) (sb : superblock) (s : kernel) : kernel := set_k_sb sb (with_log d s).
Definition fs_kernel (d : gmap Z (list Z)) (sb : superblock) : kernel := with_fs d sb idle_kernel.

Lemma with_fs_idle d sb s ring :
  bcache 0 s ring ∅ → (∀ b, find_buf s b = None) → hd_n (disk_block d 2) = 0 →
  length (disk_block d 2) = 1024%nat → idle_log 0 (with_fs d sb s) 2.
Proof.
  intros Hbc Hf Hn Hl. assert (∀ b, refs (with_fs d sb s) b = 0) as Hr.
  { intros b. unfold refs. change (find_buf (with_fs d sb s) b) with (find_buf s b). by rewrite Hf. }
  destruct (with_log_quiet d s ring Hbc Hf) as [ring' Hq].
  split; try done; [|apply log0_rep].
  exists ring'. apply (bcache_ext 0 (with_log d s)); try done. by left.
Qed.

Lemma fs_kernel_idle d sb :
  hd_n (disk_block d 2) = 0 → length (disk_block d 2) = 1024%nat → idle_log 0 (fs_kernel d sb) 2.
Proof. destruct idle_ok as (Hbc&Hf&_). exact (with_fs_idle d sb idle_kernel _ Hbc Hf). Qed.

Lemma with_fs_fields d sb s : k_sb (with_fs d sb s) = sb ∧ k_disk (with_fs d sb s) = d.
Proof. done. Qed.

Lemma with_fs_idle_fields d sb :
  k_sb (fs_kernel d sb) = sb ∧ k_panicked (fs_kernel d sb) = 0 ∧
  k_inodes (fs_kernel d sb) = replicate NINODE zero_inode ∧ k_mem (fs_kernel d sb) = ∅.
Proof. unfold fs_kernel. rewrite idle_frame. done. Qed.

(** The same with a transaction begun. *)
Lemma fs_started d sb :
  hd_n (disk_block d 2) = 0 → length (disk_block d 2) = 1024%nat →
  ∃ s, begin_op (H := 10%nat) (fs_kernel d sb) = Ret tt s ∧ txn 0 s 2 [] [] ∧ (∀ b, view s b = disk_block d b) ∧
    k_sb s = sb ∧ k_panicked s = 0 ∧ k_inodes s = replicate NINODE zero_inode ∧ k_mem s = ∅.
Proof.
  intros Hn Hl. pose proof (fs_kernel_idle d sb Hn Hl) as Hi.
  destruct (begin_ok 0 (FU := 10%nat) (fs_kernel d sb) 2 Hi) as (s&Hr&Hin).
  exists s. split; [exact Hr|]. pose proof (begin_frame 0 (FU := 10%nat) _ _ _ Hi Hr) as Hfr. clear Hr.
  split; [by eapply in_txn_start|]. split.
  2: { rewrite Hfr. exact (with_fs_idle_fields d sb). }
  intros b. rewrite (it_view _ _ _ _ _ _ Hin). cbn.
  destruct (il_quiet _ _ _ Hi) as [ring Hbc]. rewrite (refs_zero_clean 0 (fs_kernel d sb) ∅); [|apply Hbc|apply Hi].
  unfold fs_kernel. by rewrite (proj2 (with_fs_fields d sb idle_kernel)).
Qed.
