(* ===== verification/Fs.v ===== *)
(** * kernel/fs.c: blocks, inodes, directories and path names

    The five layers of fs.c over the log and the buffer cache. In-memory
    inodes are referred to by index in [itable]; a path is the list of the
    bytes before its NUL, and a name the bytes of its [char name[DIRSIZ]].
    Structures inside a block are read and written at their offsets. *)

From S2P Require Import Prelude State Mem Kstring Spinlock Kalloc Vm Proc Uart Printf Sleeplock Bio Log.

(** ** Layout *)

Definition BBLOCK (b : Z) (sb : superblock) : Z := u32 (b / BPB + sb_bmapstart sb).
Definition IBLOCK (i : Z) (sb : superblock) : Z := u32 (i / IPB + sb_inodestart sb).

(** [struct superblock] as it lies in block 1. *)
Definition get_superblock (d : list Z) : superblock :=
  Superblock (get32 d 0) (get32 d 4) (get32 d 8) (get32 d 12) (get32 d 16) (get32 d 20)
    (get32 d 24) (get32 d 28).

(** [struct dinode]: type, major, minor, nlink (16 bits each), size, addrs. *)
Definition dinode_off (inum : Z) : nat := Z.to_nat (inum mod IPB * sizeof_dinode).
Definition di_type (d : list Z) (o : nat) : Z := i16 (get16 d o).
Definition di_major (d : list Z) (o : nat) : Z := i16 (get16 d (o + 2)).
Definition di_minor (d : list Z) (o : nat) : Z := i16 (get16 d (o + 4)).
Definition di_nlink (d : list Z) (o : nat) : Z := i16 (get16 d (o + 6)).
Definition di_size (d : list Z) (o : nat) : Z := get32 d (o + 8).
Definition di_addrs (d : list Z) (o : nat) : list Z :=
  map (λ k, get32 d (o + 12 + 4 * k)) (seq 0 13).

(** [memmove(dip->addrs, ip->addrs, sizeof(ip->addrs))]. *)
Fixpoint put_addrs (d : list Z) (o : nat) (addrs : list Z) : list Z :=
  match addrs with
  | [] => d
  | a :: addrs' => put_addrs (put32 d o a) (o + 4) addrs'
  end.

Definition put_dinode (d : list Z) (o : nat) (ip : inode) : list Z :=
  let d := put16 d o (u16 (i_type ip)) in
  let d := put16 d (o + 2) (u16 (i_major ip)) in
  let d := put16 d (o + 4) (u16 (i_minor ip)) in
  let d := put16 d (o + 6) (u16 (i_nlink ip)) in
  let d := put32 d (o + 8) (i_size ip) in
  put_addrs d (o + 12) (i_addrs ip).

(** Bit [bi] of a bitmap block. *)
Definition bit_mask (bi : Z) : Z := Z.shiftl 1 (bi mod 8).
Definition byte_at (d : list Z) (i : Z) : Z := default 0 (d !! Z.to_nat i).
Definition bit_free (d : list Z) (bi : Z) : bool :=
  Z.land (byte_at d (bi / 8)) (bit_mask bi) =? 0.
Definition set_bit (d : list Z) (bi : Z) : list Z :=
  <[Z.to_nat (bi / 8) := Z.lor (byte_at d (bi / 8)) (bit_mask bi)]> d.
Definition clear_bit (d : list Z) (bi : Z) : list Z :=
  <[Z.to_nat (bi / 8) := u8 (Z.land (byte_at d (bi / 8)) (Z.lnot (bit_mask bi)))]> d.

(** The inner loop of [balloc] from bit [bi]: the first free bit. *)
Fixpoint find_bit (n : nat) (d : list Z) (bi b size : Z) : option Z :=
  match n with
  | O => None
  | S n' =>
      if (bi <? BPB) && (b + bi <? size) then
        if bit_free d bi then Some bi else find_bit n' d (bi + 1) b size
      else None
  end.

(** ** Names *)

(** [strncmp] on two buffers. *)
Fixpoint strncmp_bytes (n : nat) (s t : list Z) : Z :=
  match n with
  | O => 0
  | S n' =>
      let x := default 0 (head s) in
      let y := default 0 (head t) in
      if negb (x =? 0) && (x =? y) then strncmp_bytes n' (tail s) (tail t) else x - y
  end.

Definition namecmp (s t : list Z) : Z := strncmp_bytes (Z.to_nat DIRSIZ) s t.

(** The [n] bytes [strncpy] stores. *)
Fixpoint strncpy_bytes (n : nat) (t : list Z) : list Z :=
  match n with
  | O => []
  | S n' =>
      let x := default 0 (head t) in
      x :: (if x =? 0 then replicate n' 0 else strncpy_bytes n' (tail t))
  end.

(** Skip the slashes at the front of [path]. *)
Fixpoint skip_slashes (path : list Z) : list Z :=
  match path with
  | c :: path' => if c =? 47 then skip_slashes path' else path
  | [] => []
  end.

(** The element at the front of [path], and what follows it. *)
Fixpoint span_elem (path : list Z) : list Z * list Z :=
  match path with
  | c :: path' =>
      if c =? 47 then ([], path)
      else let r := span_elem path' in (c :: r.1, r.2)
  | [] => ([], [])
  end.

(** [skipelem(path, name)]: the rest of the path and the new [name]. *)
Definition skipelem (path name : list Z) : option (list Z * list Z) :=
  let path := skip_slashes path in
  match path with
  | [] => None
  | _ =>
      let r := span_elem path in
      let len := length r.1 in
      let name' :=
        if DIRSIZ <=? Z.of_nat len then splice name 0 (take (Z.to_nat DIRSIZ) r.1)
        else <[len := 0]> (splice name 0 r.1) in
      Some (skip_slashes r.2, name')
  end.

Section model.
Context `{Image} `{Fuel} `{Disk} `{Mmio}.

(** ** Blocks *)

Definition data_of (b : nat) : M (list Z) := gets (λ s, b_data (buf_of b s)).

Definition readsb (dev : Z) : M unit :=
  bp ← bread dev 1;
  d ← data_of bp;
  modify (set_k_sb (get_superblock d));;
  brelse bp.

Definition fsinit (dev : Z) : M unit :=
  readsb dev;;
  sb ← gets k_sb;
  if negb (sb_magic sb =? FSMAGIC) then panic "invalid file system" else initlog dev sb.

Definition bzero (dev bno : Z) : M unit :=
  bp ← bread dev bno;
  set_data bp (replicate (Z.to_nat BSIZE) 0);;
  log_write bp;;
  brelse bp.

Fixpoint balloc_loop (n : nat) (dev b : Z) : M Z :=
  sb ← gets k_sb;
  if negb (b <? sb_size sb) then
    printf ("balloc: out of blocks" +:+ nl) [];; mret 0
  else
    match n with
    | O => out_of_fuel
    | S n' =>
        bp ← bread dev (BBLOCK b sb);
        d ← data_of bp;
        match find_bit (Z.to_nat BPB) d 0 b (sb_size sb) with
        | Some bi =>
            set_data bp (set_bit d bi);;
            log_write bp;;
            brelse bp;;
            bzero dev (b + bi);;
            mret (b + bi)
        | None => brelse bp;; balloc_loop n' dev (b + BPB)
        end
    end.

(** One round per bitmap block. *)
Definition balloc (dev : Z) : M Z :=
  sb ← gets k_sb;
  balloc_loop (S (Z.to_nat (sb_size sb / BPB))) dev 0.

Definition bfree (dev b : Z) : M unit :=
  sb ← gets k_sb;
  bp ← bread dev (BBLOCK b sb);
  let bi := b mod BPB in
  d ← data_of bp;
  if bit_free d bi then panic "freeing free block"
  else
    set_data bp (clear_bit d bi);;
    log_write bp;;
    brelse bp.

(** ** Inodes *)

Definition inode_of (i : nat) (s : kernel) : inode := default zero_inode (k_inodes s !! i).

Definition on_inode (i : nat) (f : inode → inode) : M unit :=
  modify (λ s, set_k_inodes (alter f i (k_inodes s)) s).

Definition iinit : M unit :=
  initlock L_itable "itable";;
  for_each (seq 0 NINODE) (λ i, initsleeplock (SL_inode i) "inode").

(** The scan of [iget]: a referenced entry for the inode, or the first empty
    one. *)
Fixpoint iget_scan (l : list nat) (dev inum : Z) (empty : option nat) : M (option nat * option nat) :=
  match l with
  | [] => mret (None, empty)
  | i :: l' =>
      ip ← gets (inode_of i);
      if (0 <? i_ref ip) && (i_dev ip =? dev) && (i_inum ip =? inum) then mret (Some i, empty)
      else
        iget_scan l' dev inum
          (match empty with None => if i_ref ip =? 0 then Some i else None | _ => empty end)
  end.

Definition iget (dev inum : Z) : M nat :=
  acquire L_itable;;
  r ← iget_scan (seq 0 NINODE) dev inum None;
  match r with
  | (Some i, _) =>
      on_inode i (λ ip, set_i_ref (i32 (i_ref ip + 1)) ip);;
      release L_itable;;
      mret i
  | (None, None) => panic "iget: no inodes"
  | (None, Some i) =>
      on_inode i (set_i_dev dev);;
      on_inode i (set_i_inum inum);;
      on_inode i (set_i_ref 1);;
      on_inode i (set_i_valid 0);;
      release L_itable;;
      mret i
  end.

Fixpoint ialloc_loop (n : nat) (dev inum type : Z) : M (option nat) :=
  sb ← gets k_sb;
  if negb (inum <? sb_ninodes sb) then printf ("ialloc: no inodes" +:+ nl) [];; mret None
  else
    match n with
    | O => out_of_fuel
    | S n' =>
        bp ← bread dev (IBLOCK inum sb);
        d ← data_of bp;
        let o := dinode_off inum in
        if di_type d o =? 0 then
          set_data bp (put16 (splice d o (replicate (Z.to_nat sizeof_dinode) 0)) o (u16 type));;
          log_write bp;;
          brelse bp;;
          i ← iget dev inum;
          mret (Some i)
        else brelse bp;; ialloc_loop n' dev (inum + 1) type
    end.

Definition ialloc (dev type : Z) : M (option nat) :=
  sb ← gets k_sb;
  ialloc_loop (Z.to_nat (sb_ninodes sb)) dev 1 type.

Definition iupdate (i : nat) : M unit :=
  ip ← gets (inode_of i);
  sb ← gets k_sb;
  bp ← bread (i_dev ip) (IBLOCK (i_inum ip) sb);
  ip ← gets (inode_of i);
  on_buf bp (λ x, set_b_data (put_dinode (b_data x) (dinode_off (i_inum ip)) ip) x);;
  log_write bp;;
  brelse bp.

Definition idup (i : nat) : M nat :=
  acquire L_itable;;
  on_inode i (λ ip, set_i_ref (i32 (i_ref ip + 1)) ip);;
  release L_itable;;
  mret i.

(** [ilock(ip)]; the argument is a pointer. *)
Definition ilock (p : option nat) : M unit :=
  match p with
  | None => panic "ilock"
  | Some i =>
      ref ← gets (λ s, i_ref (inode_of i s));
      if ref <? 1 then panic "ilock"
      else
        acquiresleep (SL_inode i);;
        ip ← gets (inode_of i);
        if i_valid ip =? 0 then
          sb ← gets k_sb;
          bp ← bread (i_dev ip) (IBLOCK (i_inum ip) sb);
          d ← data_of bp;
          let o := dinode_off (i_inum ip) in
          on_inode i (λ ip, Inode (i_dev ip) (i_inum ip) (i_ref ip) (i_valid ip) (di_type d o)
            (di_major d o) (di_minor d o) (di_nlink d o) (di_size d o) (di_addrs d o));;
          brelse bp;;
          on_inode i (set_i_valid 1);;
          if di_type d o =? 0 then panic "ilock: no type" else mret tt
        else mret tt
  end.

Definition iunlock (p : option nat) : M unit :=
  match p with
  | None => panic "iunlock"
  | Some i =>
      h ← holdingsleep (SL_inode i);
      ref ← gets (λ s, i_ref (inode_of i s));
      if negb h || (ref <? 1) then panic "iunlock" else releasesleep (SL_inode i)
  end.

(** [ip->addrs[k]]. *)
Definition addr_of (i k : nat) (s : kernel) : Z := default 0 (i_addrs (inode_of i s) !! k).
Definition set_addr (i k : nat) (a : Z) : M unit :=
  on_inode i (λ ip, set_i_addrs (<[k := a]> (i_addrs ip)) ip).

Definition itrunc (i : nat) : M unit :=
  for_each (seq 0 (Z.to_nat NDIRECT)) (λ k,
    a ← gets (addr_of i k);
    dev ← gets (λ s, i_dev (inode_of i s));
    when (negb (a =? 0)) (bfree dev a;; set_addr i k 0));;
  a ← gets (addr_of i (Z.to_nat NDIRECT));
  dev ← gets (λ s, i_dev (inode_of i s));
  when (negb (a =? 0))
    (bp ← bread dev a;
     for_each (seq 0 (Z.to_nat NINDIRECT)) (λ j,
       d ← data_of bp;
       let aj := get32 d (4 * j) in
       when (negb (aj =? 0)) (bfree dev aj));;
     brelse bp;;
     bfree dev a;;
     set_addr i (Z.to_nat NDIRECT) 0);;
  on_inode i (set_i_size 0);;
  iupdate i.

Definition iput (i : nat) : M unit :=
  acquire L_itable;;
  ip ← gets (inode_of i);
  when ((i_ref ip =? 1) && negb (i_valid ip =? 0) && (i_nlink ip =? 0))
    (acquiresleep (SL_inode i);;
     release L_itable;;
     itrunc i;;
     on_inode i (set_i_type 0);;
     iupdate i;;
     on_inode i (set_i_valid 0);;
     releasesleep (SL_inode i);;
     acquire L_itable);;
  on_inode i (λ ip, set_i_ref (i32 (i_ref ip - 1)) ip);;
  release L_itable.

Definition iunlockput (i : nat) : M unit := iunlock (Some i);; iput i.

(** ** Contents *)

Definition bmap (i : nat) (bn : Z) : M Z :=
  dev ← gets (λ s, i_dev (inode_of i s));
  if bn <? NDIRECT then
    addr ← gets (addr_of i (Z.to_nat bn));
    if addr =? 0 then
      addr ← balloc dev;
      if addr =? 0 then mret 0 else set_addr i (Z.to_nat bn) addr;; mret addr
    else mret addr
  else
    let bn := bn - NDIRECT in
    if bn <? NINDIRECT then
      addr ← gets (addr_of i (Z.to_nat NDIRECT));
      addr ← (if addr =? 0 then
                addr ← balloc dev;
                when (negb (addr =? 0)) (set_addr i (Z.to_nat NDIRECT) addr);;
                mret addr
              else mret addr);
      if addr =? 0 then mret 0
      else
        bp ← bread dev addr;
        d ← data_of bp;
        let addr := get32 d (4 * Z.to_nat bn) in
        addr ← (if addr =? 0 then
                  addr ← balloc dev;
                  when (negb (addr =? 0))
                    (on_buf bp (λ x, set_b_data (put32 (b_data x) (4 * Z.to_nat bn) addr) x);;
                     log_write bp);;
                  mret addr
                else mret addr);
        brelse bp;;
        mret addr
    else panic "bmap: out of range".

(** [struct stat] as [stati] fills it: dev, ino, type, nlink, size, at the
    offsets of stat.h. *)
Definition stat_bytes (ip : inode) : list Z :=
  to_le 4 (u32 (i_dev ip)) ++ to_le 4 (i_inum ip) ++ to_le 2 (u16 (i_type ip)) ++
  to_le 2 (u16 (i_nlink ip)) ++ replicate 4 0 ++ to_le 8 (i_size ip).

Definition stati (i : nat) : M (list Z) := gets (λ s, stat_bytes (inode_of i s)).

(** The loop of [readi]; every round copies at least a byte. *)
Fixpoint readi_loop (k : nat) (i : nat) (user_dst : bool) (dst off n tot : Z) : M Z :=
  if negb (tot <? n) then mret tot
  else
    match k with
    | O => out_of_fuel
    | S k' =>
        addr ← bmap i (off / BSIZE);
        if addr =? 0 then mret tot
        else
          dev ← gets (λ s, i_dev (inode_of i s));
          bp ← bread dev addr;
          let m := Z.min (n - tot) (BSIZE - off mod BSIZE) in
          d ← data_of bp;
          r ← either_copyout user_dst dst (sub d (Z.to_nat (off mod BSIZE)) (Z.to_nat m));
          if r =? -1 then brelse bp;; mret (u32 (-1))
          else brelse bp;; readi_loop k' i user_dst (u64 (dst + m)) (u32 (off + m)) n (tot + m)
    end.

Definition readi (i : nat) (user_dst : bool) (dst off n : Z) : M Z :=
  size ← gets (λ s, i_size (inode_of i s));
  if (size <? off) || (u32 (off + n) <? off) then mret 0
  else
    let n := if size <? u32 (off + n) then u32 (size - off) else n in
    tot ← readi_loop (Z.to_nat n) i user_dst dst off n 0;
    mret (i32 tot).

(** The loop of [writei]: the bytes written and the offset reached. *)
Fixpoint writei_loop (k : nat) (i : nat) (user_src : bool) (src off n tot : Z) : M (Z * Z) :=
  if negb (tot <? n) then mret (tot, off)
  else
    match k with
    | O => out_of_fuel
    | S k' =>
        addr ← bmap i (off / BSIZE);
        if addr =? 0 then mret (tot, off)
        else
          dev ← gets (λ s, i_dev (inode_of i s));
          bp ← bread dev addr;
          let m := Z.min (n - tot) (BSIZE - off mod BSIZE) in
          r ← either_copyin user_src src m;
          on_buf bp (λ x, set_b_data (splice (b_data x) (Z.to_nat (off mod BSIZE)) r.2) x);;
          if r.1 =? -1 then brelse bp;; mret (tot, off)
          else
            log_write bp;;
            brelse bp;;
            writei_loop k' i user_src (u64 (src + m)) (u32 (off + m)) n (tot + m)
    end.

Definition writei (i : nat) (user_src : bool) (src off n : Z) : M Z :=
  size ← gets (λ s, i_size (inode_of i s));
  if (size <? off) || (u32 (off + n) <? off) then mret (-1)
  else if MAXFILE * BSIZE <? u32 (off + n) then mret (-1)
  else
    r ← writei_loop (Z.to_nat n) i user_src src off n 0;
    size ← gets (λ s, i_size (inode_of i s));
    when (size <? r.2) (on_inode i (set_i_size r.2));;
    iupdate i;;
    mret (i32 r.1).

(** ** Directories *)

(** [struct dirent] in the local [de]: [inum], then [name]. *)
Definition de_inum : M Z := gets (λ s, ld16 (k_mem s) image_local).
Definition de_name : M (list Z) :=
  gets (λ s, ld_bytes (Z.to_nat DIRSIZ) (k_mem s) (image_local + 2)).

Fixpoint dirlookup_loop (k : nat) (dp : nat) (name : list Z) (off : Z) : M (option (nat * Z)) :=
  size ← gets (λ s, i_size (inode_of dp s));
  if negb (off <? size) then mret None
  else
    match k with
    | O => out_of_fuel
    | S k' =>
        r ← readi dp false image_local off sizeof_dirent;
        if negb (r =? sizeof_dirent) then panic "dirlookup read"
        else
          inum ← de_inum;
          if inum =? 0 then dirlookup_loop k' dp name (u32 (off + sizeof_dirent))
          else
            de ← de_name;
            if namecmp name de =? 0 then
              dev ← gets (λ s, i_dev (inode_of dp s));
              i ← iget dev inum;
              mret (Some (i, off))
            else dirlookup_loop k' dp name (u32 (off + sizeof_dirent))
    end.

(** The entry's inode and, for [poff], its offset. *)
Definition dirlookup (dp : nat) (name : list Z) : M (option (nat * Z)) :=
  ip ← gets (inode_of dp);
  if negb (i_type ip =? T_DIR) then panic "dirlookup not DIR"
  else dirlookup_loop (S (Z.to_nat (i_size ip / sizeof_dirent))) dp name 0.

(** The loop of [dirlink]: the offset of the first free entry, or the end. *)
Fixpoint dirlink_loop (k : nat) (dp : nat) (off : Z) : M Z :=
  size ← gets (λ s, i_size (inode_of dp s));
  if negb (off <? size) then mret off
  else
    match k with
    | O => out_of_fuel
    | S k' =>
        r ← readi dp false image_local off sizeof_dirent;
        if negb (r =? sizeof_dirent) then panic "dirlink read"
        else
          inum ← de_inum;
          if inum =? 0 then mret off else dirlink_loop k' dp (off + sizeof_dirent)
    end.

Definition dirlink (dp : nat) (name : list Z) (inum : Z) : M Z :=
  found ← dirlookup dp name;
  match found with
  | Some (ip, _) => iput ip;; mret (-1)
  | None =>
      size ← gets (λ s, i_size (inode_of dp s));
      off ← dirlink_loop (S (Z.to_nat (size / sizeof_dirent))) dp 0;
      on_mem (λ m, st_bytes m (image_local + 2) (strncpy_bytes (Z.to_nat DIRSIZ) name));;
      on_mem (λ m, st16 m image_local (u16 inum));;
      r ← writei dp false image_local off sizeof_dirent;
      if negb (r =? sizeof_dirent) then mret (-1) else mret 0
  end.

(** ** Paths *)

Fixpoint namex_loop (k : nat) (ip : nat) (path : list Z) (parent : bool) (name : list Z)
    : M (option nat * list Z) :=
  match skipelem path name with
  | None => if parent then iput ip;; mret (None, name) else mret (Some ip, name)
  | Some (path', name') =>
      match k with
      | O => out_of_fuel
      | S k' =>
          ilock (Some ip);;
          type ← gets (λ s, i_type (inode_of ip s));
          if negb (type =? T_DIR) then iunlockput ip;; mret (None, name')
          else if parent && bool_decide (path' = []) then
            iunlock (Some ip);; mret (Some ip, name')
          else
            next ← dirlookup ip name';
            match next with
            | None => iunlockput ip;; mret (None, name')
            | Some (ip', _) => iunlockput ip;; namex_loop k' ip' path' parent name'
            end
      end
  end.

Definition namex (path : list Z) (parent : bool) (name : list Z) : M (option nat * list Z) :=
  ip ← (if bool_decide (head path = Some 47) then iget ROOTDEV ROOTINO
        else
          p ← myproc;
          i ← deref p;
          cwd ← gets (λ s, p_cwd (proc_of i s));
          cwd ← deref cwd;
          idup cwd);
  namex_loop (length path) ip path parent name.

Definition namei (path : list Z) : M (option nat) :=
  r ← namex path false (replicate (Z.to_nat DIRSIZ) 0);
  mret r.1.

(** The directory and the last element, in [name]. *)
Definition nameiparent (path name : list Z) : M (option nat * list Z) := namex path true name.

End model.
