(* ===== verification/FsBlock.v ===== *)
(** * The block allocator (fs.c: balloc, bfree, bzero)

    The bitmap as a set of free blocks: [balloc] takes the first of them out
    and zeroes it, [bfree] puts one back. *)

From S2P Require Import Prelude State Mem Kstring Spinlock Kalloc Vm Proc ProcSpec SchedSpec Uart UartSpec.
From S2P Require Import Printf PrintfSpec Sleeplock SleepSpec Bio BioList BioSpec BioInit Log LogSpec LogTxn FsTxn Fs.

(** ** Description *)

(** The block's bit in the bitmap is clear. *)
Definition block_free (sb : superblock) (v : Z → list Z) (b : Z) : bool :=
  bit_free (v (BBLOCK b sb)) (b mod BPB).

(** The bitmap blocks are whole blocks of bytes outside the log, and so are the
    blocks they call free. *)
Record bitmap_ok (sb : superblock) (start : Z) (v : Z → list Z) : Prop := {
  bm_size : 0 ≤ sb_size sb < 2 ^ 31;
  bm_home b : 0 ≤ b < sb_size sb → home start (BBLOCK b sb);
  bm_len b : 0 ≤ b < sb_size sb → length (v (BBLOCK b sb)) = 1024%nat;
  bm_bytes b : 0 ≤ b < sb_size sb → Forall (λ x, 0 ≤ x < 256) (v (BBLOCK b sb));
  bm_data b : 0 ≤ b < sb_size sb → block_free sb v b = true → home start b ∧ ∀ x, 0 ≤ x < sb_size sb → BBLOCK x sb ≠ b;
}.

Definition zero_block : list Z := replicate (Z.to_nat BSIZE) 0.

(** The blocks after [balloc] gave out [b]. *)
Definition after_balloc (sb : superblock) (b : Z) (v : Z → list Z) : Z → list Z :=
  put_block b zero_block (put_block (BBLOCK b sb) (set_bit (v (BBLOCK b sb)) (b mod BPB)) v).

Definition after_bfree (sb : superblock) (b : Z) (v : Z → list Z) : Z → list Z :=
  put_block (BBLOCK b sb) (clear_bit (v (BBLOCK b sb)) (b mod BPB)) v.

(** ** Bits *)

Lemma bit_free_testbit d bi :
  0 ≤ bi → bit_free d bi = negb (Z.testbit (byte_at d (bi / 8)) (bi mod 8)).
Proof.
  intros Hb. unfold bit_free, bit_mask. rewrite Z.shiftl_1_l. set (k := bi mod 8). set (x := byte_at _ _).
  assert (0 ≤ k) as Hk by (apply Z.mod_pos_bound; lia).
  destruct (Z.testbit x k) eqn:E; cbn.
  - apply Z.eqb_neq. intros H0. apply (f_equal (λ z, Z.testbit z k)) in H0.
    rewrite Z.land_spec, E, Z.pow2_bits_true, Z.bits_0 in H0 by done. done.
  - apply Z.eqb_eq. apply Z.bits_inj'. intros n Hn. rewrite Z.land_spec, Z.bits_0, Z.pow2_bits_eqb by done.
    destruct (k =? n) eqn:En; [|apply andb_false_r]. apply Z.eqb_eq in En. subst n. by rewrite E.
Qed.

Lemma byte_at_insert d i j x :
  0 ≤ i < Z.of_nat (length d) → 0 ≤ j →
  byte_at (<[Z.to_nat i := x]> d) j = if decide (i = j) then x else byte_at d j.
Proof.
  intros Hi Hj. unfold byte_at. destruct (decide (i = j)) as [->|Hne].
  - by rewrite list_lookup_insert_eq by lia.
  - by rewrite list_lookup_insert_ne by lia.
Qed.

Lemma same_bit bi bj : bi / 8 = bj / 8 → bi mod 8 = bj mod 8 → bi = bj.
Proof. intros H1 H2. rewrite (Z.div_mod bi 8), (Z.div_mod bj 8) by lia. lia. Qed.

Lemma bit_free_set d bi bj :
  0 ≤ bi < 8 * Z.of_nat (length d) → 0 ≤ bj →
  bit_free (set_bit d bi) bj = if decide (bi = bj) then false else bit_free d bj.
Proof.
  intros Hi Hj. assert (0 ≤ bi / 8 < Z.of_nat (length d)) as Hd by (split; [apply Z.div_pos; lia|apply Z.div_lt_upper_bound; lia]).
  rewrite !bit_free_testbit by done. unfold set_bit. rewrite byte_at_insert by (done || apply Z.div_pos; lia).
  pose proof (Z.mod_pos_bound bi 8 ltac:(lia)). pose proof (Z.mod_pos_bound bj 8 ltac:(lia)).
  destruct (decide (bi / 8 = bj / 8)) as [He|He].
  - unfold bit_mask. rewrite Z.shiftl_1_l, Z.lor_spec, Z.pow2_bits_eqb by lia.
    destruct (decide (bi = bj)) as [->|Hne]; [by rewrite Z.eqb_refl, orb_true_r|].
    rewrite (proj2 (Z.eqb_neq _ _)), orb_false_r, He; [done|]. intros Hm. by apply Hne, same_bit.
  - destruct (decide (bi = bj)) as [->|]; [done|done].
Qed.

Lemma bit_free_clear d bi bj :
  0 ≤ bi < 8 * Z.of_nat (length d) → 0 ≤ bj →
  bit_free (clear_bit d bi) bj = if decide (bi = bj) then true else bit_free d bj.
Proof.
  intros Hi Hj. assert (0 ≤ bi / 8 < Z.of_nat (length d)) as Hd by (split; [apply Z.div_pos; lia|apply Z.div_lt_upper_bound; lia]).
  rewrite !bit_free_testbit by done. unfold clear_bit. rewrite byte_at_insert by (done || apply Z.div_pos; lia).
  pose proof (Z.mod_pos_bound bi 8 ltac:(lia)). pose proof (Z.mod_pos_bound bj 8 ltac:(lia)).
  destruct (decide (bi / 8 = bj / 8)) as [He|He].
  - unfold bit_mask, u8. change 256 with (2 ^ 8). rewrite Z.mod_pow2_bits_low by lia.
    rewrite Z.shiftl_1_l, Z.land_spec, Z.lnot_spec, Z.pow2_bits_eqb by lia.
    destruct (decide (bi = bj)) as [->|Hne]; [by rewrite Z.eqb_refl, andb_false_r|].
    rewrite (proj2 (Z.eqb_neq _ _)), andb_true_r, He; [done|]. intros Hm. by apply Hne, same_bit.
  - destruct (decide (bi = bj)) as [->|]; [done|done].
Qed.

(** The first free bit from [bi] on, below the end of the disk. *)
Lemma find_bit_spec n d bi b size :
  0 ≤ bi → BPB ≤ bi + Z.of_nat n →
  match find_bit n d bi b size with
  | Some k => bi ≤ k < BPB ∧ b + k < size ∧ bit_free d k = true ∧ ∀ j, bi ≤ j < k → bit_free d j = false
  | None => ∀ j, bi ≤ j < BPB → b + j < size → bit_free d j = false
  end.
Proof.
  revert bi. induction n as [|n IH]; intros bi Hbi Hn; cbn [find_bit]; [lia|].
  destruct ((bi <? BPB) && (b + bi <? size)) eqn:Hc.
  - apply andb_true_iff in Hc as [H1%Z.ltb_lt H2%Z.ltb_lt].
    destruct (bit_free d bi) eqn:Hf; [split_and!; [lia..|done|lia]|].
    specialize (IH (bi + 1) ltac:(lia) ltac:(lia)). destruct (find_bit n d (bi + 1) b size) as [k|].
    + destruct IH as (A&B&C&E). split_and!; [lia..|done|]. intros j Hj. destruct (decide (j = bi)) as [->|]; [done|]. apply E. lia.
    + intros j Hj Hs. destruct (decide (j = bi)) as [->|]; [done|]. apply IH; lia.
  - intros j Hj Hs. apply andb_false_iff in Hc as [H1%Z.ltb_ge|H2%Z.ltb_ge]; lia.
Qed.

#[local] Opaque find_bit.

(** ** The bitmap as a set *)

Lemma BBLOCK_inj sb x y :
  0 ≤ x < 2 ^ 31 → 0 ≤ y < 2 ^ 31 → BBLOCK x sb = BBLOCK y sb → x / BPB = y / BPB.
Proof.
  unfold BBLOCK, u32. intros Hx Hy He. change BPB with 8192 in *.
  assert (0 ≤ x / 8192 < 262144) by (split; [apply Z.div_pos; lia|apply Z.div_lt_upper_bound; lia]).
  assert (0 ≤ y / 8192 < 262144) by (split; [apply Z.div_pos; lia|apply Z.div_lt_upper_bound; lia]).
  assert ((x / 8192 - y / 8192) mod 4294967296 = 0) as Hz.
  { rewrite <- (Z.mod_0_l 4294967296), <- (Z.sub_diag ((x / 8192 + sb_bmapstart sb) mod 4294967296)) by lia.
    rewrite He at 2. rewrite <- Zminus_mod. f_equal. lia. }
  apply Z.mod_divide in Hz as [k Hk]; [|lia]. assert (k = 0) by lia. subst k. lia.
Qed.

Lemma block_bits sb start v b :
  bitmap_ok sb start v → 0 ≤ b < sb_size sb → 0 ≤ b mod BPB < 8 * Z.of_nat (length (v (BBLOCK b sb))).
Proof. intros Hb Hr. rewrite (bm_len _ _ _ Hb) by done. apply (Z.mod_pos_bound b BPB). done. Qed.

(** A change of one bit, seen as a change of one block's state. *)
Lemma block_free_put sb start v b d x (f : bool) :
  bitmap_ok sb start v → 0 ≤ b < sb_size sb → 0 ≤ x < sb_size sb →
  (∀ bj, 0 ≤ bj → bit_free d bj = if decide (b mod BPB = bj) then f else bit_free (v (BBLOCK b sb)) bj) →
  block_free sb (put_block (BBLOCK b sb) d v) x = if decide (x = b) then f else block_free sb v x.
Proof.
  intros Hb Hr Hx Hd. pose proof (bm_size _ _ _ Hb). unfold block_free, put_block.
  pose proof (Z.mod_pos_bound x BPB ltac:(done)).
  destruct (decide (BBLOCK x sb = BBLOCK b sb)) as [He|He].
  - rewrite Hd by lia. destruct (decide (x = b)) as [->|Hne]; [by rewrite decide_True|].
    rewrite decide_False by (intros Hm; apply Hne; apply BBLOCK_inj in He; [|lia..];
      rewrite (Z.div_mod x BPB), (Z.div_mod b BPB) by done; by rewrite He, Hm).
    by rewrite He.
  - destruct (decide (x = b)) as [->|]; done.
Qed.

Lemma free_after_balloc sb start v b x :
  bitmap_ok sb start v → 0 ≤ b < sb_size sb → block_free sb v b = true → 0 ≤ x < sb_size sb →
  block_free sb (after_balloc sb b v) x = if decide (x = b) then false else block_free sb v x.
Proof.
  intros Hb Hr Hf Hx. destruct (bm_data _ _ _ Hb b Hr Hf) as [_ Hnb].
  rewrite <- (block_free_put sb start v b (set_bit (v (BBLOCK b sb)) (b mod BPB)) x false); try done.
  - unfold block_free, after_balloc. unfold put_block at 1. rewrite decide_False by (by apply Hnb). done.
  - intros bj Hj. rewrite bit_free_set; [|by eapply block_bits|done]. done.
Qed.

Lemma free_after_bfree sb start v b x :
  bitmap_ok sb start v → 0 ≤ b < sb_size sb → 0 ≤ x < sb_size sb →
  block_free sb (after_bfree sb b v) x = if decide (x = b) then true else block_free sb v x.
Proof.
  intros Hb Hr Hx. apply (block_free_put sb start); try done.
  intros bj Hj. rewrite bit_free_clear; [|by eapply block_bits|done]. done.
Qed.

Section alloc.
Context (me : nat) {FU : Fuel} {D : Disk} {DO : DiskOk D} {U : Mmio} {UO : Uart16550 FU U}.

(** The blocks after one more logged change. *)
Lemma put_block_ext b d v w x : (∀ y, v y = w y) → put_block b d v x = put_block b d w x.
Proof. intros Hv. unfold put_block. by rewrite Hv. Qed.

(** Reading a block, changing it, logging it and releasing it. *)
Lemma block_update s start bs b d hs :
  txn me s start bs hs → b ∉ hs.*2 → home start b → (length bs + length hs < 29)%nat →
  ∃ i s1 s2 s3 s4, bread ROOTDEV b s = Ret i s1 ∧ b_data (buf_of i s1) = view s b ∧ k_sb s1 = k_sb s ∧
    on_buf i (set_b_data d) s1 = Ret tt s2 ∧ log_write i s2 = Ret tt s3 ∧ brelse i s3 = Ret tt s4 ∧
    txn me s4 start (logged bs b) hs ∧ fs_step s s4 (put_block b d (view s)).
Proof.
  intros Ht Hb Hh Hl. destruct (txn_bread me s start bs hs b Ht Hb) as (i&s1&Hr1&Ht1&Hs1&Hd1); [lia|].
  destruct (txn_modify me s1 start bs i b hs (set_b_data d) d Ht1 eq_refl Hh) as (s2&s3&Hr2&Hr3&Ht3&Hs3); [lia|].
  destruct (txn_brelse me s3 start _ i b hs Ht3) as (s4&Hr4&Ht4&Hs4).
  exists i, s1, s2, s3, s4. split_and!; try done; [by rewrite (fp_frame _ _ _ Hs1)|].
  eapply fs_step_view; [eapply fs_step_trans; [eapply fs_step_trans; [exact Hs1|exact Hs3]|exact Hs4]|].
  intros x. rewrite (fp_view _ _ _ Hs3). apply put_block_ext. apply (fp_view _ _ _ Hs1).
Qed.

Lemma bzero_ok s start bs hs b :
  txn me s start bs hs → b ∉ hs.*2 → home start b → (length bs + length hs < 29)%nat →
  ∃ s', bzero ROOTDEV b s = Ret tt s' ∧ txn me s' start (logged bs b) hs ∧
    fs_step s s' (put_block b zero_block (view s)).
Proof.
  intros Ht Hb Hh Hl.
  destruct (block_update s start bs b zero_block hs Ht Hb Hh Hl) as (i&s1&s2&s3&s4&Hr1&_&_&Hr2&Hr3&Hr4&Ht4&Hs4).
  exists s4. split; [|done]. unfold bzero. rewrite (bind_Ret _ _ _ _ _ Hr1).
  change (set_data i (replicate (Z.to_nat BSIZE) 0)) with (on_buf i (set_b_data zero_block)).
  rewrite (bind_Ret _ _ _ _ _ Hr2), (bind_Ret _ _ _ _ _ Hr3). exact Hr4.
Qed.

(** The buffers held are of neither bitmap blocks nor free ones. *)
Definition apart (s : kernel) (hs : list (nat * Z)) : Prop :=
  ∀ b, 0 ≤ b < sb_size (k_sb s) →
    BBLOCK b (k_sb s) ∉ hs.*2 ∧ (block_free (k_sb s) (view s) b = true → b ∉ hs.*2).

Lemma apart_nil s : apart s [].
Proof. intros b _. split; [|intros _]; apply not_elem_of_nil. Qed.

(** Allocation within the bitmap block of [b0]. *)
Lemma balloc_found s start bs hs b :
  txn me s start bs hs → apart s hs → bitmap_ok (k_sb s) start (view s) → 0 ≤ b < sb_size (k_sb s) →
  block_free (k_sb s) (view s) b = true → (length bs + length hs < 28)%nat →
  ∃ i s1 s', bread ROOTDEV (BBLOCK b (k_sb s)) s = Ret i s1 ∧ b_data (buf_of i s1) = view s (BBLOCK b (k_sb s)) ∧
    (set_data i (set_bit (view s (BBLOCK b (k_sb s))) (b mod BPB));; log_write i;; brelse i;;
     bzero ROOTDEV b;; mret b) s1 = Ret b s' ∧
    txn me s' start (logged (logged bs (BBLOCK b (k_sb s))) b) hs ∧
    fs_step s s' (after_balloc (k_sb s) b (view s)).
Proof.
  intros Ht Hap Hbm Hr Hf Hl. destruct (bm_data _ _ _ Hbm b Hr Hf) as [Hhome _]. destruct (Hap b Hr) as [Hn1 Hn2].
  destruct (block_update s start bs (BBLOCK b (k_sb s)) (set_bit (view s (BBLOCK b (k_sb s))) (b mod BPB)) hs Ht)
    as (i&s1&s2&s3&s4&Hr1&Hd&_&Hr2&Hr3&Hr4&Ht4&Hs4); [done|by apply (bm_home _ _ _ Hbm)|lia|].
  destruct (bzero_ok s4 start _ hs b Ht4 (Hn2 Hf) Hhome) as (s5&Hr5&Ht5&Hs5); [pose proof (length_logged bs (BBLOCK b (k_sb s))); lia|].
  exists i, s1, s5. split_and!; [exact Hr1|exact Hd| |done|].
  - change (set_data i ?d) with (on_buf i (set_b_data d)).
    rewrite (bind_Ret _ _ _ _ _ Hr2), (bind_Ret _ _ _ _ _ Hr3), (bind_Ret _ _ _ _ _ Hr4), (bind_Ret _ _ _ _ _ Hr5). done.
  - eapply fs_step_view; [eapply fs_step_trans; [exact Hs4|exact Hs5]|]. intros x. apply put_block_ext, Hs4.
Qed.

(** Blocks below [b] are in use. *)
Definition used_below (s : kernel) (b : Z) : Prop :=
  ∀ x, 0 ≤ x < b → x < sb_size (k_sb s) → block_free (k_sb s) (view s) x = false.

Lemma BBLOCK_in b k sb : b mod BPB = 0 → 0 ≤ b → 0 ≤ k < BPB → BBLOCK (b + k) sb = BBLOCK b sb ∧ (b + k) mod BPB = k.
Proof.
  intros Hm Hb Hk. change BPB with 8192 in *. unfold BBLOCK. change BPB with 8192.
  assert ((b + k) / 8192 = b / 8192 ∧ (b + k) mod 8192 = k) as [-> ->]; [|done].
  zdm.
Qed.

(** What [balloc] returns: the first free block, zeroed and taken, or 0 with a
    message. *)
Definition balloc_post (s : kernel) (start : Z) (bs : list Z) (hs : list (nat * Z)) (b : Z) (s' : kernel) : Prop :=
  (0 ≤ b < sb_size (k_sb s) ∧ block_free (k_sb s) (view s) b = true ∧ used_below s b ∧
   txn me s' start (logged (logged bs (BBLOCK b (k_sb s))) b) hs ∧
   fs_step s s' (after_balloc (k_sb s) b (view s))) ∨
  (b = 0 ∧ used_below s (sb_size (k_sb s)) ∧ txn me s' start bs hs ∧
   fs_step (set_k_out (k_out s') (set_k_dev (k_dev s') s)) s' (view s) ∧
   k_out s' = k_out s ++ str_bytes ("balloc: out of blocks" +:+ nl)).
(** Only the disk image and the superblock matter to the outcome. *)
Lemma balloc_post_step s s1 start bs hs b s' :
  fs_step s s1 (view s) → balloc_post s1 start bs hs b s' → balloc_post s start bs hs b s'.
Proof.
  intros Hs Hp. assert (k_sb s1 = k_sb s) as Hsb by (by rewrite (fp_frame _ _ _ Hs)).
  assert (∀ x, block_free (k_sb s) (view s1) x = block_free (k_sb s) (view s) x) as Hfree.
  { intros x. unfold block_free. by rewrite (fp_view _ _ _ Hs). }
  unfold balloc_post, used_below in *. rewrite Hsb in Hp. destruct Hp as [(A&B&C&E&F)|(A&B&C&E&F)]; [left|right].
  - refine (conj A (conj _ (conj _ (conj E _)))).
    + by rewrite <- Hfree.
    + intros x H1 H2. rewrite <- Hfree. by apply C.
    + eapply fs_step_view; [by eapply fs_step_trans|]. intros x. unfold after_balloc.
      rewrite (fp_view _ _ _ Hs). apply put_block_ext. intros y. apply put_block_ext, Hs.
  - refine (conj A (conj _ (conj C (conj _ _)))).
    + intros x H1 H2. rewrite <- Hfree. by apply B.
    + destruct Hs as [V Di W O Co Fr Sl P], E as [V' D' W' O' C' Fr' Sl' P']. split.
      * intros x. by rewrite V'.
      * by rewrite D'.
      * by rewrite W'.
      * by rewrite O'.
      * by rewrite C'.
      * unfold fs_frame in *. rewrite Fr' at 1. rewrite Fr at 1. kernel_eq.
      * intros i. etransitivity; [apply Sl'|apply Sl].
      * intros i. etransitivity; [apply P'|apply P].
    + rewrite F. by rewrite (fp_frame _ _ _ Hs).
Qed.

Lemma balloc_full s start bs hs b :
  txn me s start bs hs → k_panicked s = 0 → used_below s b → sb_size (k_sb s) ≤ b →
  ∃ r s', (printf ("balloc: out of blocks" +:+ nl) [];; mret 0) s = Ret r s' ∧ balloc_post s start bs hs r s'.
Proof.
  intros Ht Hp Hu Hlt.
  destruct (printf_ok ("balloc: out of blocks" +:+ nl) [] (str_bytes ("balloc: out of blocks" +:+ nl)) me s
    (txn_env me s start bs hs Ht) Hp) as (s'&Hr&Hf&Hh).
  { vm_compute. reflexivity. }
  { apply Forall_forall. intros x. revert x. apply Forall_forall. vm_compute. repeat constructor; discriminate. }
  exists 0, s'. split; [by rewrite (bind_Ret _ _ _ _ _ Hr)|]. right.
  assert (∀ x, view s' x = view s x) as Hv by (by rewrite Hf).
  refine (conj eq_refl (conj _ (conj _ (conj _ _)))).
  - intros x Hx Hxs. apply Hu; lia.
  - apply (txn_ext me s); [done| |by rewrite Hf]. unfold same_cache. rewrite Hf. split_and!; try done.
  - split; [done|by rewrite Hf..| |intros i; by rewrite Hf|intros i; by rewrite Hf]. unfold fs_frame. rewrite Hf. kernel_eq.
  - by rewrite Hf.
Qed.

Lemma balloc_loop_ok n s start bs hs b :
  txn me s start bs hs → apart s hs → bitmap_ok (k_sb s) start (view s) → k_panicked s = 0 → (length bs + length hs < 28)%nat →
  0 ≤ b → b mod BPB = 0 → used_below s b → sb_size (k_sb s) ≤ b + BPB * Z.of_nat n →
  ∃ r s', balloc_loop n ROOTDEV b s = Ret r s' ∧ balloc_post s start bs hs r s'.
Proof.
  revert s b. induction n as [|n IH]; intros s b Ht Hap Hbm Hp Hl Hb Hm Hu Hn; cbn [balloc_loop]; rewrite bind_gets;
    destruct (b <? sb_size (k_sb s)) eqn:Hlt; cbn [negb]; try (apply Z.ltb_ge in Hlt; by apply (balloc_full s start bs hs b)).
  { apply Z.ltb_lt in Hlt. lia. }
  apply Z.ltb_lt in Hlt. pose proof (find_bit_spec (Z.to_nat BPB) (view s (BBLOCK b (k_sb s))) 0 b (sb_size (k_sb s))
    ltac:(lia) ltac:(unfold BPB, BSIZE; lia)) as Hfind.
  destruct (find_bit _ _ _ _ _) as [k|] eqn:Hfb.
  - destruct Hfind as (Hk&Hsz&Hfree&Hbelow). destruct (BBLOCK_in b k (k_sb s) Hm Hb Hk) as [HB Hmod].
    destruct (balloc_found s start bs hs (b + k)) as (i&s1&s'&Hr1&Hd&Hr2&Ht2&Hs2); try done; [lia|unfold block_free; by rewrite HB, Hmod|].
    rewrite HB, Hmod in *. rewrite (bind_Ret _ _ _ _ _ Hr1). unfold data_of. rewrite bind_gets, Hd, Hfb.
    exists (b + k), s'. split; [exact Hr2|]. left. rewrite HB. split_and!; try done; [lia|unfold block_free; by rewrite HB, Hmod|].
    intros x Hx Hxs. destruct (decide (x < b)); [apply Hu; lia|]. destruct (BBLOCK_in b (x - b) (k_sb s) Hm Hb) as [HB' Hm']; [lia|].
    replace (b + (x - b)) with x in * by lia. unfold block_free. rewrite HB', Hm'. apply Hbelow. lia.
  - destruct (txn_bread me s start bs hs (BBLOCK b (k_sb s)) Ht) as (i&s1&Hr1&Ht1&Hs1&Hd); [exact (proj1 (Hap b ltac:(lia)))|lia|].
    destruct (txn_brelse me s1 start bs i _ hs Ht1) as (s2&Hr2&Ht2&Hs2).
    assert (fs_step s s2 (view s)) as Hs.
    { eapply fs_step_view; [by eapply fs_step_trans|]. intros x. apply (fp_view _ _ _ Hs1). }
    assert (k_sb s2 = k_sb s ∧ k_panicked s2 = k_panicked s) as [Hsb Hpk] by (by rewrite (fp_frame _ _ _ Hs)).
    destruct (IH s2 (b + BPB)) as (r&s'&Hr&Hpost); try done.
    + intros x. unfold block_free. rewrite Hsb, (fp_view _ _ _ Hs). apply Hap.
    + destruct Hbm. rewrite Hsb. split; [done|done|..]; intros x; unfold block_free; rewrite (fp_view _ _ _ Hs); auto.
    + by rewrite Hpk.
    + unfold BPB, BSIZE. lia.
    + change BPB with 8192 in *. zdm.
    + intros x Hx Hxs. unfold block_free. rewrite Hsb in *. rewrite (fp_view _ _ _ Hs). destruct (decide (x < b)); [apply Hu; lia|].
      destruct (BBLOCK_in b (x - b) (k_sb s) Hm Hb) as [HB' Hm']; [lia|].
      replace (b + (x - b)) with x in * by lia. rewrite HB', Hm'. apply Hfind; lia.
    + rewrite Hsb. lia.
    + exists r, s'. split; [|by eapply balloc_post_step].
      rewrite (bind_Ret _ _ _ _ _ Hr1). unfold data_of. rewrite bind_gets, Hd, Hfb, (bind_Ret _ _ _ _ _ Hr2). exact Hr.
Qed.

Lemma balloc_ok s start bs hs :
  txn me s start bs hs → apart s hs → bitmap_ok (k_sb s) start (view s) → k_panicked s = 0 →
  (length bs + length hs < 28)%nat →
  ∃ b s', balloc ROOTDEV s = Ret b s' ∧ balloc_post s start bs hs b s'.
Proof.
  intros Ht Hap Hbm Hp Hl. unfold balloc. rewrite bind_gets. apply balloc_loop_ok; try done.
  - intros x Hx. lia.
  - pose proof (bm_size _ _ _ Hbm). change BPB with 8192.
    rewrite Nat2Z.inj_succ, Z2Nat.id by (apply Z.div_pos; lia). zdm.
Qed.

Lemma bfree_ok s start bs b :
  txn me s start bs [] → bitmap_ok (k_sb s) start (view s) → 0 ≤ b < sb_size (k_sb s) → (length bs < 29)%nat →
  block_free (k_sb s) (view s) b = false →
  ∃ s', bfree ROOTDEV b s = Ret tt s' ∧ txn me s' start (logged bs (BBLOCK b (k_sb s))) [] ∧
    fs_step s s' (after_bfree (k_sb s) b (view s)).
Proof.
  intros Ht Hbm Hb Hl Hf.
  destruct (block_update s start bs (BBLOCK b (k_sb s)) (clear_bit (view s (BBLOCK b (k_sb s))) (b mod BPB)) [] Ht)
    as (i&s1&s2&s3&s4&Hr1&Hd&_&Hr2&Hr3&Hr4&Ht4&Hs4); [set_solver|by apply (bm_home _ _ _ Hbm)|simpl; lia|].
  exists s4. split; [|done]. unfold bfree, data_of. rewrite bind_gets, (bind_Ret _ _ _ _ _ Hr1), bind_gets, Hd.
  unfold block_free in Hf. rewrite Hf. change (set_data i ?d) with (on_buf i (set_b_data d)).
  rewrite (bind_Ret _ _ _ _ _ Hr2), (bind_Ret _ _ _ _ _ Hr3). exact Hr4.
Qed.

Lemma bfree_panics s start bs b :
  txn me s start bs [] → (length bs < 29)%nat → block_free (k_sb s) (view s) b = true →
  ∃ s', bfree ROOTDEV b s = Panic "freeing free block" s'.
Proof.
  intros Ht Hl Hf. destruct (txn_bread me s start bs [] (BBLOCK b (k_sb s)) Ht) as (i&s1&Hr1&_&_&Hd); [set_solver|simpl; lia|].
  exists s1. unfold bfree, data_of. rewrite bind_gets, (bind_Ret _ _ _ _ _ Hr1), bind_gets, Hd.
  unfold block_free in Hf. by rewrite Hf.
Qed.

End alloc.

(** ** Claims *)


(** C23: [balloc] within a transaction takes the lowest free block out of the
    set of free blocks, gives it back zeroed, and changes no other block but
    the bitmap's; when no block is free it prints a message, returns 0 and
    changes no block. *)
Theorem balloc_correct (me : nat) {FU : Fuel} {D : Disk} {DO : DiskOk D} {U : Mmio} {UO : Uart16550 FU U} s start bs :
  txn me s start bs [] → bitmap_ok (k_sb s) start (view s) → k_panicked s = 0 → (length bs < 28)%nat →
  ∃ b s', balloc ROOTDEV s = Ret b s' ∧ balloc_post me s start bs [] b s' ∧
    (0 ≤ b < sb_size (k_sb s) → block_free (k_sb s) (view s) b = true →
     view s' b = zero_block ∧
     (∀ x, 0 ≤ x < sb_size (k_sb s) →
        block_free (k_sb s) (view s') x = if decide (x = b) then false else block_free (k_sb s) (view s) x) ∧
     (∀ x, x ≠ b → x ≠ BBLOCK b (k_sb s) → view s' x = view s x)) ∧
    ((∀ x, 0 ≤ x < sb_size (k_sb s) → block_free (k_sb s) (view s) x = false) → b = 0 ∧ ∀ x, view s' x = view s x).
Proof.
  intros Ht Hbm Hp Hl. destruct (balloc_ok me s start bs [] Ht (apart_nil s) Hbm Hp ltac:(simpl; lia)) as (b&s'&Hr&Hpost).
  exists b, s'. split; [exact Hr|]. clear Hr. split; [done|].
  destruct Hpost as [(Hb&Hf&Hu&_&Hs)|(->&Hu&_&Hs&_)].
  - split; [|intros Hall; by rewrite Hall in Hf]. intros _ _. split_and!.
    + rewrite (fp_view _ _ _ Hs). unfold after_balloc, put_block. by rewrite decide_True.
    + intros x Hx. rewrite <- (free_after_balloc (k_sb s) start); try done. unfold block_free. by rewrite (fp_view _ _ _ Hs).
    + intros x H1 H2. rewrite (fp_view _ _ _ Hs). unfold after_balloc, put_block. by rewrite !decide_False.
  - split; [|intros _; split; [done|apply Hs]]. intros Hb Hf. by rewrite Hu in Hf by lia.
Qed.

(** [bfree] of a block in use puts exactly that block back into the set of
    free blocks, in one logged change of its bitmap block; freeing a free block
    panics. *)
Theorem bfree_correct (me : nat) {FU : Fuel} {D : Disk} {DO : DiskOk D} s start bs b :
  txn me s start bs [] → bitmap_ok (k_sb s) start (view s) → 0 ≤ b < sb_size (k_sb s) → (length bs < 29)%nat →
  if block_free (k_sb s) (view s) b
  then ∃ s', bfree ROOTDEV b s = Panic "freeing free block" s'
  else ∃ s', bfree ROOTDEV b s = Ret tt s' ∧ txn me s' start (logged bs (BBLOCK b (k_sb s))) [] ∧
    (∀ x, 0 ≤ x < sb_size (k_sb s) →
       block_free (k_sb s) (view s') x = if decide (x = b) then true else block_free (k_sb s) (view s) x) ∧
    (∀ x, x ≠ BBLOCK b (k_sb s) → view s' x = view s x).
Proof.
  intros Ht Hbm Hb Hl. destruct (block_free (k_sb s) (view s) b) eqn:Hf; [by eapply bfree_panics|].
  destruct (bfree_ok me s start bs b Ht Hbm Hb Hl Hf) as (s'&Hr&Ht'&Hs). exists s'. split; [exact Hr|]. clear Hr.
  split_and!; [done|..].
  - intros x Hx. rewrite <- (free_after_bfree (k_sb s) start (view s) b x) by done.
    unfold block_free. by rewrite (fp_view _ _ _ Hs).
  - intros x Hx. rewrite (fp_view _ _ _ Hs). unfold after_bfree, put_block. by rewrite decide_False.
Qed.

(** ** Examples *)

(** A disk of 50 blocks: the log in 2 to 32, the bitmap in 45, 46 to 49 free. *)
Definition sb50 : superblock := Superblock FSMAGIC 50 4 16 30 2 33 45.
Definition disk50 : gmap Z (list Z) := {[45 := [255; 255; 255; 255; 255; 63] ++ replicate 1018 0]}.

Lemma bitmap_ok_ext sb start v w : bitmap_ok sb start v → (∀ b, w b = v b) → bitmap_ok sb start w.
Proof.
  intros [] Hv. split; [done|done|..]; intros b; unfold block_free; rewrite ?Hv; auto.
Qed.

Lemma BBLOCK50 b : 0 ≤ b < 50 → BBLOCK b sb50 = 45.
Proof. intros Hb. unfold BBLOCK. change BPB with 8192. rewrite Z.div_small by lia. done. Qed.

Lemma free50 b : 0 ≤ b < 50 → block_free sb50 (disk_block disk50) b = bool_decide (46 ≤ b).
Proof.
  intros Hb.
  assert (forallb (λ b, Bool.eqb (block_free sb50 (disk_block disk50) b) (bool_decide (46 ≤ b))) (seqZ 0 50) = true) as Hall
    by (vm_compute; reflexivity).
  rewrite forallb_forall in Hall. apply Bool.eqb_prop, Hall, list_elem_of_In, elem_of_seqZ. lia.
Qed.

Lemma bitmap50 : bitmap_ok sb50 2 (disk_block disk50).
Proof.
  split.
  - done.
  - intros b Hb. rewrite BBLOCK50 by done. unfold home. lia.
  - intros b Hb. rewrite BBLOCK50 by done. reflexivity.
  - intros b Hb. rewrite BBLOCK50 by done. apply Forall_app. split; [by repeat constructor|by apply Forall_replicate].
  - intros b Hb Hf. rewrite free50 in Hf by done. apply bool_decide_eq_true in Hf. change (sb_size sb50) with 50 in *.
    split; [unfold home; lia|]. intros x Hx. rewrite BBLOCK50 by done. lia.
Qed.

(** The first block given out is 46. *)
Lemma balloc_correct_witness :
  ∃ s b s', @balloc 10%nat polled_disk slow_uart ROOTDEV s = Ret b s' ∧ b = 46 ∧ view s' 46 = zero_block.
Proof.
  destruct (fs_started disk50 sb50) as (s&_&Ht&Hv&Hsb&Hp&_); [reflexivity|reflexivity|].
  destruct (@balloc_correct 0 10%nat polled_disk polled_disk_ok slow_uart (slow_uart_ok 10%nat ltac:(unfold fuel; lia)) s 2 [])
    as (b&s'&Hr&Hpost&Hz&_); [exact Ht|rewrite Hsb; by apply (bitmap_ok_ext _ _ (disk_block disk50)), Hv; apply bitmap50|exact Hp|simpl; lia|].
  exists s, b, s'. split; [exact Hr|]. clear Hr. rewrite Hsb in *. unfold balloc_post, used_below in Hpost. rewrite Hsb in Hpost.
  assert (∀ x, 0 ≤ x < 50 → block_free sb50 (view s) x = bool_decide (46 ≤ x)) as Hf.
  { intros x Hx. rewrite <- free50 by done. unfold block_free. by rewrite Hv. }
  change (sb_size sb50) with 50 in *. destruct Hpost as [(Hb&Hfb&Hu&_)|(_&Hu&_)].
  - rewrite Hf in Hfb by done. apply bool_decide_eq_true in Hfb. assert (b = 46) as ->.
    { destruct (decide (b = 46)); [done|]. specialize (Hu 46 ltac:(lia) ltac:(lia)). by rewrite Hf in Hu by lia. }
    split; [done|]. apply Hz; [lia|]. by rewrite Hf by lia.
  - specialize (Hu 46 ltac:(lia) ltac:(lia)). by rewrite Hf in Hu by lia.
Defined.

Lemma bfree_correct_witness :
  ∃ s s', @bfree 10%nat polled_disk ROOTDEV 40 s = Ret tt s' ∧ block_free sb50 (view s') 40 = true.
Proof.
  destruct (fs_started disk50 sb50) as (s&_&Ht&Hv&Hsb&_); [reflexivity|reflexivity|].
  pose proof (@bfree_correct 0 10%nat polled_disk polled_disk_ok s 2 [] 40 Ht) as H. rewrite Hsb in H.
  assert (block_free sb50 (view s) 40 = false) as Hf.
  { transitivity (block_free sb50 (disk_block disk50) 40); [unfold block_free; by rewrite Hv|by rewrite free50 by lia]. }
  rewrite Hf in H. destruct H as (s'&Hr&_&Hx&_); [|change (sb_size sb50) with 50; lia|simpl; lia|].
  - by apply (bitmap_ok_ext _ _ (disk_block disk50)), Hv; apply bitmap50.
  - exists s, s'. split; [exact Hr|]. clear Hr. rewrite Hx by (change (sb_size sb50) with 50; lia). by rewrite decide_True.
Defined.

