(* ===== verification/FsInode.v ===== *)
(** * Inodes and file contents (fs.c: iupdate, ilock, bmap, readi)

    The dinode a block holds is the inode that was written there; a file's
    contents are the bytes of the blocks its inode maps, and [readi] delivers
    them. *)

From S2P Require Import Prelude State Mem Kstring Spinlock Kalloc Vm Proc ProcSpec SchedSpec Uart UartSpec.
From S2P Require Import Printf PrintfSpec Sleeplock SleepSpec Bio BioList BioSpec BioInit Log LogSpec LogTxn FsTxn Fs FsBlock.

(** ** Dinodes *)

Record inode_ok (ip : inode) : Prop := {
  io_type : -32768 ≤ i_type ip < 32768;
  io_major : -32768 ≤ i_major ip < 32768;
  io_minor : -32768 ≤ i_minor ip < 32768;
  io_nlink : -32768 ≤ i_nlink ip < 32768;
  io_size : 0 ≤ i_size ip < 4294967296;
  io_addrs : length (i_addrs ip) = 13%nat;
  io_addr a : a ∈ i_addrs ip → 0 ≤ a < 4294967296;
}.

(** The part of an inode that is on the disk, and the same read at offset [o]
    of block [d]. *)
Definition on_disk (ip : inode) : Z * Z * Z * Z * Z * list Z :=
  (i_type ip, i_major ip, i_minor ip, i_nlink ip, i_size ip, i_addrs ip).
Definition dinode_at (d : list Z) (o : nat) : Z * Z * Z * Z * Z * list Z :=
  (di_type d o, di_major d o, di_minor d o, di_nlink d o, di_size d o, di_addrs d o).

Lemma i16_u16 x : -32768 ≤ x < 32768 → i16 (u16 x) = x.
Proof. intros Hx. unfold i16, u16. zdm. Qed.

Lemma u16_range x : 0 ≤ u16 x < 65536.
Proof. apply Z.mod_pos_bound. lia. Qed.

Lemma get16_put16_same d off v : (off + 2 ≤ length d)%nat → 0 ≤ v < 65536 → get16 (put16 d off v) off = v.
Proof.
  intros Hl Hv. unfold get16, put16. rewrite <- (length_to_le 2 v) at 2.
  rewrite sub_splice_same by (rewrite length_to_le; lia). by apply of_le_to_le.
Qed.

Lemma length_put16 d off v : (off + 2 ≤ length d)%nat → length (put16 d off v) = length d.
Proof. intros. unfold put16. apply length_splice. rewrite length_to_le. lia. Qed.

(** Bytes outside the written ones. *)
Lemma sub_put16 d off v o n :
  (off + 2 ≤ length d)%nat → (o + n ≤ off ∨ off + 2 ≤ o)%nat → sub (put16 d off v) o n = sub d o n.
Proof. intros. unfold put16. apply sub_splice_other; rewrite length_to_le; lia. Qed.

Lemma sub_put32 d off v o n :
  (off + 4 ≤ length d)%nat → (o + n ≤ off ∨ off + 4 ≤ o)%nat → sub (put32 d off v) o n = sub d o n.
Proof. intros. unfold put32. apply sub_splice_other; rewrite length_to_le; lia. Qed.

Lemma put_addrs_ok d o addrs :
  (o + 4 * length addrs ≤ length d)%nat → (∀ a, a ∈ addrs → 0 ≤ a < 4294967296) →
  length (put_addrs d o addrs) = length d ∧
  (∀ k a, addrs !! k = Some a → get32 (put_addrs d o addrs) (o + 4 * k) = a) ∧
  (∀ o' n, (o' + n ≤ o ∨ o + 4 * length addrs ≤ o')%nat → sub (put_addrs d o addrs) o' n = sub d o' n).
Proof.
  revert d o. induction addrs as [|x addrs IH]; intros d o Hl Ha; cbn [put_addrs length] in *; [done|].
  destruct (IH (put32 d o x) (o + 4)%nat) as (H1&H2&H3).
  - rewrite length_put32; lia.
  - intros a Hin. apply Ha. by right.
  - rewrite length_put32 in H1 by lia. split_and!; [done| |].
    + intros [|k] a Hk; cbn in Hk.
      * injection Hk as <-. rewrite Nat.mul_0_r, Nat.add_0_r. unfold get32. rewrite H3 by lia.
        apply get32_put32_same; [lia|]. apply Ha. by left.
      * replace (o + 4 * S k)%nat with (o + 4 + 4 * k)%nat by lia. by apply H2.
    + intros o' n Ho. rewrite H3 by lia. apply sub_put32; lia.
Qed.

Lemma get16_ext d d' o : sub d o 2 = sub d' o 2 → get16 d o = get16 d' o.
Proof. unfold get16. by intros ->. Qed.
Lemma get32_ext d d' o : sub d o 4 = sub d' o 4 → get32 d o = get32 d' o.
Proof. unfold get32. by intros ->. Qed.

Lemma put_dinode_ok d o ip :
  inode_ok ip → (o + 64 ≤ length d)%nat →
  length (put_dinode d o ip) = length d ∧ dinode_at (put_dinode d o ip) o = on_disk ip ∧
  (∀ o' n, (o' + n ≤ o ∨ o + 64 ≤ o')%nat → sub (put_dinode d o ip) o' n = sub d o' n).
Proof.
  intros [H1 H2 H3 H4 H5 H6 H7] Hl. unfold put_dinode.
  set (d1 := put16 d o _). assert (length d1 = length d) as L1 by (apply length_put16; lia).
  set (d2 := put16 d1 _ _). assert (length d2 = length d) as L2 by (rewrite <- L1; apply length_put16; lia).
  set (d3 := put16 d2 _ _). assert (length d3 = length d) as L3 by (rewrite <- L2; apply length_put16; lia).
  set (d4 := put16 d3 _ _). assert (length d4 = length d) as L4 by (rewrite <- L3; apply length_put16; lia).
  set (d5 := put32 d4 _ _). assert (length d5 = length d) as L5 by (rewrite <- L4; apply length_put32; lia).
  assert (∀ o' n, (o' + n ≤ o ∨ o + 2 ≤ o')%nat → sub d1 o' n = sub d o' n) as S1 by (intros; apply sub_put16; lia).
  assert (∀ o' n, (o' + n ≤ o + 2 ∨ o + 4 ≤ o')%nat → sub d2 o' n = sub d1 o' n) as S2 by (intros; apply sub_put16; lia).
  assert (∀ o' n, (o' + n ≤ o + 4 ∨ o + 6 ≤ o')%nat → sub d3 o' n = sub d2 o' n) as S3 by (intros; apply sub_put16; lia).
  assert (∀ o' n, (o' + n ≤ o + 6 ∨ o + 8 ≤ o')%nat → sub d4 o' n = sub d3 o' n) as S4 by (intros; apply sub_put16; lia).
  assert (∀ o' n, (o' + n ≤ o + 8 ∨ o + 12 ≤ o')%nat → sub d5 o' n = sub d4 o' n) as S5 by (intros; apply sub_put32; lia).
  destruct (put_addrs_ok d5 (o + 12) (i_addrs ip)) as (L6&A6&S6); [lia|done|]. rewrite H6 in S6.
  split; [lia|]. split.
  - unfold dinode_at, on_disk, di_type, di_major, di_minor, di_nlink, di_size.
    assert (di_addrs (put_addrs d5 (o + 12) (i_addrs ip)) o = i_addrs ip) as ->.
    { apply list_eq. intros k. unfold di_addrs. rewrite list_lookup_fmap.
      destruct (decide (k < 13)%nat) as [Hk|Hk].
      - rewrite lookup_seq_lt by lia. cbn. destruct (lookup_lt_is_Some_2 (i_addrs ip) k) as [a Ea]; [lia|].
        rewrite Ea. f_equal. exact (A6 k a Ea).
      - rewrite lookup_seq_ge, (lookup_ge_None_2 (i_addrs ip)) by lia. done. }
    rewrite (get16_ext _ d1 o), (get16_ext _ d2 (o + 2)), (get16_ext _ d3 (o + 4)), (get16_ext _ d4 (o + 6)), (get32_ext _ d5 (o + 8)).
    1: unfold d1 at 1, d2 at 1, d3 at 1, d4 at 1, d5 at 1; rewrite !get16_put16_same, get32_put32_same by (lia || apply u16_range);
      by rewrite !i16_u16.
    all: rewrite S6 by lia; repeat first [rewrite S5 by lia|rewrite S4 by lia|rewrite S3 by lia|rewrite S2 by lia]; done.
  - intros o' n Ho. by rewrite S6, S5, S4, S3, S2, S1 by lia.
Qed.

Lemma dinode_at_ext d d' o :
  (∀ o' n, (o ≤ o')%nat → (o' + n ≤ o + 64)%nat → sub d o' n = sub d' o' n) → dinode_at d o = dinode_at d' o.
Proof.
  intros Hs. unfold dinode_at, di_type, di_major, di_minor, di_nlink, di_size.
  rewrite (get16_ext d d' o), (get16_ext d d' (o + 2)), (get16_ext d d' (o + 4)), (get16_ext d d' (o + 6)),
    (get32_ext d d' (o + 8)) by (apply Hs; lia).
  f_equal. unfold di_addrs. apply map_ext_in. intros k Hk%in_seq. apply get32_ext, Hs; lia.
Qed.

Lemma dinode_off_range inum : (dinode_off inum + 64 ≤ 1024)%nat.
Proof.
  unfold dinode_off. change IPB with 16. change sizeof_dinode with 64.
  pose proof (Z.mod_pos_bound inum 16 ltac:(lia)). lia.
Qed.

Lemma dinode_off_apart a b :
  a mod IPB ≠ b mod IPB → (dinode_off a + 64 ≤ dinode_off b ∨ dinode_off b + 64 ≤ dinode_off a)%nat.
Proof.
  unfold dinode_off. change IPB with 16. change sizeof_dinode with 64. intros Hne.
  pose proof (Z.mod_pos_bound a 16 ltac:(lia)). pose proof (Z.mod_pos_bound b 16 ltac:(lia)). lia.
Qed.

Lemma put_dinode_other d inum ip x :
  inode_ok ip → length d = 1024%nat → x mod IPB ≠ inum mod IPB →
  dinode_at (put_dinode d (dinode_off inum) ip) (dinode_off x) = dinode_at d (dinode_off x).
Proof.
  intros Hok Hl Hne. pose proof (dinode_off_range inum).
  destruct (put_dinode_ok d (dinode_off inum) ip Hok) as (_&_&Hs); [lia|].
  apply dinode_at_ext. intros o' n H1 H2. apply Hs. destruct (dinode_off_apart _ _ Hne); lia.
Qed.

(** ** Contents *)

(** The block that holds block [bn] of the file, 0 for none. *)
Definition block_at (v : Z → list Z) (ip : inode) (bn : Z) : Z :=
  let a k := default 0 (i_addrs ip !! Z.to_nat k) in
  if bn <? NDIRECT then a bn
  else if a NDIRECT =? 0 then 0 else get32 (v (a NDIRECT)) (4 * Z.to_nat (bn - NDIRECT)).

Definition file_byte (v : Z → list Z) (ip : inode) (off : Z) : Z :=
  byte_at (v (block_at v ip (off / BSIZE))) (off mod BSIZE).

(** The [n] bytes of the file from [off] on. *)
Definition file_range (v : Z → list Z) (ip : inode) (off n : Z) : list Z :=
  (λ k, file_byte v ip (off + k)) <$> seqZ 0 n.

(** Every block below the size is there. *)
Record file_ok (v : Z → list Z) (ip : inode) : Prop := {
  fo_inode : inode_ok ip;
  fo_dev : i_dev ip = ROOTDEV;
  fo_size : i_size ip ≤ MAXFILE * BSIZE;
  fo_block bn : 0 ≤ bn → bn * BSIZE < i_size ip → block_at v ip bn ≠ 0 ∧ length (v (block_at v ip bn)) = 1024%nat;
  fo_byte off : 0 ≤ off < i_size ip → 0 ≤ file_byte v ip off < 256;
}.

Lemma length_file_range v ip off n : length (file_range v ip off n) = Z.to_nat n.
Proof. unfold file_range. by rewrite length_fmap, length_seqZ. Qed.

Lemma file_range_app v ip off m n :
  0 ≤ m → 0 ≤ n → file_range v ip off (m + n) = file_range v ip off m ++ file_range v ip (off + m) n.
Proof.
  intros Hm Hn. unfold file_range. rewrite seqZ_app, fmap_app by lia. f_equal.
  rewrite Z.add_0_l. apply list_eq. intros k. rewrite !list_lookup_fmap.
  destruct (decide (Z.of_nat k < n)).
  - rewrite !lookup_seqZ_lt by lia. cbn. do 2 f_equal. lia.
  - rewrite !lookup_seqZ_ge by lia. done.
Qed.

(** What one round of [readi] copies. *)
Lemma file_range_chunk v ip off m :
  0 ≤ off → 0 ≤ m ≤ BSIZE - off mod BSIZE → length (v (block_at v ip (off / BSIZE))) = 1024%nat →
  sub (v (block_at v ip (off / BSIZE))) (Z.to_nat (off mod BSIZE)) (Z.to_nat m) = file_range v ip off m.
Proof.
  intros Ho Hm Hl. change BSIZE with 1024 in *. pose proof (Z.mod_pos_bound off 1024 ltac:(lia)) as Hb.
  apply list_eq. intros k. unfold sub, file_range. rewrite list_lookup_fmap.
  destruct (decide (Z.of_nat k < m)).
  - rewrite lookup_take_lt, lookup_drop, lookup_seqZ_lt by lia. cbn [fmap option_fmap option_map]. unfold file_byte, byte_at.
    change BSIZE with 1024. rewrite Z.add_0_l.
    assert ((off + Z.of_nat k) / 1024 = off / 1024 ∧ (off + Z.of_nat k) mod 1024 = off mod 1024 + Z.of_nat k) as [-> ->] by zdm.
    destruct (lookup_lt_is_Some_2 (v (block_at v ip (off / 1024))) (Z.to_nat (off mod 1024) + k)) as [x Hx]; [lia|].
    rewrite Hx. replace (Z.to_nat (off mod 1024 + Z.of_nat k)) with (Z.to_nat (off mod 1024) + k)%nat by lia. by rewrite Hx.
  - rewrite lookup_take_ge, lookup_seqZ_ge by lia. done.
Qed.

Lemma block_at_ext v w ip bn : (∀ b, w b = v b) → block_at w ip bn = block_at v ip bn.
Proof. intros Hv. unfold block_at. by rewrite Hv. Qed.

Lemma file_range_ext v w ip off n : (∀ b, w b = v b) → file_range v ip off n = file_range w ip off n.
Proof.
  intros Hv. unfold file_range. apply list_fmap_ext. intros k x _. unfold file_byte.
  by rewrite Hv, (block_at_ext v w).
Qed.

Lemma file_ok_ext v w ip : file_ok v ip → (∀ b, w b = v b) → file_ok w ip.
Proof.
  intros [H1 H2 H3 H4 H5] Hv. split; [done..| |].
  - intros bn. rewrite (block_at_ext v w), Hv by done. auto.
  - intros off Ho. unfold file_byte. rewrite (block_at_ext v w), Hv by done. by apply H5.
Qed.

Lemma file_range_bytes v ip off n :
  file_ok v ip → 0 ≤ off → off + n ≤ i_size ip → Forall (λ x, 0 ≤ x < 256) (file_range v ip off n).
Proof.
  intros Hf Ho Hn. apply Forall_fmap, Forall_seqZ. intros k Hk. cbn. apply (fo_byte _ _ Hf). lia.
Qed.

Section inode.
Context (me : nat) {I : Image} {FU : Fuel} {D : Disk} {DO : DiskOk D} {U : Mmio} {UO : Uart16550 FU U}.

Lemma iupdate_ok s start bs i :
  txn me s start bs [] → i_dev (inode_of i s) = ROOTDEV →
  home start (IBLOCK (i_inum (inode_of i s)) (k_sb s)) → (length bs < 29)%nat →
  let ip := inode_of i s in
  let b := IBLOCK (i_inum ip) (k_sb s) in
  ∃ s', iupdate i s = Ret tt s' ∧ txn me s' start (logged bs b) [] ∧
    fs_step s s' (put_block b (put_dinode (view s b) (dinode_off (i_inum ip)) ip) (view s)).
Proof.
  intros Ht Hdev Hh Hl ip b.
  destruct (txn_bread me s start bs [] b Ht) as (k&s1&Hr1&Ht1&Hs1&Hd1); [set_solver|simpl; lia|].
  assert (inode_of i s1 = ip) as Hip by (unfold inode_of; by rewrite (fp_frame _ _ _ Hs1)).
  destruct (txn_modify me s1 start bs k b []
    (λ x, set_b_data (put_dinode (b_data x) (dinode_off (i_inum ip)) ip) x)
    (put_dinode (view s b) (dinode_off (i_inum ip)) ip) Ht1) as (s2&s3&Hr2&Hr3&Ht3&Hs3); [by rewrite Hd1|done|done|].
  destruct (txn_brelse me s3 start _ k b [] Ht3) as (s4&Hr4&Ht4&Hs4).
  exists s4. split_and!; [|done|].
  - unfold iupdate. rewrite !bind_gets, Hdev. fold ip b. rewrite (bind_Ret _ _ _ _ _ Hr1), bind_gets, Hip.
    rewrite (bind_Ret _ _ _ _ _ Hr2), (bind_Ret _ _ _ _ _ Hr3). exact Hr4.
  - eapply fs_step_view; [eapply fs_step_trans; [eapply fs_step_trans; [exact Hs1|exact Hs3]|exact Hs4]|].
    intros x. rewrite (fp_view _ _ _ Hs3). apply put_block_ext. apply (fp_view _ _ _ Hs1).
Qed.

(** Mapping a block that is there only reads. *)
Lemma bmap_mapped s bs hs i bn :
  cached me s bs hs → i_dev (inode_of i s) = ROOTDEV → 0 ≤ bn < MAXFILE →
  block_at (view s) (inode_of i s) bn ≠ 0 → addr_of i (Z.to_nat NDIRECT) s ∉ hs.*2 → (length bs + length hs < 30)%nat →
  ∃ s', bmap i bn s = Ret (block_at (view s) (inode_of i s) bn) s' ∧ cached me s' bs hs ∧ fs_step s s' (view s) ∧
    k_log s' = k_log s.
Proof.
  intros Hc Hdev Hbn Hne Hni Hl. unfold bmap. rewrite bind_gets, Hdev. unfold block_at in *.
  change (default 0 (i_addrs (inode_of i s) !! Z.to_nat NDIRECT)) with (addr_of i (Z.to_nat NDIRECT) s) in *.
  change (default 0 (i_addrs (inode_of i s) !! Z.to_nat bn)) with (addr_of i (Z.to_nat bn) s) in *.
  destruct (bn <? NDIRECT) eqn:Hd.
  - rewrite bind_gets, (proj2 (Z.eqb_neq _ _) Hne). exists s. split_and!; [done|done|apply fs_step_refl|done].
  - apply Z.ltb_ge in Hd. assert (bn - NDIRECT <? NINDIRECT = true) as -> by (apply Z.ltb_lt; unfold MAXFILE in Hbn; lia).
    rewrite bind_gets. set (a := addr_of i (Z.to_nat NDIRECT) s) in *. destruct (a =? 0) eqn:Ha; [done|].
    rewrite bind_mret, Ha.
    destruct (cached_bread me s bs hs a Hc Hni Hl) as (k&s1&Hr1&Hc1&Hs1&Hd1&Hk1).
    destruct (cached_brelse me s1 bs k a hs Hc1) as (s2&Hr2&Hc2&Hs2&Hk2).
    exists s2. rewrite (bind_Ret _ _ _ _ _ Hr1). unfold data_of. rewrite bind_gets, Hd1, (proj2 (Z.eqb_neq _ _) Hne), bind_mret.
    rewrite (bind_Ret _ _ _ _ _ Hr2). split_and!; [done|done| |by rewrite Hk2].
    eapply fs_step_view; [by eapply fs_step_trans|]. intros x. apply (fp_view _ _ _ Hs1).
Qed.

Lemma copyout_kernel s dst bytes :
  env me [] s →
  either_copyout false dst bytes s = Ret 0 (tick (set_k_mem (st_bytes (k_mem s) dst bytes) s)).
Proof. intros He. unfold either_copyout. rewrite (bind_myproc me []) by done. done. Qed.

(** Reading left the cache and the blocks as they were and [m] in memory. *)
Definition read_to (bs : list Z) (s : kernel) (m : gmap Z Z) (s' : kernel) : Prop :=
  cached me s' bs [] ∧ fs_step (set_k_mem m s) s' (view s) ∧ k_log s' = k_log s.

Lemma read_to_same bs s : cached me s bs [] → read_to bs s (k_mem s) s.
Proof. intros Hc. split_and!; [done| |done]. rewrite set_k_mem_id. apply fs_step_refl. Qed.

Lemma read_to_fields bs s m s' :
  read_to bs s m s' → k_mem s' = m ∧ k_inodes s' = k_inodes s ∧ k_sb s' = k_sb s ∧ (∀ b, view s' b = view s b).
Proof. intros (_&Hs&_). pose proof (fp_frame _ _ _ Hs) as Hf. split_and!; [by rewrite Hf..|apply Hs]. Qed.

Lemma read_to_trans bs s m1 s1 m2 s2 : read_to bs s m1 s1 → read_to bs s1 m2 s2 → read_to bs s m2 s2.
Proof.
  intros (_&[V1 D1 W1 O1 C1 F1 L1 P1]&K1) (Hc&[V2 D2 W2 O2 C2 F2 L2 P2]&K2). split_and!; [done| |congruence].
  split; [intros b; by rewrite V2, V1|cbn in *; congruence..| |intros i; etransitivity; [apply L2|apply L1]|intros i; etransitivity; [apply P2|apply P1]].
  unfold fs_frame in *. rewrite F2 at 1. rewrite F1 at 1. kernel_eq.
Qed.

(** One round: a block is read and part of it copied to kernel memory. *)
Lemma read_chunk s bs a dst o m :
  cached me s bs [] → (length bs < 30)%nat →
  ∃ k s1 s', bread ROOTDEV a s = Ret k s1 ∧ b_data (buf_of k s1) = view s a ∧
    (∀ {B : Type} (f : Z → M B), (either_copyout false dst (sub (view s a) o m) ≫= f) s1 =
       f 0 (tick (set_k_mem (st_bytes (k_mem s) dst (sub (view s a) o m)) s1))) ∧
    brelse k (tick (set_k_mem (st_bytes (k_mem s) dst (sub (view s a) o m)) s1)) = Ret tt s' ∧
    read_to bs s (st_bytes (k_mem s) dst (sub (view s a) o m)) s'.
Proof.
  intros Hc Hl. destruct (cached_bread me s bs [] a Hc) as (k&s1&Hr1&Hc1&Hs1&Hd1&Hk1); [set_solver|simpl; lia|].
  set (mm := st_bytes (k_mem s) dst (sub (view s a) o m)). set (s2 := tick (set_k_mem mm s1)).
  assert (k_mem s1 = k_mem s) as Hm1 by (by rewrite (fp_frame _ _ _ Hs1)).
  assert (cached me s2 bs [(k, a)]) as Hc2.
  { apply (cached_ext me s1); [done|]. unfold same_cache, s2. split_and!; try done. by right. }
  destruct (cached_brelse me s2 bs k a [] Hc2) as (s3&Hr3&Hc3&Hs3&Hk3).
  exists k, s1, s3. split_and!; [exact Hr1|exact Hd1| |exact Hr3|].
  - intros B f. rewrite (bind_Ret _ _ _ _ _ (copyout_kernel s1 dst (sub (view s a) o m) (cached_env _ _ _ _ Hc1))).
    by rewrite Hm1.
  - split_and!; [done| |by rewrite Hk3]. destruct Hs1 as [V1 D1 W1 O1 C1 F1 L1 P1], Hs3 as [V3 D3 W3 O3 C3 F3 L3 P3]. split.
    + intros b. rewrite V3. change (view s2 b) with (view s1 b). apply V1.
    + by rewrite D3.
    + by rewrite W3.
    + by rewrite O3.
    + by rewrite C3.
    + apply (fs_frame_trans _ s2); [|exact F3]. unfold fs_frame in F1. unfold fs_frame, s2, tick. rewrite F1. kernel_eq.
    + intros i. etransitivity; [apply L3|apply L1].
    + intros i. etransitivity; [apply P3|apply P1].
Qed.

Lemma readi_loop_ok k s bs i dst off n tot :
  cached me s bs [] → (length bs < 30)%nat → file_ok (view s) (inode_of i s) →
  0 ≤ off → 0 ≤ tot ≤ n → off + (n - tot) ≤ i_size (inode_of i s) → 0 ≤ dst → dst + (n - tot) < 2 ^ 64 →
  n - tot ≤ Z.of_nat k →
  ∃ s', readi_loop k i false dst off n tot s = Ret n s' ∧
    read_to bs s (st_bytes (k_mem s) dst (file_range (view s) (inode_of i s) off (n - tot))) s'.
Proof.
  revert s dst off tot. induction k as [|k IH]; intros s dst off tot Hc Hl Hf Ho Ht Hsz Hd Hd2 Hk; cbn [readi_loop];
    destruct (tot <? n) eqn:Hlt; cbn [negb].
  - apply Z.ltb_lt in Hlt. lia.
  - apply Z.ltb_ge in Hlt. assert (tot = n) as -> by lia. exists s. split; [done|]. rewrite Z.sub_diag.
    by apply read_to_same.
  - apply Z.ltb_lt in Hlt. set (ip := inode_of i s) in *.
    pose proof (fo_size _ _ Hf) as Hmax. unfold MAXFILE, NDIRECT, NINDIRECT in Hmax. change BSIZE with 1024 in *.
    destruct (fo_block _ _ Hf (off / 1024)) as [Hne Hlen]; [apply Z.div_pos; lia|change BSIZE with 1024; zdm|].
    destruct (bmap_mapped s bs [] i (off / 1024) Hc (fo_dev _ _ Hf)) as (s1&Hr1&Hc1&Hs1&Hk1);
      [unfold MAXFILE, NDIRECT, NINDIRECT; change BSIZE with 1024; zdm|done|set_solver|simpl; lia|].
    fold ip in Hr1. set (a := block_at (view s) ip (off / 1024)) in *.
    rewrite (bind_Ret _ _ _ _ _ Hr1), (proj2 (Z.eqb_neq _ _) Hne), bind_gets.
    assert (inode_of i s1 = ip) as Hip1 by (unfold inode_of, ip; by rewrite (fp_frame _ _ _ Hs1)).
    rewrite Hip1, (fo_dev _ _ Hf). set (m := Z.min (n - tot) (1024 - off mod 1024)).
    pose proof (Z.mod_pos_bound off 1024 ltac:(lia)) as Hmod. assert (1 ≤ m ≤ 1024 ∧ m ≤ n - tot) as Hm by lia.
    destruct (read_chunk s1 bs a dst (Z.to_nat (off mod 1024)) (Z.to_nat m) Hc1 Hl) as (b&s2&s3&Hr2&Hd2'&Hcp&Hr3&Hrd).
    assert (sub (view s1 a) (Z.to_nat (off mod 1024)) (Z.to_nat m) = file_range (view s) ip off m) as Hchunk.
    { rewrite (fp_view _ _ _ Hs1). apply file_range_chunk; [done|change BSIZE with 1024; lia|done]. }
    rewrite (bind_Ret _ _ _ _ _ Hr2). unfold data_of. rewrite bind_gets, Hd2', Hcp, Hchunk in *.
    cbn [Z.eqb]. rewrite (bind_Ret _ _ _ _ _ Hr3).
    assert (read_to bs s (st_bytes (k_mem s) dst (file_range (view s) ip off m)) s3) as Hrd'.
    { eapply (read_to_trans bs s (k_mem s) s1); [split_and!; [done|by rewrite set_k_mem_id|done]|].
      replace (k_mem s) with (k_mem s1) by (by rewrite (fp_frame _ _ _ Hs1)). done. }
    destruct (read_to_fields _ _ _ _ Hrd') as (Hm3&Hi3&_&Hv3).
    assert (inode_of i s3 = ip) as Hip3 by (unfold inode_of; by rewrite Hi3).
    pose proof (io_size _ (fo_inode _ _ Hf)) as Hs32.
    assert (u64 (dst + m) = dst + m ∧ u32 (off + m) = off + m) as [Hu1 Hu2] by (split; [apply u64_small|apply u32_small]; lia).
    destruct (IH s3 (u64 (dst + m)) (u32 (off + m)) (tot + m)) as (s4&Hr4&Hrd4); rewrite ?Hu1, ?Hu2, ?Hip3; try lia.
    { apply Hrd'. }
    { by apply (file_ok_ext (view s)). }
    exists s4. split; [rewrite Hu1, Hu2 in Hr4; exact Hr4|]. eapply read_to_trans; [exact Hrd'|].
    replace (n - tot) with (m + (n - (tot + m))) by lia. rewrite file_range_app, st_bytes_app, length_file_range, Z2Nat.id by lia.
    rewrite <- Hm3, <- Hu1, <- Hu2 at 1. rewrite Hu2. rewrite (file_range_ext (view s) (view s3)) by done.
    rewrite Hip3, Hu2 in Hrd4. exact Hrd4.
  - apply Z.ltb_ge in Hlt. assert (tot = n) as -> by lia. exists s. split; [done|]. rewrite Z.sub_diag.
    by apply read_to_same.
Qed.

(** How many bytes [readi] delivers. *)
Definition read_count (ip : inode) (off n : Z) : Z :=
  if (i_size ip <? off) || (4294967296 <=? off + n) then 0 else Z.min n (i_size ip - off).

Lemma readi_ok s bs i dst off n :
  cached me s bs [] → (length bs < 30)%nat → file_ok (view s) (inode_of i s) →
  0 ≤ off < 4294967296 → 0 ≤ n < 4294967296 → 0 ≤ dst → dst + n < 2 ^ 64 →
  let r := read_count (inode_of i s) off n in
  ∃ s', readi i false dst off n s = Ret r s' ∧
    read_to bs s (st_bytes (k_mem s) dst (file_range (view s) (inode_of i s) off r)) s'.
Proof.
  intros Hc Hl Hf Ho Hn Hd Hd2 r. unfold readi. rewrite bind_gets. set (ip := inode_of i s) in *.
  pose proof (io_size _ (fo_inode _ _ Hf)) as Hs32. pose proof (fo_size _ _ Hf) as Hmax.
  change (MAXFILE * BSIZE) with 274432 in Hmax.
  assert ((i_size ip <? off) || (u32 (off + n) <? off) = (i_size ip <? off) || (4294967296 <=? off + n)) as ->.
  { f_equal. destruct (4294967296 <=? off + n) eqn:E; [apply Z.leb_le in E|apply Z.leb_gt in E].
    - apply Z.ltb_lt. unfold u32. zdm.
    - apply Z.ltb_ge. rewrite u32_small by lia. lia. }
  unfold r, read_count. destruct ((i_size ip <? off) || (4294967296 <=? off + n)) eqn:E.
  { exists s. split; [done|]. by apply read_to_same. }
  apply orb_false_iff in E as [E1%Z.ltb_ge E2%Z.leb_gt]. rewrite (u32_small (off + n)) by lia.
  assert ((if i_size ip <? off + n then u32 (i_size ip - off) else n) = Z.min n (i_size ip - off)) as ->.
  { destruct (i_size ip <? off + n) eqn:E; [apply Z.ltb_lt in E|apply Z.ltb_ge in E]; [rewrite u32_small by lia|]; lia. }
  set (r' := Z.min n (i_size ip - off)). assert (0 ≤ r' ≤ i_size ip ∧ r' ≤ n) as Hr' by lia.
  destruct (readi_loop_ok (Z.to_nat r') s bs i dst off r' 0) as (s'&Hr&Hrd); try done; [lia|lia|fold ip; lia|lia|lia|].
  exists s'. rewrite (bind_Ret _ _ _ _ _ Hr). rewrite i32_small by lia. split; [done|].
  by rewrite Z.sub_0_r in Hrd.
Qed.

(** ** ilock *)

(** The inode in memory after it was read from the disk. *)
Definition loaded (d : list Z) (ip : inode) : inode :=
  let o := dinode_off (i_inum ip) in
  Inode (i_dev ip) (i_inum ip) (i_ref ip) 1 (di_type d o) (di_major d o) (di_minor d o) (di_nlink d o) (di_size d o)
    (di_addrs d o).

Lemma inode_of_alter i s t f :
  (i < length (k_inodes t))%nat → k_inodes s = alter f i (k_inodes t) → inode_of i s = f (inode_of i t).
Proof.
  intros Hi Hp. unfold inode_of. rewrite Hp, list_lookup_alter_eq.
  destruct (lookup_lt_is_Some_2 _ _ Hi) as [p ->]. done.
Qed.

Lemma ilock_loads s bs i :
  cached me s bs [] → (length bs < 30)%nat → (i < NINODE)%nat → length (k_inodes s) = NINODE →
  let ip := inode_of i s in
  1 ≤ i_ref ip → i_valid ip = 0 → i_dev ip = ROOTDEV → sl_locked (slock_of (SL_inode i) s) = 0 →
  let d := view s (IBLOCK (i_inum ip) (k_sb s)) in
  di_type d (dinode_off (i_inum ip)) ≠ 0 →
  ∃ s', ilock (Some i) s = Ret tt s' ∧ cached me s' bs [] ∧ (∀ b, view s' b = view s b) ∧ k_log s' = k_log s ∧
    k_inodes s' = alter (loaded d) i (k_inodes s) ∧ k_sb s' = k_sb s ∧
    slock_of (SL_inode i) s' = slock_taken me (SL_inode i) s ∧
    (∀ j, j ≠ i → slock_of (SL_inode j) s' = slock_of (SL_inode j) s) ∧
    (∀ j, p_pid (proc_of j s') = p_pid (proc_of j s)) ∧ k_disk s' = k_disk s.
Proof.
  intros Hc Hl Hi Hlen ip Href Hval Hdev Hsl d Hty.
  pose proof (cached_env _ _ _ _ Hc) as He.
  unfold ilock. rewrite bind_gets. fold ip. assert (i_ref ip <? 1 = false) as -> by (apply Z.ltb_ge; lia).
  rewrite (bind_Ret _ _ _ _ _ (acquiresleep_eq me [] (SL_inode i) s He ltac:(simpl; lia)
    ltac:(cbn; by apply bool_decide_eq_true_2) ltac:(set_solver) Hsl)).
  set (s1 := tick _). rewrite bind_gets. change (inode_of i s1) with ip. rewrite Hval. cbn [Z.eqb]. rewrite bind_gets.
  change (k_sb s1) with (k_sb s). rewrite Hdev.
  assert (cached me s1 bs []) as Hc1.
  { apply (cached_ext me s); [done|]. unfold same_cache, s1. split_and!; try done; [|by right].
    intros j. cbn. unfold slock_of, put_slock. cbn. by rewrite lookup_insert_ne. }
  destruct (cached_bread me s1 bs [] (IBLOCK (i_inum ip) (k_sb s)) Hc1) as (k&s2&Hr2&Hc2&Hs2&Hd2&Hk2); [set_solver|simpl; lia|].
  rewrite (bind_Ret _ _ _ _ _ Hr2). unfold data_of. rewrite bind_gets, Hd2. change (view s1 (IBLOCK (i_inum ip) (k_sb s))) with d.
  unfold on_inode. rewrite bind_modify. set (s3 := set_k_inodes _ s2).
  assert (cached me s3 bs [(k, IBLOCK (i_inum ip) (k_sb s))]) as Hc3.
  { apply (cached_ext me s2); [done|]. unfold same_cache. split_and!; try done. by left. }
  destruct (cached_brelse me s3 bs k _ [] Hc3) as (s4&Hr4&Hc4&Hs4&Hk4).
  rewrite (bind_Ret _ _ _ _ _ Hr4), bind_modify, (proj2 (Z.eqb_neq _ _) Hty). eexists. split; [reflexivity|].
  assert (k_inodes s2 = k_inodes s) as Hi2 by (by rewrite (fp_frame _ _ _ Hs2)).
  split_and!.
  - apply (cached_ext me s4); [done|]. unfold same_cache. split_and!; try done. by left.
  - intros b. etransitivity; [apply (view_ext s4); done|]. rewrite (fp_view _ _ _ Hs4).
    etransitivity; [apply (view_ext s2); done|]. rewrite (fp_view _ _ _ Hs2). by apply view_ext.
  - etransitivity; [exact Hk4|exact Hk2].
  - cbn. rewrite (fp_frame _ _ _ Hs4). cbn. rewrite Hi2, list_alter_alter_eq.
    eapply list_alter_ext; [|done]. intros x Hx. unfold loaded, ip, inode_of. by rewrite Hx.
  - cbn. rewrite (fp_frame _ _ _ Hs4). cbn. by rewrite (fp_frame _ _ _ Hs2).
  - etransitivity; [apply (fp_slock _ _ _ Hs4)|]. etransitivity; [apply (fp_slock _ _ _ Hs2)|].
    unfold s1, slock_of, put_slock. cbn. by rewrite lookup_insert_eq.
  - intros j Hj. etransitivity; [apply (fp_slock _ _ _ Hs4)|]. etransitivity; [apply (fp_slock _ _ _ Hs2)|].
    unfold s1, slock_of, put_slock. cbn. rewrite lookup_insert_ne; [done|congruence].
  - intros j. etransitivity; [apply (fp_pid _ _ _ Hs4)|]. etransitivity; [apply (fp_pid _ _ _ Hs2)|done].
  - etransitivity; [apply (fp_disk _ _ _ Hs4)|]. etransitivity; [apply (fp_disk _ _ _ Hs2)|done].
Qed.



End inode.
