(* ===== verification/FsSlots.v ===== *)
(** * The blocks of an inode

    An inode's block addresses, direct and through the indirect block, as one
    table of 269 slots. *)

From S2P Require Import Prelude State Mem Kstring Spinlock Kalloc Vm Proc ProcSpec SchedSpec Uart UartSpec.
From S2P Require Import Printf PrintfSpec Sleeplock SleepSpec Bio BioList BioSpec BioInit Log LogSpec LogTxn FsTxn Fs FsBlock.
From S2P Require Import FsInode.

(** [ip->addrs[k]]. *)
Definition addr (ip : inode) (k : Z) : Z := default 0 (i_addrs ip !! Z.to_nat k).

Definition with_addr (k a : Z) (ip : inode) : inode := set_i_addrs (<[Z.to_nat k := a]> (i_addrs ip)) ip.

(** Slot [k] of an inode: the direct blocks, the indirect block as number 12, and
    the blocks it lists. *)
Definition slot (v : Z → list Z) (ip : inode) (k : Z) : Z :=
  if k <? 13 then addr ip k
  else if addr ip 12 =? 0 then 0 else get32 (v (addr ip 12)) (4 * Z.to_nat (k - 13)).

(** The block of the file a slot is needed for. *)
Definition needed (k : Z) : Z := if k <? 13 then k else k - 1.

(** The slot of block [bn]. *)
Definition slot_of (bn : Z) : Z := if bn <? 12 then bn else bn + 1.

Lemma block_slot v ip bn : 0 ≤ bn → block_at v ip bn = slot v ip (slot_of bn).
Proof.
  intros Hbn. unfold block_at, slot, slot_of, addr. change NDIRECT with 12. destruct (bn <? 12) eqn:E.
  - assert ((bn <? 13) = true) as -> by lia. done.
  - assert ((bn + 1 <? 13) = false) as -> by lia. replace (bn + 1 - 13) with (bn - 12) by lia. done.
Qed.

Lemma slot_of_range bn : 0 ≤ bn < 268 → 0 ≤ slot_of bn < 269 ∧ slot_of bn ≠ 12 ∧ needed (slot_of bn) = bn.
Proof. unfold slot_of, needed. intros H. destruct (bn <? 12) eqn:E, (_ <? 13) eqn:E2; lia. Qed.

Lemma addr_with_addr k a ip l :
  inode_ok ip → 0 ≤ k ≤ 12 → 0 ≤ l → addr (with_addr k a ip) l = if decide (l = k) then a else addr ip l.
Proof.
  intros Hok Hk Hl. unfold addr, with_addr, set_i_addrs. cbn. pose proof (io_addrs _ Hok). case_decide as E.
  - subst. rewrite list_lookup_insert_eq by lia. done.
  - rewrite list_lookup_insert_ne by lia. done.
Qed.

Lemma addr_range ip k : inode_ok ip → 0 ≤ addr ip k < 4294967296.
Proof.
  intros Hok. unfold addr. destruct (i_addrs ip !! Z.to_nat k) as [a|] eqn:E; cbn; [|lia].
  apply (io_addr _ Hok). by eapply list_elem_of_lookup_2.
Qed.

Lemma with_addr_ok k a ip : inode_ok ip → 0 ≤ a < 4294967296 → inode_ok (with_addr k a ip).
Proof.
  intros [H1 H2 H3 H4 H5 H6 H7] Ha. split; cbn; try done; [by rewrite length_insert|].
  intros x Hx. apply list_elem_of_lookup in Hx as [n Hn]. apply list_lookup_insert_Some in Hn as [(_&<-&_)|(_&Hn)]; [done|].
  apply H7. by eapply list_elem_of_lookup_2.
Qed.

Lemma get32_zero o : get32 zero_block o = 0.
Proof.
  unfold get32, sub, zero_block. rewrite drop_replicate, take_replicate.
  assert (∀ n, of_le (replicate n 0) = 0) as H; [|apply H]. induction n as [|n IH]; [done|]. cbn. unfold of_le in IH. lia.
Qed.

Lemma to_le_bytes n x : Forall (λ b, 0 ≤ b < 256) (to_le n x).
Proof. revert x. induction n as [|n IH]; intros x; cbn; constructor; [apply Z.mod_pos_bound; lia|apply IH]. Qed.

Lemma Forall_splice (P : Z → Prop) d off l : Forall P d → Forall P l → Forall P (splice d off l).
Proof. intros Hd Hl. unfold splice. apply Forall_app. split; [by apply Forall_take|]. apply Forall_app. split; [done|by apply Forall_drop]. Qed.

Lemma get32_range d o : Forall (λ x, 0 ≤ x < 256) d → 0 ≤ get32 d o < 4294967296.
Proof.
  intros Hd. unfold get32. assert (∀ l, Forall (λ x, 0 ≤ x < 256) l → 0 ≤ of_le l < 256 ^ Z.of_nat (length l)) as H.
  { induction 1 as [|x l Hx Hl IH]; [done|]. cbn [of_le foldr length]. fold (of_le l). rewrite Nat2Z.inj_succ, Z.pow_succ_r by lia. lia. }
  specialize (H (sub d o 4) ltac:(by apply Forall_take, Forall_drop)).
  assert (256 ^ Z.of_nat (length (sub d o 4)) ≤ 256 ^ 4).
  { apply Z.pow_le_mono_r; [lia|]. unfold sub. rewrite length_take. lia. }
  lia.
Qed.

Lemma byte_splice d o c k :
  0 ≤ o → 0 ≤ k → (Z.to_nat o + length c ≤ length d)%nat →
  byte_at (splice d (Z.to_nat o) c) k =
    if decide (o ≤ k < o + Z.of_nat (length c)) then byte_at c (k - o) else byte_at d k.
Proof.
  intros Ho Hk Hl. unfold byte_at. rewrite lookup_splice by done.
  destruct (decide (o ≤ k < _)) as [H|H].
  - rewrite decide_True by lia. by replace (Z.to_nat k - Z.to_nat o)%nat with (Z.to_nat (k - o)) by lia.
  - rewrite decide_False by lia. done.
Qed.

Lemma set_bit_bytes d b : Forall (λ x, 0 ≤ x < 256) d → Forall (λ x, 0 ≤ x < 256) (set_bit d b).
Proof.
  intros Hd. unfold set_bit. apply Forall_insert; [done|]. apply (lor_range _ _ 8); [lia| |].
  - unfold byte_at. destruct (d !! _) as [x|] eqn:E; cbn; [|lia]. by apply (Forall_lookup_1 _ _ _ _ Hd) in E.
  - unfold bit_mask. rewrite Z.shiftl_1_l. pose proof (Z.mod_pos_bound b 8 ltac:(lia)).
    split; [apply Z.pow_nonneg; lia|]. apply Z.pow_lt_mono_r; lia.
Qed.

