(* ===== verification/FsWrite.v ===== *)
(** * Writing to files (fs.c: bmap, writei)

    A file that may be written: its blocks are distinct, in use and apart from
    the bitmap and from the inodes. Mapping a block that is not there takes a
    free one; writing changes the bytes of the file at the offset and nothing
    else, and what was written is what [readi] then delivers. *)

From S2P Require Import Prelude State Mem Kstring Spinlock Kalloc Vm Proc ProcSpec SchedSpec Uart UartSpec.
From S2P Require Import Printf PrintfSpec Sleeplock SleepSpec Bio BioList BioSpec BioInit Log LogSpec LogTxn FsTxn Fs FsBlock.
From S2P Require Import FsInode FsSlots.

(** ** Description *)

(** A block in use, in a place a transaction may log, that is not part of the
    bitmap. *)
Record used (sb : superblock) (start : Z) (v : Z → list Z) (x : Z) : Prop := {
  us_range : 0 ≤ x < sb_size sb;
  us_taken : block_free sb v x = false;
  us_home : home start x;
  us_data y : 0 ≤ y < sb_size sb → BBLOCK y sb ≠ x;
}.

(** A file that may be written, and the disk around it. *)
Record wfile (sb : superblock) (start : Z) (v : Z → list Z) (ip : inode) : Prop := {
  wf_bitmap : bitmap_ok sb start v;
  wf_boot : block_free sb v 0 = false;
  wf_inode : inode_ok ip;
  wf_dev : i_dev ip = ROOTDEV;
  wf_iblock : used sb start v (IBLOCK (i_inum ip) sb);
  wf_dinode : length (v (IBLOCK (i_inum ip) sb)) = 1024%nat;
  wf_used k : 0 ≤ k < 269 → slot v ip k ≠ 0 → used sb start v (slot v ip k);
  wf_len k : 0 ≤ k < 269 → slot v ip k ≠ 0 → length (v (slot v ip k)) = 1024%nat;
  wf_apart k : 0 ≤ k < 269 → slot v ip k ≠ IBLOCK (i_inum ip) sb;
  wf_inj k l : 0 ≤ k < 269 → 0 ≤ l < 269 → slot v ip k ≠ 0 → slot v ip k = slot v ip l → k = l;
}.

(** From [v] and [ip] to [w] and [jp] the file's bytes from [off] on became
    [bytes]: it may have taken free blocks and kept the ones it had, the bytes it
    had elsewhere are the same, and so are the blocks in use that are not its
    own. *)
Record written (sb : superblock) (start : Z) (v : Z → list Z) (ip : inode) (off : Z) (bytes : list Z)
    (w : Z → list Z) (jp : inode) : Prop := {
  wr_inode : jp = set_i_addrs (i_addrs jp) ip;
  wr_slot l : 0 ≤ l < 269 → slot w jp l = slot v ip l ∨
    slot v ip l = 0 ∧ 0 ≤ slot w jp l < sb_size sb ∧ block_free sb v (slot w jp l) = true;
  wr_free x : 0 ≤ x < sb_size sb → block_free sb w x = true → block_free sb v x = true;
  wr_other x : used sb start v x → (∀ l, 0 ≤ l < 269 → slot v ip l ≠ x) → w x = v x;
  wr_byte o : 0 ≤ o < MAXFILE * BSIZE → block_at v ip (o / BSIZE) ≠ 0 → o < off ∨ off + Z.of_nat (length bytes) ≤ o →
    file_byte w jp o = file_byte v ip o;
  wr_mapped k : 0 ≤ k < Z.of_nat (length bytes) → block_at w jp ((off + k) / BSIZE) ≠ 0;
  wr_bytes k : 0 ≤ k < Z.of_nat (length bytes) → file_byte w jp (off + k) = byte_at bytes k;
}.

(** The file took block [b] for slot [k]. *)
Record gained (sb : superblock) (v : Z → list Z) (ip : inode) (k b : Z) (w : Z → list Z) (jp : inode) : Prop := {
  gn_slot : slot v ip k = 0;
  gn_range : 0 ≤ b < sb_size sb;
  gn_free : block_free sb v b = true;
  gn_inode : jp = set_i_addrs (i_addrs jp) ip ∧ inode_ok jp;
  gn_slots l : 0 ≤ l < 269 → slot w jp l = if decide (l = k) then b else slot v ip l;
  gn_bitmap y : 0 ≤ y < sb_size sb → w (BBLOCK y sb) = after_balloc sb b v (BBLOCK y sb);
  gn_new : w b = zero_block;
  gn_same x : x ≠ b → (∀ y, 0 ≤ y < sb_size sb → BBLOCK y sb ≠ x) → (addr ip 12 = 0 ∨ addr ip 12 ≠ x) → w x = v x;
  gn_table : addr ip 12 ≠ 0 → length (w (addr ip 12)) = 1024%nat;
}.

(** ** Slots *)

Lemma addr_slot v ip k : k < 13 → slot v ip k = addr ip k.
Proof. intros Hk. unfold slot. assert ((k <? 13) = true) as -> by lia. done. Qed.

Lemma slot_with_direct v ip k a l :
  inode_ok ip → 0 ≤ k < 12 → 0 ≤ l → slot v (with_addr k a ip) l = if decide (l = k) then a else slot v ip l.
Proof.
  intros Hok Hk Hl. unfold slot. rewrite !addr_with_addr by lia || done. rewrite (decide_False (P := 12 = k)) by lia.
  destruct (l <? 13) eqn:E; [done|]. rewrite decide_False by lia. done.
Qed.

Lemma slot_with_table v ip a l :
  inode_ok ip → 0 ≤ l → addr ip 12 = 0 → a ≠ 0 → v a = zero_block →
  slot v (with_addr 12 a ip) l = if decide (l = 12) then a else slot v ip l.
Proof.
  intros Hok Hl H0 Ha Hz. unfold slot. rewrite !addr_with_addr by lia || done.
  rewrite H0, (decide_True (P := 12 = 12)), Hz, get32_zero, (proj2 (Z.eqb_neq _ _) Ha) by done. cbn [Z.eqb].
  destruct (l <? 13) eqn:E; [done|]. rewrite decide_False by lia. done.
Qed.

Lemma slot_put_entry v ip e a l :
  addr ip 12 ≠ 0 → length (v (addr ip 12)) = 1024%nat → 0 ≤ e < 256 → 0 ≤ a < 4294967296 → 0 ≤ l < 269 →
  slot (put_block (addr ip 12) (put32 (v (addr ip 12)) (4 * Z.to_nat e) a) v) ip l =
    if decide (l = 13 + e) then a else slot v ip l.
Proof.
  intros H0 Hlen He Ha Hl. unfold slot, put_block. rewrite (decide_True (P := addr ip 12 = _)) by done.
  destruct (l <? 13) eqn:E; [by rewrite decide_False by lia|]. rewrite (proj2 (Z.eqb_neq _ _) H0).
  case_decide as Hle.
  - subst. replace (13 + e - 13) with e by lia. apply get32_put32_same; [lia|done].
  - apply get32_ext, sub_put32; lia.
Qed.

Lemma slot_ext v w ip l : (addr ip 12 ≠ 0 → w (addr ip 12) = v (addr ip 12)) → slot w ip l = slot v ip l.
Proof. intros Hv. unfold slot. destruct (l <? 13); [done|]. destruct (addr ip 12 =? 0) eqn:E; [done|]. rewrite Hv by lia. done. Qed.

(** ** The bitmap *)

Lemma length_set_bit d b : length (set_bit d b) = length d.
Proof. apply length_insert. Qed.

(** The bitmap depends on its own blocks only. *)
Lemma block_free_ext sb v w b : w (BBLOCK b sb) = v (BBLOCK b sb) → block_free sb w b = block_free sb v b.
Proof. unfold block_free. by intros ->. Qed.

Lemma bitmap_ok_blocks sb start v w :
  bitmap_ok sb start v → (∀ y, 0 ≤ y < sb_size sb → w (BBLOCK y sb) = v (BBLOCK y sb)) → bitmap_ok sb start w.
Proof.
  intros [H1 H2 H3 H4 H5] Hw. split; [done|done|..]; intros b Hb.
  - rewrite Hw by done. auto.
  - rewrite Hw by done. auto.
  - rewrite (block_free_ext sb v w) by auto. auto.
Qed.

Lemma bitmap_balloc sb start v b :
  bitmap_ok sb start v → 0 ≤ b < sb_size sb → block_free sb v b = true → bitmap_ok sb start (after_balloc sb b v).
Proof.
  intros Hb Hr Hf. destruct (bm_data _ _ _ Hb b Hr Hf) as [_ Hnb].
  assert (∀ y, 0 ≤ y < sb_size sb → after_balloc sb b v (BBLOCK y sb) =
    if decide (BBLOCK y sb = BBLOCK b sb) then set_bit (v (BBLOCK y sb)) (b mod BPB) else v (BBLOCK y sb)) as Hv.
  { intros y Hy. unfold after_balloc, put_block. rewrite decide_False by (by apply Hnb). case_decide as E; [by rewrite E|done]. }
  destruct Hb as [H1 H2 H3 H4 H5]. split; [done|done|..]; intros y Hy.
  - rewrite Hv by done. case_decide; rewrite ?length_set_bit; auto.
  - rewrite Hv by done. case_decide; [apply set_bit_bytes|]; auto.
  - rewrite (free_after_balloc sb start) by done. case_decide; [done|]. auto.
Qed.

(** ** Taking a block *)

Section gain.
Context (sb : superblock) (start : Z) (v : Z → list Z) (ip : inode) (k b : Z) (w : Z → list Z) (jp : inode).
Context (Hf : wfile sb start v ip) (Hg : gained sb v ip k b w jp) (Hk : 0 ≤ k < 269).

Lemma gained_free y : 0 ≤ y < sb_size sb → block_free sb w y = if decide (y = b) then false else block_free sb v y.
Proof using Hf Hg.
  intros Hy. rewrite <- (free_after_balloc sb start v b y); [|apply Hf|apply Hg|apply Hg|done].
  by apply block_free_ext, (gn_bitmap _ _ _ _ _ _ _ Hg).
Qed.

Lemma gained_used x : used sb start v x → used sb start w x ∧ x ≠ b.
Proof using Hf Hg.
  intros [H1 H2 H3 H4]. assert (x ≠ b) as Hne by (intros ->; by rewrite (gn_free _ _ _ _ _ _ _ Hg) in H2).
  split; [|done]. split; [done| |done|done]. rewrite gained_free by done. by rewrite decide_False.
Qed.

Lemma gained_new : used sb start w b.
Proof using Hf Hg.
  pose proof (gn_range _ _ _ _ _ _ _ Hg) as Hr. pose proof (gn_free _ _ _ _ _ _ _ Hg) as Hfr.
  destruct (bm_data _ _ _ (wf_bitmap _ _ _ _ Hf) b Hr Hfr) as [H1 H2]. split; [done| |done|done].
  rewrite gained_free by done. by rewrite decide_True.
Qed.

Lemma gained_same x : used sb start v x → (addr ip 12 = 0 ∨ addr ip 12 ≠ x) → w x = v x.
Proof using Hf Hg. intros Hu Ha. apply (gn_same _ _ _ _ _ _ _ Hg); [by apply gained_used|apply Hu|done]. Qed.

Lemma gained_nonzero : b ≠ 0.
Proof using Hf Hg. intros E. pose proof (gn_free _ _ _ _ _ _ _ Hg) as H1. rewrite E, (wf_boot _ _ _ _ Hf) in H1. done. Qed.

(** A slot of the file that is not the one taken. *)
Lemma gained_old l :
  0 ≤ l < 269 → l ≠ 12 → slot v ip l ≠ 0 → slot w jp l = slot v ip l ∧ w (slot v ip l) = v (slot v ip l).
Proof using Hf Hg.
  intros Hl Hn H0. rewrite (gn_slots _ _ _ _ _ _ _ Hg) by done. split.
  - case_decide as E; [|done]. subst l. by rewrite (gn_slot _ _ _ _ _ _ _ Hg) in H0.
  - apply gained_same; [by apply (wf_used _ _ _ _ Hf)|]. destruct (decide (addr ip 12 = 0)); [by left|right].
    rewrite <- (addr_slot v) by lia. intros E. apply Hn. apply (wf_inj _ _ _ _ Hf); [lia|lia|done|done].
Qed.

Lemma gained_inode : i_inum jp = i_inum ip ∧ i_dev jp = i_dev ip.
Proof using Hg. rewrite (proj1 (gn_inode _ _ _ _ _ _ _ Hg)). done. Qed.

Lemma gained_wfile : wfile sb start w jp.
Proof using Hf Hg Hk.
  pose proof gained_inode as [Hinum Hdev]. pose proof (gn_slots _ _ _ _ _ _ _ Hg) as Hs.
  destruct (gained_used _ (wf_iblock _ _ _ _ Hf)) as [Hu Hub]. pose proof gained_nonzero as Hb0.
  assert (IBLOCK (i_inum ip) sb ≠ addr ip 12) as Hia.
  { rewrite <- (addr_slot v) by lia. intros E. by apply (wf_apart _ _ _ _ Hf 12 ltac:(lia)). }
  split.
  - eapply bitmap_ok_blocks; [apply (bitmap_balloc sb start v b); [apply Hf|apply Hg..]|apply Hg].
  - rewrite gained_free; [|split; [lia|]; pose proof (gn_range _ _ _ _ _ _ _ Hg); lia].
    rewrite decide_False by done. apply Hf.
  - apply Hg.
  - rewrite Hdev. apply Hf.
  - by rewrite Hinum.
  - rewrite Hinum, gained_same; [apply Hf|apply Hf|by right].
  - intros l Hl. rewrite Hs by done. case_decide as E; [intros _; apply gained_new|]. intros H0.
    by apply gained_used, (wf_used _ _ _ _ Hf).
  - intros l Hl. rewrite Hs by done. case_decide as E; [intros _; by rewrite (gn_new _ _ _ _ _ _ _ Hg)|]. intros H0.
    destruct (decide (l = 12)) as [->|Hn].
    + rewrite addr_slot in * by lia. by apply (gn_table _ _ _ _ _ _ _ Hg).
    + destruct (gained_old l Hl Hn H0) as [_ ->]. by apply (wf_len _ _ _ _ Hf).
  - intros l Hl. rewrite Hinum, Hs by done. case_decide; [by apply not_eq_sym|]. by apply (wf_apart _ _ _ _ Hf).
  - intros l m Hl Hm. rewrite !Hs by done. repeat case_decide; subst; try done.
    + intros _ E. exfalso. destruct (gained_used (slot v ip m)) as [_ Hne]; [|by apply Hne].
      apply (wf_used _ _ _ _ Hf); [done|by rewrite <- E].
    + intros H0 E. exfalso. destruct (gained_used (slot v ip l)) as [_ Hne]; [|done]. by apply (wf_used _ _ _ _ Hf).
    + by apply (wf_inj _ _ _ _ Hf).
Qed.

Lemma gained_written off : written sb start v ip off [] w jp.
Proof using Hf Hg Hk.
  split; cbn [length].
  - apply Hg.
  - intros l Hl. rewrite (gn_slots _ _ _ _ _ _ _ Hg) by done. case_decide as E; [right|by left]. subst l.
    split_and!; [apply Hg|apply Hg|apply Hg|apply Hg].
  - intros x Hx. rewrite gained_free by done. by case_decide.
  - intros x Hu Hn. apply gained_same; [done|right]. rewrite <- (addr_slot v) by lia. apply Hn. lia.
  - intros o Ho H0 _. change (MAXFILE * BSIZE) with 274432 in Ho. change BSIZE with 1024 in *.
    unfold file_byte. change BSIZE with 1024. rewrite !block_slot in * by zdm.
    destruct (slot_of_range (o / 1024)) as (H1&H2&_); [zdm|].
    destruct (gained_old _ H1 H2 H0) as [-> ->]. done.
  - lia.
  - lia.
Qed.

End gain.

(** ** Changes of contents *)

Lemma used_ext sb start v w x :
  used sb start v x → (∀ y, 0 ≤ y < sb_size sb → w (BBLOCK y sb) = v (BBLOCK y sb)) → used sb start w x.
Proof. intros [H1 H2 H3 H4] Hw. split; [done| |done|done]. rewrite <- H2. by apply block_free_ext, Hw. Qed.

Lemma slot_inode v w ip jp l :
  i_addrs jp = i_addrs ip → (addr ip 12 ≠ 0 → w (addr ip 12) = v (addr ip 12)) → slot w jp l = slot v ip l.
Proof. intros Ha Hw. rewrite <- (slot_ext v w ip l Hw). unfold slot, addr. by rewrite Ha. Qed.

(** What [wfile] depends on. *)
Lemma wfile_ext sb start v w ip jp :
  wfile sb start v ip → (∀ y, 0 ≤ y < sb_size sb → w (BBLOCK y sb) = v (BBLOCK y sb)) →
  (addr ip 12 ≠ 0 → w (addr ip 12) = v (addr ip 12)) → (∀ x, length (v x) = 1024%nat → length (w x) = 1024%nat) →
  i_addrs jp = i_addrs ip → i_dev jp = i_dev ip → i_inum jp = i_inum ip → inode_ok jp → wfile sb start w jp.
Proof.
  intros Hf Hw Ht Hl Ha Hd Hn Hok. pose proof (λ l, slot_inode v w ip jp l Ha Ht) as Hs.
  pose proof (us_range _ _ _ _ (wf_iblock _ _ _ _ Hf)).
  split.
  - by eapply bitmap_ok_blocks; [apply Hf|].
  - rewrite <- (wf_boot _ _ _ _ Hf). apply block_free_ext, Hw. lia.
  - done.
  - rewrite Hd. apply Hf.
  - rewrite Hn. eapply used_ext; [apply Hf|done].
  - rewrite Hn. apply Hl, Hf.
  - intros k Hk. rewrite Hs. intros H0. eapply used_ext; [by apply (wf_used _ _ _ _ Hf)|done].
  - intros k Hk. rewrite Hs. intros H0. by apply Hl, (wf_len _ _ _ _ Hf).
  - intros k Hk. rewrite Hs, Hn. by apply (wf_apart _ _ _ _ Hf).
  - intros k l Hk Hl'. rewrite !Hs. by apply (wf_inj _ _ _ _ Hf).
Qed.

Section written.
Context (sb : superblock) (start : Z).

Lemma written_used v ip off bytes w jp x :
  written sb start v ip off bytes w jp → used sb start v x → used sb start w x.
Proof.
  intros Hw [H1 H2 H3 H4]. split; [done| |done|done].
  apply not_true_iff_false. intros E%(wr_free _ _ _ _ _ _ _ _ Hw); [|done]. by rewrite H2 in E.
Qed.

(** A block of the file stays where it is. *)
Lemma written_block v ip off bytes w jp bn :
  written sb start v ip off bytes w jp → 0 ≤ bn < 268 → block_at v ip bn ≠ 0 → block_at w jp bn = block_at v ip bn.
Proof.
  intros Hw Hbn. destruct (slot_of_range bn Hbn) as (Hr&_). rewrite !block_slot by lia. intros H0.
  destruct (wr_slot _ _ _ _ _ _ _ _ Hw _ Hr) as [->|[E _]]; done.
Qed.

Lemma written_refl v ip off : written sb start v ip off [] v ip.
Proof. split; try done; cbn [length]; [by destruct ip|by left|lia|lia]. Qed.

Lemma written_ext v ip off bytes w w' jp :
  written sb start v ip off bytes w jp → (∀ x, w' x = w x) → written sb start v ip off bytes w' jp.
Proof.
  intros [H1 H2 H3 H4 H5 H6 H7] Hw.
  assert (∀ bn, block_at w' jp bn = block_at w jp bn) as Hb by (intros bn; by apply block_at_ext).
  assert (∀ o, file_byte w' jp o = file_byte w jp o) as Hby by (intros o; unfold file_byte; by rewrite Hb, Hw).
  split; try done.
  - intros l Hl. rewrite (slot_ext w w') by (intros _; apply Hw). auto.
  - intros x Hx. rewrite (block_free_ext sb w w') by apply Hw. auto.
  - intros x Hu Hn. rewrite Hw. auto.
  - intros o H1' H2' H3'. rewrite Hby. auto.
  - intros k Hk. rewrite Hb. auto.
  - intros k Hk. rewrite Hby. auto.
Qed.

Lemma written_trans v ip off b1 w jp b2 z kp :
  written sb start v ip off b1 w jp → written sb start w jp (off + Z.of_nat (length b1)) b2 z kp →
  0 ≤ off → off + Z.of_nat (length b1) ≤ MAXFILE * BSIZE → written sb start v ip off (b1 ++ b2) z kp.
Proof.
  intros H1 H2 Ho Hmax. change (MAXFILE * BSIZE) with 274432 in *. split.
  - rewrite (wr_inode _ _ _ _ _ _ _ _ H2), (wr_inode _ _ _ _ _ _ _ _ H1) at 1. done.
  - intros l Hl. destruct (wr_slot _ _ _ _ _ _ _ _ H1 l Hl) as [E1|(E1&E2&E3)], (wr_slot _ _ _ _ _ _ _ _ H2 l Hl) as [->|(F1&F2&F3)].
    + by left.
    + right. rewrite <- E1. split_and!; try done; try lia. by apply (wr_free _ _ _ _ _ _ _ _ H1).
    + by right.
    + right. split_and!; try done; try lia. by apply (wr_free _ _ _ _ _ _ _ _ H1).
  - intros x Hx E. by apply (wr_free _ _ _ _ _ _ _ _ H1), (wr_free _ _ _ _ _ _ _ _ H2).
  - intros x Hu Hn. rewrite <- (wr_other _ _ _ _ _ _ _ _ H1) by done. apply (wr_other _ _ _ _ _ _ _ _ H2).
    + by eapply written_used.
    + intros l Hl E. destruct (wr_slot _ _ _ _ _ _ _ _ H1 l Hl) as [E1|(E1&E2&E3)]; [apply (Hn l Hl); congruence|].
      rewrite E, (us_taken _ _ _ _ Hu) in E3. done.
  - intros o Hr H0 Hout. rewrite length_app, Nat2Z.inj_add in Hout.
    rewrite <- (wr_byte _ _ _ _ _ _ _ _ H1); [|done|done|lia]. apply (wr_byte _ _ _ _ _ _ _ _ H2); [done| |lia].
    change (MAXFILE * BSIZE) with 274432 in Hr. rewrite (written_block _ _ _ _ _ _ _ H1); [done|change BSIZE with 1024; zdm|done].
  - intros k Hk. rewrite length_app, Nat2Z.inj_add in Hk. destruct (decide (k < Z.of_nat (length b1))) as [Hl|Hl].
    + pose proof (wr_mapped _ _ _ _ _ _ _ _ H1 k ltac:(lia)) as Hm.
      rewrite (written_block _ _ _ _ _ _ _ H2); [done|change BSIZE with 1024; zdm|done].
    + replace (off + k) with (off + Z.of_nat (length b1) + (k - Z.of_nat (length b1))) by lia.
      apply (wr_mapped _ _ _ _ _ _ _ _ H2). lia.
  - intros k Hk. rewrite length_app, Nat2Z.inj_add in Hk. destruct (decide (k < Z.of_nat (length b1))) as [Hl|Hl].
    + pose proof (wr_mapped _ _ _ _ _ _ _ _ H1 k ltac:(lia)) as Hm.
      rewrite (wr_byte _ _ _ _ _ _ _ _ H2), (wr_bytes _ _ _ _ _ _ _ _ H1); [|lia|change (MAXFILE * BSIZE) with 274432; lia|done|lia].
      unfold byte_at. rewrite lookup_app_l by lia. done.
    + replace (off + k) with (off + Z.of_nat (length b1) + (k - Z.of_nat (length b1))) by lia.
      rewrite (wr_bytes _ _ _ _ _ _ _ _ H2) by lia. unfold byte_at. rewrite (lookup_app_r b1) by lia. do 2 f_equal. lia.
Qed.

(** Part of a block of the file is overwritten. *)
Lemma chunk_written v ip off c :
  let a := block_at v ip (off / BSIZE) in
  let w := put_block a (splice (v a) (Z.to_nat (off mod BSIZE)) c) v in
  wfile sb start v ip → 0 ≤ off < MAXFILE * BSIZE → a ≠ 0 → off mod BSIZE + Z.of_nat (length c) ≤ BSIZE →
  wfile sb start w ip ∧ written sb start v ip off c w ip.
Proof.
  intros a w Hf Ho Ha Hc. change (MAXFILE * BSIZE) with 274432 in *. change BSIZE with 1024 in *.
  destruct (slot_of_range (off / 1024)) as (Hr&Hr12&_); [zdm|]. set (l0 := slot_of (off / 1024)) in *.
  assert (a = slot v ip l0) as Hal by (apply block_slot; zdm).
  assert (used sb start v a) as Hu by (rewrite Hal in *; by apply (wf_used _ _ _ _ Hf)).
  assert (length (v a) = 1024%nat) as Hlen by (rewrite Hal in *; by apply (wf_len _ _ _ _ Hf)).
  pose proof (Z.mod_pos_bound off 1024 ltac:(lia)) as Hm.
  assert (∀ x, x ≠ a → w x = v x) as Hother by (intros x Hx; unfold w, put_block; by rewrite decide_False).
  assert (w a = splice (v a) (Z.to_nat (off mod 1024)) c) as Hwa by (unfold w, put_block; by rewrite decide_True).
  assert (∀ y, 0 ≤ y < sb_size sb → w (BBLOCK y sb) = v (BBLOCK y sb)) as Hbm by (intros y Hy; by apply Hother, Hu).
  assert (addr ip 12 ≠ 0 → w (addr ip 12) = v (addr ip 12)) as Htab.
  { intros H0. apply Hother. rewrite <- (addr_slot v) in * by lia. rewrite Hal. intros E. apply Hr12. symmetry.
    by apply (wf_inj _ _ _ _ Hf); [lia|lia|..]. }
  assert (∀ l, slot w ip l = slot v ip l) as Hs by (intros l; by apply slot_ext).
  split.
  { apply (wfile_ext sb start v _ ip); try done; [|apply Hf]. intros x Hx. destruct (decide (x = a)) as [->|]; [|by rewrite Hother].
    rewrite Hwa, length_splice; lia. }
  assert (∀ bn, 0 ≤ bn < 268 → block_at w ip bn = block_at v ip bn) as Hb by (intros bn Hbn; rewrite !block_slot by lia; apply Hs).
  split.
  - by destruct ip.
  - intros l Hl. left. apply Hs.
  - intros x Hx. by rewrite (block_free_ext sb v w) by (by apply Hbm).
  - intros x _ Hn. apply Hother. rewrite Hal. apply not_eq_sym, Hn, Hr.
  - intros o Hor H0 Hout. change (MAXFILE * BSIZE) with 274432 in Hor. unfold file_byte. change BSIZE with 1024 in *.
    rewrite Hb by zdm. destruct (decide (block_at v ip (o / 1024) = a)) as [E|E]; [|by rewrite Hother].
    rewrite E, Hwa, byte_splice by (lia || zdm). rewrite decide_False; [done|]. intros Hin.
    assert (o / 1024 = off / 1024) as Hq; [|zdm].
    rewrite block_slot in E, H0 by zdm. rewrite Hal in E.
    destruct (slot_of_range (o / 1024)) as (Hro&_&Hn1); [zdm|]. destruct (slot_of_range (off / 1024)) as (_&_&Hn2); [zdm|].
    rewrite <- Hn1, <- Hn2. f_equal. by apply (wf_inj _ _ _ _ Hf).
  - intros k Hk. change BSIZE with 1024. assert ((off + k) / 1024 = off / 1024) as -> by zdm. rewrite Hb by zdm. done.
  - intros k Hk. unfold file_byte. change BSIZE with 1024. assert ((off + k) / 1024 = off / 1024) as -> by zdm.
    assert ((off + k) mod 1024 = off mod 1024 + k) as -> by zdm. rewrite Hb by zdm. fold a.
    rewrite Hwa, byte_splice, decide_True by lia. f_equal. lia.
Qed.

End written.

(** The two ways a file takes block [b]: in the inode and in its table. *)
Lemma balloc_same sb b v x : x ≠ b → x ≠ BBLOCK b sb → after_balloc sb b v x = v x.
Proof. intros H1 H2. unfold after_balloc, put_block. by rewrite !decide_False. Qed.

Lemma balloc_new sb b v : after_balloc sb b v b = zero_block.
Proof. unfold after_balloc, put_block. by rewrite decide_True. Qed.

Section gains.
Context (sb : superblock) (start : Z) (v : Z → list Z) (ip : inode) (b : Z).
Context (Hf : wfile sb start v ip) (Hr : 0 ≤ b < sb_size sb) (Hb : block_free sb v b = true).

Lemma balloc_used x : used sb start v x → x ≠ b ∧ after_balloc sb b v x = v x.
Proof using Hr Hb.
  intros Hu. assert (x ≠ b) as Hne by (intros ->; rewrite (us_taken _ _ _ _ Hu) in Hb; done).
  split; [done|]. apply balloc_same; [done|]. by apply not_eq_sym, Hu.
Qed.

Lemma table_used : addr ip 12 ≠ 0 → used sb start v (addr ip 12) ∧ length (v (addr ip 12)) = 1024%nat.
Proof using Hf.
  intros H0. rewrite <- (addr_slot v) in * by lia. split; [by apply (wf_used _ _ _ _ Hf)|by apply (wf_len _ _ _ _ Hf)].
Qed.

Lemma table_kept : addr ip 12 ≠ 0 → after_balloc sb b v (addr ip 12) = v (addr ip 12).
Proof using Hf Hr Hb. intros H0. by apply balloc_used, table_used. Qed.

Lemma fresh_small : b ≠ 0 ∧ 0 ≤ b < 4294967296.
Proof using Hf Hr Hb.
  pose proof (bm_size _ _ _ (wf_bitmap _ _ _ _ Hf)). split; [|lia].
  intros ->. rewrite (wf_boot _ _ _ _ Hf) in Hb. done.
Qed.

Lemma gained_addr k :
  0 ≤ k < 13 → slot v ip k = 0 → gained sb v ip k b (after_balloc sb b v) (with_addr k b ip).
Proof using Hf Hr Hb.
  intros Hk H0. destruct fresh_small as [Hb0 Hbr]. split; try done.
  - split; [done|]. by apply with_addr_ok; [apply Hf|].
  - intros l Hl. destruct (decide (k = 12)) as [->|Hk12].
    + rewrite slot_with_table; [|apply Hf|lia|by rewrite <- (addr_slot v) by lia|done|apply balloc_new].
      case_decide; [done|]. apply slot_ext, table_kept.
    + rewrite slot_with_direct; [|apply Hf|lia|lia]. case_decide; [done|]. apply slot_ext, table_kept.
  - apply balloc_new.
  - intros x Hx Hn _. apply balloc_same; [done|]. by apply not_eq_sym, Hn.
  - intros Ht. rewrite table_kept by done. by apply table_used.
Qed.

Lemma gained_entry e :
  let x := addr ip 12 in
  0 ≤ e < 256 → x ≠ 0 → slot v ip (13 + e) = 0 →
  gained sb v ip (13 + e) b (put_block x (put32 (v x) (4 * Z.to_nat e) b) (after_balloc sb b v)) ip.
Proof using Hf Hr Hb.
  intros x He Hx H0. destruct fresh_small as [Hb0 Hbr]. destruct (table_used Hx) as [Hu Hl]. fold x in Hu, Hl.
  pose proof (table_kept Hx) as Hk. fold x in Hk. destruct (balloc_used x Hu) as [Hxb _]. split; try done.
  - split; [by destruct ip|apply Hf].
  - intros l Hl'. rewrite <- Hk. unfold x. rewrite slot_put_entry; try done; [|by fold x; rewrite Hk].
    case_decide; [done|]. apply slot_ext. intros _. exact Hk.
  - intros y Hy. unfold put_block. rewrite decide_False; [done|]. by apply Hu.
  - unfold put_block. rewrite decide_False by done. apply balloc_new.
  - intros y Hy Hn [?|Hne]; [done|]. unfold put_block. rewrite decide_False by (by apply not_eq_sym).
    apply balloc_same; [done|]. by apply not_eq_sym, Hn.
  - intros _. fold x. unfold put_block. rewrite decide_True, length_put32 by (done || lia). done.
Qed.

End gains.

Lemma gained_ext sb v ip k b w w' jp : gained sb v ip k b w jp → (∀ x, w' x = w x) → gained sb v ip k b w' jp.
Proof.
  intros [H1 H2 H3 H4 H5 H6 H7 H8 H9] Hw. split; try done; try (intros; rewrite Hw; auto).
  intros l Hl. rewrite (slot_ext w w') by auto. auto.
Qed.

(** ** Running *)

Section write.
Context (me : nat) {I : Image} {FU : Fuel} {D : Disk} {DO : DiskOk D} {U : Mmio} {UO : Uart16550 FU U}.

(** From [s] to [s'] the inode in slot [i] became [jp]; apart from that only the
    cache, the log in memory, the console and the processes' states changed. *)
Record wstep (i : nat) (jp : inode) (s s' : kernel) : Prop := {
  ws_inodes : k_inodes s' = <[i := jp]> (k_inodes s);
  ws_sb : k_sb s' = k_sb s;
  ws_mem : k_mem s' = k_mem s;
  ws_panicked : k_panicked s' = k_panicked s;
  ws_disk : k_disk s' = k_disk s;
  ws_writes : k_writes s' = k_writes s;
  ws_out : l_outstanding (k_log s') = l_outstanding (k_log s);
  ws_com : l_committing (k_log s') = l_committing (k_log s);
  ws_slock j : slock_of (SL_inode j) s' = slock_of (SL_inode j) s;
  ws_pid j : p_pid (proc_of j s') = p_pid (proc_of j s);
}.

Lemma inode_same i s : (i < length (k_inodes s))%nat → <[i := inode_of i s]> (k_inodes s) = k_inodes s.
Proof. intros Hi. apply list_insert_id. unfold inode_of. by destruct (lookup_lt_is_Some_2 _ _ Hi) as [x ->]. Qed.

Lemma wstep_fs i s s' v o d :
  (i < length (k_inodes s))%nat → fs_step (set_k_out o (set_k_dev d s)) s' v → wstep i (inode_of i s) s s'.
Proof.
  intros Hi [V1 D1 W1 O1 C1 F1 L1 P1]. unfold fs_frame in F1.
  split; [rewrite inode_same by done; by rewrite F1|by rewrite F1|by rewrite F1|by rewrite F1|done..].
Qed.

Lemma wstep_step i s s' v : (i < length (k_inodes s))%nat → fs_step s s' v → wstep i (inode_of i s) s s'.
Proof. intros Hi Hs. apply (wstep_fs i s s' v (k_out s) (k_dev s) Hi). by destruct s. Qed.

Lemma wstep_trans i jp kp s s1 s2 : wstep i jp s s1 → wstep i kp s1 s2 → wstep i kp s s2.
Proof.
  intros [A1 A2 A3 A4 A5 A6 A7 A8 A9 A10] [B1 B2 B3 B4 B5 B6 B7 B8 B9 B10]. split; try congruence.
  rewrite B1, A1. apply list_insert_insert_eq.
Qed.

Lemma wstep_inode i jp s s' :
  (i < length (k_inodes s))%nat → wstep i jp s s' → inode_of i s' = jp ∧ length (k_inodes s') = length (k_inodes s).
Proof.
  intros Hi Hw. unfold inode_of. rewrite (ws_inodes _ _ _ _ Hw), list_lookup_insert_eq, length_insert by done. done.
Qed.

(** A change of the inode in memory. *)
Lemma on_inode_step s start bs hs i f :
  txn me s start bs hs → (i < length (k_inodes s))%nat →
  ∃ s', on_inode i f s = Ret tt s' ∧ txn me s' start bs hs ∧ (∀ b, view s' b = view s b) ∧
    wstep i (f (inode_of i s)) s s' ∧ inode_of i s' = f (inode_of i s).
Proof.
  intros Ht Hi. eexists. split; [reflexivity|]. set (s' := set_k_inodes _ s).
  assert (k_inodes s' = <[i := f (inode_of i s)]> (k_inodes s)) as Hk.
  { cbn. unfold inode_of. destruct (lookup_lt_is_Some_2 _ _ Hi) as [x Hx]. rewrite Hx. apply list_eq. intros j.
    destruct (decide (i = j)) as [->|Hne].
    - rewrite list_lookup_alter_eq, Hx, list_lookup_insert_eq by done. done.
    - by rewrite list_lookup_alter_ne, list_lookup_insert_ne. }
  assert (wstep i (f (inode_of i s)) s s') as Hw by (split; try done).
  split_and!; [|done|done|by eapply wstep_inode].
  apply (txn_ext me s); [done| |done]. unfold same_cache. split_and!; try done. by left.
Qed.

(** A file ready to be written within a transaction. *)
Record wready (s : kernel) (start : Z) (bs : list Z) (hs : list (nat * Z)) (i : nat) : Prop := {
  wy_txn : txn me s start bs hs;
  wy_file : wfile (k_sb s) start (view s) (inode_of i s);
  wy_slot : (i < length (k_inodes s))%nat;
  wy_panicked : k_panicked s = 0;
}.

(** Ready again, with [bs'] logged and [hs'] held, after [bytes] were written at
    [off]. *)
Record wrote (s : kernel) (start : Z) (i : nat) (off : Z) (bytes : list Z) (bs' : list Z) (hs' : list (nat * Z))
    (s' : kernel) : Prop := {
  wo_ready : wready s' start bs' hs' i;
  wo_step : wstep i (inode_of i s') s s';
  wo_written : written (k_sb s) start (view s) (inode_of i s) off bytes (view s') (inode_of i s');
}.

(** No block is free. *)
Definition full (s : kernel) : Prop := ∀ x, 0 ≤ x < sb_size (k_sb s) → block_free (k_sb s) (view s) x = false.

Lemma wrote_of s start bs hs i off bytes bs' hs' s' jp :
  wready s start bs hs i → txn me s' start bs' hs' → wstep i jp s s' → wfile (k_sb s) start (view s') jp →
  written (k_sb s) start (view s) (inode_of i s) off bytes (view s') jp → wrote s start i off bytes bs' hs' s'.
Proof.
  intros Hr Ht Hw Hf Hwr. destruct (wstep_inode _ _ _ _ (wy_slot _ _ _ _ _ Hr) Hw) as [Hi Hl]. subst jp.
  split; [|done|done]. split; [done|by rewrite (ws_sb _ _ _ _ Hw)|rewrite Hl; apply Hr|].
  rewrite (ws_panicked _ _ _ _ Hw). exact (wy_panicked _ _ _ _ _ Hr).
Qed.

Lemma wrote_trans s start i off b1 b2 bs1 hs1 s1 bs2 hs2 s2 :
  wrote s start i off b1 bs1 hs1 s1 → wrote s1 start i (off + Z.of_nat (length b1)) b2 bs2 hs2 s2 →
  0 ≤ off → off + Z.of_nat (length b1) ≤ MAXFILE * BSIZE → wrote s start i off (b1 ++ b2) bs2 hs2 s2.
Proof.
  intros [A1 A2 A3] [B1 B2 B3] Ho Hm. split; [done|by eapply wstep_trans|].
  rewrite (ws_sb _ _ _ _ A2) in B3. by eapply written_trans.
Qed.

(** Steps that change no block. *)
Lemma wrote_same s start bs hs i off bs' hs' s' o d :
  wready s start bs hs i → txn me s' start bs' hs' → fs_step (set_k_out o (set_k_dev d s)) s' (view s) →
  wrote s start i off [] bs' hs' s' ∧ inode_of i s' = inode_of i s.
Proof.
  intros Hr Ht Hs. pose proof (wstep_fs i s s' _ o d (wy_slot _ _ _ _ _ Hr) Hs) as Hw.
  pose proof (fp_view _ _ _ Hs) as Hv. split; [|by eapply wstep_inode; [apply Hr|]].
  apply (wrote_of s start bs hs i off [] bs' hs' s' (inode_of i s)); try done.
  - apply (wfile_ext _ _ (view s) _ (inode_of i s)); try done; try apply Hr; intros; by rewrite Hv.
  - split; cbn [length]; try lia.
    + by destruct (inode_of i s).
    + intros l Hl. left. apply slot_ext. intros _. apply Hv.
    + intros x Hx. by rewrite (block_free_ext _ (view s) (view s')).
    + intros x _ _. apply Hv.
    + intros x Hx _ _. unfold file_byte. by rewrite (block_at_ext (view s) (view s')), Hv.
Qed.

Lemma wrote_step s start bs hs i off bs' hs' s' :
  wready s start bs hs i → txn me s' start bs' hs' → fs_step s s' (view s) →
  wrote s start i off [] bs' hs' s' ∧ inode_of i s' = inode_of i s.
Proof. intros Hr Ht Hs. apply (wrote_same s start bs hs i off bs' hs' s' (k_out s) (k_dev s) Hr Ht). by destruct s. Qed.

(** Nothing was free. *)
Lemma balloc_none s start bs hs i off s' :
  wready s start bs hs i → used_below s (sb_size (k_sb s)) → txn me s' start bs hs →
  fs_step (set_k_out (k_out s') (set_k_dev (k_dev s') s)) s' (view s) →
  wrote s start i off [] bs hs s' ∧ full s' ∧ ∀ k, slot (view s') (inode_of i s') k = slot (view s) (inode_of i s) k.
Proof.
  intros Hr Hu Ht Hs. destruct (wrote_same s start bs hs i off bs hs s' _ _ Hr Ht Hs) as [Hw Hi].
  pose proof (fp_view _ _ _ Hs) as Hv. split_and!; [done| |].
  - intros x. rewrite (ws_sb _ _ _ _ (wo_step _ _ _ _ _ _ _ _ Hw)). intros Hx.
    rewrite (block_free_ext _ (view s)) by apply Hv. apply Hu; lia.
  - intros k. rewrite Hi. apply slot_ext. intros _. apply Hv.
Qed.

(** A block was taken. *)
Lemma gained_wrote s start bs hs i off k b bs' hs' s' jp :
  wready s start bs hs i → 0 ≤ k < 269 → txn me s' start bs' hs' → wstep i jp s s' →
  gained (k_sb s) (view s) (inode_of i s) k b (view s') jp →
  wrote s start i off [] bs' hs' s' ∧ slot (view s') (inode_of i s') k = b.
Proof.
  intros Hr Hk Ht Hw Hg. pose proof (wy_file _ _ _ _ _ Hr) as Hf. split.
  - eapply wrote_of; try done; [by eapply gained_wfile|by eapply gained_written].
  - destruct (wstep_inode _ _ _ _ (wy_slot _ _ _ _ _ Hr) Hw) as [-> _].
    rewrite (gn_slots _ _ _ _ _ _ _ Hg) by done. by rewrite decide_True.
Qed.

(** A direct block, or the table of indirect ones, is taken. *)
Lemma alloc_addr s start bs i off k :
  wready s start bs [] i → 0 ≤ k < 13 → slot (view s) (inode_of i s) k = 0 → (length bs < 28)%nat →
  ∃ b s1 s2 bs', balloc ROOTDEV s = Ret b s1 ∧ when (negb (b =? 0)) (set_addr i (Z.to_nat k) b) s1 = Ret tt s2 ∧
    wrote s start i off [] bs' [] s2 ∧ (length bs' ≤ length bs + 2)%nat ∧
    slot (view s2) (inode_of i s2) k = b ∧ (b = 0 → full s2).
Proof.
  intros Hr Hk H0 Hl. pose proof (wy_file _ _ _ _ _ Hr) as Hf.
  destruct (balloc_ok me s start bs [] (wy_txn _ _ _ _ _ Hr) (apart_nil s) (wf_bitmap _ _ _ _ Hf) (wy_panicked _ _ _ _ _ Hr))
    as (b&s1&Hb&[(Hbr&Hbf&_&Ht1&Hs1)|(->&Hu&Ht1&Hs1&_)]); [simpl; lia| |].
  - destruct (fresh_small _ _ _ _ b Hf Hbr Hbf) as [Hb0 _].
    assert (inode_of i s1 = inode_of i s ∧ k_inodes s1 = k_inodes s) as [Hi1 Hk1]
      by (unfold inode_of; by rewrite (fp_frame _ _ _ Hs1)).
    destruct (on_inode_step s1 start _ [] i (with_addr k b) Ht1) as (s2&Hr2&Ht2&Hv2&Hw2&_); [rewrite Hk1; apply Hr|].
    destruct (gained_wrote s start bs [] i off k b _ [] s2 _ Hr ltac:(lia) Ht2 (wstep_trans _ _ _ _ _ _ (wstep_step i s s1 _ (wy_slot _ _ _ _ _ Hr) Hs1) Hw2))
      as [Hwr Hsl].
    { rewrite Hi1. eapply gained_ext; [by apply (gained_addr (k_sb s) start)|]. intros x. rewrite Hv2. apply Hs1. }
    eexists b, s1, s2, _. rewrite (proj2 (Z.eqb_neq _ _) Hb0). cbn [negb].
    refine (conj Hb (conj Hr2 (conj Hwr (conj _ (conj Hsl _))))); [|done].
    pose proof (length_logged bs (BBLOCK b (k_sb s))). pose proof (length_logged (logged bs (BBLOCK b (k_sb s))) b). lia.
  - destruct (balloc_none s start bs [] i off s1 Hr Hu Ht1 Hs1) as (Hwr&Hfull&Hsl).
    exists 0, s1, s1, bs. refine (conj Hb (conj eq_refl (conj Hwr (conj _ (conj _ (λ _, Hfull)))))); [lia|by rewrite Hsl].
Qed.

Lemma txn_data s start bs i b hs : txn me s start bs ((i, b) :: hs) → b_data (buf_of i s) = view s b.
Proof. intros Ht. exact (holds_data me s _ i b (cached_holds me s bs i b hs (tn_cached _ _ _ _ _ Ht))). Qed.

(** An entry of the table, which is held, is taken. *)
Lemma alloc_entry s start bs i off h e :
  let x := addr (inode_of i s) 12 in
  wready s start bs [(h, x)] i → 0 ≤ e < 256 → x ≠ 0 → slot (view s) (inode_of i s) (13 + e) = 0 → (length bs < 26)%nat →
  ∃ b s1 s2 bs', balloc ROOTDEV s = Ret b s1 ∧
    when (negb (b =? 0)) (on_buf h (λ d, set_b_data (put32 (b_data d) (4 * Z.to_nat e) b) d);; log_write h) s1 = Ret tt s2 ∧
    wrote s start i off [] bs' [(h, x)] s2 ∧ (length bs' ≤ length bs + 3)%nat ∧
    slot (view s2) (inode_of i s2) (13 + e) = b ∧ (b = 0 → full s2).
Proof.
  intros x Hr He Hx H0 Hl. pose proof (wy_file _ _ _ _ _ Hr) as Hf. destruct (table_used _ _ _ _ Hf Hx) as [Hu _]. fold x in Hu.
  destruct (balloc_ok me s start bs [(h, x)] (wy_txn _ _ _ _ _ Hr)) as (b&s1&Hb&[(Hbr&Hbf&_&Ht1&Hs1)|(->&Hun&Ht1&Hs1&_)]).
  - intros y Hy. cbn. split; [intros Hin%list_elem_of_singleton; by apply (us_data _ _ _ _ Hu y Hy)|].
    intros Hfr ->%list_elem_of_singleton. by rewrite (us_taken _ _ _ _ Hu) in Hfr.
  - apply Hf.
  - exact (wy_panicked _ _ _ _ _ Hr).
  - simpl. lia.
  - destruct (fresh_small _ _ _ _ b Hf Hbr Hbf) as [Hb0 _].
    set (bs1 := logged (logged bs (BBLOCK b (k_sb s))) b) in *.
    assert (length bs1 ≤ length bs + 2)%nat as Hl1.
    { pose proof (length_logged bs (BBLOCK b (k_sb s))). pose proof (length_logged (logged bs (BBLOCK b (k_sb s))) b). unfold bs1. lia. }
    assert (view s1 x = view s x) as Hvx by (rewrite (fp_view _ _ _ Hs1); by eapply balloc_used).
    destruct (txn_modify me s1 start bs1 h x [] (λ d, set_b_data (put32 (b_data d) (4 * Z.to_nat e) b) d)
      (put32 (view s x) (4 * Z.to_nat e) b) Ht1) as (s2&s3&Hr2&Hr3&Ht3&Hs3); [by rewrite (txn_data _ _ _ _ _ _ Ht1), Hvx|apply Hu|lia|].
    pose proof (fs_step_trans _ _ _ _ _ Hs1 Hs3) as Hs.
    destruct (gained_wrote s start bs _ i off (13 + e) b _ [(h, x)] s3 (inode_of i s) Hr ltac:(lia) Ht3
      (wstep_step i s s3 _ (wy_slot _ _ _ _ _ Hr) Hs)) as [Hwr Hsl].
    { eapply gained_ext; [by apply (gained_entry (k_sb s) start)|]. intros y. rewrite (fp_view _ _ _ Hs).
      apply put_block_ext, Hs1. }
    eexists b, s1, s3, _. rewrite (proj2 (Z.eqb_neq _ _) Hb0). cbn [negb when].
    refine (conj Hb (conj _ (conj Hwr (conj _ (conj Hsl _))))); [by rewrite (bind_Ret _ _ _ _ _ Hr2)| |done].
    pose proof (length_logged bs1 x). lia.
  - destruct (balloc_none s start bs _ i off s1 Hr Hun Ht1 Hs1) as (Hwr&Hfull&Hsl).
    exists 0, s1, s1, bs. refine (conj Hb (conj eq_refl (conj Hwr (conj _ (conj _ (λ _, Hfull)))))); [lia|by rewrite Hsl].
Qed.

(** The entry of the table of a file that has one. *)
Lemma bmap_entry s start bs i off e :
  let x := addr (inode_of i s) 12 in
  wready s start bs [] i → 0 ≤ e < 256 → x ≠ 0 → (length bs < 26)%nat → 0 ≤ off ≤ MAXFILE * BSIZE →
  ∃ a s' bs',
    (bp ← bread ROOTDEV x; d ← data_of bp;
     addr ← (if get32 d (4 * Z.to_nat e) =? 0 then
               addr ← balloc ROOTDEV;
               when (negb (addr =? 0)) (on_buf bp (λ x, set_b_data (put32 (b_data x) (4 * Z.to_nat e) addr) x);; log_write bp);;
               mret addr
             else mret (get32 d (4 * Z.to_nat e)));
     brelse bp;; mret addr) s = Ret a s' ∧
    wrote s start i off [] bs' [] s' ∧ (length bs' ≤ length bs + 3)%nat ∧
    slot (view s') (inode_of i s') (13 + e) = a ∧ (a = 0 → full s').
Proof.
  intros x Hr He Hx Hl Hoff.
  destruct (txn_bread me s start bs [] x (wy_txn _ _ _ _ _ Hr)) as (h&s1&Hr1&Ht1&Hs1&Hd1); [apply not_elem_of_nil|simpl; lia|].
  destruct (wrote_step s start bs [] i off bs _ s1 Hr Ht1 Hs1) as [Hw1 Hi1].
  assert (get32 (view s x) (4 * Z.to_nat e) = slot (view s1) (inode_of i s1) (13 + e)) as Hent.
  { rewrite Hi1, (slot_ext (view s) (view s1)) by (intros _; apply Hs1). unfold slot.
    assert (13 + e <? 13 = false) as -> by lia. fold x. rewrite (proj2 (Z.eqb_neq _ _) Hx).
    by replace (13 + e - 13) with e by lia. }
  assert (∀ s2 bs2, wrote s1 start i off [] bs2 [(h, x)] s2 → ∃ s', brelse h s2 = Ret tt s' ∧
    wrote s start i off [] bs2 [] s' ∧ (∀ k, slot (view s') (inode_of i s') k = slot (view s2) (inode_of i s2) k) ∧
    (full s2 → full s')) as Hrel.
  { intros s2 bs2 Hw2. pose proof (wo_ready _ _ _ _ _ _ _ _ Hw2) as Hr2.
    destruct (txn_brelse me s2 start bs2 h x [] (wy_txn _ _ _ _ _ Hr2)) as (s3&Hr3&Ht3&Hs3).
    destruct (wrote_step s2 start bs2 _ i off bs2 [] s3 Hr2 Ht3 Hs3) as [Hw3 Hi3].
    exists s3. refine (conj Hr3 (conj _ (conj _ _))).
    - apply (wrote_trans s start i off [] [] bs [(h, x)] s1); cbn [length]; rewrite ?Z.add_0_r; [done| |lia|lia].
      apply (wrote_trans s1 start i off [] [] bs2 [(h, x)] s2); cbn [length]; rewrite ?Z.add_0_r; [done|done|lia|lia].
    - intros k. rewrite Hi3. apply slot_ext. intros _. apply Hs3.
    - intros Hfull y. rewrite (ws_sb _ _ _ _ (wo_step _ _ _ _ _ _ _ _ Hw3)). intros Hy.
      rewrite (block_free_ext _ (view s2)) by apply Hs3. by apply Hfull. }
  rewrite (bind_Ret _ _ _ _ _ Hr1). unfold data_of. rewrite bind_gets, Hd1, Hent.
  destruct (Z.eqb_spec (slot (view s1) (inode_of i s1) (13 + e)) 0) as [Hz|Hz].
  - destruct (alloc_entry s1 start bs i off h e) as (b&s2&s3&bs'&Hr2&Hr3&Hw3&Hl3&Hsl3&Hfull3); rewrite ?Hi1; try done; [by apply Hw1|by rewrite <- Hi1|].
    rewrite Hi1 in Hw3. destruct (Hrel s3 bs' Hw3) as (s4&Hr4&Hw4&Hsl4&Hfull4).
    exists b, s4, bs'. refine (conj _ (conj Hw4 (conj Hl3 (conj _ (λ E, Hfull4 (Hfull3 E)))))); [|by rewrite Hsl4].
    rewrite (bind_Ret _ _ _ b s3); [by rewrite (bind_Ret _ _ _ _ _ Hr4)|].
    rewrite (bind_Ret _ _ _ _ _ Hr2), (bind_Ret _ _ _ _ _ Hr3). done.
  - destruct (Hrel s1 bs) as (s4&Hr4&Hw4&Hsl4&_).
    { by apply (wrote_step s1 start bs [(h, x)]); [apply Hw1|apply Hw1|apply fs_step_refl]. }
    eexists _, s4, bs. rewrite bind_mret, (bind_Ret _ _ _ _ _ Hr4).
    refine (conj eq_refl (conj Hw4 (conj _ (conj (Hsl4 _) _)))); [lia|done].
Qed.

(** Block [bn] of the file, which takes the blocks it needs; 0 when none is
    free. *)
Lemma bmap_ok s start bs i off bn :
  wready s start bs [] i → 0 ≤ bn < MAXFILE → (length bs < 24)%nat → 0 ≤ off ≤ MAXFILE * BSIZE →
  ∃ a s' bs', bmap i bn s = Ret a s' ∧ wrote s start i off [] bs' [] s' ∧ (length bs' ≤ length bs + 5)%nat ∧
    block_at (view s') (inode_of i s') bn = a ∧ (a = 0 → full s').
Proof.
  intros Hr Hbn Hl Ho. change MAXFILE with 268 in Hbn. pose proof (wy_file _ _ _ _ _ Hr) as Hf.
  unfold bmap. rewrite bind_gets, (wf_dev _ _ _ _ Hf). change NDIRECT with 12. destruct (bn <? 12) eqn:Hd.
  - rewrite bind_gets. change (addr_of i (Z.to_nat bn) s) with (addr (inode_of i s) bn).
    assert (∀ t, block_at (view t) (inode_of i t) bn = slot (view t) (inode_of i t) bn) as Hb.
    { intros t. rewrite block_slot by lia. unfold slot_of. by rewrite Hd. }
    rewrite <- (addr_slot (view s)) by lia. destruct (Z.eqb_spec (slot (view s) (inode_of i s) bn) 0) as [Hz|Hz].
    + destruct (alloc_addr s start bs i off bn Hr) as (b&s1&s2&bs'&Hr1&Hr2&Hw2&Hl2&Hsl&Hfull); [lia|done|lia|].
      exists b, s2, bs'. rewrite (bind_Ret _ _ _ _ _ Hr1), Hb.
      refine (conj _ (conj Hw2 (conj _ (conj Hsl Hfull)))); [|lia].
      destruct (b =? 0) eqn:Eb; cbn [negb when] in Hr2.
      * injection Hr2 as <-. by apply Z.eqb_eq in Eb as ->.
      * by rewrite (bind_Ret _ _ _ _ _ Hr2).
    + destruct (wrote_step s start bs [] i off bs [] s Hr (wy_txn _ _ _ _ _ Hr) (fs_step_refl s)) as [Hw _].
      eexists _, s, bs. rewrite Hb. refine (conj eq_refl (conj Hw (conj _ (conj eq_refl _)))); [lia|done].
  - assert ((bn - 12 <? NINDIRECT) = true) as -> by (change NINDIRECT with 256; lia).
    rewrite bind_gets. change (addr_of i (Z.to_nat 12) s) with (addr (inode_of i s) 12).
    assert (∀ t, block_at (view t) (inode_of i t) bn = slot (view t) (inode_of i t) (13 + (bn - 12))) as Hb.
    { intros t. rewrite block_slot by lia. unfold slot_of. rewrite Hd. f_equal. lia. }
    assert (∃ x s1 bs1, (if addr (inode_of i s) 12 =? 0 then
        addr ← balloc ROOTDEV; when (negb (addr =? 0)) (set_addr i (Z.to_nat 12) addr);; mret addr
      else mret (addr (inode_of i s) 12)) s = Ret x s1 ∧ wrote s start i off [] bs1 [] s1 ∧ (length bs1 ≤ length bs + 2)%nat ∧
        addr (inode_of i s1) 12 = x ∧ (x = 0 → full s1)) as (x&s1&bs1&Hr1&Hw1&Hl1&Hx&Hfull1).
    { rewrite <- (addr_slot (view s)) by lia. destruct (Z.eqb_spec (slot (view s) (inode_of i s) 12) 0) as [Hz|Hz].
      - destruct (alloc_addr s start bs i off 12 Hr) as (b&s1&s2&bs'&Hr1&Hr2&Hw2&Hl2&Hsl&Hfull); [lia|done|lia|].
        exists b, s2, bs'. rewrite (bind_Ret _ _ _ _ _ Hr1), (bind_Ret _ _ _ _ _ Hr2).
        rewrite addr_slot in Hsl by lia. done.
      - destruct (wrote_step s start bs [] i off bs [] s Hr (wy_txn _ _ _ _ _ Hr) (fs_step_refl s)) as [Hw _].
        eexists _, s, bs. rewrite addr_slot by lia. refine (conj eq_refl (conj Hw (conj _ (conj eq_refl _)))); [lia|].
        rewrite addr_slot in Hz by lia. done. }
    rewrite (bind_Ret _ _ _ _ _ Hr1). destruct (Z.eqb_spec x 0) as [->|Hx0].
    + exists 0, s1, bs1. refine (conj eq_refl (conj Hw1 (conj _ (conj _ Hfull1)))); [lia|].
      rewrite Hb. unfold slot. rewrite Hx. by assert ((13 + (bn - 12) <? 13) = false) as -> by lia.
    + subst x. destruct (bmap_entry s1 start bs1 i off (bn - 12)) as (a&s2&bs2&Hr2&Hw2&Hl2&Hsl&Hfull); try done; try lia; [by apply Hw1|].
      exists a, s2, bs2. rewrite Hb. refine (conj Hr2 (conj _ (conj _ (conj Hsl Hfull)))); [|lia].
      apply (wrote_trans s start i off [] [] bs1 [] s1); cbn [length]; rewrite ?Z.add_0_r; [done|done|lia|lia].
Qed.

(** The blocks [n] bytes from [off] on lie in. *)
Definition blocks_touched (off n : Z) : nat :=
  if n <=? 0 then 0 else Z.to_nat ((off mod BSIZE + n + BSIZE - 1) / BSIZE).

(** One round of [writei], which writes the bytes [c]. *)
Lemma write_chunk s start bs i off c :
  let a := block_at (view s) (inode_of i s) (off / BSIZE) in
  wready s start bs [] i → 0 ≤ off < MAXFILE * BSIZE → a ≠ 0 → off mod BSIZE + Z.of_nat (length c) ≤ BSIZE →
  (length bs < 29)%nat →
  ∃ h s1 s2 s3 s4, bread ROOTDEV a s = Ret h s1 ∧ k_mem s1 = k_mem s ∧ env me [] s1 ∧
    on_buf h (λ x, set_b_data (splice (b_data x) (Z.to_nat (off mod BSIZE)) c) x) (tick s1) = Ret tt s2 ∧
    log_write h s2 = Ret tt s3 ∧ brelse h s3 = Ret tt s4 ∧
    wrote s start i off c (logged bs a) [] s4 ∧ inode_of i s4 = inode_of i s.
Proof.
  intros a Hr Ho Ha Hc Hl. pose proof (wy_file _ _ _ _ _ Hr) as Hf.
  destruct (chunk_written _ _ (view s) (inode_of i s) off c Hf Ho Ha Hc) as [Hf' Hw']. fold a in Hf', Hw'.
  destruct (txn_bread me s start bs [] a (wy_txn _ _ _ _ _ Hr)) as (h&s1&Hr1&Ht1&Hs1&Hd1); [apply not_elem_of_nil|simpl; lia|].
  assert (txn me (tick s1) start bs [(h, a)]) as Ht1'.
  { apply (txn_ext me s1); [done| |done]. unfold same_cache. split_and!; try done. by right. }
  assert (home start a) as Hh.
  { unfold a in *. change (MAXFILE * BSIZE) with 274432 in Ho. change BSIZE with 1024 in *. rewrite block_slot in * by zdm.
    apply (us_home _ _ _ _ (wf_used _ _ _ _ Hf _ (proj1 (slot_of_range (off / 1024) ltac:(zdm))) Ha)). }
  destruct (txn_modify me (tick s1) start bs h a [] (λ x, set_b_data (splice (b_data x) (Z.to_nat (off mod BSIZE)) c) x)
    (splice (view s a) (Z.to_nat (off mod BSIZE)) c) Ht1') as (s2&s3&Hr2&Hr3&Ht3&Hs3).
  { change (buf_of h (tick s1)) with (buf_of h s1). by rewrite Hd1. } { done. } { done. }
  destruct (txn_brelse me s3 start _ h a [] Ht3) as (s4&Hr4&Ht4&Hs4).
  assert (fs_step s (tick s1) (view s)) as Hst.
  { destruct Hs1 as [V1 D1 W1 O1 C1 F1 L1 P1]. split; try done. unfold fs_frame in *. rewrite F1 at 1. unfold tick. kernel_eq. }
  pose proof (fs_step_trans _ _ _ _ _ (fs_step_trans _ _ _ _ _ Hst Hs3) Hs4) as Hs.
  assert (∀ x, view s4 x = put_block a (splice (view s a) (Z.to_nat (off mod BSIZE)) c) (view s) x) as Hv.
  { intros x. rewrite (fp_view _ _ _ Hs), (fp_view _ _ _ Hs3). apply put_block_ext, Hst. }
  pose proof (wstep_step i s s4 _ (wy_slot _ _ _ _ _ Hr) Hs) as Hws.
  exists h, s1, s2, s3, s4. refine (conj Hr1 (conj _ (conj (txn_env _ _ _ _ _ Ht1) (conj Hr2 (conj Hr3 (conj Hr4 (conj _ _))))))).
  - by rewrite (fp_frame _ _ _ Hs1).
  - apply (wrote_of s start bs [] i off c _ [] s4 (inode_of i s)); try done.
    + apply (wfile_ext _ _ _ (view s4) (inode_of i s) (inode_of i s) Hf'); try done; try apply Hf; intros; by rewrite Hv.
    + by apply (written_ext _ _ _ _ _ _ _ (view s4) (inode_of i s) Hw').
  - by eapply wstep_inode; [apply Hr|].
Qed.

Lemma copyin_kernel s src n :
  env me [] s → either_copyin false src n s = Ret (0, ld_bytes (Z.to_nat n) (k_mem s) src) (tick s).
Proof. intros He. unfold either_copyin. rewrite (bind_myproc me []) by done. done. Qed.

Lemma touched_step off n m :
  0 ≤ off → m = Z.min n (BSIZE - off mod BSIZE) → 0 < n →
  (blocks_touched (off + m) (n - m) + 1 ≤ blocks_touched off n)%nat.
Proof.
  intros Ho -> Hn. unfold blocks_touched. change BSIZE with 1024. pose proof (Z.mod_pos_bound off 1024 ltac:(lia)).
  assert (n <=? 0 = false) as -> by lia. destruct (Z.leb_spec (n - Z.min n (1024 - off mod 1024)) 0) as [H1|H1].
  - assert (1 ≤ (off mod 1024 + n + 1024 - 1) / 1024) by (apply Z.div_le_lower_bound; lia). lia.
  - rewrite Z.min_r by lia. assert ((off + (1024 - off mod 1024)) mod 1024 = 0) as -> by zdm.
    replace (off mod 1024 + n + 1024 - 1) with (0 + (n - (1024 - off mod 1024)) + 1024 - 1 + 1 * 1024) by lia.
    rewrite Z.div_add by lia. assert (0 ≤ (0 + (n - (1024 - off mod 1024)) + 1024 - 1) / 1024) by (apply Z.div_pos; lia). lia.
Qed.

Lemma writei_loop_ok k s start bs i src off n tot :
  wready s start bs [] i → 0 ≤ off → 0 ≤ tot ≤ n → off + (n - tot) ≤ MAXFILE * BSIZE → 0 ≤ src → src + (n - tot) < 2 ^ 64 →
  n - tot ≤ Z.of_nat k → (length bs + 6 * blocks_touched off (n - tot) ≤ 28)%nat →
  ∃ r s' bs', writei_loop k i false src off n tot s = Ret (tot + r, off + r) s' ∧ 0 ≤ r ≤ n - tot ∧
    wrote s start i off (ld_bytes (Z.to_nat r) (k_mem s) src) bs' [] s' ∧
    (length bs' ≤ length bs + 6 * blocks_touched off (n - tot))%nat ∧ (r = n - tot ∨ full s').
Proof.
  revert s bs src off tot. induction k as [|k IH]; intros s bs src off tot Hr Ho Ht Hmax Hs1 Hs2 Hk Hl; cbn [writei_loop];
    (destruct (Z.ltb_spec tot n) as [Hlt|Hlt]; cbn [negb];
     [|exists 0, s, bs; rewrite !Z.add_0_r;
       refine (conj eq_refl (conj _ (conj (proj1 (wrote_step s start bs [] i off bs [] s Hr (wy_txn _ _ _ _ _ Hr) (fs_step_refl s)))
         (conj _ (or_introl _))))); lia]).
  { lia. }
  change (MAXFILE * BSIZE) with 274432 in *. set (m := Z.min (n - tot) (BSIZE - off mod BSIZE)).
  pose proof (touched_step off (n - tot) m Ho eq_refl ltac:(lia)) as Htouch. change BSIZE with 1024 in *.
  pose proof (Z.mod_pos_bound off 1024 ltac:(lia)) as Hmod.
  destruct (bmap_ok s start bs i off (off / 1024) Hr) as (a&s1&bs1&Hr1&Hw1&Hl1&Ha&Hfull1);
    [change MAXFILE with 268; zdm|lia|change (MAXFILE * BSIZE) with 274432; lia|].
  rewrite (bind_Ret _ _ _ _ _ Hr1). destruct (Z.eqb_spec a 0) as [Ha0|Ha0].
  { exists 0, s1, bs1. rewrite !Z.add_0_r. refine (conj eq_refl (conj _ (conj Hw1 (conj _ (or_intror (Hfull1 Ha0)))))); lia. }
  pose proof (wo_ready _ _ _ _ _ _ _ _ Hw1) as Hrd1. pose proof (wo_step _ _ _ _ _ _ _ _ Hw1) as Hst1.
  rewrite bind_gets, (wf_dev _ _ _ _ (wy_file _ _ _ _ _ Hrd1)).
  set (c := ld_bytes (Z.to_nat m) (k_mem s) src). assert (Z.of_nat (length c) = m) as Hc by (unfold c; rewrite length_ld_bytes; lia).
  destruct (write_chunk s1 start bs1 i off c Hrd1) as (h&s2&s3&s4&s5&Hr2&Hm2&He2&Hr3&Hr4&Hr5&Hw5&_);
    [change (MAXFILE * BSIZE) with 274432; lia|change BSIZE with 1024; by rewrite Ha|change BSIZE with 1024; lia|lia|].
  change BSIZE with 1024 in *. rewrite Ha in Hr2, Hw5.
  rewrite (bind_Ret _ _ _ _ _ Hr2), (bind_Ret _ _ _ _ _ (copyin_kernel s2 src m He2)). cbn [fst snd Z.eqb].
  rewrite Hm2, (ws_mem _ _ _ _ Hst1). fold c. rewrite (bind_Ret _ _ _ _ _ Hr3), (bind_Ret _ _ _ _ _ Hr4), (bind_Ret _ _ _ _ _ Hr5).
  assert (u64 (src + m) = src + m ∧ u32 (off + m) = off + m) as [-> ->] by (split; [apply u64_small|apply u32_small]; lia).
  pose proof (length_logged bs1 a) as Hl2.
  assert (wrote s start i off c (logged bs1 a) [] s5) as Hw.
  { apply (wrote_trans s start i off [] c bs1 [] s1); cbn [length]; rewrite ?Z.add_0_r; try done. change (MAXFILE * BSIZE) with 274432. lia. }
  destruct (IH s5 (logged bs1 a) (src + m) (off + m) (tot + m)) as (r&s6&bs6&Hr6&Hrr&Hw6&Hl6&Hfin); try lia; [apply Hw5| |].
  { replace (n - (tot + m)) with (n - tot - m) by lia. lia. }
  exists (m + r), s6, bs6. rewrite !Z.add_assoc. refine (conj Hr6 (conj _ (conj _ (conj _ _)))); [lia| | |destruct Hfin; [left; lia|by right]].
  - rewrite Z2Nat.inj_add, ld_bytes_app, Z2Nat.id by lia. fold c.
    eapply (wrote_trans s start i off c); [exact Hw| |lia|change (MAXFILE * BSIZE) with 274432; lia].
    rewrite Hc. rewrite <- (ws_mem _ _ _ _ (wo_step _ _ _ _ _ _ _ _ Hw)). exact Hw6.
  - replace (n - (tot + m)) with (n - tot - m) in Hl6 by lia. lia.
Qed.

(** What [writei] leaves once [bytes] were written at [off] and the inode was
    put on the disk. *)
Record stored (s : kernel) (start : Z) (i : nat) (off : Z) (bytes : list Z) (bs' : list Z) (s' : kernel) : Prop := {
  so_ready : wready s' start bs' [] i;
  so_step : wstep i (inode_of i s') s s';
  so_inode : inode_of i s' = set_i_size (i_size (inode_of i s')) (set_i_addrs (i_addrs (inode_of i s')) (inode_of i s));
  so_size : i_size (inode_of i s') = Z.max (i_size (inode_of i s)) (off + Z.of_nat (length bytes));
  so_bytes : file_range (view s') (inode_of i s') off (Z.of_nat (length bytes)) = bytes;
  so_rest o : 0 ≤ o < i_size (inode_of i s) → o < off ∨ off + Z.of_nat (length bytes) ≤ o →
    file_byte (view s') (inode_of i s') o = file_byte (view s) (inode_of i s) o;
  so_file : file_ok (view s') (inode_of i s');
  so_other x : used (k_sb s) start (view s) x → (∀ l, 0 ≤ l < 269 → slot (view s) (inode_of i s) l ≠ x) →
    x ≠ IBLOCK (i_inum (inode_of i s)) (k_sb s) → view s' x = view s x;
  so_dinode : dinode_at (view s' (IBLOCK (i_inum (inode_of i s)) (k_sb s))) (dinode_off (i_inum (inode_of i s))) =
    on_disk (inode_of i s');
  so_dinodes n : n mod IPB ≠ i_inum (inode_of i s) mod IPB →
    dinode_at (view s' (IBLOCK (i_inum (inode_of i s)) (k_sb s))) (dinode_off n) =
    dinode_at (view s (IBLOCK (i_inum (inode_of i s)) (k_sb s))) (dinode_off n);
}.

(** The file after its size was raised to cover the bytes written. *)
Lemma written_file sb start v ip off bytes w jp :
  file_ok v ip → wfile sb start w jp → written sb start v ip off bytes w jp → Forall (λ x, 0 ≤ x < 256) bytes →
  0 ≤ off ≤ i_size ip → off + Z.of_nat (length bytes) ≤ MAXFILE * BSIZE →
  file_ok w (set_i_size (Z.max (i_size ip) (off + Z.of_nat (length bytes))) jp).
Proof.
  intros Hok Hf Hw Hb Ho Hmax. pose proof (fo_size _ _ Hok) as Hsz. change (MAXFILE * BSIZE) with 274432 in *.
  assert (∀ bn, 0 ≤ bn → bn * BSIZE < Z.max (i_size ip) (off + Z.of_nat (length bytes)) → block_at w jp bn ≠ 0) as Hmap.
  { intros bn Hbn Hlt. change BSIZE with 1024 in *. destruct (decide (bn * 1024 < i_size ip)) as [Hlo|Hhi].
    - destruct (fo_block _ _ Hok bn Hbn Hlo) as [H0 _]. rewrite (written_block _ _ _ _ _ _ _ _ _ Hw); [done|lia|done].
    - pose proof (wr_mapped _ _ _ _ _ _ _ _ Hw (bn * 1024 - off) ltac:(lia)) as H0. change BSIZE with 1024 in H0.
      replace (off + (bn * 1024 - off)) with (bn * 1024) in H0 by lia. by rewrite Z.div_mul in H0 by lia. }
  split.
  - destruct (wf_inode _ _ _ _ Hf). split; try done. cbn. lia.
  - apply Hf.
  - cbn. change (MAXFILE * BSIZE) with 274432. lia.
  - intros bn Hbn Hlt. pose proof (Hmap bn Hbn Hlt) as H0. split; [exact H0|]. cbn [i_size set_i_size] in Hlt. change BSIZE with 1024 in *.
    change (block_at w (set_i_size _ jp) bn) with (block_at w jp bn). rewrite block_slot in * by lia.
    apply (wf_len _ _ _ _ Hf); [|done]. apply slot_of_range. lia.
  - intros o Hoo. cbn [i_size set_i_size] in Hoo. change (file_byte w (set_i_size _ jp) o) with (file_byte w jp o).
    destruct (decide (off ≤ o < off + Z.of_nat (length bytes))) as [Hin|Hout].
    + replace o with (off + (o - off)) by lia. rewrite (wr_bytes _ _ _ _ _ _ _ _ Hw) by lia. unfold byte_at.
      destruct (lookup_lt_is_Some_2 bytes (Z.to_nat (o - off))) as [x Hx]; [lia|]. rewrite Hx. exact (Forall_lookup_1 _ _ _ _ Hb Hx).
    + rewrite (wr_byte _ _ _ _ _ _ _ _ Hw); [apply (fo_byte _ _ Hok); lia|change (MAXFILE * BSIZE) with 274432; lia| |lia].
      apply (fo_block _ _ Hok); change BSIZE with 1024; zdm.
Qed.

(** The block that holds the inode is rewritten: the file's contents do not
    change. *)
Section iblock.
Context (sb : superblock) (start : Z) (v w : Z → list Z) (ip : inode) (d : list Z).
Context (Hf : wfile sb start v ip) (Hw : ∀ x, w x = put_block (IBLOCK (i_inum ip) sb) d v x) (Hd : length d = 1024%nat).

Lemma iblock_slot l : slot w ip l = slot v ip l.
Proof using Hf Hw Hd.
  apply slot_ext. intros _. rewrite Hw. unfold put_block. rewrite decide_False; [done|].
  rewrite <- (addr_slot v) by lia. apply (wf_apart _ _ _ _ Hf). lia.
Qed.

Lemma iblock_wfile : wfile sb start w ip.
Proof using Hf Hw Hd.
  pose proof (wf_iblock _ _ _ _ Hf) as Hu. apply (wfile_ext sb start v w ip ip Hf); try done; [..|apply Hf].
  - intros y Hy. rewrite Hw. unfold put_block. rewrite decide_False; [done|by apply Hu].
  - intros _. rewrite Hw. unfold put_block. rewrite decide_False; [done|].
    rewrite <- (addr_slot v) by lia. apply (wf_apart _ _ _ _ Hf). lia.
  - intros x Hx. rewrite Hw. unfold put_block. by case_decide.
Qed.

Lemma iblock_block bn : 0 ≤ bn < 268 → block_at w ip bn = block_at v ip bn ∧ w (block_at v ip bn) = v (block_at v ip bn).
Proof using Hf Hw Hd.
  intros Hbn. rewrite !block_slot, iblock_slot by lia. split; [done|]. rewrite Hw. unfold put_block.
  rewrite decide_False; [done|]. apply (wf_apart _ _ _ _ Hf), slot_of_range. lia.
Qed.

Lemma iblock_byte o : 0 ≤ o < MAXFILE * BSIZE → file_byte w ip o = file_byte v ip o.
Proof using Hf Hw Hd.
  change (MAXFILE * BSIZE) with 274432. intros Ho. unfold file_byte. change BSIZE with 1024.
  destruct (iblock_block (o / 1024)) as [-> ->]; [zdm|done].
Qed.

Lemma iblock_file : file_ok v ip → file_ok w ip.
Proof using Hf Hw Hd.
  intros [H1 H2 H3 H4 H5]. pose proof H3 as Hsz. change (MAXFILE * BSIZE) with 274432 in Hsz. split; try done.
  - intros bn Hbn Hlt. specialize (H4 bn Hbn Hlt). change BSIZE with 1024 in Hlt.
    destruct (iblock_block bn) as [-> ->]; [lia|done].
  - intros o Ho. rewrite iblock_byte by lia. auto.
Qed.

End iblock.

Lemma stored_of s start bs i off bytes bs' s' w jp :
  let ip := inode_of i s in
  let r := Z.of_nat (length bytes) in
  let b := IBLOCK (i_inum ip) (k_sb s) in
  let kp := set_i_size (Z.max (i_size ip) (off + r)) jp in
  wready s start bs [] i → file_ok (view s) ip → written (k_sb s) start (view s) ip off bytes w jp →
  wfile (k_sb s) start w kp → file_ok w kp → txn me s' start bs' [] → wstep i kp s s' →
  (∀ x, view s' x = put_block b (put_dinode (w b) (dinode_off (i_inum ip)) kp) w x) →
  0 ≤ off → off + r ≤ MAXFILE * BSIZE → stored s start i off bytes bs' s'.
Proof.
  intros ip r b kp Hr Hok Hwr Hf Hfo Ht Hst Hv Ho Hmax. change (MAXFILE * BSIZE) with 274432 in Hmax.
  pose proof (wr_inode _ _ _ _ _ _ _ _ Hwr) as Hjp. assert (i_inum kp = i_inum ip) as Hin by (unfold kp; by rewrite Hjp).
  pose proof (wf_dinode _ _ _ _ Hf) as Hlb. rewrite Hin in Hlb. fold b in Hlb. pose proof (dinode_off_range (i_inum ip)) as Hoff.
  destruct (put_dinode_ok (w b) (dinode_off (i_inum ip)) kp (fo_inode _ _ Hfo)) as (Hlen&Hat&_); [lia|]. rewrite Hlb in Hlen.
  assert (view s' b = put_dinode (w b) (dinode_off (i_inum ip)) kp) as Hvb by (rewrite Hv; unfold put_block; by rewrite decide_True).
  pose proof (wf_iblock _ _ _ _ (wy_file _ _ _ _ _ Hr)) as Hub. fold ip b in Hub.
  assert (w b = view s b) as Hwb.
  { apply (wr_other _ _ _ _ _ _ _ _ Hwr); [done|]. intros l Hl. exact (wf_apart _ _ _ _ (wy_file _ _ _ _ _ Hr) l Hl). }
  assert (∀ x, view s' x = put_block (IBLOCK (i_inum kp) (k_sb s)) (put_dinode (w b) (dinode_off (i_inum ip)) kp) w x) as Hv'
    by (intros x; rewrite Hin; apply Hv).
  destruct (wstep_inode _ _ _ _ (wy_slot _ _ _ _ _ Hr) Hst) as [Hi Hl].
  split; rewrite ?Hi; fold ip b.
  - split; [done|rewrite (ws_sb _ _ _ _ Hst), Hi; exact (iblock_wfile _ _ w _ kp _ Hf Hv' Hlen)|rewrite Hl; apply Hr|].
    rewrite (ws_panicked _ _ _ _ Hst). exact (wy_panicked _ _ _ _ _ Hr).
  - done.
  - unfold kp. rewrite Hjp. done.
  - done.
  - apply list_eq. intros k. unfold file_range. rewrite list_lookup_fmap. destruct (decide (k < length bytes)%nat) as [Hk|Hk].
    + rewrite lookup_seqZ_lt by lia. cbn [fmap option_fmap option_map]. rewrite Z.add_0_l.
      rewrite (iblock_byte _ _ w _ kp _ Hf Hv' Hlen) by (change (MAXFILE * BSIZE) with 274432; lia).
      change (file_byte w kp (off + Z.of_nat k)) with (file_byte w jp (off + Z.of_nat k)).
      rewrite (wr_bytes _ _ _ _ _ _ _ _ Hwr) by lia. unfold byte_at. rewrite Nat2Z.id.
      destruct (lookup_lt_is_Some_2 bytes k Hk) as [x ->]. done.
    + rewrite lookup_seqZ_ge, (lookup_ge_None_2 bytes) by lia. done.
  - intros o Hoo Hout. pose proof (fo_size _ _ Hok) as Hsz. change (MAXFILE * BSIZE) with 274432 in Hsz. fold ip in Hsz.
    rewrite (iblock_byte _ _ w _ kp _ Hf Hv' Hlen) by (change (MAXFILE * BSIZE) with 274432; lia).
    apply (wr_byte _ _ _ _ _ _ _ _ Hwr); [change (MAXFILE * BSIZE) with 274432; lia| |done].
    apply (fo_block _ _ Hok); change BSIZE with 1024; zdm.
  - by apply (iblock_file _ _ w _ kp _ Hf Hv' Hlen).
  - intros x Hu Hn Hx. rewrite Hv. unfold put_block. rewrite decide_False by done. by apply (wr_other _ _ _ _ _ _ _ _ Hwr).
  - by rewrite Hvb.
  - intros n Hn. rewrite Hvb, <- Hwb. apply put_dinode_other; [apply Hfo|done|done].
Qed.

(** The size, if the file grew, and the inode on the disk. *)
Lemma finish_write s start bs i off bytes s1 bs1 :
  let r := Z.of_nat (length bytes) in
  wready s start bs [] i → file_ok (view s) (inode_of i s) → wrote s start i off bytes bs1 [] s1 → (length bs1 < 29)%nat →
  Forall (λ x, 0 ≤ x < 256) bytes → 0 ≤ off ≤ i_size (inode_of i s) → off + r ≤ MAXFILE * BSIZE →
  ∃ s2 s3, when (i_size (inode_of i s1) <? off + r) (on_inode i (set_i_size (off + r))) s1 = Ret tt s2 ∧
    iupdate i s2 = Ret tt s3 ∧ stored s start i off bytes (logged bs1 (IBLOCK (i_inum (inode_of i s)) (k_sb s))) s3 ∧
    (full s1 → full s3).
Proof.
  intros r Hr Hok [Hr1 Hst1 Hwr1] Hl Hb Ho Hmax. set (ip := inode_of i s) in *. set (jp := inode_of i s1) in *.
  pose proof (wr_inode _ _ _ _ _ _ _ _ Hwr1) as Hjp. assert (i_size jp = i_size ip ∧ i_inum jp = i_inum ip) as [Hsz Hin] by (by rewrite Hjp).
  set (kp := set_i_size (Z.max (i_size ip) (off + r)) jp). pose proof (wy_slot _ _ _ _ _ Hr1) as Hi1.
  assert (k_sb s1 = k_sb s) as Hsb1 by apply Hst1. pose proof (wy_file _ _ _ _ _ Hr1) as Hf1. rewrite Hsb1 in Hf1.
  assert (∃ s2, when (i_size jp <? off + r) (on_inode i (set_i_size (off + r))) s1 = Ret tt s2 ∧ txn me s2 start bs1 [] ∧
    (∀ b, view s2 b = view s1 b) ∧ wstep i kp s1 s2 ∧ inode_of i s2 = kp) as (s2&Hr2&Ht2&Hv2&Hst2&Hi2).
  { rewrite Hsz. destruct (Z.ltb_spec (i_size ip) (off + r)) as [Hlt|Hge]; cbn [when].
    - destruct (on_inode_step s1 start bs1 [] i (set_i_size (off + r)) (wy_txn _ _ _ _ _ Hr1) Hi1) as (s2&H1&H2&H3&H4&H5).
      exists s2. unfold kp. rewrite Z.max_r by lia. done.
    - assert (kp = jp) as -> by (unfold kp; rewrite Z.max_l, <- Hsz by lia; by destruct jp).
      exists s1. refine (conj eq_refl (conj (wy_txn _ _ _ _ _ Hr1) (conj _ (conj (wstep_step i s1 s1 _ Hi1 (fs_step_refl s1)) eq_refl)))). done. }
  set (b := IBLOCK (i_inum ip) (k_sb s)). set (o := dinode_off (i_inum ip)).
  assert (k_sb s2 = k_sb s) as Hsb2 by (by rewrite (ws_sb _ _ _ _ Hst2)).
  destruct (iupdate_ok me s2 start bs1 i Ht2) as (s3&Hr3&Ht3&Hs3).
  { rewrite Hi2. apply (wf_dev _ _ _ _ Hf1). }
  { rewrite Hi2, Hsb2. apply (us_home _ _ _ _ (wf_iblock _ _ _ _ Hf1)). }
  { done. }
  exists s2, s3. refine (conj Hr2 (conj Hr3 _)). clear Hr2 Hr3. rewrite Hi2, Hsb2 in Ht3, Hs3.
  change (i_inum kp) with (i_inum jp) in Ht3, Hs3. rewrite Hin in Ht3, Hs3. fold b o in Ht3, Hs3.
  pose proof (written_file _ _ _ _ _ _ _ _ Hok Hf1 Hwr1 Hb Ho Hmax) as Hok1. fold r kp in Hok1.
  assert (wfile (k_sb s) start (view s1) kp) as Hf2 by (apply (wfile_ext _ _ (view s1) _ jp); try done; apply Hok1).
  pose proof (wstep_step i s2 s3 _ ltac:(rewrite (proj2 (wstep_inode _ _ _ _ Hi1 Hst2)); done) Hs3) as Hst3.
  rewrite Hi2 in Hst3.
  assert (∀ x, view s3 x = put_block b (put_dinode (view s1 b) o kp) (view s1) x) as Hv3.
  { intros x. rewrite (fp_view _ _ _ Hs3), Hv2. apply put_block_ext, Hv2. }
  split.
  - apply (stored_of s start bs i off bytes _ s3 (view s1) jp); try done; try lia.
    exact (wstep_trans _ _ _ _ _ _ (wstep_trans _ _ _ _ _ _ Hst1 Hst2) Hst3).
  - intros Hfull x. rewrite (ws_sb _ _ _ _ Hst3), Hsb2. unfold full in Hfull. rewrite Hsb1 in Hfull. intros Hx.
    rewrite <- (Hfull x Hx). apply block_free_ext. rewrite Hv3. unfold put_block. rewrite decide_False; [done|].
    apply (wf_iblock _ _ _ _ (wy_file _ _ _ _ _ Hr)). done.
Qed.

Lemma loaded_bytes n m a : Forall (λ x, 0 ≤ x < 256) (ld_bytes n m a).
Proof. revert a. induction n as [|n IH]; intros a; cbn; constructor; [apply ld8_range|apply IH]. Qed.

(** What [writei] refuses. *)
Definition too_far (ip : inode) (off n : Z) : bool := (i_size ip <? off) || (MAXFILE * BSIZE <? off + n).

Lemma writei_guard ip off n :
  0 ≤ off < 4294967296 → 0 ≤ n < 4294967296 → 0 ≤ i_size ip ≤ MAXFILE * BSIZE →
  (i_size ip <? off) || (u32 (off + n) <? off) || (MAXFILE * BSIZE <? u32 (off + n)) = too_far ip off n.
Proof.
  intros Ho Hn Hs. unfold too_far. change (MAXFILE * BSIZE) with 274432 in *.
  destruct (Z.ltb_spec (i_size ip) off) as [|Hle]; [done|]. cbn [orb].
  destruct (decide (off + n < 4294967296)) as [Hlt|Hge].
  - rewrite u32_small by lia. assert ((off + n <? off) = false) as -> by lia. done.
  - assert ((u32 (off + n) <? off) = true) as -> by (apply Z.ltb_lt; unfold u32; zdm). symmetry. apply Z.ltb_lt. lia.
Qed.

Lemma writei_ok s start bs i src off n :
  wready s start bs [] i → file_ok (view s) (inode_of i s) → 0 ≤ off < 4294967296 → 0 ≤ n < 4294967296 →
  0 ≤ src → src + n < 2 ^ 64 → (length bs + 6 * blocks_touched off n ≤ 28)%nat →
  if too_far (inode_of i s) off n then writei i false src off n s = Ret (-1) s
  else ∃ r s' bs', writei i false src off n s = Ret r s' ∧ 0 ≤ r ≤ n ∧
    stored s start i off (ld_bytes (Z.to_nat r) (k_mem s) src) bs' s' ∧
    (length bs' ≤ length bs + 6 * blocks_touched off n + 1)%nat ∧ (r = n ∨ full s').
Proof.
  intros Hr Hok Ho Hn Hs1 Hs2 Hl. pose proof (fo_size _ _ Hok) as Hsz. pose proof (io_size _ (fo_inode _ _ Hok)) as Hsz0.
  pose proof (writei_guard (inode_of i s) off n Ho Hn ltac:(lia)) as Hg. unfold writei. rewrite bind_gets.
  destruct (_ || (u32 (off + n) <? off)); cbn [orb] in Hg; [by rewrite <- Hg|]. rewrite Hg.
  destruct (too_far (inode_of i s) off n) eqn:Hfar; [done|]. unfold too_far in Hfar.
  apply orb_false_iff in Hfar as [H1%Z.ltb_ge H2%Z.ltb_ge].
  destruct (writei_loop_ok (Z.to_nat n) s start bs i src off n 0) as (r&s1&bs1&Hr1&Hrr&Hw1&Hl1&Hfin);
    rewrite ?Z.sub_0_r in *; try done; try lia.
  set (bytes := ld_bytes (Z.to_nat r) (k_mem s) src) in *.
  assert (Z.of_nat (length bytes) = r) as Hlen by (unfold bytes; rewrite length_ld_bytes; lia).
  change (MAXFILE * BSIZE) with 274432 in *.
  destruct (finish_write s start bs i off bytes s1 bs1 Hr Hok Hw1) as (s2&s3&Hr2&Hr3&Hst&Hfull).
  { lia. }
  { apply loaded_bytes. }
  { lia. }
  { change (MAXFILE * BSIZE) with 274432. lia. }
  rewrite Hlen in Hr2. eexists r, s3, _. rewrite (bind_Ret _ _ _ _ _ Hr1), bind_gets. cbn [fst snd].
  rewrite (bind_Ret _ _ _ _ _ Hr2), (bind_Ret _ _ _ _ _ Hr3). rewrite Z.add_0_l, i32_small by lia.
  refine (conj eq_refl (conj Hrr (conj Hst (conj _ _)))).
  - pose proof (length_logged bs1 (IBLOCK (i_inum (inode_of i s)) (k_sb s))). lia.
  - destruct Hfin as [->|Hfin]; [by left|right]. by apply Hfull.
Qed.

(** The state in which an operation on a quiet file system starts. *)
Lemma begin_ready s start i :
  idle_log me s start → wfile (k_sb s) start (disk_block (k_disk s)) (inode_of i s) → (i < length (k_inodes s))%nat →
  k_panicked s = 0 →
  ∃ t, begin_op s = Ret tt t ∧ wready t start [] [] i ∧ (∀ b, view t b = disk_block (k_disk s) b) ∧
    inode_of i t = inode_of i s ∧ k_sb t = k_sb s ∧ k_mem t = k_mem s.
Proof.
  intros Hi Hf Hlt Hp. destruct (begin_ok me s start Hi) as (t&Hr&Hin). pose proof (begin_frame me s t start Hi Hr) as Hfr.
  assert (∀ b, view t b = disk_block (k_disk s) b) as Hv.
  { intros b. rewrite (it_view _ _ _ _ _ _ Hin). cbn. destruct (il_quiet _ _ _ Hi) as [ring Hbc].
    eapply refs_zero_clean; [by eapply bc_bufs|apply Hi]. }
  assert (inode_of i t = inode_of i s) as Hip by (unfold inode_of; by rewrite Hfr).
  assert (k_sb t = k_sb s) as Hsb by (by rewrite Hfr).
  exists t. refine (conj Hr (conj _ (conj Hv (conj Hip (conj Hsb _))))); [|by rewrite Hfr]. split.
  - by eapply in_txn_start.
  - rewrite Hip, Hsb. apply (wfile_ext _ _ (disk_block (k_disk s)) _ (inode_of i s)); try done; try apply Hf; intros; by rewrite Hv.
  - by rewrite Hfr.
  - by rewrite Hfr.
Qed.

(** Within a transaction [writei] is well behaved. *)
Lemma stored_behaved {A : Type} (body : M A) s start i off bytes bs' s' a :
  body s = Ret a s' → stored s start i off bytes bs' s' → (length bs' ≤ 29)%nat → well_behaved me body start s.
Proof.
  intros Hr Hst Hl. destruct (so_step _ _ _ _ _ _ _ Hst) as [_ _ _ _ H1 H2 H3 H4 _ _].
  exists a, s', bs'. refine (conj Hr (conj _ (conj Hl (conj H1 (conj H2 (conj H3 H4)))))). apply Hst.
Qed.




End write.

(** ** Examples *)

(** An empty file, inode 1 of the disk of 50 blocks, and two bytes to write. *)
Definition new_file : inode := Inode ROOTDEV 1 1 1 T_FILE 0 0 1 0 (replicate 13 0).
Definition file_kernel : kernel :=
  with_fs disk50 sb50 (set_k_mem (st_bytes ∅ 4096 [104; 105])
    (set_k_inodes (<[0%nat := new_file]> (replicate NINODE zero_inode)) idle_kernel)).

Lemma used50 x : 0 ≤ x < 45 → x < 2 ∨ 32 < x → used sb50 2 (disk_block disk50) x.
Proof.
  intros Hx Hh. split.
  - change (sb_size sb50) with 50. lia.
  - rewrite free50 by lia. apply bool_decide_eq_false_2. lia.
  - unfold home. lia.
  - intros y Hy. change (sb_size sb50) with 50 in Hy. rewrite BBLOCK50 by lia. lia.
Qed.

Lemma new_slot k : slot (disk_block disk50) new_file k = 0.
Proof.
  unfold slot, addr. cbn [i_addrs new_file]. destruct (replicate 13 0 !! Z.to_nat k) as [x|] eqn:E; cbn [from_option id].
  - apply lookup_replicate_1 in E as [-> _]. by destruct (k <? 13).
  - by destruct (k <? 13).
Qed.

Lemma new_inode_ok : inode_ok new_file.
Proof. split; cbn; try lia; try done. intros a. revert a. apply Forall_forall. by repeat constructor. Qed.

Lemma new_file_w : wfile sb50 2 (disk_block disk50) new_file.
Proof.
  split.
  - apply bitmap50.
  - by rewrite free50 by lia.
  - apply new_inode_ok.
  - done.
  - apply (used50 33); lia.
  - reflexivity.
  - intros k _. by rewrite new_slot.
  - intros k _. by rewrite new_slot.
  - intros k _. by rewrite new_slot.
  - intros k l _ _. by rewrite new_slot.
Qed.

Lemma new_file_ok : file_ok (disk_block disk50) new_file.
Proof.
  split; [apply new_inode_ok|done|done|..].
  - intros bn Hbn Hlt. change (i_size new_file) with 0 in Hlt. change BSIZE with 1024 in Hlt. lia.
  - intros o Ho. change (i_size new_file) with 0 in Ho. lia.
Qed.

Lemma with_file_idle s ring m l :
  bcache 0 s ring ∅ → (∀ b, find_buf s b = None) → idle_log 0 (with_fs disk50 sb50 (set_k_mem m (set_k_inodes l s))) 2.
Proof.
  intros Hbc Hf. apply (with_fs_idle disk50 sb50 _ ring); [|exact Hf|reflexivity|reflexivity].
  apply (bcache_ext 0 s); try done. by left.
Qed.

Lemma file_idle : idle_log 0 file_kernel 2.
Proof. destruct idle_ok as (Hbc&Hf&_). exact (with_file_idle _ _ _ _ Hbc Hf). Qed.

Lemma file_fields :
  k_sb file_kernel = sb50 ∧ k_disk file_kernel = disk50 ∧ inode_of 0 file_kernel = new_file ∧
  (0 < length (k_inodes file_kernel))%nat ∧ k_panicked file_kernel = 0 ∧ k_mem file_kernel = st_bytes ∅ 4096 [104; 105].
Proof.
  unfold file_kernel. rewrite idle_frame. refine (conj eq_refl (conj eq_refl (conj eq_refl (conj _ (conj eq_refl eq_refl))))).
  apply Nat.lt_0_succ.
Qed.

#[local] Opaque file_kernel.

Lemma file_started :
  ∃ t, wready 0 t 2 [] [] 0 ∧ file_ok (view t) (inode_of 0 t) ∧ inode_of 0 t = new_file ∧
    k_mem t = st_bytes ∅ 4096 [104; 105].
Proof.
  destruct file_fields as (Hsb&Hd&Hip&Hl&Hp&Hm).
  destruct (begin_ready 0 (FU := 10%nat) file_kernel 2 0%nat file_idle) as (t&_&Hr&Hv&Hi&_&Hm');
    [rewrite Hsb, Hd, Hip; apply new_file_w|exact Hl|exact Hp|].
  exists t. rewrite Hi, Hip, Hm', Hm. rewrite Hd in Hv. refine (conj Hr (conj _ (conj eq_refl eq_refl))).
  by apply (file_ok_ext (disk_block disk50)), Hv; apply new_file_ok.
Qed.



