(* ===== verification/FsTable.v ===== *)
(** * The inode table (fs.c: iget, idup, ilock, iunlock, iput)

    [itable] caches inodes by number. Abstractly it is a count of references per
    inode number, [irefs]; the slots that are valid agree with the disk. *)

From S2P Require Import Prelude State Mem Kstring Spinlock Kalloc Vm Proc ProcSpec SchedSpec Uart UartSpec.
From S2P Require Import Printf PrintfSpec Sleeplock SleepSpec Bio BioList BioSpec BioInit Log LogSpec LogTxn FsTxn Fs FsBlock FsInode.

(** Slot [i] is in use for inode [inum] of the root device. *)
Definition slot_for (s : kernel) (inum : Z) (i : nat) : bool :=
  (0 <? i_ref (inode_of i s)) && (i_dev (inode_of i s) =? ROOTDEV) && (i_inum (inode_of i s) =? inum).

Definition find_slot (s : kernel) (inum : Z) : option nat := first_match (slot_for s inum) (seq 0 NINODE).

(** The number of references to inode [inum]. *)
Definition irefs (s : kernel) (inum : Z) : Z :=
  match find_slot s inum with Some i => i_ref (inode_of i s) | None => 0 end.

(** The disk's copy of inode [inum]. *)
Definition disk_inode (v : Z → list Z) (sb : superblock) (inum : Z) : Z * Z * Z * Z * Z * list Z :=
  dinode_at (v (IBLOCK inum sb)) (dinode_off inum).

Record itable_ok (s : kernel) : Prop := {
  to_len : length (k_inodes s) = NINODE;
  to_ref i : (i < NINODE)%nat → 0 ≤ i_ref (inode_of i s) < 2 ^ 31;
  to_dev i : (i < NINODE)%nat → 0 < i_ref (inode_of i s) → i_dev (inode_of i s) = ROOTDEV;
  to_uniq i j : (i < NINODE)%nat → (j < NINODE)%nat → 0 < i_ref (inode_of i s) → 0 < i_ref (inode_of j s) →
    i_inum (inode_of i s) = i_inum (inode_of j s) → i = j;
  to_disk i : (i < NINODE)%nat → 0 < i_ref (inode_of i s) → i_valid (inode_of i s) ≠ 0 →
    on_disk (inode_of i s) = disk_inode (view s) (k_sb s) (i_inum (inode_of i s));
}.

(** ** The abstraction *)

Lemma slot_for_eq s inum i :
  slot_for s inum i = true ↔
  0 < i_ref (inode_of i s) ∧ i_dev (inode_of i s) = ROOTDEV ∧ i_inum (inode_of i s) = inum.
Proof. unfold slot_for. rewrite !andb_true_iff, Z.ltb_lt, !Z.eqb_eq. tauto. Qed.

Lemma find_slot_Some s inum i :
  itable_ok s →
  find_slot s inum = Some i ↔ (i < NINODE)%nat ∧ 0 < i_ref (inode_of i s) ∧ i_inum (inode_of i s) = inum.
Proof.
  intros Ht. split.
  - intros [Hi%elem_of_seq (H1&_&H2)%slot_for_eq]%first_match_Some. split; [lia|done].
  - intros (Hi&Hr&Hn). apply first_match_is; [apply elem_of_seq; lia| |].
    + apply slot_for_eq. split_and!; [done|by apply (to_dev _ Ht)|done].
    + intros j Hj%elem_of_seq (H1&_&H2)%slot_for_eq. apply (to_uniq _ Ht); [lia|done|done|done|congruence].
Qed.

Lemma find_slot_None s inum i :
  itable_ok s → find_slot s inum = None → (i < NINODE)%nat → 0 < i_ref (inode_of i s) → i_inum (inode_of i s) ≠ inum.
Proof.
  intros Ht Hn Hi Hr Heq. assert (find_slot s inum = Some i) as H by (by apply find_slot_Some). by rewrite H in Hn.
Qed.

Lemma irefs_slot s i :
  itable_ok s → (i < NINODE)%nat → 0 < i_ref (inode_of i s) → irefs s (i_inum (inode_of i s)) = i_ref (inode_of i s).
Proof. intros Ht Hi Hr. unfold irefs. by rewrite (proj2 (find_slot_Some s (i_inum (inode_of i s)) i Ht)). Qed.

Lemma irefs_none s inum :
  itable_ok s → (∀ i, (i < NINODE)%nat → 0 < i_ref (inode_of i s) → i_inum (inode_of i s) ≠ inum) → irefs s inum = 0.
Proof.
  intros Ht Hn. unfold irefs. destruct (find_slot s inum) as [i|] eqn:E; [|done].
  apply find_slot_Some in E as (Hi&Hr&Heq); [|done]. by destruct (Hn i Hi Hr).
Qed.

(** A change of slot [i] that leaves the counts of other inodes alone. *)
Lemma irefs_other s s' i y :
  itable_ok s → itable_ok s' → (∀ j, j ≠ i → inode_of j s' = inode_of j s) →
  (0 < i_ref (inode_of i s) → i_inum (inode_of i s) ≠ y) → (0 < i_ref (inode_of i s') → i_inum (inode_of i s') ≠ y) →
  irefs s' y = irefs s y.
Proof.
  intros Ht Ht' Hother H1 H2. unfold irefs at 2. destruct (find_slot s y) as [j|] eqn:E.
  - apply find_slot_Some in E as (Hj&Hr&Heq); [|done]. assert (j ≠ i) as Hne by (intros ->; by apply H1).
    rewrite <- (Hother j Hne) in *. rewrite <- Heq. by apply irefs_slot.
  - apply irefs_none; [done|]. intros j Hj Hr. destruct (decide (j = i)) as [->|Hne]; [auto|].
    rewrite (Hother j Hne) in *. by apply find_slot_None.
Qed.

(** With fewer inodes in use than slots, one is free. *)
Lemma slot_free s l :
  itable_ok s → (∀ y, irefs s y ≠ 0 → y ∈ l) → (length l < NINODE)%nat →
  ∃ j, (j < NINODE)%nat ∧ i_ref (inode_of j s) = 0.
Proof.
  intros Ht Hl Hlen.
  destruct (decide (Exists (λ j, i_ref (inode_of j s) = 0) (seq 0 NINODE))) as [He|Hne].
  { apply Exists_exists in He as (j&Hj%elem_of_seq&Hz). exists j. split; [lia|done]. }
  exfalso. assert (∀ j, (j < NINODE)%nat → 0 < i_ref (inode_of j s)) as Hall.
  { intros j Hj. pose proof (to_ref _ Ht j Hj). destruct (decide (i_ref (inode_of j s) = 0)); [|lia].
    exfalso. apply Hne. apply Exists_exists. exists j. split; [apply elem_of_seq; lia|done]. }
  assert (NoDup ((λ j, i_inum (inode_of j s)) <$> seq 0 NINODE)) as Hnd.
  { apply NoDup_fmap_2_strong; [|apply NoDup_seq]. intros j k Hj%elem_of_seq Hk%elem_of_seq Heq.
    apply (to_uniq _ Ht); [lia|lia|apply Hall; lia|apply Hall; lia|done]. }
  assert ((λ j, i_inum (inode_of j s)) <$> seq 0 NINODE ⊆+ l) as Hsub%submseteq_length.
  { apply NoDup_submseteq; [done|]. intros b (j&->&Hj%elem_of_seq)%list_elem_of_fmap. apply Hl.
    rewrite irefs_slot; [|done|lia|apply Hall; lia]. pose proof (Hall j ltac:(lia)). lia. }
  rewrite length_fmap, length_seq in Hsub. lia.
Qed.

(** Changing one slot keeps the table well formed. *)
Lemma itable_alter s s' i f :
  itable_ok s → (i < NINODE)%nat → k_inodes s' = alter f i (k_inodes s) → k_sb s' = k_sb s →
  (∀ b, view s' b = view s b) →
  let ip := inode_of i s in
  0 ≤ i_ref (f ip) < 2 ^ 31 →
  (0 < i_ref (f ip) → i_dev (f ip) = ROOTDEV ∧
    (∀ j, (j < NINODE)%nat → j ≠ i → 0 < i_ref (inode_of j s) → i_inum (inode_of j s) ≠ i_inum (f ip)) ∧
    (i_valid (f ip) ≠ 0 → on_disk (f ip) = disk_inode (view s) (k_sb s) (i_inum (f ip)))) →
  itable_ok s' ∧ inode_of i s' = f ip ∧ ∀ j, j ≠ i → inode_of j s' = inode_of j s.
Proof.
  intros Ht Hi Hk Hsb Hv ip Hr Hf.
  assert (inode_of i s' = f ip) as Hip by (apply inode_of_alter; [by rewrite (to_len _ Ht)|done]).
  assert (∀ j, j ≠ i → inode_of j s' = inode_of j s) as Hother.
  { intros j Hj. unfold inode_of. by rewrite Hk, list_lookup_alter_ne by done. }
  split; [|done]. split.
  - rewrite Hk, length_alter. apply Ht.
  - intros j Hj. destruct (decide (j = i)) as [->|Hne]; [by rewrite Hip|]. rewrite Hother by done. by apply Ht.
  - intros j Hj. destruct (decide (j = i)) as [->|Hne]; [rewrite Hip; apply Hf|]. rewrite Hother by done. by apply Ht.
  - intros j k Hj Hk'. destruct (decide (j = i)) as [->|Hne], (decide (k = i)) as [->|Hne']; [done|..];
      rewrite ?Hip, ?(Hother j), ?(Hother k) by done; intros H1 H2 H3.
    + destruct (Hf H1) as (_&Hu&_). by destruct (Hu k Hk' Hne' H2).
    + destruct (Hf H2) as (_&Hu&_). by destruct (Hu j Hj Hne H1).
    + by apply (to_uniq _ Ht).
  - intros j Hj Hr' Hval. unfold disk_inode. rewrite Hv, Hsb. destruct (decide (j = i)) as [->|Hne].
    + rewrite Hip in *. by apply Hf.
    + rewrite (Hother j Hne) in *. by apply (to_disk _ Ht).
Qed.

(** Changing the count of a slot in use. *)
Lemma itable_recount s s' i f r :
  itable_ok s → (i < NINODE)%nat → 0 < i_ref (inode_of i s) → k_inodes s' = alter f i (k_inodes s) → k_sb s' = k_sb s →
  (∀ b, view s' b = view s b) → f (inode_of i s) = set_i_ref r (inode_of i s) → 0 ≤ r < 2 ^ 31 →
  itable_ok s' ∧ inode_of i s' = set_i_ref r (inode_of i s) ∧ (∀ j, j ≠ i → inode_of j s' = inode_of j s) ∧
  ∀ y, irefs s' y = irefs s y + if decide (y = i_inum (inode_of i s)) then r - i_ref (inode_of i s) else 0.
Proof.
  intros Ht Hi Hpos Hk Hsb Hv Hf Hr. destruct (itable_alter s s' i f Ht Hi Hk Hsb Hv) as (Ht'&Hip&Hother); rewrite ?Hf; [done| |].
  { intros _. split_and!; [by apply (to_dev _ Ht)| |by apply (to_disk _ Ht)].
    intros k Hk' Hne Hkr Heq. apply Hne. by apply (to_uniq _ Ht). }
  rewrite Hf in Hip. split_and!; try done. intros y. case_decide as Hy.
  - subst y. rewrite (irefs_slot s i) by done. destruct (decide (r = 0)) as [->|Hr0].
    + rewrite irefs_none; [lia|done|]. intros j Hj Hjr. destruct (decide (j = i)) as [->|Hne].
      * rewrite Hip in Hjr. cbn in Hjr. lia.
      * rewrite (Hother j Hne) in *. intros Heq. apply Hne. by apply (to_uniq _ Ht).
    + replace (i_inum (inode_of i s)) with (i_inum (inode_of i s')) by (by rewrite Hip).
      rewrite irefs_slot; [rewrite Hip; cbn; lia|done|done|rewrite Hip; cbn; lia].
  - rewrite Z.add_0_r. apply (irefs_other s s' i); try done; rewrite ?Hip; intros _ Heq; by apply Hy.
Qed.

(** ** The operations *)

(** Only the table, and the hart's interrupt bookkeeping, changed. *)
Definition table_step (s s' : kernel) : Prop := s' = tick (set_k_inodes (k_inodes s') s).

Lemma table_step_cached me s s' bs hs : table_step s s' → cached me s bs hs → cached me s' bs hs.
Proof.
  intros Hs Hc. apply (cached_ext me s); [done|]. unfold table_step in Hs. rewrite Hs. unfold same_cache.
  split_and!; try done. by right.
Qed.

Lemma table_step_view s s' b : table_step s s' → view s' b = view s b.
Proof. intros Hs. by rewrite Hs. Qed.

Section ops.
Context (me : nat) {I : Image} {FU : Fuel} {D : Disk} {DO : DiskOk D} {U : Mmio} {UO : Uart16550 FU U}.

(** A critical section of [itable.lock] that changes one slot. *)
Lemma in_itable {A : Type} s i f (a : A) :
  env me [] s →
  (release L_itable;; mret a) (set_k_inodes (alter f i (k_inodes s)) (acquired L_itable s)) =
  Ret a (tick (set_k_inodes (alter f i (k_inodes s)) s)).
Proof.
  intros He. pose proof (env_locks _ _ _ He L_itable eq_refl ltac:(set_solver)) as Hlk.
  rewrite (bind_release L_itable s); [|done|by eapply env_hart|done|done].
  unfold mret, M_ret, tick, acquired, put_lock. kernel_eq.
Qed.

Lemma iget_scan_ok l inum empty s :
  ∃ e, iget_scan l ROOTDEV inum empty s = Ret (first_match (slot_for s inum) l, e) s ∧
    (first_match (slot_for s inum) l = None →
     e = match empty with Some _ => empty | None => first_match (λ i, i_ref (inode_of i s) =? 0) l end).
Proof.
  revert empty. induction l as [|i l IH]; intros empty; cbn [iget_scan first_match].
  { exists empty. split; [done|]. by destruct empty. }
  rewrite bind_gets. unfold slot_for at 1 3. destruct (_ && _ && _) eqn:E.
  - by exists empty.
  - destruct (IH (match empty with None => if i_ref (inode_of i s) =? 0 then Some i else None | _ => empty end))
      as (e&He&Hn). exists e. split; [exact He|]. intros Hf. rewrite (Hn Hf). destruct empty; [done|].
    by destruct (i_ref (inode_of i s) =? 0).
Qed.

(** [iget] adds a reference to [inum]. *)
Lemma iget_ok s inum :
  env me [] s → itable_ok s → irefs s inum < 2 ^ 31 - 1 → (∃ j, (j < NINODE)%nat ∧ i_ref (inode_of j s) = 0) →
  ∃ i s', iget ROOTDEV inum s = Ret i s' ∧ table_step s s' ∧ itable_ok s' ∧ (i < NINODE)%nat ∧
    0 < i_ref (inode_of i s') ∧ i_inum (inode_of i s') = inum ∧
    (∀ y, irefs s' y = irefs s y + if decide (y = inum) then 1 else 0) ∧
    ∀ k, (k < NINODE)%nat → 0 < i_ref (inode_of k s) → ∃ r, 0 < r ∧ inode_of k s' = set_i_ref r (inode_of k s).
Proof.
  intros He Ht Hmax (j&Hj&Hfree). pose proof (env_locks _ _ _ He L_itable eq_refl ltac:(set_solver)) as Hlk.
  unfold iget. rewrite bind_acquire by done. destruct (iget_scan_ok (seq 0 NINODE) inum None (acquired L_itable s)) as (e&Hr&Hn).
  rewrite (bind_Ret _ _ _ _ _ Hr). clear Hr.
  change (first_match (slot_for (acquired L_itable s) inum) (seq 0 NINODE)) with (find_slot s inum) in *.
  change (λ i, i_ref (inode_of i (acquired L_itable s)) =? 0) with (λ i, i_ref (inode_of i s) =? 0) in Hn.
  destruct (find_slot s inum) as [i|] eqn:Hf.
  - clear Hn. pose proof Hf as (Hi&Hpos&Hin)%find_slot_Some; [|done].
    assert (irefs s inum = i_ref (inode_of i s)) as Hri by (unfold irefs; by rewrite Hf).
    set (f := λ ip, set_i_ref (i32 (i_ref ip + 1)) ip). set (s' := tick (set_k_inodes (alter f i (k_inodes s)) s)).
    destruct (itable_recount s s' i f (i_ref (inode_of i s) + 1)) as (Ht'&Hip&Hother&Hrefs); try done; [|lia|].
    { unfold f. by rewrite i32_small by lia. }
    exists i, s'. unfold on_inode. rewrite bind_modify. split; [by apply (in_itable s i f i)|].
    rewrite Hip, Hin in *. split_and!; try done; [cbn; lia| |].
    + intros y. rewrite Hrefs. case_decide; lia.
    + intros k Hk Hkr. destruct (decide (k = i)) as [->|Hne]; [rewrite Hip; eexists; split; [|done]; lia|].
      rewrite (Hother k Hne). exists (i_ref (inode_of k s)). by destruct (inode_of k s).
  - rewrite (Hn eq_refl). clear Hn.
    destruct (first_match_exists (λ i, i_ref (inode_of i s) =? 0) (seq 0 NINODE) j) as [i Hi'];
      [apply elem_of_seq; lia|by rewrite Hfree|].
    rewrite Hi'. apply first_match_Some in Hi' as [Hi%elem_of_seq Hz%Z.eqb_eq]. assert (i < NINODE)%nat as Hi1 by lia.
    set (f := λ ip, set_i_valid 0 (set_i_ref 1 (set_i_inum inum (set_i_dev ROOTDEV ip)))).
    set (s' := tick (set_k_inodes (alter f i (k_inodes s)) s)).
    destruct (itable_alter s s' i f Ht Hi1) as (Ht'&Hip&Hother); try done.
    { intros _. split_and!; [done| |done]. intros k Hk _ Hkr. by apply find_slot_None. }
    exists i, s'. unfold on_inode. rewrite !bind_modify. split.
    { etransitivity; [|apply (in_itable s i f i He)]. f_equal. cbn. rewrite !list_alter_alter_eq. done. }
    rewrite Hip. split_and!; try done.
    2: { intros k Hk Hkr. destruct (decide (k = i)) as [->|Hne]; [lia|]. rewrite (Hother k Hne).
         exists (i_ref (inode_of k s)). by destruct (inode_of k s). }
    intros y. case_decide as Hy.
    + subst y. transitivity (i_ref (inode_of i s')); [|unfold irefs; by rewrite Hip, Hf].
      rewrite <- (irefs_slot s' i) by (done || by rewrite Hip). by rewrite Hip.
    + rewrite Z.add_0_r. apply (irefs_other s s' i); try done; [lia|]. rewrite Hip. intros _. cbn. congruence.
Qed.

(** [iput] drops one; the file is linked, or others refer to it. *)
Lemma iput_ok s i :
  env me [] s → itable_ok s → (i < NINODE)%nat → 0 < i_ref (inode_of i s) →
  (i_valid (inode_of i s) ≠ 0 → i_nlink (inode_of i s) = 0 → i_ref (inode_of i s) ≠ 1) →
  let inum := i_inum (inode_of i s) in
  ∃ s', iput i s = Ret tt s' ∧ table_step s s' ∧ itable_ok s' ∧
    (∀ y, irefs s' y = irefs s y - if decide (y = inum) then 1 else 0) ∧
    (∀ j, j ≠ i → inode_of j s' = inode_of j s) ∧
    inode_of i s' = set_i_ref (i_ref (inode_of i s) - 1) (inode_of i s).
Proof.
  intros He Ht Hi Hpos Hlink inum. pose proof (env_locks _ _ _ He L_itable eq_refl ltac:(set_solver)) as Hlk.
  unfold iput. rewrite bind_acquire, bind_gets by done. change (inode_of i (acquired L_itable s)) with (inode_of i s).
  set (ip := inode_of i s) in *.
  assert ((i_ref ip =? 1) && negb (i_valid ip =? 0) && (i_nlink ip =? 0) = false) as ->.
  { apply not_true_is_false. rewrite !andb_true_iff, negb_true_iff, !Z.eqb_eq, Z.eqb_neq. intros ((H1&H2)&H3). by apply Hlink. }
  cbn [when]. rewrite bind_mret. unfold on_inode. rewrite bind_modify.
  set (f := λ ip, set_i_ref (i32 (i_ref ip - 1)) ip). set (s' := tick (set_k_inodes (alter f i (k_inodes s)) s)).
  pose proof (to_ref _ Ht i Hi) as Hr. fold ip in Hr.
  destruct (itable_recount s s' i f (i_ref ip - 1)) as (Ht'&Hip&Hother&Hrefs); try done; fold ip.
  { unfold f. by rewrite i32_small by lia. }
  { lia. }
  exists s'. split.
  { rewrite (release_eq L_itable s); [|done|by eapply env_hart|done|done].
    unfold s', tick, acquired, put_lock. kernel_eq. }
  split_and!; try done. intros y. rewrite Hrefs. fold ip. fold inum. case_decide; lia.
Qed.

(** *** A walk over the tree

    The state of a process that only looks at the file system of [s0]: nothing
    but the table's references, [extra] more, changed, and it holds the sleep
    lock of at most one inode. *)
Record walking (s0 : kernel) (bs : list Z) (s : kernel) (held : option nat) (extra : Z → Z) : Prop := {
  wk_cached : cached me s bs [];
  wk_view b : view s b = view s0 b;
  wk_sb : k_sb s = k_sb s0;
  wk_log : k_log s = k_log s0;
  wk_disk : k_disk s = k_disk s0;
  wk_table : itable_ok s;
  wk_free j : held ≠ Some j → sl_locked (slock_of (SL_inode j) s) = 0;
  wk_held j : held = Some j → sl_locked (slock_of (SL_inode j) s) = 1 ∧ sl_pid (slock_of (SL_inode j) s) = pid_of me s;
  wk_refs y : irefs s y = irefs s0 y + extra y;
}.

(** Slot [i] refers to inode [inum]. *)
Definition refers (s : kernel) (i : nat) (inum : Z) : Prop :=
  (i < NINODE)%nat ∧ 0 < i_ref (inode_of i s) ∧ i_inum (inode_of i s) = inum.

(** Slot [i] is locked and holds what the disk has. *)
Definition holding_inode (s : kernel) (i : nat) (inum : Z) : Prop :=
  refers s i inum ∧ i_valid (inode_of i s) ≠ 0 ∧ on_disk (inode_of i s) = disk_inode (view s) (k_sb s) inum.

Lemma walking_env s0 bs s h e : walking s0 bs s h e → env me [] s.
Proof. intros Hw. apply (cached_env _ _ _ _ (wk_cached _ _ _ _ _ Hw)). Qed.

Lemma irefs_same s s' :
  itable_ok s → itable_ok s' →
  (∀ i, (i < NINODE)%nat → i_ref (inode_of i s') = i_ref (inode_of i s) ∧ i_inum (inode_of i s') = i_inum (inode_of i s)) →
  ∀ y, irefs s' y = irefs s y.
Proof.
  intros Ht Ht' Hsame y. unfold irefs at 2. destruct (find_slot s y) as [j|] eqn:E.
  - apply find_slot_Some in E as (Hj&Hr&<-); [|done]. destruct (Hsame j Hj) as [H1 H2]. rewrite <- H1, <- H2 in *.
    by apply irefs_slot.
  - apply irefs_none; [done|]. intros j Hj. destruct (Hsame j Hj) as [-> ->]. by apply find_slot_None.
Qed.

(** What a step that takes the sleep lock of inode [i] shows. *)
Lemma walking_locked s0 bs s e i s' :
  walking s0 bs s None e → cached me s' bs [] → (∀ b, view s' b = view s b) → k_sb s' = k_sb s → k_log s' = k_log s →
  k_disk s' = k_disk s → itable_ok s' → (∀ y, irefs s' y = irefs s y) →
  slock_of (SL_inode i) s' = slock_taken me (SL_inode i) s →
  (∀ j, j ≠ i → slock_of (SL_inode j) s' = slock_of (SL_inode j) s) → pid_of me s' = pid_of me s →
  walking s0 bs s' (Some i) e.
Proof.
  intros [H1 H2 H3 H4 H5 H6 H7 H8 H9] Hc Hv Hsb Hlg Hd Ht Hr Hi Hother Hpid. split; [done|intros b; by rewrite Hv|congruence..|done| | |].
  - intros j Hj. rewrite Hother by congruence. by apply H7.
  - intros j [= <-]. rewrite Hi, Hpid. done.
  - intros y. by rewrite Hr.
Qed.

Lemma walking_ilock s0 bs s e i inum :
  walking s0 bs s None e → (length bs < 30)%nat → refers s i inum → (disk_inode (view s0) (k_sb s0) inum).1.1.1.1.1 ≠ 0 →
  ∃ s', ilock (Some i) s = Ret tt s' ∧ walking s0 bs s' (Some i) e ∧ holding_inode s' i inum ∧
    ∀ j x, refers s j x → refers s' j x.
Proof.
  intros Hw Hl (Hi&Hr&<-) Hty. pose proof (wk_table _ _ _ _ _ Hw) as Ht. pose proof (wk_free _ _ _ _ _ Hw i ltac:(done)) as Hfree.
  destruct (decide (i_valid (inode_of i s) = 0)) as [Hv|Hv].
  - destruct (ilock_loads me s bs i) as (s'&Hr'&Hc&Hview&Hlg&Hk&Hsb&Hsl&Hother&Hpid&Hd); try done.
    { apply Hw. } { by rewrite (to_len _ Ht). } { lia. } { by apply (to_dev _ Ht). }
    { rewrite (wk_view _ _ _ _ _ Hw), (wk_sb _ _ _ _ _ Hw). exact Hty. }
    destruct (itable_alter s s' i _ Ht Hi Hk Hsb Hview) as (Ht'&Hip&Hoth).
    { by apply (to_ref _ Ht). }
    { intros _. split_and!; [by apply (to_dev _ Ht)| |done].
      intros k Hk' Hne Hkr Heq. apply Hne. by apply (to_uniq _ Ht). }
    assert (∀ j, i_ref (inode_of j s') = i_ref (inode_of j s) ∧ i_inum (inode_of j s') = i_inum (inode_of j s)) as Hsame.
    { intros j. destruct (decide (j = i)) as [->|Hne]; [by rewrite Hip|by rewrite Hoth]. }
    exists s'. split; [exact Hr'|]. clear Hr'. split_and!.
    + apply (walking_locked s0 bs s); try done; [by apply irefs_same|apply Hpid].
    + unfold holding_inode, refers, disk_inode. rewrite Hip, Hview, Hsb. done.
    + intros j x. unfold refers. destruct (Hsame j) as [-> ->]. done.
  - pose proof (walking_env _ _ _ _ _ Hw) as He.
    unfold ilock. rewrite bind_gets. assert (i_ref (inode_of i s) <? 1 = false) as -> by (apply Z.ltb_ge; lia).
    rewrite (bind_Ret _ _ _ _ _ (acquiresleep_eq me [] (SL_inode i) s He ltac:(simpl; lia)
      ltac:(cbn; by apply bool_decide_eq_true_2) ltac:(set_solver) Hfree)).
    set (s1 := tick _). rewrite bind_gets. change (inode_of i s1) with (inode_of i s).
    rewrite (proj2 (Z.eqb_neq _ _) Hv). exists s1. split; [done|].
    assert (∀ j, slock_of (SL_inode j) s1 = if decide (SL_inode i = SL_inode j) then slock_taken me (SL_inode i) s else slock_of (SL_inode j) s) as Hsl
      by (intros j; apply (slock_of_put (SL_inode j) (SL_inode i))).
    split_and!; [| |done].
    + apply (walking_locked s0 bs s); try done.
      * apply (cached_ext me s); [apply Hw|]. unfold same_cache. split_and!; try done; [|by right].
        intros j. etransitivity; [apply (slock_of_put (SL_buf j) (SL_inode i))|]. by rewrite decide_False.
      * destruct Ht. split; done.
      * rewrite Hsl. by rewrite decide_True.
      * intros j Hj. rewrite Hsl. rewrite decide_False; [done|congruence].
    + split; [done|]. split; [done|]. apply (to_disk _ Ht); done.
Qed.

Lemma walking_iunlock s0 bs s e i inum :
  walking s0 bs s (Some i) e → refers s i inum →
  ∃ s', iunlock (Some i) s = Ret tt s' ∧ walking s0 bs s' None e ∧ k_inodes s' = k_inodes s.
Proof.
  intros Hw (Hi&Hr&_). pose proof (walking_env _ _ _ _ _ Hw) as He. destruct (wk_held _ _ _ _ _ Hw i eq_refl) as [H1 H2].
  assert (known (L_sleep (SL_inode i)) = true) as Hk by (cbn; by apply bool_decide_eq_true_2).
  unfold iunlock. rewrite (bind_Ret _ _ _ _ _ (holdingsleep_eq me [] (SL_inode i) s He ltac:(simpl; lia) Hk ltac:(set_solver))).
  rewrite bind_gets, H1, H2, Z.eqb_refl. change (i_ref (inode_of i (tick s))) with (i_ref (inode_of i s)).
  assert (i_ref (inode_of i s) <? 1 = false) as -> by (apply Z.ltb_ge; lia). cbn [negb orb andb Z.eqb].
  rewrite (releasesleep_eq me [] (SL_inode i) (tick s) (env_tick _ _ _ He) ltac:(simpl; lia) Hk ltac:(set_solver) ltac:(set_solver)).
  set (s1 := tick (set_k_procs _ _)). exists s1. split; [done|]. split; [|done].
  assert (∀ j, slock_of j s1 = if decide (SL_inode i = j) then slock_freed (SL_inode i) s else slock_of j s) as Hsl
    by (intros j; etransitivity; [apply (slock_of_put j (SL_inode i))|done]).
  destruct Hw as [W1 W2 W3 W4 W5 W6 W7 W8 W9]. split; try done.
  - apply (cached_ext me s); [done|]. unfold same_cache.
    split_and!; [done| |done|intros j; apply pid_woken|apply length_woken|done|right; apply hart_tick_idemp].
    intros j. etransitivity; [apply Hsl|]. by rewrite decide_False.
  - by destruct W6.
  - intros j _. rewrite Hsl. case_decide; [done|]. apply W7. congruence.
Qed.

Lemma walking_table s0 bs s h e s' e' :
  walking s0 bs s h e → table_step s s' → itable_ok s' → (∀ y, irefs s' y = irefs s y + (e' y - e y)) →
  walking s0 bs s' h e'.
Proof.
  intros [W1 W2 W3 W4 W5 W6 W7 W8 W9] Hs Ht Hr. split.
  - by apply (table_step_cached me s).
  - intros b. by rewrite (table_step_view s s').
  - by rewrite Hs.
  - by rewrite Hs.
  - by rewrite Hs.
  - done.
  - intros j Hj. rewrite Hs. by apply W7.
  - intros j Hj. rewrite Hs. by apply W8.
  - intros y. rewrite Hr, W9. lia.
Qed.

(** One reference more, or less. *)
Definition one (inum : Z) : Z → Z := λ y, if decide (y = inum) then 1 else 0.

Lemma walking_iget s0 bs s h e inum :
  walking s0 bs s h e → irefs s inum < 2 ^ 31 - 1 → (∃ j, (j < NINODE)%nat ∧ i_ref (inode_of j s) = 0) →
  ∃ i s', iget ROOTDEV inum s = Ret i s' ∧ walking s0 bs s' h (λ y, e y + one inum y) ∧ refers s' i inum ∧
    (∀ k x, refers s k x → refers s' k x) ∧ (∀ k x, holding_inode s k x → holding_inode s' k x).
Proof.
  intros Hw Hmax Hroom. destruct (iget_ok s inum (walking_env _ _ _ _ _ Hw) (wk_table _ _ _ _ _ Hw) Hmax Hroom)
    as (i&s'&Hr&Hs&Ht&Hi&Hp&Hn&Hrefs&Hkeep).
  exists i, s'. split; [exact Hr|]. clear Hr.
  assert (∀ k x, refers s k x → refers s' k x) as Hrk.
  { intros k x (H1&H2&H3). destruct (Hkeep k H1 H2) as (r&Hr&Heq). unfold refers. by rewrite Heq. }
  split_and!; [|done|done|].
  - apply (walking_table s0 bs s h e); try done. intros y. rewrite Hrefs. unfold one. case_decide; lia.
  - intros k x (H1&H2&H3). split; [by apply Hrk|]. destruct (Hkeep k) as (r&Hr&Heq); [apply H1..|].
    rewrite Heq. split; [done|]. unfold disk_inode. rewrite (table_step_view s s') by done. rewrite Hs. exact H3.
Qed.

Lemma walking_iput s0 bs s e i inum :
  walking s0 bs s None e → refers s i inum → (disk_inode (view s0) (k_sb s0) inum).1.1.2 ≠ 0 →
  ∃ s', iput i s = Ret tt s' ∧ walking s0 bs s' None (λ y, e y - one inum y) ∧
    ∀ k x, refers s k x → irefs s' x ≠ 0 → refers s' k x.
Proof.
  intros Hw (Hi&Hr&Hn) Hlink. pose proof (wk_table _ _ _ _ _ Hw) as Ht.
  destruct (iput_ok s i (walking_env _ _ _ _ _ Hw) Ht Hi Hr) as (s'&Hr'&Hs&Ht'&Hrefs&Hother&Hi').
  { intros Hv Hz. exfalso. pose proof (to_disk _ Ht i Hi Hr Hv) as Hd. unfold disk_inode in *.
    rewrite Hn, (wk_view _ _ _ _ _ Hw), (wk_sb _ _ _ _ _ Hw) in Hd. rewrite <- Hd in Hlink. done. }
  exists s'. split; [exact Hr'|]. split.
  - apply (walking_table s0 bs s None e); try done. intros y. rewrite Hrefs, Hn. unfold one. case_decide; lia.
  - intros k x (Hk&Hkr&Hkn) Hnz. unfold refers. destruct (decide (k = i)) as [->|Hne]; [|by rewrite (Hother k Hne)].
    rewrite Hi'. cbn. split_and!; [done| |done]. rewrite Hrefs, decide_True in Hnz by congruence.
    rewrite <- Hkn, irefs_slot in Hnz by done. lia.
Qed.

Lemma walking_iunlockput s0 bs s e i inum :
  walking s0 bs s (Some i) e → refers s i inum → (disk_inode (view s0) (k_sb s0) inum).1.1.2 ≠ 0 →
  ∃ s', iunlockput i s = Ret tt s' ∧ walking s0 bs s' None (λ y, e y - one inum y) ∧
    ∀ k x, refers s k x → irefs s' x ≠ 0 → refers s' k x.
Proof.
  intros Hw Hrf Hlink. destruct (walking_iunlock s0 bs s e i inum Hw Hrf) as (s1&Hr1&Hw1&Hi1).
  assert (∀ k x, refers s k x → refers s1 k x) as Hk by (intros k x; unfold refers, inode_of; by rewrite Hi1).
  destruct (walking_iput s0 bs s1 e i inum Hw1 (Hk _ _ Hrf) Hlink) as (s2&Hr2&Hw2&Hk2).
  exists s2. unfold iunlockput. rewrite (bind_Ret _ _ _ _ _ Hr1). split_and!; [exact Hr2|done|]. auto.
Qed.

(** [idup] adds a reference too. *)
Lemma walking_idup s0 bs s e i inum :
  walking s0 bs s None e → refers s i inum → irefs s inum < 2 ^ 31 - 1 →
  ∃ s', idup i s = Ret i s' ∧ walking s0 bs s' None (λ y, e y + one inum y) ∧ refers s' i inum.
Proof.
  intros Hw (Hi&Hr&Hn) Hmax. pose proof (wk_table _ _ _ _ _ Hw) as Ht. pose proof (walking_env _ _ _ _ _ Hw) as He.
  pose proof (env_locks _ _ _ He L_itable eq_refl ltac:(set_solver)) as Hlk.
  pose proof (irefs_slot s i Ht Hi Hr) as Hri. rewrite Hn in Hri.
  unfold idup. rewrite bind_acquire by done. unfold on_inode. rewrite bind_modify.
  set (f := λ ip, set_i_ref (i32 (i_ref ip + 1)) ip). set (s' := tick (set_k_inodes (alter f i (k_inodes s)) s)).
  destruct (itable_recount s s' i f (i_ref (inode_of i s) + 1)) as (Ht'&Hip&Hother&Hrefs); try done; [|lia|].
  { unfold f. by rewrite i32_small by lia. }
  exists s'. split; [by apply (in_itable s i f i)|]. split.
  - apply (walking_table s0 bs s None e); try done. intros y. rewrite Hrefs, Hn. unfold one. case_decide; lia.
  - unfold refers. rewrite Hip. cbn. split_and!; [done|lia|done].
Qed.

Lemma walking_refs s0 bs s h e e' : walking s0 bs s h e → (∀ y, e y = e' y) → walking s0 bs s h e'.
Proof. intros [] He. split; try done. intros y. by rewrite <- He. Qed.

Lemma irefs_nonneg s y : itable_ok s → 0 ≤ irefs s y.
Proof.
  intros Ht. unfold irefs. destruct (find_slot s y) as [j|] eqn:E; [|done].
  apply find_slot_Some in E as (Hj&Hr&_); [lia|done].
Qed.

Lemma walking_read s0 bs s h e m s' : walking s0 bs s h e → read_to me bs s m s' → walking s0 bs s' h e.
Proof.
  intros [W1 W2 W3 W4 W5 W6 W7 W8 W9] Hrd. destruct (read_to_fields me _ _ _ _ Hrd) as (Hm&Hi&Hsb&Hv).
  assert (∀ j, inode_of j s' = inode_of j s) as Hin by (intros j; unfold inode_of; by rewrite Hi).
  destruct Hrd as (Hc&Hs&Hk). pose proof (fp_disk _ _ _ Hs) as Hd. pose proof (fp_slock _ _ _ Hs) as Hsl.
  assert (itable_ok s') as Ht.
  { destruct W6 as [T1 T2 T3 T4 T5]. unfold disk_inode in T5. split; [by rewrite Hi|..]; intros i; rewrite ?Hin; auto.
    - intros j. rewrite Hin. auto.
    - unfold disk_inode. rewrite Hv, Hsb. auto. }
  split; try done.
  - intros b. by rewrite Hv.
  - congruence.
  - congruence.
  - etransitivity; [exact Hd|done].
  - intros j Hj. rewrite Hsl. by apply W7.
  - intros j Hj. rewrite Hsl. unfold pid_of. rewrite (fp_pid _ _ _ Hs). by apply W8.
  - intros y. rewrite <- W9. apply irefs_same; [done..|]. intros j _. by rewrite Hin.
Qed.

End ops.
