(* ===== verification/FsDir.v ===== *)
(** * Directories and path elements (fs.c: namecmp, skipelem, iget, dirlookup)

    A directory is the list of entries its contents spell out; [dirlookup] finds
    the first one with the name. A path is the list of its elements. *)

From S2P Require Import Prelude State Mem Kstring Spinlock Kalloc Vm Proc ProcSpec SchedSpec Uart UartSpec.
From S2P Require Import Printf PrintfSpec Sleeplock SleepSpec Bio BioList BioSpec BioInit Log LogSpec LogTxn FsTxn Fs FsBlock FsInode FsTable.

(** ** Names *)

(** The name a [char name[DIRSIZ]] holds. *)
Definition name_of (l : list Z) : list Z := cstr (take 14 l).

(** The elements of a path: what stands between slashes. *)
Fixpoint elements_from (cur : list Z) (path : list Z) : list (list Z) :=
  match path with
  | [] => if bool_decide (cur = []) then [] else [cur]
  | c :: path' =>
      if c =? 47 then (if bool_decide (cur = []) then [] else [cur]) ++ elements_from [] path'
      else elements_from (cur ++ [c]) path'
  end.
Definition elements (path : list Z) : list (list Z) := elements_from [] path.

(** ** Directories *)

(** Entry [k] of a directory: its inode number, 0 when it is free, and its name. *)
Definition dirent_inum (v : Z → list Z) (ip : inode) (k : Z) : Z := get16 (file_range v ip (16 * k) 16) 0.
Definition dirent_name (v : Z → list Z) (ip : inode) (k : Z) : list Z := name_of (drop 2 (file_range v ip (16 * k) 16)).

(** The first of the [n] entries from [k] on that has the name: its offset and
    inode number. *)
Fixpoint find_entry (v : Z → list Z) (ip : inode) (name : list Z) (n : nat) (k : Z) : option (Z * Z) :=
  match n with
  | O => None
  | S n' =>
      if negb (dirent_inum v ip k =? 0) && bool_decide (name = dirent_name v ip k)
      then Some (16 * k, dirent_inum v ip k) else find_entry v ip name n' (k + 1)
  end.
Definition dir_find (v : Z → list Z) (ip : inode) (name : list Z) : option (Z * Z) :=
  find_entry v ip name (Z.to_nat (i_size ip / 16)) 0.

(** The disk's copy of an inode, as an inode. *)
Definition dnode (v : Z → list Z) (sb : superblock) (inum : Z) : inode :=
  let d := v (IBLOCK inum sb) in
  let o := dinode_off inum in
  Inode ROOTDEV inum 1 1 (di_type d o) (di_major d o) (di_minor d o) (di_nlink d o) (di_size d o) (di_addrs d o).

(** A directory that can be searched. *)
Record dir_ok (v : Z → list Z) (ip : inode) : Prop := {
  do_file : file_ok v ip;
  do_type : i_type ip = T_DIR;
  do_size : i_size ip mod 16 = 0;
}.

#[local] Arguments Z.sub : simpl never.

Lemma strncmp_bytes_0 n s t :
  Forall (λ x, 0 ≤ x) s → Forall (λ x, 0 ≤ x) t →
  strncmp_bytes n s t = 0 ↔ cstr (take n s) = cstr (take n t).
Proof.
  revert s t. induction n as [|n IH]; intros s t Hs Ht; [done|]. cbn [strncmp_bytes].
  destruct s as [|x s], t as [|y t]; cbn [head default tail take cstr].
  - done.
  - cbn. apply Forall_cons in Ht as [Hy _]. destruct (y =? 0) eqn:E; [apply Z.eqb_eq in E; subst; done|].
    apply Z.eqb_neq in E. split; [intros; lia|done].
  - apply Forall_cons in Hs as [Hx _]. destruct (x =? 0) eqn:E; cbn; [apply Z.eqb_eq in E; subst; done|].
    rewrite E. cbn. split; [|done]. apply Z.eqb_neq in E. intros; lia.
  - apply Forall_cons in Hs as [Hx Hs]. apply Forall_cons in Ht as [Hy Ht]. cbn.
    destruct (x =? 0) eqn:Ex, (x =? y) eqn:Exy; cbn; reflect_tests; subst; rewrite ?Z.eqb_refl.
    + done.
    + destruct (y =? 0) eqn:Ey; reflect_tests; [lia|]. split; [intros; lia|done].
    + rewrite (proj2 (Z.eqb_neq y 0)) by done. rewrite IH by done. split; [by intros ->|by injection 1].
    + split; [intros; lia|]. destruct (y =? 0); [done|]. injection 1. lia.
Qed.

Lemma namecmp_0 s t :
  Forall (λ x, 0 ≤ x) s → Forall (λ x, 0 ≤ x) t → namecmp s t = 0 ↔ name_of s = name_of t.
Proof. exact (strncmp_bytes_0 14 s t). Qed.

(** ** skipelem *)

Lemma elements_from_app cur path :
  Forall (λ c, c ≠ 47) cur → elements_from cur path = elements (cur ++ path).
Proof.
  unfold elements. intros Hc. assert (∀ acc, elements_from acc (cur ++ path) = elements_from (acc ++ cur) path) as ->; [|done].
  induction Hc as [|c cur Hc _ IH]; intros acc; cbn; [by rewrite app_nil_r|].
  rewrite (proj2 (Z.eqb_neq c 47)) by done. rewrite IH, <- app_assoc. done.
Qed.

Lemma elements_skip path : elements (skip_slashes path) = elements path.
Proof.
  unfold elements. induction path as [|c path IH]; [done|]. cbn. destruct (c =? 47) eqn:E; cbn; [done|]. by rewrite E.
Qed.

Lemma span_elem_ok path :
  path = (span_elem path).1 ++ (span_elem path).2 ∧ Forall (λ c, c ≠ 47) (span_elem path).1 ∧
  ((span_elem path).2 = [] ∨ head (span_elem path).2 = Some 47).
Proof.
  induction path as [|c path (IH1&IH2&IH3)]; cbn; [auto|]. destruct (c =? 47) eqn:E; cbn; reflect_tests; subst.
  - auto.
  - split_and!; [congruence|by constructor|done].
Qed.

Lemma elements_front e rest :
  e ≠ [] → Forall (λ c, c ≠ 47) e → rest = [] ∨ head rest = Some 47 → elements (e ++ rest) = e :: elements rest.
Proof.
  intros He Hf Hr. rewrite <- elements_from_app by done. destruct Hr as [->|Hr]; cbn.
  - by rewrite bool_decide_false.
  - destruct rest as [|c rest]; [done|]. injection Hr as ->. cbn. by rewrite bool_decide_false.
Qed.

Lemma skip_slashes_head path c path' : skip_slashes path = c :: path' → c ≠ 47.
Proof. induction path as [|d path IH]; cbn; [done|]. destruct (d =? 47) eqn:E; [done|]. reflect_tests. congruence. Qed.

Lemma length_skip_slashes path : (length (skip_slashes path) ≤ length path)%nat.
Proof. induction path as [|d path IH]; cbn; [lia|]. destruct (d =? 47); cbn; lia. Qed.

Lemma elements_nil path : elements path = [] ↔ skip_slashes path = [].
Proof.
  rewrite <- elements_skip. split; [|by intros ->]. intros He. destruct (skip_slashes path) as [|c p] eqn:E; [done|].
  exfalso. pose proof (skip_slashes_head _ _ _ E) as Hc. destruct (span_elem_ok (c :: p)) as (H1&H2&H3).
  rewrite H1, elements_front in He; try done. cbn. rewrite (proj2 (Z.eqb_neq c 47)) by done. done.
Qed.

Lemma skip_slashes_Forall (P : Z → Prop) path : Forall P path → Forall P (skip_slashes path).
Proof. induction 1 as [|c path Hc Hp IH]; cbn; [done|]. destruct (c =? 47); [done|by constructor]. Qed.

(** The new contents of [name] for the element [e]. *)
Definition elem_name (name e : list Z) : list Z :=
  if DIRSIZ <=? Z.of_nat (length e) then splice name 0 (take (Z.to_nat DIRSIZ) e)
  else <[length e := 0]> (splice name 0 e).

Lemma elem_name_ok name e :
  length name = 14%nat → Forall (λ x, 0 < x) e → Forall (λ x, 0 ≤ x) name →
  name_of (elem_name name e) = take 14 e ∧ length (elem_name name e) = 14%nat ∧ Forall (λ x, 0 ≤ x) (elem_name name e).
Proof.
  intros Hn He Hnn. assert (Forall (λ x, 0 ≤ x) e) as He0 by (eapply Forall_impl; [exact He|]; cbn; lia).
  assert (Forall (λ x, x ≠ 0) e) as He1 by (eapply Forall_impl; [exact He|]; cbn; lia).
  unfold elem_name, splice, name_of. change DIRSIZ with 14. change (Z.to_nat 14) with 14%nat. cbn [Nat.add].
  rewrite take_0, app_nil_l. destruct (14 <=? Z.of_nat (length e)) eqn:E; reflect_tests.
  - rewrite length_take, Nat.min_l, (drop_ge name), app_nil_r by lia. rewrite take_take, Nat.min_id.
    rewrite cstr_nonzero by (by apply Forall_take). split_and!; [done|rewrite length_take; lia|by apply Forall_take].
  - assert (∃ x r, drop (length e) name = x :: r ∧ (length e + S (length r) = 14)%nat ∧ Forall (λ x, 0 ≤ x) r) as (x&r&Hd&Hr&Hf).
    { destruct (drop (length e) name) as [|x r] eqn:Hd.
      - apply (f_equal length) in Hd. rewrite length_drop in Hd. cbn in Hd. lia.
      - exists x, r. split; [done|]. pose proof (Forall_drop _ (length e) _ Hnn) as Hf. rewrite Hd in Hf.
        apply Forall_cons in Hf as [_ Hf]. apply (f_equal length) in Hd. rewrite length_drop in Hd. cbn in Hd. split; [lia|done]. }
    rewrite Hd. cbn [app]. rewrite (insert_app_r_alt e), Nat.sub_diag by lia. cbn [insert list_insert app].
    rewrite take_ge by (rewrite length_app; cbn; lia). rewrite cstr_stop by done.
    split_and!; [by rewrite take_ge by lia|rewrite length_app; cbn; lia|]. apply Forall_app. split; [done|by constructor].
Qed.

Lemma skipelem_ok path name :
  Forall (λ x, 0 < x) path → length name = 14%nat → Forall (λ x, 0 ≤ x) name →
  match elements path with
  | [] => skipelem path name = None
  | e :: es => ∃ rest, skipelem path name = Some (rest, elem_name name e) ∧ elements rest = es ∧
      (rest = [] ↔ es = []) ∧ (length rest < length path)%nat ∧ Forall (λ x, 0 < x) rest ∧ Forall (λ x, 0 < x) e
  end.
Proof.
  intros Hp Hn Hnn. unfold skipelem. pose proof (length_skip_slashes path) as Hls.
  pose proof (skip_slashes_Forall _ _ Hp) as Hsp. rewrite <- elements_skip.
  destruct (skip_slashes path) as [|c p] eqn:Es; [done|]. pose proof (skip_slashes_head _ _ _ Es) as Hc.
  destruct (span_elem_ok (c :: p)) as (H1&H2&H3).
  assert ((span_elem (c :: p)).1 ≠ []) as Hne by (cbn; by rewrite (proj2 (Z.eqb_neq c 47))).
  set (e := (span_elem (c :: p)).1) in *. set (r := (span_elem (c :: p)).2) in *. clearbody e r.
  rewrite H1, elements_front by done. exists (skip_slashes r). rewrite elements_skip.
  rewrite H1 in Hsp. apply Forall_app in Hsp as [Hse Hsr].
  split_and!; [done|done|symmetry; apply elements_nil| |by apply skip_slashes_Forall|done].
  pose proof (length_skip_slashes r). rewrite H1, length_app in Hls. destruct e; [done|]. cbn in Hls. lia.
Qed.

(** ** dirlookup *)

Lemma on_disk_file v a b off n : on_disk a = on_disk b → file_range v a off n = file_range v b off n.
Proof.
  intros [= _ _ _ _ _ Ha]. unfold file_range. apply list_fmap_ext. intros k x _. unfold file_byte, block_at. by rewrite Ha.
Qed.

Lemma file_ok_same v a b : on_disk a = on_disk b → i_dev a = i_dev b → file_ok v a → file_ok v b.
Proof.
  intros Hd Hdev [[I1 I2 I3 I4 I5 I6 I7] F2 F3 F4 F5]. injection Hd as H1 H2 H3 H4 H5 H6.
  split; [split; by rewrite <- ?H1, <- ?H2, <- ?H3, <- ?H4, <- ?H5, <- ?H6|by rewrite <- Hdev|by rewrite <- H5|..].
  - intros bn. rewrite <- H5. replace (block_at v b bn) with (block_at v a bn) by (unfold block_at; by rewrite H6). apply F4.
  - intros off. rewrite <- H5. replace (file_byte v b off) with (file_byte v a off) by (unfold file_byte, block_at; by rewrite H6).
    apply F5.
Qed.

Lemma ldn_of_le n m a : ldn n m a = of_le (ld_bytes n m a).
Proof. revert a. induction n as [|n IH]; intros a; cbn; [done|]. by rewrite IH. Qed.

(** References that leave a slot free, and no count about to overflow. *)
Definition roomy (r : Z → Z) : Prop :=
  (∀ y, r y < 2 ^ 31 - 1) ∧ ∃ l, (∀ y, r y ≠ 0 → y ∈ l) ∧ (length l < NINODE)%nat.

Section lookup.
Context (me : nat) {I : Image} {FU : Fuel} {D : Disk} {DO : DiskOk D} {U : Mmio} {UO : Uart16550 FU U}.
Context (Hlocal : 0 ≤ image_local ∧ image_local + 16 < 2 ^ 64).

Lemma walking_room s0 bs s h e :
  walking me s0 bs s h e → roomy (λ y, irefs s0 y + e y) →
  (∀ y, irefs s y < 2 ^ 31 - 1) ∧ ∃ j, (j < NINODE)%nat ∧ i_ref (inode_of j s) = 0.
Proof.
  intros Hw (Hmax&l&Hl&Hlen). pose proof (wk_refs _ _ _ _ _ _ Hw) as Hr. split.
  - intros y. rewrite Hr. apply Hmax.
  - apply (slot_free s l); [apply Hw| |done]. intros y. rewrite Hr. apply Hl.
Qed.

(** Reading one entry. *)
Lemma read_entry s0 bs s e dp x k :
  walking me s0 bs s (Some dp) e → (length bs < 30)%nat → holding_inode s dp x → dir_ok (view s0) (dnode (view s0) (k_sb s0) x) →
  let d := dnode (view s0) (k_sb s0) x in
  0 ≤ k → 16 * k < i_size d →
  ∃ s', readi dp false image_local (16 * k) sizeof_dirent s = Ret 16 s' ∧ walking me s0 bs s' (Some dp) e ∧
    k_inodes s' = k_inodes s ∧ ld16 (k_mem s') image_local = dirent_inum (view s0) d k ∧
    ld_bytes 14 (k_mem s') (image_local + 2) = drop 2 (file_range (view s0) d (16 * k) 16).
Proof.
  intros Hw Hl (Hrf&Hval&Hod) [Hf Hty Hsz] d Hk Hlt. fold d in Hf, Hty, Hsz.
  assert (on_disk d = on_disk (inode_of dp s)) as Hod'.
  { rewrite Hod. unfold disk_inode. by rewrite (wk_view _ _ _ _ _ _ Hw), (wk_sb _ _ _ _ _ _ Hw). }
  assert (file_ok (view s) (inode_of dp s)) as Hf'.
  { apply (file_ok_ext (view s0)); [|apply Hw]. apply (file_ok_same _ d); [done| |done].
    destruct Hrf as (H1&H2&_). rewrite (to_dev _ (wk_table _ _ _ _ _ _ Hw)) by done. done. }
  assert (i_size (inode_of dp s) = i_size d) as Hs by (symmetry; exact (f_equal (λ t, t.1.2) Hod')).
  pose proof (fo_size _ _ Hf) as Hmax. change (MAXFILE * BSIZE) with 274432 in Hmax.
  assert (16 * k + 16 ≤ i_size d) as Hend by (clear - Hsz Hlt; zdm).
  destruct (readi_ok me s bs dp image_local (16 * k) sizeof_dirent) as (s'&Hr&Hrd); try done.
  { apply Hw. } { change sizeof_dirent with 16 in *. lia. } { lia. } { change sizeof_dirent with 16. lia. }
  assert (read_count (inode_of dp s) (16 * k) sizeof_dirent = 16) as Hrc.
  { unfold read_count. change sizeof_dirent with 16. rewrite Hs. destruct (_ || _) eqn:E; [|lia].
    apply orb_true_iff in E as [E%Z.ltb_lt|E%Z.leb_le]; lia. }
  rewrite Hrc in *. rewrite (on_disk_file _ _ d), (file_range_ext (view s) (view s0)) in Hrd;
    [|intros b; symmetry; apply Hw|done].
  pose proof (walking_read me _ _ _ _ _ _ _ Hw Hrd) as Hw'. destruct (read_to_fields me _ _ _ _ Hrd) as (Hm&Hi&_&_).
  exists s'. split; [exact Hr|]. clear Hr.
  pose proof (ld_bytes_st_bytes (k_mem s) image_local (file_range (view s0) d (16 * k) 16)
    (file_range_bytes _ _ (16 * k) 16 Hf ltac:(lia) Hend)) as Hld.
  rewrite length_file_range in Hld. change (Z.to_nat 16) with (2 + 14)%nat in Hld.
  rewrite <- Hm, (ld_bytes_app 2 14) in Hld. split_and!; [done|done| |].
  - unfold dirent_inum, get16. rewrite <- Hld. unfold ld16. rewrite ldn_of_le. done.
  - rewrite <- Hld. done.
Qed.

(** What the caller of [dirlookup] for inode [x] in slot [dp] sees. *)
Definition lookup_post (s0 : kernel) (bs : list Z) (e : Z → Z) (dp : nat) (x : Z) (r : option (Z * Z))
    (found : option (nat * Z)) (s' : kernel) : Prop :=
  holding_inode s' dp x ∧
  match r with
  | None => found = None ∧ walking me s0 bs s' (Some dp) e
  | Some (off, y) => ∃ j, found = Some (j, off) ∧ walking me s0 bs s' (Some dp) (λ z, e z + one y z) ∧ refers s' j y
  end.

Lemma holding_ext s0 bs s s' h h' e e' dp x :
  walking me s0 bs s h e → walking me s0 bs s' h' e' → k_inodes s' = k_inodes s → holding_inode s dp x → holding_inode s' dp x.
Proof.
  intros Hw Hw' Hi. assert (inode_of dp s' = inode_of dp s) as Hin by (unfold inode_of; by rewrite Hi).
  unfold holding_inode, refers, disk_inode. rewrite Hin, (wk_view _ _ _ _ _ _ Hw), (wk_view _ _ _ _ _ _ Hw').
  by rewrite (wk_sb _ _ _ _ _ _ Hw), (wk_sb _ _ _ _ _ _ Hw').
Qed.

Lemma dirlookup_loop_ok n s0 bs s e dp x name k :
  let d := dnode (view s0) (k_sb s0) x in
  walking me s0 bs s (Some dp) e → (length bs < 30)%nat → holding_inode s dp x → dir_ok (view s0) d →
  roomy (λ y, irefs s0 y + e y) → Forall (λ c, 0 ≤ c) name → 0 ≤ k ≤ i_size d / 16 → i_size d / 16 - k ≤ Z.of_nat n →
  ∃ r s', dirlookup_loop n dp name (16 * k) s = Ret r s' ∧
    lookup_post s0 bs e dp x (find_entry (view s0) d (name_of name) (Z.to_nat (i_size d / 16 - k)) k) r s'.
Proof.
  intros d. revert s k. induction n as [|n IH]; intros s k Hw Hl Hh Hd Hroom Hname Hk Hn;
    pose proof Hh as (Hrf&_&Hod); pose proof (do_size _ _ Hd) as Hsz;
    assert (i_size (inode_of dp s) = i_size d) as Hs by
      (unfold disk_inode in Hod; rewrite (wk_view _ _ _ _ _ _ Hw), (wk_sb _ _ _ _ _ _ Hw) in Hod;
       exact (f_equal (λ t, t.1.2) Hod));
    cbn [dirlookup_loop]; rewrite bind_gets, Hs.
  - assert (k = i_size d / 16) as -> by lia. assert (16 * (i_size d / 16) <? i_size d = false) as -> by (apply Z.ltb_ge; zdm).
    rewrite Z.sub_diag. exists None, s. split; [done|]. split; [done|done].
  - destruct (decide (k = i_size d / 16)) as [->|Hne].
    { assert (16 * (i_size d / 16) <? i_size d = false) as -> by (apply Z.ltb_ge; zdm).
      rewrite Z.sub_diag. exists None, s. split; [done|]. split; [done|done]. }
    assert (16 * k < i_size d) as Hlt by zdm. rewrite (proj2 (Z.ltb_lt _ _) Hlt). cbn [negb].
    destruct (read_entry s0 bs s e dp x k) as (s1&Hr1&Hw1&Hi1&Hinum&Hde); try done; [lia|].
    fold d in Hinum, Hde. rewrite (bind_Ret _ _ _ _ _ Hr1). change (negb (16 =? sizeof_dirent)) with false. cbn [negb].
    unfold de_inum, de_name. rewrite bind_gets, Hinum.
    pose proof (holding_ext _ _ _ _ _ _ _ _ _ _ Hw Hw1 Hi1 Hh) as Hh1.
    replace (Z.to_nat (i_size d / 16 - k)) with (S (Z.to_nat (i_size d / 16 - (k + 1)))) by lia. cbn [find_entry].
    assert (u32 (16 * k + sizeof_dirent) = 16 * (k + 1)) as Hu.
    { change sizeof_dirent with 16. pose proof (io_size _ (fo_inode _ _ (do_file _ _ Hd))). rewrite u32_small; zdm. }
    destruct (dirent_inum (view s0) d k =? 0) eqn:Hz; cbn [negb andb].
    { rewrite Hu. apply IH; try done; lia. }
    rewrite bind_gets. change (Z.to_nat DIRSIZ) with 14%nat. rewrite Hde.
    assert (namecmp name (drop 2 (file_range (view s0) d (16 * k) 16)) = 0 ↔ name_of name = dirent_name (view s0) d k) as Hcmp.
    { apply namecmp_0; [done|]. apply Forall_drop. eapply Forall_impl; [apply file_range_bytes; [apply Hd|lia|zdm]|]. cbn. lia. }
    destruct (namecmp name _ =? 0) eqn:Hc.
    + apply Z.eqb_eq, Hcmp in Hc. rewrite bool_decide_true by done. rewrite bind_gets.
      destruct Hh1 as ((H1&H2&H3)&H4). rewrite (to_dev _ (wk_table _ _ _ _ _ _ Hw1)) by done.
      destruct (walking_room _ _ _ _ _ Hw1 Hroom) as [Hmax Hfree].
      destruct (walking_iget me s0 bs s1 _ _ (dirent_inum (view s0) d k) Hw1 (Hmax _) Hfree) as (j&s2&Hr2&Hw2&Hrf2&_&Hkeep).
      rewrite (bind_Ret _ _ _ _ _ Hr2). exists (Some (j, 16 * k)), s2. split; [done|]. split; [by apply Hkeep|]. by exists j.
    + apply Z.eqb_neq in Hc. rewrite bool_decide_false by (intros Heq; by apply Hc, Hcmp). rewrite Hu. apply IH; try done; lia.
Qed.

Lemma dirlookup_ok s0 bs s e dp x name :
  let d := dnode (view s0) (k_sb s0) x in
  walking me s0 bs s (Some dp) e → (length bs < 30)%nat → holding_inode s dp x → dir_ok (view s0) d →
  roomy (λ y, irefs s0 y + e y) → Forall (λ c, 0 ≤ c) name →
  ∃ r s', dirlookup dp name s = Ret r s' ∧ lookup_post s0 bs e dp x (dir_find (view s0) d (name_of name)) r s'.
Proof.
  intros d Hw Hl Hh Hd Hroom Hname. pose proof Hh as (_&_&Hod). unfold disk_inode in Hod.
  rewrite (wk_view _ _ _ _ _ _ Hw), (wk_sb _ _ _ _ _ _ Hw) in Hod.
  unfold dirlookup. rewrite bind_gets.
  assert (i_type (inode_of dp s) = i_type d ∧ i_size (inode_of dp s) = i_size d) as [-> ->].
  { split; [exact (f_equal (λ t, t.1.1.1.1.1) Hod)|exact (f_equal (λ t, t.1.2) Hod)]. }
  rewrite (do_type _ _ Hd), Z.eqb_refl. cbn [negb]. pose proof (io_size _ (fo_inode _ _ (do_file _ _ Hd))).
  destruct (dirlookup_loop_ok (S (Z.to_nat (i_size d / sizeof_dirent))) s0 bs s e dp x name 0) as (r&s'&Hr&Hp); try done;
    change sizeof_dirent with 16; fold d; [zdm|zdm|].
  exists r, s'. split; [exact Hr|]. rewrite Z.sub_0_r in Hp. exact Hp.
Qed.

(** C8: [dirlookup] of a name in a locked directory finds the first entry in use
    that has the name, comparing at most DIRSIZ bytes up to a NUL: it returns a
    slot of the inode table that refers to the entry's inode, whose reference
    count went up by one, and the entry's offset; when no entry has the name it
    returns 0 and no count changed. The disk, the log and the directory's inode
    are as before. *)
Theorem dirlookup_correct s0 bs s e dp x name :
  let d := dnode (view s0) (k_sb s0) x in
  walking me s0 bs s (Some dp) e → (length bs < 30)%nat → holding_inode s dp x → dir_ok (view s0) d →
  roomy (λ y, irefs s0 y + e y) → Forall (λ c, 0 ≤ c) name →
  ∃ r s', dirlookup dp name s = Ret r s' ∧ holding_inode s' dp x ∧
    match dir_find (view s0) d (name_of name) with
    | None => r = None ∧ walking me s0 bs s' (Some dp) e
    | Some (off, y) =>
        ∃ j, r = Some (j, off) ∧ walking me s0 bs s' (Some dp) (λ z, e z + one y z) ∧ refers s' j y
    end.
Proof. exact (dirlookup_ok s0 bs s e dp x name). Qed.

End lookup.

(** ** Searching *)

Lemma find_entry_ext v w ip name n k : (∀ b, w b = v b) → find_entry w ip name n k = find_entry v ip name n k.
Proof.
  intros Hw. revert k. induction n as [|n IH]; intros k; cbn [find_entry]; [done|].
  unfold dirent_inum, dirent_name. by rewrite <- (file_range_ext v w), IH.
Qed.

Lemma dnode_ext v w sb x : (∀ b, w b = v b) → dnode w sb x = dnode v sb x.
Proof. intros Hw. unfold dnode. by rewrite Hw. Qed.

Lemma find_entry_Some v ip name n k off y :
  find_entry v ip name n k = Some (off, y) →
  ∃ i, k ≤ i < k + Z.of_nat n ∧ off = 16 * i ∧ y = dirent_inum v ip i ∧ y ≠ 0 ∧ name = dirent_name v ip i ∧
    ∀ i', k ≤ i' < i → dirent_inum v ip i' = 0 ∨ dirent_name v ip i' ≠ name.
Proof.
  revert k. induction n as [|n IH]; intros k; cbn [find_entry]; [done|]. destruct (_ && _) eqn:E.
  - intros [= <- <-]. apply andb_true_iff in E as [E1%negb_true_iff%Z.eqb_neq E2%bool_decide_eq_true].
    exists k. split_and!; try done; lia.
  - intros (i&Hi&H1&H2&H3&H4&H5)%IH. exists i. split_and!; try done; [lia|lia|]. intros i' Hi'.
    destruct (decide (i' = k)) as [->|]; [|apply H5; lia].
    apply andb_false_iff in E as [E%negb_false_iff%Z.eqb_eq|E%bool_decide_eq_false]; [by left|right; congruence].
Qed.
