(* ===== verification/FsPath.v ===== *)
(** * Path names (fs.c: namex, namei, nameiparent)

    Following a path through the directories on the disk, [follow], and that
    [namex] does so: the locks, the references and the inode table it goes
    through leave no trace but the reference it returns. *)

From S2P Require Import Prelude State Mem Kstring Spinlock Kalloc Vm Proc ProcSpec SchedSpec Uart UartSpec.
From S2P Require Import Printf PrintfSpec Sleeplock SleepSpec Bio BioList BioSpec BioInit Log LogSpec LogTxn FsTxn Fs FsBlock.
From S2P Require Import FsInode FsTable FsDir.

(** The inode a path leads to from directory [inum]; for [parent], the directory
    that its last element is in. *)
Fixpoint follow (v : Z → list Z) (sb : superblock) (parent : bool) (inum : Z) (es : list (list Z)) : option Z :=
  match es with
  | [] => if parent then None else Some inum
  | e :: es' =>
      let d := dnode v sb inum in
      if negb (i_type d =? T_DIR) then None
      else if parent && bool_decide (es' = []) then Some inum
      else
        match dir_find v d (take 14 e) with
        | None => None
        | Some (_, next) => follow v sb parent next es'
        end
  end.

(** The inodes [P] form a tree of linked inodes that can be searched. *)
Record tree_ok (v : Z → list Z) (sb : superblock) (P : Z → Prop) : Prop := {
  tr_type x : P x → i_type (dnode v sb x) ≠ 0;
  tr_link x : P x → i_nlink (dnode v sb x) ≠ 0;
  tr_dir x : P x → i_type (dnode v sb x) = T_DIR → dir_ok v (dnode v sb x);
  tr_entry x name off y : P x → i_type (dnode v sb x) = T_DIR → dir_find v (dnode v sb x) name = Some (off, y) → P y;
}.

Lemma follow_ext v w sb parent x es : (∀ b, w b = v b) → follow w sb parent x es = follow v sb parent x es.
Proof.
  intros Hw. revert x. induction es as [|e es IH]; intros x; cbn [follow]; [done|]. rewrite (dnode_ext v w) by done.
  unfold dir_find. rewrite (find_entry_ext v w) by done.
  destruct (negb _); [done|]. destruct (parent && bool_decide (es = [])); [done|].
  destruct (find_entry _ _ _ _ _) as [[]|]; auto.
Qed.

Lemma tree_ok_ext v w sb P : tree_ok v sb P → (∀ b, w b = v b) → tree_ok w sb P.
Proof.
  intros [H1 H2 H3 H4] Hw. split; intros x; rewrite ?(dnode_ext v w) by done; [apply H1|apply H2|..].
  - intros HP Hd. destruct (H3 x HP Hd) as [A B C]. split; [by apply (file_ok_ext v)|done|done].
  - intros name off y HP Hd. unfold dir_find. rewrite (find_entry_ext v w) by done. by apply H4.
Qed.

Section path.
Context (me : nat) {I : Image} {FU : Fuel} {D : Disk} {DO : DiskOk D} {U : Mmio} {UO : Uart16550 FU U}.
Context (Hlocal : 0 ≤ image_local ∧ image_local + 16 < 2 ^ 64).
Context (s0 : kernel) (bs : list Z) (P : Z → Prop).
Context (Hl : (length bs < 30)%nat) (Htree : tree_ok (view s0) (k_sb s0) P) (Htable : itable_ok s0).
Context (Hroom : ∀ x, roomy (λ y, irefs s0 y + one x y)).

(** What [namex] leaves, when the path leads to [r]. *)
Definition namex_post (parent : bool) (es : list (list Z)) (r : option Z) (res : option nat * list Z) (s' : kernel) : Prop :=
  match r with
  | Some y => ∃ j, res.1 = Some j ∧ walking me s0 bs s' None (one y) ∧ refers s' j y ∧
      (parent = true → ∃ e, list.last es = Some e ∧ name_of res.2 = take 14 e)
  | None => res.1 = None ∧ walking me s0 bs s' None (λ _, 0)
  end.

Lemma walking_drop s x :
  walking me s0 bs s None (λ y, one x y - one x y) → walking me s0 bs s None (λ _, 0).
Proof. intros Hw. eapply walking_refs; [exact Hw|]. intros y. cbn. lia. Qed.

(** No element is left. *)
Lemma namex_end s ip x (parent : bool) name :
  walking me s0 bs s None (one x) → refers s ip x → P x →
  ∃ res s', (if parent then iput ip;; mret (None, name) else mret (Some ip, name) : M (option nat * list Z)) s = Ret res s' ∧
    namex_post parent [] (follow (view s0) (k_sb s0) parent x []) res s'.
Proof.
  intros Hw Hrf HP. cbn [follow]. destruct parent.
  - destruct (walking_iput me s0 bs s _ ip x Hw Hrf (tr_link _ _ _ Htree x HP)) as (s'&Hr&Hw'&_).
    rewrite (bind_Ret _ _ _ _ _ Hr). eexists _, s'. split; [done|]. split; [done|]. by eapply walking_drop.
  - eexists _, s. split; [done|]. by exists ip.
Qed.

Lemma namex_loop_ok k s ip x path parent name :
  walking me s0 bs s None (one x) → refers s ip x → P x → Forall (λ c, 0 < c) path → (length path ≤ k)%nat →
  length name = 14%nat → Forall (λ c, 0 ≤ c) name →
  ∃ res s', namex_loop k ip path parent name s = Ret res s' ∧
    namex_post parent (elements path) (follow (view s0) (k_sb s0) parent x (elements path)) res s'.
Proof.
  revert s ip x path name. induction k as [|k IH]; intros s ip x path name Hw Hrf HP Hp Hk Hn Hnn; cbn [namex_loop];
    pose proof (skipelem_ok path name Hp Hn Hnn) as Hskip; pose proof (tr_link _ _ _ Htree x HP) as Hlink.
  { destruct (elements path) as [|e es]; [rewrite Hskip; by apply namex_end|]. destruct Hskip as (rest&_&_&_&Hlen&_). lia. }
  destruct (elements path) as [|e es] eqn:Hes; [rewrite Hskip; by apply namex_end|].
  destruct Hskip as (rest&Hse&Hr&Hnil&Hlen&Hrest&He). rewrite Hse.
  destruct (elem_name_ok name e Hn He Hnn) as (Hnm&Hnl&Hnn').
  destruct (walking_ilock me s0 bs s _ ip x Hw Hl Hrf (tr_type _ _ _ Htree x HP)) as (s1&Hr1&Hw1&Hh1&_).
  rewrite (bind_Ret _ _ _ _ _ Hr1), bind_gets. cbn [follow].
  pose proof Hh1 as (Hrf1&_&Hod). unfold disk_inode in Hod. rewrite (wk_view _ _ _ _ _ _ Hw1), (wk_sb _ _ _ _ _ _ Hw1) in Hod.
  set (d := dnode (view s0) (k_sb s0) x). assert (i_type (inode_of ip s1) = i_type d) as -> by exact (f_equal (λ t, t.1.1.1.1.1) Hod).
  destruct (i_type d =? T_DIR) eqn:Hty; cbn [negb].
  2: { destruct (walking_iunlockput me s0 bs s1 _ ip x Hw1 Hrf1 Hlink) as (s2&Hr2&Hw2&_).
       rewrite (bind_Ret _ _ _ _ _ Hr2). eexists _, s2. split; [done|]. split; [done|]. by eapply walking_drop. }
  apply Z.eqb_eq in Hty. assert (bool_decide (rest = []) = bool_decide (es = [])) as -> by (by apply bool_decide_ext).
  destruct (parent && bool_decide (es = [])) eqn:Hlast.
  { apply andb_true_iff in Hlast as [-> ->%bool_decide_eq_true].
    destruct (walking_iunlock me s0 bs s1 _ ip x Hw1 Hrf1) as (s2&Hr2&Hw2&Hi2).
    rewrite (bind_Ret _ _ _ _ _ Hr2). eexists _, s2. split; [done|]. exists ip. split_and!; [done|done| |].
    - unfold refers, inode_of. rewrite Hi2. exact Hrf1.
    - intros _. by exists e. }
  destruct (dirlookup_ok me Hlocal s0 bs s1 _ ip x (elem_name name e) Hw1 Hl Hh1 (tr_dir _ _ _ Htree x HP Hty) (Hroom x) Hnn')
    as (r&s2&Hr2&Hh2&Hpost).
  rewrite (bind_Ret _ _ _ _ _ Hr2), Hnm in *. fold d in Hpost. destruct (dir_find (view s0) d (take 14 e)) as [[off y]|] eqn:Hfind.
  - destruct Hpost as (j&->&Hw2&Hrf2).
    destruct (walking_iunlockput me s0 bs s2 _ ip x Hw2 (proj1 Hh2) Hlink) as (s3&Hr3&Hw3&Hkeep).
    rewrite (bind_Ret _ _ _ _ _ Hr3).
    assert (walking me s0 bs s3 None (one y)) as Hw3' by (eapply walking_refs; [exact Hw3|]; intros z; cbn; lia).
    destruct (IH s3 j y rest (elem_name name e) Hw3') as (res&s4&Hr4&Hpost4); try done.
    + apply Hkeep; [done|]. rewrite (wk_refs _ _ _ _ _ _ Hw3'). pose proof (irefs_nonneg s0 y Htable). unfold one.
      rewrite decide_True by done. lia.
    + by apply (tr_entry _ _ _ Htree x (take 14 e) off y).
    + lia.
    + exists res, s4. split; [exact Hr4|]. rewrite Hr in Hpost4. unfold namex_post in *.
      destruct (follow _ _ _ _ _) as [z|]; [|done]. destruct Hpost4 as (j'&H1&H2&H3&H4). exists j'. split_and!; try done.
      intros ->. destruct (H4 eq_refl) as (e'&He'&Hnm'). exists e'. split; [|done]. by destruct es.
  - destruct Hpost as [-> Hw2].
    destruct (walking_iunlockput me s0 bs s2 _ ip x Hw2 (proj1 Hh2) Hlink) as (s3&Hr3&Hw3&_).
    rewrite (bind_Ret _ _ _ _ _ Hr3). eexists _, s3. split; [done|]. split; [done|]. by eapply walking_drop.
Qed.

(** Where a path starts: at the root, or at the current directory. *)
Definition starts_at (path : list Z) (x : Z) : Prop :=
  if bool_decide (head path = Some 47) then x = ROOTINO
  else ∃ c, p_cwd (proc_of me s0) = Some c ∧ refers s0 c x.

Lemma walking_start : cached me s0 bs [] → (∀ j, sl_locked (slock_of (SL_inode j) s0) = 0) → walking me s0 bs s0 None (λ _, 0).
Proof. intros Hc Hfree. split; try done. intros y. lia. Qed.

Lemma roomy_start : roomy (λ y, irefs s0 y + 0).
Proof.
  destruct (Hroom 0) as (Hmax&l&Hcov&Hlen). split.
  - intros y. specialize (Hmax y). unfold one in Hmax. case_decide; lia.
  - exists l. split; [|done]. intros y Hy. apply Hcov. pose proof (irefs_nonneg s0 y Htable). unfold one. case_decide; lia.
Qed.

Lemma namex_ok path parent name x :
  cached me s0 bs [] → (∀ j, sl_locked (slock_of (SL_inode j) s0) = 0) → starts_at path x → P x →
  Forall (λ c, 0 < c) path → length name = 14%nat → Forall (λ c, 0 ≤ c) name →
  ∃ res s', namex path parent name s0 = Ret res s' ∧
    namex_post parent (elements path) (follow (view s0) (k_sb s0) parent x (elements path)) res s'.
Proof.
  intros Hc Hfree Hstart HP Hp Hn Hnn. pose proof (walking_start Hc Hfree) as Hw. unfold namex.
  assert (∃ ip s1, (if bool_decide (head path = Some 47) then iget ROOTDEV ROOTINO
    else p ← myproc; i ← deref p; cwd ← gets (λ s, p_cwd (proc_of i s)); cwd ← deref cwd; idup cwd) s0 = Ret ip s1 ∧
    walking me s0 bs s1 None (one x) ∧ refers s1 ip x) as (ip&s1&Hr1&Hw1&Hrf1).
  2: { rewrite (bind_Ret _ _ _ _ _ Hr1). by apply (namex_loop_ok _ s1 ip x). }
  unfold starts_at in Hstart. destruct (walking_room me s0 bs s0 None (λ _, 0) Hw roomy_start) as [Hmax Hroom0].
  destruct (bool_decide _).
  - subst x. destruct (walking_iget me s0 bs s0 None (λ _, 0) ROOTINO Hw (Hmax _) Hroom0) as (ip&s1&Hr&Hw1&Hrf&_).
    exists ip, s1. split_and!; [exact Hr| |done]. eapply walking_refs; [exact Hw1|]. done.
  - destruct Hstart as (c&Hcwd&Hrf). rewrite (bind_myproc me []) by (by eapply walking_env). cbn [deref]. rewrite bind_mret, bind_gets.
    change (p_cwd (proc_of me (tick s0))) with (p_cwd (proc_of me s0)). rewrite Hcwd. cbn [deref]. rewrite bind_mret.
    destruct (walking_idup me s0 bs (tick s0) (λ _, 0) c x) as (s1&Hr&Hw1&Hrf1); [|done|apply Hmax|].
    { apply (walking_table me s0 bs s0 None (λ _, 0)); try done; [by destruct Htable|]. intros y. change (irefs (tick s0) y) with (irefs s0 y). lia. }
    exists c, s1. split_and!; [exact Hr| |done]. eapply walking_refs; [exact Hw1|]. done.
Qed.

End path.

Section contract.
Context (me : nat) {I : Image} {FU : Fuel} {D : Disk} {DO : DiskOk D} {U : Mmio} {UO : Uart16550 FU U}.

Lemma roomy_one s l :
  (∀ y, irefs s y < 2 ^ 31 - 2) → (∀ y, irefs s y ≠ 0 → y ∈ l) → (length l < NINODE - 1)%nat →
  ∀ x, roomy (λ y, irefs s y + one x y).
Proof.
  intros Hmax Hl Hlen x. split.
  - intros y. specialize (Hmax y). unfold one. case_decide; lia.
  - exists (x :: l). split; [|cbn; lia]. intros y Hy. unfold one in Hy. case_decide; [subst; by left|].
    right. apply Hl. lia.
Qed.

(** C7: Resolving a path, absolute or relative, is following its elements through
    the directories on the disk: [namex] returns a slot of the inode table that
    refers to the inode [follow] reaches (for [nameiparent], to the directory of
    the last element, with that element in [name]) and null when [follow] stops at
    something that is missing or not a directory. Of all the references it takes
    on the way, on every path through the code, exactly the returned one is kept;
    every sleep lock is free again and the disk, its cached contents and the log
    are unchanged. *)
Theorem namex_correct s bs P l path parent name x :
  0 ≤ image_local ∧ image_local + 16 < 2 ^ 64 →
  cached me s bs [] → (length bs < 30)%nat → itable_ok s → (∀ j, sl_locked (slock_of (SL_inode j) s) = 0) →
  tree_ok (view s) (k_sb s) P → starts_at me s path x → P x →
  (∀ y, irefs s y < 2 ^ 31 - 2) → (∀ y, irefs s y ≠ 0 → y ∈ l) → (length l < NINODE - 1)%nat →
  Forall (λ c, 0 < c) path → length name = 14%nat → Forall (λ c, 0 ≤ c) name →
  ∃ res s', namex path parent name s = Ret res s' ∧
    (∀ j, sl_locked (slock_of (SL_inode j) s') = 0) ∧ (∀ b, view s' b = view s b) ∧ k_log s' = k_log s ∧ k_disk s' = k_disk s ∧
    itable_ok s' ∧ cached me s' bs [] ∧
    match follow (view s) (k_sb s) parent x (elements path) with
    | Some y => ∃ j, res.1 = Some j ∧ refers s' j y ∧ (∀ z, irefs s' z = irefs s z + one y z) ∧
        (parent = true → ∃ e, list.last (elements path) = Some e ∧ name_of res.2 = take 14 e)
    | None => res.1 = None ∧ ∀ z, irefs s' z = irefs s z
    end.
Proof.
  intros Hloc Hc Hl Htab Hfree Htree Hstart HP Hmax Hcov Hlen Hp Hn Hnn.
  destruct (namex_ok me Hloc s bs P Hl Htree Htab (roomy_one s l Hmax Hcov Hlen) path parent name x)
    as (res&s'&Hr&Hpost); try done.
  exists res, s'. split; [exact Hr|]. clear Hr. unfold namex_post in Hpost.
  assert (∃ e, walking me s bs s' None e ∧ ∀ z, irefs s' z = irefs s z + e z) as (e&Hw&_).
  { destruct (follow _ _ _ _ _); [destruct Hpost as (j&_&Hw&_)|destruct Hpost as [_ Hw]]; eexists; split; [exact Hw|apply Hw|exact Hw|apply Hw]. }
  split_and!; [intros j; by apply Hw|apply Hw..|].
  destruct (follow _ _ _ _ _) as [y|].
  - destruct Hpost as (j&H1&H2&H3&H4). exists j. split_and!; try done. apply H2.
  - destruct Hpost as [H1 H2]. split; [done|]. intros z. rewrite (wk_refs _ _ _ _ _ _ H2). lia.
Qed.

End contract.
