(* ===== verification/FsExample.v ===== *)
(** * A small file system

    A disk with a root directory holding ".", ".." and the file "init", and the
    theorems on inodes, directories and paths at work on it. *)

From S2P Require Import Prelude State Mem Kstring Spinlock Kalloc Vm Proc ProcSpec SchedSpec Uart UartSpec.
From S2P Require Import Printf PrintfSpec Sleeplock SleepSpec Virtio Bio BioList BioSpec BioInit Log LogSpec LogTxn FsTxn Fs FsBlock.
From S2P Require Import FsInode FsTable FsDir FsPath.

(** ** The disk *)

Definition root_inode : inode := Inode ROOTDEV 1 0 0 T_DIR 0 0 1 48 (46 :: replicate 12 0).
Definition init_inode : inode := Inode ROOTDEV 2 0 0 T_FILE 0 0 1 5 (47 :: replicate 12 0).

Definition dirent (inum : Z) (name : list Z) : list Z := to_le 2 inum ++ name ++ replicate (14 - length name) 0.

Definition inode_block : list Z := put_dinode (put_dinode zero_block 64 root_inode) 128 init_inode.
Definition root_block : list Z :=
  dirent 1 [46] ++ dirent 1 [46; 46] ++ dirent 2 [105; 110; 105; 116] ++ replicate 976 0.
Definition init_block : list Z := [104; 101; 108; 108; 111] ++ replicate 1019 7.

Definition tree_disk : gmap Z (list Z) := {[33 := inode_block; 46 := root_block; 47 := init_block]}.

(** The blocks as the kernel sees them. *)
Notation tv := (disk_block tree_disk).
Notation tnode := (dnode (disk_block tree_disk) sb50).

Lemma forallb_seqZ (f : Z → bool) n k : forallb f (seqZ 0 n) = true → 0 ≤ k < n → f k = true.
Proof. intros Hall Hk. rewrite forallb_forall in Hall. apply Hall, list_elem_of_In, elem_of_seqZ. lia. Qed.

Lemma root_ok : dir_ok tv (tnode 1).
Proof.
  split; [|by vm_compute|by vm_compute]. split.
  - split; [by vm_compute..|]. intros a Ha. vm_compute in Ha.
    assert (Forall (λ a, 0 ≤ a < 4294967296) [46; 0; 0; 0; 0; 0; 0; 0; 0; 0; 0; 0; 0]) as Hall by (repeat constructor; lia).
    rewrite Forall_forall in Hall. by apply Hall.
  - done.
  - by vm_compute.
  - intros bn H1 H2. change (i_size (tnode 1)) with (di_size (tv 33) 64) in H2.
    assert (bn = 0) as ->; [|by vm_compute]. vm_compute (di_size _ _) in H2. change BSIZE with 1024 in H2. lia.
  - intros off Hoff. assert (0 ≤ off < 48) as Ho by (by vm_compute (i_size _) in Hoff).
    pose proof (forallb_seqZ (λ o, (0 <=? file_byte tv (tnode 1) o) && (file_byte tv (tnode 1) o <? 256)) 48 off
      ltac:(by vm_compute) Ho) as H. apply andb_true_iff in H as [H1%Z.leb_le H2%Z.ltb_lt]. done.
Qed.

Definition live (x : Z) : Prop := x = 1 ∨ x = 2.

Lemma tree_live : tree_ok tv sb50 live.
Proof.
  split.
  - intros x [-> | ->]; by vm_compute.
  - intros x [-> | ->]; by vm_compute.
  - intros x [-> | ->] Hd; [apply root_ok|by vm_compute in Hd].
  - intros x name off y [-> | ->] Hd; [|by vm_compute in Hd]. intros (i&Hi&_&->&_)%find_entry_Some.
    assert (0 ≤ i < 3) as Hi' by (by vm_compute (Z.of_nat _) in Hi).
    pose proof (forallb_seqZ (λ i, bool_decide (live (dirent_inum tv (tnode 1) i))) 3 i ltac:(by vm_compute) Hi') as H.
    by apply bool_decide_eq_true in H.
Qed.

(** ** The kernel, in a transaction, with an empty inode table *)

Definition is_buf (l : slid) : bool := match l with SL_buf _ => true | _ => false end.

(** No sleep lock of an inode is taken. *)
Definition unlock_inodes (s : kernel) : kernel :=
  set_k_slocks (filter (λ kv, is_buf kv.1 = true) (k_slocks s)) s.

Lemma slock_unlock_buf i s : slock_of (SL_buf i) (unlock_inodes s) = slock_of (SL_buf i) s.
Proof.
  unfold slock_of, unlock_inodes. cbn. rewrite map_lookup_filter. destruct (k_slocks s !! SL_buf i); [|done].
  cbn. by rewrite option_guard_True.
Qed.

Lemma slock_unlock_inode i s : sl_locked (slock_of (SL_inode i) (unlock_inodes s)) = 0.
Proof.
  unfold slock_of, unlock_inodes. cbn. rewrite map_lookup_filter. destruct (k_slocks s !! SL_inode i); [|done].
  cbn. by rewrite option_guard_False.
Qed.

Lemma unlock_cached s bs hs : cached 0 s bs hs → cached 0 (unlock_inodes s) bs hs.
Proof.
  intros Hc. apply (cached_ext 0 s); [done|]. unfold same_cache. split_and!; try done; [intros i; apply slock_unlock_buf|by left].
Qed.

Lemma empty_table s : k_inodes s = replicate NINODE zero_inode → itable_ok s ∧ ∀ y, irefs s y = 0.
Proof.
  intros Hi. assert (∀ i, i_ref (inode_of i s) = 0) as Hz.
  { intros i. unfold inode_of. rewrite Hi. destruct (replicate NINODE zero_inode !! i) as [x|] eqn:E; [|done].
    apply lookup_replicate in E as [-> _]. done. }
  assert (itable_ok s) as Ht.
  { split; [by rewrite Hi|..]; intros i; rewrite Hz; lia. }
  split; [done|]. intros y. apply irefs_none; [done|]. intros i _. rewrite Hz. lia.
Qed.

Lemma tree_started :
  ∃ s, txn 0 s 2 [] [] ∧ (∀ b, view s b = tv b) ∧ k_sb s = sb50 ∧ k_inodes s = replicate NINODE zero_inode ∧ k_mem s = ∅ ∧
    ∀ j, sl_locked (slock_of (SL_inode j) s) = 0.
Proof.
  destruct (fs_started tree_disk sb50) as (s&_&Ht&Hv&Hsb&_&Hi&Hm); [by vm_compute..|].
  exists (unlock_inodes s). split_and!; try done.
  - split; [apply unlock_cached|]; apply Ht.
  - intros j. apply slock_unlock_inode.
Qed.

(** ** The theorems at work *)

(** "/init" is inode 2. *)
Lemma namex_correct_witness :
  ∃ s res s', @namex image0 10%nat polled_disk slow_uart [47; 105; 110; 105; 116] false (replicate 14 0) s = Ret res s' ∧
    ∃ j, res.1 = Some j ∧ refers s' j 2.
Proof.
  destruct tree_started as (s&Ht&Hv&Hsb&Hi&Hm&Hfree). destruct (empty_table s Hi) as [Htab Hz].
  destruct (@namex_correct 0 image0 10%nat polled_disk polled_disk_ok slow_uart
    s [] live [] [47; 105; 110; 105; 116] false (replicate 14 0) 1) as (res&s'&Hr&_&_&_&_&_&_&Hpost).
  - by vm_compute.
  - apply Ht.
  - cbn. lia.
  - exact Htab.
  - exact Hfree.
  - rewrite Hsb. apply (tree_ok_ext tv); [apply tree_live|exact Hv].
  - reflexivity.
  - by left.
  - intros y. rewrite Hz. lia.
  - intros y. rewrite Hz. by intros [].
  - cbn. unfold NINODE. lia.
  - repeat constructor; lia.
  - reflexivity.
  - apply Forall_replicate. lia.
  - exists s, res, s'. split; [exact Hr|]. clear Hr. rewrite Hsb, (follow_ext tv) in Hpost by exact Hv.
    assert (follow tv sb50 false 1 (elements [47; 105; 110; 105; 116]) = Some 2) as Hwalk by (vm_compute; reflexivity).
    rewrite Hwalk in Hpost. destruct Hpost as (j&H1&H2&_). exact (ex_intro _ j (conj H1 H2)).
Defined.

(** The same kernel with other contents of the inode table. *)
Definition with_inodes (l : list inode) (s : kernel) : kernel :=
  set_k_inodes (l ++ replicate (NINODE - length l) zero_inode) s.

Lemma with_inodes_lookup l s i : inode_of i (with_inodes l s) = default zero_inode (l !! i).
Proof.
  unfold inode_of, with_inodes. cbn. destruct (decide (i < length l)%nat) as [Hi|Hi].
  - by rewrite lookup_app_l.
  - rewrite lookup_app_r, (lookup_ge_None_2 l) by lia. destruct (replicate _ _ !! _) eqn:E; [|done].
    by apply lookup_replicate in E as [-> _].
Qed.

Lemma with_inodes_len l s : (length l ≤ NINODE)%nat → length (k_inodes (with_inodes l s)) = NINODE.
Proof.
  intros Hl. change (k_inodes _) with (l ++ replicate (NINODE - length l) zero_inode).
  rewrite length_app, length_replicate. lia.
Qed.

Lemma with_inodes_txn l s bs : txn 0 s 2 bs [] → txn 0 (with_inodes l s) 2 bs [].
Proof.
  intros Ht. split; [|apply Ht]. apply (cached_ext 0 s); [apply Ht|]. unfold same_cache. split_and!; try done. by left.
Qed.

Lemma init_ok : file_ok tv (tnode 2).
Proof.
  split.
  - split; [by vm_compute..|]. intros a Ha. vm_compute in Ha.
    assert (Forall (λ a, 0 ≤ a < 4294967296) [47; 0; 0; 0; 0; 0; 0; 0; 0; 0; 0; 0; 0]) as Hall by (repeat constructor; lia).
    rewrite Forall_forall in Hall. by apply Hall.
  - done.
  - by vm_compute.
  - intros bn H1 H2. change (i_size (tnode 2)) with (di_size (tv 33) 128) in H2.
    assert (bn = 0) as ->; [|by vm_compute]. vm_compute (di_size _ _) in H2. change BSIZE with 1024 in H2. lia.
  - intros off Hoff. assert (0 ≤ off < 5) as Ho by (by vm_compute (i_size _) in Hoff).
    pose proof (forallb_seqZ (λ o, (0 <=? file_byte tv (tnode 2) o) && (file_byte tv (tnode 2) o <? 256)) 5 off
      ltac:(by vm_compute) Ho) as H. apply andb_true_iff in H as [H1%Z.leb_le H2%Z.ltb_lt]. done.
Qed.


(** Inode 3 as it is in one slot, read back into another. *)
Definition new_inode : inode := Inode ROOTDEV 3 1 1 T_DEVICE 1 0 2 77 (48 :: replicate 12 5).
Definition fresh_slot : inode := Inode ROOTDEV 3 1 0 0 0 0 0 0 (replicate 13 0).


(** The root directory, in slot 0 and locked by the caller, has ".." at offset 16. *)
Lemma dirlookup_correct_witness :
  ∃ s r s', @dirlookup image0 10%nat polled_disk slow_uart 0 ([46; 46] ++ replicate 12 0) s = Ret r s' ∧
    ∃ j, r = Some (j, 16) ∧ refers s' j 1.
Proof.
  destruct tree_started as (s&Ht&Hv&Hsb&_&_&Hfree).
  set (t := put_slock (SL_inode 0) (Sleeplock "" 1 (pid_of 0 s)) (with_inodes [tnode 1] s)).
  assert (∀ i, inode_of i t = default zero_inode ([tnode 1] !! i)) as Hin by apply (with_inodes_lookup [tnode 1] s).
  assert (∀ i, 0 < i_ref (inode_of i t) → i = 0%nat) as Huse.
  { intros i. rewrite Hin. destruct i as [|[|i]]; cbn; [done|lia|lia]. }
  assert (∀ b, view t b = tv b) as Hvt by exact Hv.
  assert (itable_ok t) as Htab.
  { split.
    - by apply (with_inodes_len [tnode 1] s); cbn; unfold NINODE; lia.
    - intros i _. rewrite Hin. destruct i as [|[|i]]; cbn; lia.
    - intros i _ ->%Huse. by rewrite Hin.
    - intros i j _ _ ->%Huse ->%Huse. done.
    - intros i _ ->%Huse. rewrite Hin. intros _. unfold disk_inode. change (k_sb t) with (k_sb s). by rewrite Hsb, Hvt. }
  assert (∀ j, slock_of (SL_inode j) t = if decide (SL_inode 0 = SL_inode j) then Sleeplock "" 1 (pid_of 0 s) else slock_of (SL_inode j) s) as Hsl
    by (intros j; etransitivity; [apply (slock_of_put (SL_inode j) (SL_inode 0))|done]).
  assert (walking 0 t [] t (Some 0%nat) (λ _, 0)) as Hw.
  { split; try done.
    - apply (cached_ext 0 s); [apply Ht|]. unfold same_cache. split_and!; try done; [|by left].
      intros j. etransitivity; [apply (slock_of_put (SL_buf j) (SL_inode 0))|]. by rewrite decide_False.
    - intros j Hj. rewrite Hsl, decide_False by congruence. apply Hfree.
    - intros j [= <-]. rewrite Hsl, decide_True by done. done.
    - intros y. lia. }
  assert (∀ y, irefs t y = if decide (y = 1) then 1 else 0) as Hrefs.
  { intros y. case_decide as Hy.
    - subst y. pose proof (irefs_slot t 0 Htab ltac:(unfold NINODE; lia)) as Hs. rewrite Hin in Hs. apply Hs. cbn. lia.
    - apply irefs_none; [done|]. intros i _ ->%Huse. rewrite Hin. cbn. congruence. }
  assert (dnode (view t) (k_sb t) 1 = tnode 1) as Hn.
  { change (k_sb t) with (k_sb s). rewrite Hsb. by apply dnode_ext. }
  destruct (@dirlookup_correct 0 image0 10%nat polled_disk polled_disk_ok slow_uart ltac:(by vm_compute)
    t [] t (λ _, 0) 0%nat 1 ([46; 46] ++ replicate 12 0) Hw) as (r&s'&Hr&_&Hpost).
  - cbn. lia.
  - split; [|split]; [|by rewrite Hin|].
    + unfold refers. rewrite Hin. split_and!; cbn; [unfold NINODE; lia|lia|done].
    + rewrite Hin. unfold disk_inode. change (k_sb t) with (k_sb s). by rewrite Hsb, Hvt.
  - rewrite Hn. destruct root_ok as [A B C]. split; [by apply (file_ok_ext tv)|exact B|exact C].
  - split.
    + intros y. rewrite Hrefs. case_decide; lia.
    + exists [1]. split; [|cbn; unfold NINODE; lia]. intros y. rewrite Hrefs. case_decide; [subst; by left|lia].
  - repeat constructor; lia.
  - rewrite Hn in Hpost. unfold dir_find in Hpost. rewrite (find_entry_ext tv) in Hpost by exact Hvt.
    assert (find_entry tv (tnode 1) (name_of ([46; 46] ++ replicate 12 0)) (Z.to_nat (i_size (tnode 1) / 16)) 0 = Some (16, 1)) as Hf
      by (vm_compute; reflexivity).
    rewrite Hf in Hpost. destruct Hpost as (j&H1&_&H3).
    exact (ex_intro _ t (ex_intro _ r (ex_intro _ s' (conj Hr (ex_intro _ j (conj H1 H3)))))).
Defined.
