(* ===== verification/Pipe.v ===== *)
(** * kernel/pipe.c: pipes

    A pipe is a ring of 512 bytes in a page of its own, with running counts of
    the bytes read and written. [pipealloc], which needs the file table, is in
    File. *)

From S2P Require Import Prelude State Mem Kstring Spinlock Kalloc Vm Proc.

(** ** Model *)

Definition PIPESIZE : Z := 512.

Definition zero_pipe : pipe := Pipe (replicate (Z.to_nat PIPESIZE) 0) 0 0 0 0.

Definition pipe_of (pi : Z) (s : kernel) : pipe := default zero_pipe (k_pipes s !! pi).

Definition on_pipe (pi : Z) (f : pipe → pipe) : M unit :=
  modify (λ s, set_k_pipes (<[pi := f (pipe_of pi s)]> (k_pipes s)) s).

(** [pi->data[nwrite++ % PIPESIZE] = ch]. *)
Definition pipe_put (ch : Z) (p : pipe) : pipe :=
  set_pi_nwrite (u32 (pi_nwrite p + 1))
    (set_pi_data (<[Z.to_nat (pi_nwrite p mod PIPESIZE) := ch]> (pi_data p)) p).

(** [pi->data[nread % PIPESIZE]]. *)
Definition pipe_front (p : pipe) : Z :=
  default 0 (pi_data p !! Z.to_nat (pi_nread p mod PIPESIZE)).

Definition pipe_full (p : pipe) : bool := pi_nwrite p =? u32 (pi_nread p + PIPESIZE).

Section model.
Context `{Image} `{Fuel}.

Definition pipeclose (pi : Z) (writable : bool) : M unit :=
  acquire (L_pipe pi);;
  (if writable then on_pipe pi (set_pi_writeopen 0);; wakeup (Ch_pipe_nread pi)
   else on_pipe pi (set_pi_readopen 0);; wakeup (Ch_pipe_nwrite pi));;
  p ← gets (pipe_of pi);
  if (pi_readopen p =? 0) && (pi_writeopen p =? 0)
  then release (L_pipe pi);; kfree pi
  else release (L_pipe pi).

(** Each round stores a byte or sleeps. [None] when it returned -1, with the
    lock released. *)
Fixpoint pipewrite_loop (k : nat) (pr : nat) (pi addr n i : Z) : M (option Z) :=
  if negb (i <? n) then mret (Some i)
  else
    match k with
    | O => out_of_fuel
    | S k' =>
        p ← gets (pipe_of pi);
        dead ← (if pi_readopen p =? 0 then mret true
                else kl ← killed pr; mret (negb (kl =? 0)));
        if (dead : bool) then release (L_pipe pi);; mret None
        else
          p ← gets (pipe_of pi);
          if pipe_full p then
            wakeup (Ch_pipe_nread pi);;
            sleep (Ch_pipe_nwrite pi) (L_pipe pi);;
            pipewrite_loop k' pr pi addr n i
          else
            pagetable ← gets (λ s, p_pagetable (proc_of pr s));
            r ← copyin pagetable (u64 (addr + i)) 1;
            if r.1 =? -1 then mret (Some i)
            else
              on_pipe pi (pipe_put (default 0 (head r.2)));;
              pipewrite_loop k' pr pi addr n (i + 1)
    end.

Definition pipewrite (pi addr n : Z) : M Z :=
  p ← myproc;
  pr ← deref p;
  acquire (L_pipe pi);;
  r ← pipewrite_loop (Z.to_nat n + fuel) pr pi addr n 0;
  match r with
  | None => mret (-1)
  | Some i => wakeup (Ch_pipe_nread pi);; release (L_pipe pi);; mret i
  end.

(** [while(pi->nread == pi->nwrite && pi->writeopen)]; false when killed, with
    the lock released. *)
Fixpoint piperead_wait (k : nat) (pr : nat) (pi : Z) : M bool :=
  p ← gets (pipe_of pi);
  if (pi_nread p =? pi_nwrite p) && negb (pi_writeopen p =? 0) then
    kl ← killed pr;
    if negb (kl =? 0) then release (L_pipe pi);; mret false
    else
      match k with
      | O => out_of_fuel
      | S k' => sleep (Ch_pipe_nread pi) (L_pipe pi);; piperead_wait k' pr pi
      end
  else mret true.

(** [for(i = 0; i < n; i++)] with [k] bytes to go. *)
Fixpoint piperead_loop (k : nat) (pr : nat) (pi addr i : Z) : M Z :=
  match k with
  | O => mret i
  | S k' =>
      p ← gets (pipe_of pi);
      if pi_nread p =? pi_nwrite p then mret i
      else
        on_pipe pi (set_pi_nread (u32 (pi_nread p + 1)));;
        pagetable ← gets (λ s, p_pagetable (proc_of pr s));
        r ← copyout pagetable (u64 (addr + i)) [pipe_front p];
        if r =? -1 then mret i else piperead_loop k' pr pi addr (i + 1)
  end.

Definition piperead (pi addr n : Z) : M Z :=
  p ← myproc;
  pr ← deref p;
  acquire (L_pipe pi);;
  ok ← piperead_wait fuel pr pi;
  if negb ok then mret (-1)
  else
    i ← piperead_loop (Z.to_nat n) pr pi addr 0;
    wakeup (Ch_pipe_nwrite pi);;
    release (L_pipe pi);;
    mret i.

End model.
