(* ===== verification/PipeSpec.v ===== *)
(** * Pipes are queues (pipe.c)

    [pipe_queue]: the bytes in a pipe, oldest first. Writing appends the bytes
    the user sees at the source address, reading delivers from the front; the
    32-bit counts may wrap around. *)

From S2P Require Import Prelude Ring State Mem Kstring Spinlock Kalloc Vm PageTable VmSpec CopySpec.
From S2P Require Import Proc ProcSpec Pipe.

(** ** Description *)

Definition pipe_ok (p : pipe) : Prop :=
  ring_ok 512 4294967296 (pi_data p) (pi_nread p) (pi_nwrite p).

Definition pipe_queue (p : pipe) : list Z :=
  ring_queue 512 4294967296 (pi_data p) (pi_nread p) (pi_nwrite p).

(** ** The ring *)

Lemma pipe_full_iff p : pipe_ok p → pipe_full p = true ↔ length (pipe_queue p) = 512%nat.
Proof. intros Hp. unfold pipe_full. rewrite Z.eqb_eq. apply (ring_full_iff 512 4294967296); [done..|exact Hp]. Qed.

Lemma pipe_put_ok p ch :
  pipe_ok p → (length (pipe_queue p) < 512)%nat → 0 ≤ ch < 256 →
  pipe_ok (pipe_put ch p) ∧ pipe_queue (pipe_put ch p) = pipe_queue p ++ [ch].
Proof.
  intros Hp Hl Hch. apply (ring_ok_push 512 4294967296); [done..| |done].
  change (Z.of_nat (length (pipe_queue p)) < 512). lia.
Qed.

(** [nread++]. *)
Definition pipe_next (p : pipe) : pipe := set_pi_nread (u32 (pi_nread p + 1)) p.

Lemma pipe_next_ok p :
  pipe_ok p → pi_nread p ≠ pi_nwrite p →
  pipe_ok (pipe_next p) ∧ pipe_queue p = pipe_front p :: pipe_queue (pipe_next p) ∧
  0 ≤ pipe_front p < 256.
Proof.
  intros Hp Hne. destruct (ring_ok_pop 512 4294967296 ltac:(done) ltac:(done) ltac:(done) _ _ _ Hp) as [H1 H2]; [done|].
  split; [exact H1|]. split; [exact H2|]. by apply (ring_front_byte 512 4294967296 _ _ (pi_nwrite p)).
Qed.

(** ** Inside the pipe's lock *)

(** [t] is a state inside the critical section of pipe [pi] entered from [s],
    with changes to the pipe and to memory only. *)
Record inside (me : nat) (pi : Z) (s t : kernel) : Prop := {
  in_locks : k_locks t = k_locks (acquired (L_pipe pi) s);
  in_hart : k_hart t = k_hart (acquired (L_pipe pi) s);
  in_pipes qi : qi ≠ pi → k_pipes t !! qi = k_pipes s !! qi;
  in_frame : t = set_k_hart (k_hart t) (set_k_locks (k_locks t) (set_k_mem (k_mem t)
    (set_k_freelist (k_freelist t) (set_k_pipes (k_pipes t) s))));
}.

Section pipe.
Context {I : Image} {IO : ImageOk I} {FU : Fuel}.
Context (me : nat) (pi root : Z) (sh : gmap (list Z) Z) (l : list Z).

Lemma pipe_of_put p t : pipe_of pi (set_k_pipes (<[pi := p]> (k_pipes t)) t) = p.
Proof. unfold pipe_of. cbn. by rewrite lookup_insert_eq. Qed.

Lemma inside_env s t : env me [] s → inside me pi s t → env me [L_pipe pi] t.
Proof.
  intros He Hin. pose proof (env_acquired me [] (L_pipe pi) s He ltac:(simpl; lia)) as He1.
  apply (env_ext me _ (acquired (L_pipe pi) s)); [done|left; apply Hin|apply Hin|].
  by rewrite (in_frame _ _ _ _ Hin).
Qed.

Lemma inside_procs s t : inside me pi s t → k_procs t = k_procs s.
Proof. intros Hin. by rewrite (in_frame _ _ _ _ Hin). Qed.

Lemma inside_refl s : inside me pi s (acquired (L_pipe pi) s).
Proof. split; [done..|]. unfold acquired, put_lock. kernel_eq. Qed.

Lemma inside_put s t p : inside me pi s t → inside me pi s (set_k_pipes (<[pi := p]> (k_pipes t)) t).
Proof.
  intros [Hl Hh Hp Hf]. split; [done|done| |].
  - intros qi Hne. cbn. rewrite lookup_insert_ne by done. auto.
  - rewrite Hf at 2. done.
Qed.

(** What the address space needs of a state. *)
Lemma uvm_inv_ext s t :
  uvm_inv s root sh l → k_mem t = k_mem s → k_freelist t = k_freelist s → lock_free L_kmem t →
  hart_ok (k_hart t) → uvm_inv t root sh l.
Proof.
  intros [[Hrep [Hl Hnd Hpg _ _] Hdisj] Hpage Hinj] Hm Hf Hlk Hh.
  split; rewrite ?Hm; [split; rewrite ?Hm; [done| |done]|done|done]. split; rewrite ?Hm, ?Hf; done.
Qed.

Lemma uvm_inside s t :
  env me [] s → inside me pi s t → uvm_inv t root sh l →
  ∀ p, uvm_inv (set_k_pipes (<[pi := p]> (k_pipes t)) t) root sh l.
Proof.
  intros He Hin Hu p. apply (uvm_inv_ext t); [done|done|done| |]; apply Hu.
Qed.

Lemma mem_frame_inside s t t' : env me [] s → inside me pi s t → mem_frame t t' → inside me pi s t'.
Proof.
  intros He Hin (h&m&f&->&Hh). pose proof (inside_env s t He Hin) as Het.
  assert (hart_tick (k_hart t) = k_hart t) as Ht.
  { apply hart_tick_noff. rewrite (env_noff _ _ _ Het). done. }
  assert (h = k_hart t) as -> by (destruct Hh as [-> | ->]; done). destruct Hin as [Hl Hhh Hp Hf].
  split; [done|done|done|]. rewrite Hf at 2. done.
Qed.

(** ** Writing *)

Lemma copyin_one t a :
  uvm_inv t root sh l → 0 ≤ a →
  (∃ x, copyin root a 1 t = Ret (0, [x]) t ∧ umem (k_mem t) sh a = Some x) ∨
  (∃ bs, copyin root a 1 t = Ret (-1, bs) t) ∧ umem (k_mem t) sh a = None.
Proof.
  intros Hu Ha. destruct (copyin_loop_ok 1 t root sh l a 1 Hu Ha) as (r&bs&Hr&Hread&Hcase); [lia|].
  change (copyin root a 1 t) with (copyin_loop 1 root a 1 t). rewrite Hr.
  destruct Hcase as [[-> Hl]|(->&Hl&Hn)].
  - left. destruct bs as [|x [|]]; try done. cbn in Hread. exists x. split; [done|].
    destruct (umem (k_mem t) sh a); [|done]. cbn in Hread. by injection Hread as ->.
  - right. split; [by exists bs|]. destruct bs; [|cbn in Hl; lia]. cbn in Hn. by rewrite Z.add_0_r in Hn.
Qed.

Lemma umem_byte t a x : umem (k_mem t) sh a = Some x → 0 ≤ x < 256.
Proof. unfold umem. case_test; [done|]. intros [= <-]. apply ld8_range. Qed.

Definition ready (s t : kernel) : Prop :=
  inside me pi s t ∧ uvm_inv t root sh l ∧ pipe_ok (pipe_of pi t).

Lemma pipewrite_loop_ok s addr n j k t i :
  env me [] s → root = p_pagetable (proc_of me s) → p_killed (proc_of me s) = 0 →
  0 ≤ addr → addr + n < 18446744073709551616 → 0 ≤ i → n - i = Z.of_nat j → (j ≤ k)%nat →
  ready s t → pi_readopen (pipe_of pi t) ≠ 0 → (length (pipe_queue (pipe_of pi t)) + j ≤ 512)%nat →
  ∃ t' bs, pipewrite_loop k me pi addr n i t = Ret (Some (i + Z.of_nat (length bs))) t' ∧
    ready s t' ∧ k_mem t' = k_mem t ∧ pipe_queue (pipe_of pi t') = pipe_queue (pipe_of pi t) ++ bs ∧
    uread (k_mem t) sh (length bs) (addr + i) = Some bs ∧
    (length bs = j ∨ (length bs < j)%nat ∧ umem (k_mem t) sh (addr + i + Z.of_nat (length bs)) = None).
Proof.
  intros He Hroot Hkill Ha Hmax. revert k t i.
  induction j as [|j IH]; intros k t i Hi Hn Hk (Hin&Hu&Hp) Hro Hlen.
  { exists t, []. destruct k; cbn [pipewrite_loop]; rewrite (proj2 (Z.ltb_ge i n)) by lia; cbn;
      rewrite Z.add_0_r, app_nil_r; split_and!; try done; by left. }
  destruct k as [|k]; [lia|]. cbn [pipewrite_loop]. rewrite (proj2 (Z.ltb_lt i n)) by lia. cbn [negb]. rewrite bind_gets, (proj2 (Z.eqb_neq _ _) Hro).
  pose proof (inside_env s t He Hin) as Het. pose proof (inside_procs s t Hin) as Hps.
  assert (proc_of me t = proc_of me s) as Hme by (unfold proc_of; by rewrite Hps).
  assert (tick t = t) as Ht by (by eapply env_tick_id).
  assert (killed me t = Ret 0 t) as Hkl.
  { rewrite (killed_eq me [L_pipe pi]); [|done|by eapply env_me|set_solver]. by rewrite Hme, Hkill, Ht. }
  rewrite (bind_Ret _ _ _ false t) by (by rewrite (bind_Ret _ _ _ _ _ Hkl)).
  rewrite bind_gets. destruct (pipe_full (pipe_of pi t)) eqn:Hfull.
  { apply pipe_full_iff in Hfull; [lia|done]. }
  rewrite bind_gets, Hme, <- Hroot. rewrite (u64_small (addr + i)) by lia.
  destruct (copyin_one t (addr + i) Hu ltac:(lia)) as [(x&Hc&Hx)|[[bs Hc] Hnone]];
    rewrite (bind_Ret _ _ _ _ _ Hc); cbn [fst snd].
  2: { cbn [Z.eqb]. exists t, []. cbn. rewrite Z.add_0_r, app_nil_r. split_and!; try done. right. split; [lia|].
       by rewrite Z.add_0_r. }
  change (0 =? -1) with false. cbv iota. cbn [head default from_option id].
  unfold on_pipe. rewrite bind_modify.
  destruct (pipe_put_ok (pipe_of pi t) x Hp) as [Hp' Hq']; [lia|by eapply umem_byte|].
  set (t1 := set_k_pipes _ t).
  assert (pipe_of pi t1 = pipe_put x (pipe_of pi t)) as Hpt by apply pipe_of_put.
  destruct (IH k t1 (i + 1)) as (t'&bs&Hr&Hrdy&Hm&Hq&Hread&Hend).
  - lia.
  - lia.
  - lia.
  - split_and!; [by apply inside_put|by eapply uvm_inside|by rewrite Hpt].
  - by rewrite Hpt.
  - rewrite Hpt, Hq', length_app. cbn. lia.
  - change (k_mem t1) with (k_mem t) in *. exists t', (x :: bs). split_and!; try done.
    + rewrite Hr. do 2 f_equal. cbn [length]. lia.
    + rewrite Hq, Hpt, Hq', <- app_assoc. done.
    + cbn [length uread]. rewrite Hx. cbn. replace (addr + i + 1) with (addr + (i + 1)) by lia. by rewrite Hread.
    + cbn [length]. replace (addr + i + Z.of_nat (S (length bs))) with (addr + (i + 1) + Z.of_nat (length bs)) by lia.
      destruct Hend as [->|[? ?]]; [by left|right; split; [lia|done]].
Qed.

(** After the loops: wake the other side and leave. *)
Lemma leave_pipe s t ch a :
  env me [] s → lock_free (L_pipe pi) s → inside me pi s t →
  (wakeup ch;; release (L_pipe pi);; mret a : M Z) t =
    Ret a (set_k_locks (k_locks s) (set_k_hart (hart_tick (k_hart s))
      (set_k_procs (woken me ch (k_procs t)) t))).
Proof.
  intros He Hfree Hin. pose proof (inside_env s t He Hin) as Het.
  rewrite (bind_Ret _ _ _ _ _ (wakeup_eq me [L_pipe pi] ch t Het ltac:(set_solver))).
  rewrite tick_set_procs, (env_tick_id me _ _ _ Het).
  rewrite (bind_release (L_pipe pi) s); [done|done|by eapply env_hart|apply Hin|apply Hin].
Qed.

(** What a completed call changes: the pipe, user memory and who is awake. *)
Definition pipe_frame (ch : chan) (s s' : kernel) : Prop :=
  s' = set_k_hart (hart_tick (k_hart s)) (set_k_procs (woken me ch (k_procs s))
    (set_k_mem (k_mem s') (set_k_freelist (k_freelist s') (set_k_pipes (k_pipes s') s)))) ∧
  ∀ qi, qi ≠ pi → k_pipes s' !! qi = k_pipes s !! qi.

Lemma leave_frame s t ch :
  inside me pi (tick s) t →
  pipe_frame ch s (set_k_locks (k_locks (tick s)) (set_k_hart (hart_tick (k_hart (tick s)))
    (set_k_procs (woken me ch (k_procs t)) t))).
Proof.
  intros Hin. split; [|apply Hin]. rewrite (inside_procs _ t Hin), (in_frame _ _ _ _ Hin). unfold tick.
  cbn. rewrite hart_tick_idemp. kernel_eq.
Qed.

Lemma pipewrite_ok s addr n :
  env me [] s → lock_free (L_pipe pi) s → root = p_pagetable (proc_of me s) →
  p_killed (proc_of me s) = 0 → uvm_inv s root sh l → pipe_ok (pipe_of pi s) →
  pi_readopen (pipe_of pi s) ≠ 0 → 0 ≤ addr → 0 ≤ n → addr + n < 18446744073709551616 →
  Z.of_nat (length (pipe_queue (pipe_of pi s))) + n ≤ 512 →
  ∃ s' bs, pipewrite pi addr n s = Ret (Z.of_nat (length bs)) s' ∧ pipe_frame (Ch_pipe_nread pi) s s' ∧
    k_mem s' = k_mem s ∧ pipe_ok (pipe_of pi s') ∧
    pipe_queue (pipe_of pi s') = pipe_queue (pipe_of pi s) ++ bs ∧
    uread (k_mem s) sh (length bs) addr = Some bs ∧
    (Z.of_nat (length bs) = n ∨
     Z.of_nat (length bs) < n ∧ umem (k_mem s) sh (addr + Z.of_nat (length bs)) = None).
Proof.
  intros He Hfree Hroot Hkill Hu Hp Hro Ha Hn Hmax Hroom.
  pose proof (env_tick _ _ _ He) as He1. set (s1 := tick s) in *.
  assert (lock_free (L_pipe pi) s1) as Hfree1 by done.
  pose proof (inside_refl s1) as Hin0. pose proof (inside_env s1 _ He1 Hin0) as He2.
  assert (ready s1 (acquired (L_pipe pi) s1)) as Hrdy.
  { split_and!; [done| |done]. apply (uvm_inv_ext s); [done|done|done| |by eapply env_hart].
    apply (env_locks _ _ _ He2); [done|]. set_solver. }
  destruct (pipewrite_loop_ok s1 addr n (Z.to_nat n) (Z.to_nat n + fuel) (acquired (L_pipe pi) s1) 0)
    as (t&bs&Hr&(Hin&Hu'&Hp')&Hm&Hq&Hread&Hend); try done; try lia.
  { change (pipe_of pi (acquired (L_pipe pi) s1)) with (pipe_of pi s). lia. }
  rewrite Z.add_0_l, Z.add_0_r in *.
  eexists _, bs. split.
  - unfold pipewrite. rewrite (bind_myproc me []) by done. cbn [deref]. rewrite bind_mret.
    rewrite bind_acquire by done. rewrite (bind_Ret _ _ _ _ _ Hr). by apply leave_pipe.
  - split; [by apply leave_frame|]. split_and!; try done.
    + destruct Hend as [->|[? ?]]; [left; lia|right; split; [lia|done]].
Qed.

(** ** Reading *)

Lemma copyout_one t a x :
  uvm_inv t root sh l → 0 ≤ a → 0 ≤ x < 256 →
  ∃ r t', copyout root a [x] t = Ret r t' ∧ uvm_inv t' root sh l ∧ mem_frame t t' ∧
    (r = 0 ∧ (∀ va, 0 ≤ va → umem (k_mem t') sh va = if decide (va = a) then Some x else umem (k_mem t) sh va) ∨
     r = -1 ∧ (∀ va, 0 ≤ va → umem (k_mem t') sh va = umem (k_mem t) sh va) ∧ umem (k_mem t) sh a = None).
Proof.
  intros Hu Ha Hx.
  destruct (copyout_loop_ok 2 t root sh l a [x]) as (r&t'&k&Hr&Hu'&Hf&Hk&_&_&Hm&Hcase); [done|done|by constructor|cbn; lia|].
  exists r, t'. split_and!; [exact Hr|done|done|]. cbn [length] in Hcase.
  destruct Hcase as [[-> ->]|(->&Hk1&Hn)]; [left|right].
  - split; [done|]. intros va Hva. rewrite Hm by done.
    destruct (decide (va = a)) as [->|]; [rewrite decide_True by lia; by rewrite Z.sub_diag|by rewrite decide_False by lia].
  - assert (k = 0) as -> by lia. rewrite Z.add_0_r in *. split_and!; [done| |done].
    intros va Hva. rewrite Hm by done. by rewrite decide_False by lia.
Qed.

(** User memory with the bytes [bs] at [a]. *)
Definition delivered (m m' : gmap Z Z) (a : Z) (bs : list Z) : Prop :=
  ∀ va, 0 ≤ va → umem m' sh va =
    if decide (a ≤ va < a + Z.of_nat (length bs)) then bs !! Z.to_nat (va - a) else umem m sh va.

Lemma piperead_loop_ok s addr k t i :
  env me [] s → root = p_pagetable (proc_of me s) → 0 ≤ addr → 0 ≤ i →
  addr + i + Z.of_nat k < 18446744073709551616 → ready s t →
  ∃ t' bs rest, piperead_loop k me pi addr i t = Ret (i + Z.of_nat (length bs)) t' ∧ ready s t' ∧
    pipe_queue (pipe_of pi t) = bs ++ rest ∧ (length bs ≤ k)%nat ∧
    delivered (k_mem t) (k_mem t') (addr + i) bs ∧
    (pipe_queue (pipe_of pi t') = rest ∧ (length bs = k ∨ rest = []) ∨
     pipe_queue (pipe_of pi t') = drop 1 rest ∧ rest ≠ [] ∧ (length bs < k)%nat ∧
       umem (k_mem t) sh (addr + i + Z.of_nat (length bs)) = None).
Proof.
  intros He Hroot Ha. revert t i. induction k as [|k IH]; intros t i Hi Hmax (Hin&Hu&Hp); cbn [piperead_loop].
  { exists t, [], (pipe_queue (pipe_of pi t)). cbn. rewrite Z.add_0_r. split_and!; try done; [|left; auto].
    intros va Hva. rewrite decide_False by (cbn; lia). done. }
  rewrite bind_gets. destruct (pi_nread (pipe_of pi t) =? pi_nwrite (pipe_of pi t)) eqn:Hempty.
  { exists t, [], []. apply Z.eqb_eq in Hempty. destruct Hp as [? ? Hr Hw ?].
    assert (pipe_queue (pipe_of pi t) = []) as Hq by (apply (ring_empty 512 4294967296); lia || done).
    cbn. rewrite Z.add_0_r. split_and!; try done; [lia| |left; auto].
    intros va Hva. rewrite decide_False by (cbn; lia). done. }
  apply Z.eqb_neq in Hempty. destruct (pipe_next_ok (pipe_of pi t) Hp Hempty) as (Hp1&Hq1&Hfr).
  pose proof (inside_procs s t Hin) as Hps.
  assert (proc_of me t = proc_of me s) as Hme by (unfold proc_of; by rewrite Hps).
  unfold on_pipe. rewrite bind_modify, bind_gets.
  change (set_pi_nread _ (pipe_of pi t)) with (pipe_next (pipe_of pi t)).
  set (t1 := set_k_pipes _ t). assert (pipe_of pi t1 = pipe_next (pipe_of pi t)) as Hpt by apply pipe_of_put.
  change (proc_of me t1) with (proc_of me t). rewrite Hme, <- Hroot, (u64_small (addr + i)) by lia.
  assert (inside me pi s t1) as Hin1 by (by apply inside_put).
  destruct (copyout_one t1 (addr + i) (pipe_front (pipe_of pi t))) as (r&t2&Hr&Hu2&Hf2&Hcase);
    [by eapply uvm_inside|lia|done|].
  rewrite (bind_Ret _ _ _ _ _ Hr). pose proof (mem_frame_inside s t1 t2 He Hin1 Hf2) as Hin2.
  assert (pipe_of pi t2 = pipe_next (pipe_of pi t)) as Hpt2.
  { rewrite <- Hpt. destruct Hf2 as (h&m&f&->&_). done. }
  change (k_mem t1) with (k_mem t) in *.
  destruct Hcase as [[-> Hm]|(->&Hm&Hnone)]; cbn [Z.eqb].
  - destruct (IH t2 (i + 1)) as (t'&bs&rest&Hr'&Hrdy&Hq&Hlen&Hdel&Hend); [lia|lia|by split_and!; rewrite ?Hpt2|].
    replace (addr + (i + 1)) with (addr + i + 1) in * by lia.
    exists t', (pipe_front (pipe_of pi t) :: bs), rest. split_and!; try done.
    + rewrite Hr'. f_equal. cbn [length]. lia.
    + rewrite Hq1, <- Hpt2, Hq. done.
    + cbn. lia.
    + intros va Hva. rewrite Hdel by done. cbn [length]. destruct (decide (addr + i + 1 ≤ va < _)).
      * rewrite decide_True by lia. replace (Z.to_nat (va - (addr + i))) with (S (Z.to_nat (va - (addr + i + 1)))) by lia. done.
      * rewrite Hm by done. destruct (decide (va = addr + i)) as [->|].
        -- rewrite decide_True by lia. by rewrite Z.sub_diag.
        -- by rewrite decide_False by lia.
    + cbn [length]. destruct Hend as [[-> [->| ->]]|(->&?&?&Hn)]; [left; auto..|right].
      split_and!; [done|done|lia|]. rewrite Hm in Hn by lia. rewrite decide_False in Hn by lia.
      rewrite <- Hn. f_equal. lia.
  - exists t2, [], (pipe_queue (pipe_of pi t)). cbn [length app]. rewrite Z.add_0_r. split_and!; try done.
    + split_and!; [done|done|by rewrite Hpt2].
    + lia.
    + intros va Hva. rewrite Hm by done. rewrite decide_False by (cbn; lia). done.
    + right. rewrite Hpt2, Hq1. cbn. rewrite Z.add_0_r. split_and!; try done. lia.
Qed.

Lemma piperead_ok s addr n :
  env me [] s → lock_free (L_pipe pi) s → root = p_pagetable (proc_of me s) →
  uvm_inv s root sh l → pipe_ok (pipe_of pi s) →
  pipe_queue (pipe_of pi s) ≠ [] ∨ pi_writeopen (pipe_of pi s) = 0 →
  0 ≤ addr → 0 ≤ n → addr + n < 18446744073709551616 →
  ∃ s' bs rest, piperead pi addr n s = Ret (Z.of_nat (length bs)) s' ∧
    pipe_frame (Ch_pipe_nwrite pi) s s' ∧ pipe_ok (pipe_of pi s') ∧
    pipe_queue (pipe_of pi s) = bs ++ rest ∧ Z.of_nat (length bs) ≤ n ∧
    delivered (k_mem s) (k_mem s') addr bs ∧
    (pipe_queue (pipe_of pi s') = rest ∧ (Z.of_nat (length bs) = n ∨ rest = []) ∨
     pipe_queue (pipe_of pi s') = drop 1 rest ∧ rest ≠ [] ∧ Z.of_nat (length bs) < n ∧
       umem (k_mem s) sh (addr + Z.of_nat (length bs)) = None).
Proof.
  intros He Hfree Hroot Hu Hp Hdata Ha Hn Hmax.
  pose proof (env_tick _ _ _ He) as He1. set (s1 := tick s) in *.
  assert (lock_free (L_pipe pi) s1) as Hfree1 by done.
  pose proof (inside_refl s1) as Hin0. pose proof (inside_env s1 _ He1 Hin0) as He2.
  set (t0 := acquired (L_pipe pi) s1) in *.
  assert (ready s1 t0) as Hrdy.
  { split_and!; [done| |done]. apply (uvm_inv_ext s); [done|done|done| |by eapply env_hart].
    apply (env_locks _ _ _ He2); [done|]. set_solver. }
  destruct (piperead_loop_ok s1 addr (Z.to_nat n) t0 0)
    as (t&bs&rest&Hr&(Hin&Hu'&Hp')&Hq&Hlen&Hdel&Hend); try done; try lia.
  rewrite Z.add_0_l, Z.add_0_r in *.
  assert (∀ k, piperead_wait k me pi t0 = Ret true t0) as Hwait.
  { intros k. assert ((pi_nread (pipe_of pi t0) =? pi_nwrite (pipe_of pi t0)) &&
      negb (pi_writeopen (pipe_of pi t0) =? 0) = false) as Hc.
    { change (pipe_of pi t0) with (pipe_of pi s). destruct Hdata as [Hd| ->]; [|by rewrite andb_false_r].
      destruct Hp as [? ? Hr' Hw' ?]. destruct (Z.eqb_spec (pi_nread (pipe_of pi s)) (pi_nwrite (pipe_of pi s))); [|done].
      destruct Hd. apply (ring_empty 512 4294967296); lia || done. }
    destruct k; cbn [piperead_wait]; rewrite bind_gets, Hc; done. }
  eexists _, bs, rest. split.
  - unfold piperead. rewrite (bind_myproc me []) by done. cbn [deref]. rewrite bind_mret.
    rewrite bind_acquire by done. rewrite (bind_Ret _ _ _ _ _ (Hwait fuel)). cbn [negb].
    rewrite (bind_Ret _ _ _ _ _ Hr). by apply leave_pipe.
  - split; [by apply leave_frame|]. split_and!; try done; [lia|].
    destruct Hend as [[E [?| ?]]|(E&?&?&?)]; [left|left|right]; (split; [exact E|]); [left; lia|by right|].
    split_and!; [done|lia|done].
Qed.

End pipe.

(** ** The pipe's contract *)

Section contract.
Context {I : Image} {IO : ImageOk I} {FU : Fuel}.
Context (me : nat) (pi root : Z) (sh : gmap (list Z) Z) (l : list Z).

(** C28: [pipewrite] of [n] bytes that fit appends to the queue the bytes the
    caller sees at [addr] and returns how many: all [n], or those before the
    first address the caller cannot access. It does not sleep, wakes the
    readers, and changes nothing else. *)
Theorem pipewrite_correct s addr n :
  env me [] s → lock_free (L_pipe pi) s → root = p_pagetable (proc_of me s) →
  p_killed (proc_of me s) = 0 → uvm_inv s root sh l → pipe_ok (pipe_of pi s) →
  pi_readopen (pipe_of pi s) ≠ 0 → 0 ≤ addr → 0 ≤ n → addr + n < 18446744073709551616 →
  Z.of_nat (length (pipe_queue (pipe_of pi s))) + n ≤ 512 →
  ∃ s' bs, pipewrite pi addr n s = Ret (Z.of_nat (length bs)) s' ∧
    pipe_frame me pi (Ch_pipe_nread pi) s s' ∧ k_mem s' = k_mem s ∧ pipe_ok (pipe_of pi s') ∧
    pipe_queue (pipe_of pi s') = pipe_queue (pipe_of pi s) ++ bs ∧
    uread (k_mem s) sh (length bs) addr = Some bs ∧
    (Z.of_nat (length bs) = n ∨
     Z.of_nat (length bs) < n ∧ umem (k_mem s) sh (addr + Z.of_nat (length bs)) = None).
Proof. exact (pipewrite_ok me pi root sh l s addr n). Qed.

(** C29: [piperead] from a pipe with data, or with no writer left, takes bytes
    from the front of the queue and the caller then sees them at [addr]: up to
    [n] of them or all there are. Only when the caller cannot access the next
    address does it stop early, and then the byte it was about to deliver is
    gone from the pipe. *)
Theorem piperead_correct s addr n :
  env me [] s → lock_free (L_pipe pi) s → root = p_pagetable (proc_of me s) →
  uvm_inv s root sh l → pipe_ok (pipe_of pi s) →
  pipe_queue (pipe_of pi s) ≠ [] ∨ pi_writeopen (pipe_of pi s) = 0 →
  0 ≤ addr → 0 ≤ n → addr + n < 18446744073709551616 →
  ∃ s' bs rest, piperead pi addr n s = Ret (Z.of_nat (length bs)) s' ∧
    pipe_frame me pi (Ch_pipe_nwrite pi) s s' ∧ pipe_ok (pipe_of pi s') ∧
    pipe_queue (pipe_of pi s) = bs ++ rest ∧ Z.of_nat (length bs) ≤ n ∧
    delivered sh (k_mem s) (k_mem s') addr bs ∧
    (pipe_queue (pipe_of pi s') = rest ∧ (Z.of_nat (length bs) = n ∨ rest = []) ∨
     pipe_queue (pipe_of pi s') = drop 1 rest ∧ rest ≠ [] ∧ Z.of_nat (length bs) < n ∧
       umem (k_mem s) sh (addr + Z.of_nat (length bs)) = None).
Proof. exact (piperead_ok me pi root sh l s addr n). Qed.

End contract.

(** ** Examples *)

(** The running kernel with the address space of the page table example and a
    pipe at 7 holding three bytes, its counts about to wrap around. *)
Definition piped_kernel : kernel :=
  set_k_locks (<[L_pipe 7 := Spinlock "pipe" 0 None]> (k_locks running_kernel))
    (set_k_pipes {[7 := Pipe (replicate 512 65) 4294967294 1 1 1]}
      (set_k_procs (alter (set_p_pagetable 0x80200000) 0%nat (k_procs running_kernel))
        (set_k_mem (k_mem demo) (set_k_freelist (k_freelist demo) running_kernel)))).

Lemma piped_env : env 0 [] piped_kernel.
Proof.
  pose proof running_env as [H1 H2 H3 H4 H5 H6 H7]. split; try done.
  intros l Hk Hn. destruct (H7 l Hk Hn) as [name Hl]. exists name. unfold piped_kernel. cbn.
  rewrite lookup_insert_ne; [done|]. by intros <-.
Qed.

Lemma piped_uvm : @uvm_inv image0 piped_kernel 0x80200000 demo_sh [0x80100000].
Proof.
  apply (uvm_inv_ext 0x80200000 demo_sh [0x80100000] demo); [apply demo_uvm_inv|done|done| |].
  - apply (env_free 0); [apply piped_env|done].
  - apply piped_env.
Qed.

Lemma piped_ok : pipe_ok (pipe_of 7 piped_kernel) ∧ pipe_queue (pipe_of 7 piped_kernel) = [65; 65; 65].
Proof.
  split; [|vm_compute; reflexivity]. split; try done. by apply Forall_replicate.
Qed.

Lemma pipewrite_correct_witness :
  ∃ r s', @pipewrite 5%nat 7 10 3 piped_kernel = Ret r s'.
Proof.
  destruct (@pipewrite_correct image0 image0_ok 5%nat 0 7 0x80200000 demo_sh [0x80100000] piped_kernel 10 3)
    as (s'&bs&Hr&_).
  - apply piped_env.
  - exists "pipe"%string. vm_compute. reflexivity.
  - reflexivity.
  - reflexivity.
  - apply piped_uvm.
  - apply piped_ok.
  - vm_compute. discriminate.
  - lia.
  - lia.
  - lia.
  - destruct piped_ok as [_ ->]. cbn. lia.
  - eexists _, s'. exact Hr.
Defined.

Lemma piperead_correct_witness :
  ∃ r s', @piperead 5%nat 7 10 2 piped_kernel = Ret r s'.
Proof.
  destruct (@piperead_correct image0 image0_ok 5%nat 0 7 0x80200000 demo_sh [0x80100000] piped_kernel 10 2)
    as (s'&bs&rest&Hr&_).
  - apply piped_env.
  - exists "pipe"%string. vm_compute. reflexivity.
  - reflexivity.
  - apply piped_uvm.
  - apply piped_ok.
  - left. destruct piped_ok as [_ ->]. discriminate.
  - lia.
  - lia.
  - lia.
  - eexists _, s'. exact Hr.
Defined.
