(* ===== verification/File.v ===== *)
(** * kernel/file.c and pipe.c's pipealloc: open files *)

From S2P Require Import Prelude State Mem Kstring Spinlock Kalloc Vm Proc Uart Printf Console.
From S2P Require Import Sleeplock Bio Log Fs Pipe.

(** ** Model *)

Definition file_of (f : nat) (s : kernel) : file := default zero_file (k_files s !! f).

Definition on_file (f : nat) (g : file → file) : M unit :=
  modify (λ s, set_k_files (alter g f (k_files s)) s).

Section model.
Context `{Image} `{Fuel} `{Disk} `{Mmio}.

Definition fileinit : M unit := initlock L_ftable "ftable".

Fixpoint filealloc_loop (l : list nat) : M (option nat) :=
  match l with
  | [] => release L_ftable;; mret None
  | f :: l' =>
      ref ← gets (λ s, f_ref (file_of f s));
      if ref =? 0 then on_file f (set_f_ref 1);; release L_ftable;; mret (Some f)
      else filealloc_loop l'
  end.

Definition filealloc : M (option nat) := acquire L_ftable;; filealloc_loop (seq 0 NFILE).

Definition filedup (f : nat) : M nat :=
  acquire L_ftable;;
  ref ← gets (λ s, f_ref (file_of f s));
  if ref <? 1 then panic "filedup"
  else on_file f (set_f_ref (i32 (ref + 1)));; release L_ftable;; mret f.

Definition fileclose (f : nat) : M unit :=
  acquire L_ftable;;
  ref ← gets (λ s, f_ref (file_of f s));
  if ref <? 1 then panic "fileclose"
  else
    on_file f (set_f_ref (ref - 1));;
    if 0 <? ref - 1 then release L_ftable
    else
      ff ← gets (file_of f);
      on_file f (set_f_ref 0);;
      on_file f (set_f_type FD_NONE);;
      release L_ftable;;
      match f_type ff with
      | FD_PIPE => pipeclose (f_pipe ff) (negb (f_writable ff =? 0))
      | FD_INODE | FD_DEVICE =>
          begin_op;;
          ip ← deref (f_ip ff);
          iput ip;;
          end_op
      | FD_NONE => mret tt
      end.

Definition filestat (f : nat) (addr : Z) : M Z :=
  p ← myproc;
  ff ← gets (file_of f);
  match f_type ff with
  | FD_INODE | FD_DEVICE =>
      ilock (f_ip ff);;
      ip ← deref (f_ip ff);
      st ← stati ip;
      iunlock (f_ip ff);;
      i ← deref p;
      pagetable ← gets (λ s, p_pagetable (proc_of i s));
      r ← copyout pagetable addr st;
      if r <? 0 then mret (-1) else mret 0
  | _ => mret (-1)
  end.

(** [devsw[major]] when [major] is in range and the entry is set. *)
Definition device (major : Z) (s : kernel) : option devid :=
  if (major <? 0) || (NDEV <=? major) then None else mjoin (k_devsw s !! Z.to_nat major).

Definition fileread (f : nat) (addr n : Z) : M Z :=
  ff ← gets (file_of f);
  if f_readable ff =? 0 then mret (-1)
  else
    match f_type ff with
    | FD_PIPE => piperead (f_pipe ff) addr n
    | FD_DEVICE =>
        d ← gets (device (f_major ff));
        match d with None => mret (-1) | Some Dev_console => consoleread true addr n end
    | FD_INODE =>
        ilock (f_ip ff);;
        ip ← deref (f_ip ff);
        off ← gets (λ s, f_off (file_of f s));
        r ← readi ip true addr off (u32 n);
        when (0 <? r) (on_file f (λ ff, set_f_off (u32 (f_off ff + r)) ff));;
        iunlock (f_ip ff);;
        mret r
    | FD_NONE => panic "fileread"
    end.

(** [((MAXOPBLOCKS-1-1-2) / 2) * BSIZE]. *)
Definition write_max : Z := (MAXOPBLOCKS - 1 - 1 - 2) / 2 * BSIZE.

(** The loop of [filewrite]: the number of bytes written before it stopped. *)
Fixpoint filewrite_loop (k : nat) (f : nat) (addr n i : Z) : M Z :=
  if negb (i <? n) then mret i
  else
    match k with
    | O => out_of_fuel
    | S k' =>
        let n1 := if write_max <? n - i then write_max else n - i in
        begin_op;;
        ff ← gets (file_of f);
        ilock (f_ip ff);;
        ip ← deref (f_ip ff);
        off ← gets (λ s, f_off (file_of f s));
        r ← writei ip true (u64 (addr + i)) off n1;
        when (0 <? r) (on_file f (λ ff, set_f_off (u32 (f_off ff + r)) ff));;
        iunlock (f_ip ff);;
        end_op;;
        if negb (r =? n1) then mret i else filewrite_loop k' f addr n (i + r)
    end.

Definition filewrite (f : nat) (addr n : Z) : M Z :=
  ff ← gets (file_of f);
  if f_writable ff =? 0 then mret (-1)
  else
    match f_type ff with
    | FD_PIPE => pipewrite (f_pipe ff) addr n
    | FD_DEVICE =>
        d ← gets (device (f_major ff));
        match d with None => mret (-1) | Some Dev_console => consolewrite true addr n end
    | FD_INODE =>
        i ← filewrite_loop (S (Z.to_nat (n / write_max))) f addr n 0;
        mret (if i =? n then n else -1)
    | FD_NONE => panic "filewrite"
    end.

(** [pipealloc]: the two files, or [None] for -1. The pipe starts with what
    the page held. *)
Definition pipealloc : M (option (nat * nat)) :=
  f0 ← filealloc;
  match f0 with
  | None => mret None
  | Some f0 =>
      f1 ← filealloc;
      match f1 with
      | None => fileclose f0;; mret None
      | Some f1 =>
          pi ← kalloc;
          if pi =? 0 then fileclose f0;; fileclose f1;; mret None
          else
            d ← gets (λ s, ld_bytes (Z.to_nat PIPESIZE) (k_mem s) (pi + 24));
            modify (λ s, set_k_pipes (<[pi := Pipe d 0 0 1 1]> (k_pipes s)) s);;
            initlock (L_pipe pi) "pipe";;
            on_file f0 (λ ff, set_f_pipe pi (set_f_writable 0 (set_f_readable 1 (set_f_type FD_PIPE ff))));;
            on_file f1 (λ ff, set_f_pipe pi (set_f_writable 1 (set_f_readable 0 (set_f_type FD_PIPE ff))));;
            mret (Some (f0, f1))
      end
  end.

End model.
