(* ===== verification/Exec.v ===== *)
(** * kernel/exec.c and the argument fetching of syscall.c *)

From S2P Require Import Prelude State Mem Kstring Spinlock Kalloc Vm Proc Uart Printf Console.
From S2P Require Import Sleeplock Bio Log Fs Pipe File.

(** ** Model *)

(** Fields of [struct elfhdr] and [struct proghdr]. *)
Definition ELF_MAGIC : Z := 0x464C457F.
Definition ELF_PROG_LOAD : Z := 1.
Definition sizeof_elfhdr : Z := 64.
Definition sizeof_proghdr : Z := 56.

Record elfhdr : Type := Elfhdr { elf_magic : Z; elf_entry : Z; elf_phoff : Z; elf_phnum : Z }.

Record proghdr : Type := Proghdr {
  ph_type : Z; ph_flags : Z; ph_off : Z; ph_vaddr : Z; ph_filesz : Z; ph_memsz : Z
}.

Definition get_elfhdr (m : gmap Z Z) (a : Z) : elfhdr :=
  Elfhdr (ld32 m a) (ld64 m (a + 24)) (ld64 m (a + 32)) (ld16 m (a + 56)).

Definition get_proghdr (m : gmap Z Z) (a : Z) : proghdr :=
  Proghdr (ld32 m a) (ld32 m (a + 4)) (ld64 m (a + 8)) (ld64 m (a + 16)) (ld64 m (a + 32))
    (ld64 m (a + 40)).

Definition flags2perm (flags : Z) : Z :=
  let perm := if negb (Z.land flags 0x1 =? 0) then PTE_X else 0 in
  if negb (Z.land flags 0x2 =? 0) then Z.lor perm PTE_W else perm.

(** What follows the last slash of a path. *)
Fixpoint basename_from (last path : list Z) : list Z :=
  match path with
  | [] => last
  | c :: path' => basename_from (if c =? 47 then path' else last) path'
  end.

Definition basename (path : list Z) : list Z := basename_from path path.

(** The bytes [safestrcpy(s, t, n)] leaves in a buffer that held [old]. *)
Definition safestrcpy_bytes (old t : list Z) (n : nat) : list Z :=
  let k := min (length t) (n - 1) in
  splice old 0 (take k t ++ [0]).

Section model.
Context `{Image} `{Fuel} `{Disk} `{Mmio}.

(** ** System call arguments (syscall.c) *)

(** The word at [addr] of the user program, or [None] for -1. *)
Definition fetchaddr (addr : Z) : M (option Z) :=
  p ← myproc;
  i ← deref p;
  pr ← gets (proc_of i);
  if (p_sz pr <=? addr) || (p_sz pr <? u64 (addr + 8)) then mret None
  else
    r ← copyin (p_pagetable pr) addr 8;
    mret (if negb (r.1 =? 0) then None else Some (of_le r.2)).

(** The bytes stored in [buf], and whether the result is not -1. *)
Definition fetchstr (addr max : Z) : M (bool * list Z) :=
  p ← myproc;
  i ← deref p;
  pagetable ← gets (λ s, p_pagetable (proc_of i s));
  r ← copyinstr pagetable addr max;
  mret (negb (r.1 <? 0), r.2).

(** Argument registers [a0] to [a5] of the trapframe. *)
Definition argraw (n : Z) : M Z :=
  p ← myproc;
  i ← deref p;
  if (0 <=? n) && (n <=? 5) then
    tf ← gets (λ s, p_trapframe (proc_of i s));
    load64 (tf + tf_a0 + 8 * n)
  else panic "argraw".

Definition argint (n : Z) : M Z := x ← argraw n; mret (i32 x).

Definition argaddr (n : Z) : M Z := argraw n.

(** The string, without its NUL, or [None] for -1. *)
Definition argstr (n max : Z) : M (option (list Z)) :=
  addr ← argaddr n;
  r ← fetchstr addr max;
  mret (if (r.1 : bool) then Some (cstr r.2) else None).

(** ** exec *)

(** [for(i = 0; i < sz; i += PGSIZE)] from [i]; false is -1. *)
Fixpoint loadseg_loop (k : nat) (pagetable va : Z) (ip : nat) (offset sz i : Z) : M bool :=
  if negb (i <? sz) then mret true
  else
    match k with
    | O => out_of_fuel
    | S k' =>
        pa ← walkaddr pagetable (u64 (va + i));
        if pa =? 0 then panic "loadseg: address should exist"
        else
          let n := if sz - i <? PGSIZE then sz - i else PGSIZE in
          r ← readi ip false pa (u32 (offset + i)) n;
          if negb (u32 r =? n) then mret false
          else loadseg_loop k' pagetable va ip offset sz (u32 (i + PGSIZE))
    end.

Definition loadseg (pagetable va : Z) (ip : nat) (offset sz : Z) : M bool :=
  loadseg_loop (S (Z.to_nat (sz / PGSIZE))) pagetable va ip offset sz 0.

(** The [bad] label. *)
Definition exec_bad (pagetable sz : Z) (ip : option nat) : M Z :=
  when (negb (pagetable =? 0)) (proc_freepagetable pagetable sz);;
  (match ip with Some i => iunlockput i;; end_op | None => mret tt end);;
  mret (-1).

(** Load the program segments, [k] of them left: the size reached and whether
    all went well. *)
Fixpoint exec_segments (k : nat) (pagetable : Z) (ip : nat) (off sz : Z) : M (bool * Z) :=
  match k with
  | O => mret (true, sz)
  | S k' =>
      r ← readi ip false image_local (u32 off) sizeof_proghdr;
      if negb (r =? sizeof_proghdr) then mret (false, sz)
      else
        ph ← gets (λ s, get_proghdr (k_mem s) image_local);
        let next := i32 (off + sizeof_proghdr) in
        if negb (ph_type ph =? ELF_PROG_LOAD) then exec_segments k' pagetable ip next sz
        else if ph_memsz ph <? ph_filesz ph then mret (false, sz)
        else if u64 (ph_vaddr ph + ph_memsz ph) <? ph_vaddr ph then mret (false, sz)
        else if negb (ph_vaddr ph mod PGSIZE =? 0) then mret (false, sz)
        else
          sz1 ← uvmalloc pagetable sz (u64 (ph_vaddr ph + ph_memsz ph)) (flags2perm (ph_flags ph));
          if sz1 =? 0 then mret (false, sz)
          else
            ok ← loadseg pagetable (ph_vaddr ph) ip (u32 (ph_off ph)) (u32 (ph_filesz ph));
            if negb ok then mret (false, sz1) else exec_segments k' pagetable ip next sz1
  end.

(** The string an argument pointer refers to. *)
Definition arg_string (p : Z) : M (list Z) :=
  gets (λ s, cstr (ld_bytes (Z.to_nat PGSIZE) (k_mem s) p)).

(** Push the argument strings: the stack pointer and [ustack], or [None]. *)
Fixpoint push_args (argv : list Z) (pagetable sp stackbase : Z) (argc : nat) (ustack : list Z)
    : M (option (Z * list Z)) :=
  match argv with
  | [] => mret (Some (sp, ustack))
  | p :: argv' =>
      if decide (MAXARG ≤ argc)%nat then mret None
      else
        str ← arg_string p;
        let sp := u64 (sp - (Z.of_nat (length str) + 1)) in
        let sp := sp - sp mod 16 in
        if sp <? stackbase then mret None
        else
          r ← copyout pagetable sp (str ++ [0]);
          if r <? 0 then mret None
          else push_args argv' pagetable sp stackbase (S argc) (ustack ++ [sp])
  end.

(** From the end of the segments to the switch to the new image. [argv] are the
    non-null argument pointers. *)
Definition exec_commit (me : nat) (path argv : list Z) (elf : elfhdr) (pagetable sz : Z) : M Z :=
  oldsz ← gets (λ s, p_sz (proc_of me s));
  let sz := PGROUNDUP sz in
  sz1 ← uvmalloc pagetable sz (u64 (sz + 2 * PGSIZE)) PTE_W;
  if sz1 =? 0 then exec_bad pagetable sz None
  else
    let sz := sz1 in
    uvmclear pagetable (u64 (sz - 2 * PGSIZE));;
    let stackbase := u64 (sz - PGSIZE) in
    args ← push_args argv pagetable sz stackbase 0 [];
    match args with
    | None => exec_bad pagetable sz None
    | Some (sp, ustack) =>
        let argc := Z.of_nat (length argv) in
        let sp := u64 (sp - (argc + 1) * 8) in
        let sp := sp - sp mod 16 in
        if sp <? stackbase then exec_bad pagetable sz None
        else
          r ← copyout pagetable sp (mjoin (map (to_le 8) (ustack ++ [0])));
          if r <? 0 then exec_bad pagetable sz None
          else
            tf ← gets (λ s, p_trapframe (proc_of me s));
            store64 (tf + tf_a1) sp;;
            on_proc me (λ p, set_p_name (safestrcpy_bytes (p_name p) (basename path) 16) p);;
            oldpagetable ← gets (λ s, p_pagetable (proc_of me s));
            on_proc me (set_p_pagetable pagetable);;
            on_proc me (set_p_sz sz);;
            store64 (tf + tf_epc) (elf_entry elf);;
            store64 (tf + tf_sp) sp;;
            proc_freepagetable oldpagetable oldsz;;
            mret argc
    end.

Definition exec (path : list Z) (argv : list Z) : M Z :=
  p ← myproc;
  begin_op;;
  ip ← namei path;
  match ip with
  | None => end_op;; mret (-1)
  | Some ip =>
      ilock (Some ip);;
      r ← readi ip false image_local 0 sizeof_elfhdr;
      if negb (r =? sizeof_elfhdr) then exec_bad 0 0 (Some ip)
      else
        elf ← gets (λ s, get_elfhdr (k_mem s) image_local);
        if negb (elf_magic elf =? ELF_MAGIC) then exec_bad 0 0 (Some ip)
        else
          me ← deref p;
          pagetable ← proc_pagetable me;
          if pagetable =? 0 then exec_bad 0 0 (Some ip)
          else
            r ← exec_segments (Z.to_nat (elf_phnum elf)) pagetable ip (i32 (elf_phoff elf)) 0;
            if negb r.1 then exec_bad pagetable r.2 (Some ip)
            else
              iunlockput ip;;
              end_op;;
              p ← myproc;
              me ← deref p;
              exec_commit me path argv elf pagetable r.2
  end.

End model.
