(* ===== verification/ProcLife.v ===== *)
(** * kernel/proc.c: the life of a process

    Creation of the first process, fork, exit, wait and the scheduler. *)

From S2P Require Import Prelude State Mem Kstring Spinlock Kalloc Vm Proc Uart Printf Console.
From S2P Require Import Sleeplock Bio Log Fs Pipe File Exec.

(** ** Model *)

Definition initcode : list Z := [
  0x17; 0x05; 0x00; 0x00; 0x13; 0x05; 0x45; 0x02;
  0x97; 0x05; 0x00; 0x00; 0x93; 0x85; 0x35; 0x02;
  0x93; 0x08; 0x70; 0x00; 0x73; 0x00; 0x00; 0x00;
  0x93; 0x08; 0x20; 0x00; 0x73; 0x00; 0x00; 0x00;
  0xef; 0xf0; 0x9f; 0xff; 0x2f; 0x69; 0x6e; 0x69;
  0x74; 0x00; 0x00; 0x24; 0x00; 0x00; 0x00; 0x00;
  0x00; 0x00; 0x00; 0x00 ].

Section model.
Context `{Image} `{Fuel} `{Disk} `{Mmio}.

Definition userinit : M unit :=
  p ← allocproc;
  modify (set_k_initproc p);;
  i ← deref p;
  pagetable ← gets (λ s, p_pagetable (proc_of i s));
  uvmfirst pagetable initcode;;
  on_proc i (set_p_sz PGSIZE);;
  tf ← gets (λ s, p_trapframe (proc_of i s));
  store64 (tf + tf_epc) 0;;
  store64 (tf + tf_sp) PGSIZE;;
  on_proc i (λ p, set_p_name (safestrcpy_bytes (p_name p) (str_bytes "initcode") 16) p);;
  cwd ← namei (str_bytes "/");
  on_proc i (set_p_cwd cwd);;
  on_proc i (set_p_state RUNNABLE);;
  release (L_proc i).

(** Copy the open files and the current directory of [i] to [np]. *)
Definition fork_files (i np : nat) : M unit :=
  for_each (seq 0 NOFILE) (λ fd,
    f ← gets (λ s, mjoin (p_ofile (proc_of i s) !! fd));
    match f with
    | Some f => f' ← filedup f; on_proc np (λ p, set_p_ofile (<[fd := Some f']> (p_ofile p)) p)
    | None => mret tt
    end);;
  cwd ← gets (λ s, p_cwd (proc_of i s));
  cwd ← deref cwd;
  cwd' ← idup cwd;
  on_proc np (set_p_cwd (Some cwd')).

Definition fork : M Z :=
  p ← myproc;
  np ← allocproc;
  match np with
  | None => mret (-1)
  | Some np =>
      i ← deref p;
      pt ← gets (λ s, p_pagetable (proc_of i s));
      npt ← gets (λ s, p_pagetable (proc_of np s));
      sz ← gets (λ s, p_sz (proc_of i s));
      r ← uvmcopy pt npt sz;
      if r <? 0 then freeproc np;; release (L_proc np);; mret (-1)
      else
        on_proc np (set_p_sz sz);;
        tf ← gets (λ s, p_trapframe (proc_of i s));
        ntf ← gets (λ s, p_trapframe (proc_of np s));
        on_mem (λ m, st_bytes m ntf (ld_bytes sizeof_trapframe m tf));;
        store64 (ntf + tf_a0) 0;;
        fork_files i np;;
        name ← gets (λ s, p_name (proc_of i s));
        on_proc np (λ p, set_p_name (safestrcpy_bytes (p_name p) (cstr name) 16) p);;
        pid ← gets (λ s, p_pid (proc_of np s));
        release (L_proc np);;
        acquire L_wait;;
        on_proc np (set_p_parent (Some i));;
        release L_wait;;
        acquire (L_proc np);;
        on_proc np (set_p_state RUNNABLE);;
        release (L_proc np);;
        mret pid
  end.

Definition reparent (i : nat) : M unit :=
  for_each (seq 0 NPROC) (λ pp,
    parent ← gets (λ s, p_parent (proc_of pp s));
    when (bool_decide (parent = Some i))
      (init ← gets k_initproc;
       on_proc pp (set_p_parent init);;
       init ← deref init;
       wakeup (Ch_proc init))).

(** Close the files of [i] and give up its directory. *)
Definition exit_files (i : nat) : M unit :=
  for_each (seq 0 NOFILE) (λ fd,
    f ← gets (λ s, mjoin (p_ofile (proc_of i s) !! fd));
    match f with
    | Some f => fileclose f;; on_proc i (λ p, set_p_ofile (<[fd := None]> (p_ofile p)) p)
    | None => mret tt
    end);;
  begin_op;;
  cwd ← gets (λ s, p_cwd (proc_of i s));
  cwd ← deref cwd;
  iput cwd;;
  end_op;;
  on_proc i (set_p_cwd None).

Definition exit (status : Z) : M unit :=
  p ← myproc;
  init ← gets k_initproc;
  if bool_decide (p = init) then panic "init exiting"
  else
    i ← deref p;
    exit_files i;;
    acquire L_wait;;
    reparent i;;
    parent ← gets (λ s, p_parent (proc_of i s));
    wakeup (match parent with Some pp => Ch_proc pp | None => Ch_null end);;
    acquire (L_proc i);;
    on_proc i (set_p_xstate status);;
    on_proc i (set_p_state ZOMBIE);;
    release L_wait;;
    sched;;
    panic "zombie exit".

(** The scan of [wait]: [inl r] when it returns, with the locks released;
    otherwise [inr havekids]. *)
Fixpoint wait_scan (l : list nat) (i : nat) (addr : Z) (havekids : bool) : M (Z + bool) :=
  match l with
  | [] => mret (inr havekids)
  | pp :: l' =>
      parent ← gets (λ s, p_parent (proc_of pp s));
      if bool_decide (parent = Some i) then
        acquire (L_proc pp);;
        st ← gets (λ s, p_state (proc_of pp s));
        if decide (st = ZOMBIE) then
          pid ← gets (λ s, p_pid (proc_of pp s));
          pagetable ← gets (λ s, p_pagetable (proc_of i s));
          xstate ← gets (λ s, p_xstate (proc_of pp s));
          r ← (if negb (addr =? 0) then copyout pagetable addr (to_le 4 (u32 xstate)) else mret 0);
          if r <? 0 then release (L_proc pp);; release L_wait;; mret (inl (-1))
          else
            freeproc pp;;
            release (L_proc pp);;
            release L_wait;;
            mret (inl pid)
        else release (L_proc pp);; wait_scan l' i addr true
      else wait_scan l' i addr havekids
  end.

Fixpoint wait_loop (n : nat) (i : nat) (addr : Z) : M Z :=
  r ← wait_scan (seq 0 NPROC) i addr false;
  match r with
  | inl r => mret r
  | inr havekids =>
      stop ← (if (havekids : bool) then kl ← killed i; mret (negb (kl =? 0)) else mret true);
      if (stop : bool) then release L_wait;; mret (-1)
      else
        match n with
        | O => out_of_fuel
        | S n' => sleep (Ch_proc i) L_wait;; wait_loop n' i addr
        end
  end.

Definition wait (addr : Z) : M Z :=
  p ← myproc;
  i ← deref p;
  acquire L_wait;;
  wait_loop fuel i addr.

(** One pass over the table. *)
Definition scheduler_pass : M unit :=
  intr_on;;
  for_each (seq 0 NPROC) (λ i,
    acquire (L_proc i);;
    st ← gets (λ s, p_state (proc_of i s));
    when (bool_decide (st = RUNNABLE))
      (on_proc i (set_p_state RUNNING);;
       on_hart (set_c_proc (Some i));;
       swtch;;
       on_hart (set_c_proc None));;
    release (L_proc i)).

Fixpoint scheduler_loop (n : nat) : M unit :=
  match n with
  | O => out_of_fuel
  | S n' => scheduler_pass;; scheduler_loop n'
  end.

Definition scheduler : M unit := on_hart (set_c_proc None);; scheduler_loop fuel.

End model.
