(* ===== verification/Scheduler.v ===== *)
(** * The scheduler is a round robin (proc.c: scheduler)

    [sched_rest i n]: the scheduler from the moment process [i] switches back
    to it, with [n] more passes over the table. It runs the first runnable
    process in cyclic order after [i], and hands over exactly what [sched]
    promises a process that continues. *)

From S2P Require Import Prelude State Mem Kstring Spinlock Kalloc Vm Proc ProcSpec SchedSpec ProcLife.

(** ** Description *)

Definition sched_body (i : nat) : M unit :=
  acquire (L_proc i);;
  st ← gets (λ s, p_state (proc_of i s));
  when (bool_decide (st = RUNNABLE))
    (on_proc i (set_p_state RUNNING);; on_hart (set_c_proc (Some i));; swtch;; on_hart (set_c_proc None));;
  release (L_proc i).

Definition sched_rest (i n : nat) : M unit :=
  ((on_hart (set_c_proc None);; release (L_proc i));;
   for_each (seq (S i) (NPROC - S i)) sched_body);;
  scheduler_loop n.

Definition is_runnable (ps : list proc) (i : nat) : Prop := p_state <$> ps !! i = Some RUNNABLE.

#[global] Instance is_runnable_dec ps i : Decision (is_runnable ps i).
Proof. unfold is_runnable. apply _. Defined.

(** The first runnable process after [i] in cyclic order, [i] last. *)
Definition next_runnable (ps : list proc) (i : nat) : option nat :=
  head (filter (is_runnable ps) (seq (S i) (NPROC - S i) ++ seq 0 NPROC)).

(** How far [x] is from [i] in that order. *)
Definition cyclic_dist (i x : nat) : nat := if decide (i < x)%nat then x - i else x + NPROC - i.

(** No process lock is held and the hart is outside any critical section. *)
Record idle (s : kernel) : Prop := {
  id_hart : hart_ok (k_hart s);
  id_noff : c_noff (k_hart s) = 0;
  id_len : length (k_procs s) = NPROC;
  id_locks l : known l = true → lock_free l s;
}.

(** Process [j] is switched to from [s]. *)
Definition taken (j : nat) (s : kernel) : kernel :=
  set_k_hart (set_c_proc (Some j) (hart_push (k_hart s)))
    (set_k_procs (alter (set_p_state RUNNING) j (k_procs s)) (acquired (L_proc j) s)).

Definition armed (s : kernel) : kernel :=
  set_k_hart (set_h_sstatus (Z.lor (h_sstatus (k_hart s)) SSTATUS_SIE) (k_hart s)) s.

(** ** Lemmas *)

Lemma head_filter_split {A : Type} (P : A → Prop) `{∀ x, Decision (P x)} l j :
  head (filter P l) = Some j → ∃ l1 l2, l = l1 ++ j :: l2 ∧ Forall (λ x, ¬ P x) l1 ∧ P j.
Proof.
  induction l as [|x l IH]; [done|]. rewrite filter_cons. destruct (decide (P x)) as [Hp|Hp].
  - intros [= <-]. by exists [], l.
  - intros (l1&l2&->&Hf&Hj)%IH. exists (x :: l1), l2. split; [done|]. split; [by constructor|done].
Qed.

Lemma seq_split a n l1 j l2 : seq a n = l1 ++ j :: l2 → l2 = seq (S j) (a + n - S j) ∧ (a ≤ j < a + n)%nat.
Proof.
  revert a l1. induction n as [|n IH]; intros a l1 Hs; [by destruct l1|]. cbn in Hs.
  destruct l1 as [|x l1]; injection Hs as -> Hs.
  - rewrite <- Hs. split; [f_equal; lia|lia].
  - destruct (IH _ _ Hs) as [-> ?]. split; [f_equal; lia|lia].
Qed.

Lemma hart_push_tick h : hart_push (hart_tick h) = hart_push h.
Proof. unfold hart_push, hart_tick. destruct h as [? ? ? ? ? ? ? ? ? ? noff ?]. cbn. destruct (noff =? 0) eqn:E; cbn; by rewrite ?E. Qed.

Lemma hart_tick_enabled h : intr_enabled (hart_tick h) = intr_enabled h.
Proof. unfold hart_tick. by case_test. Qed.

Lemma idle_tick s : idle s → idle (tick s).
Proof.
  intros [Hh Hn Hl Hk]. split; [by apply hart_tick_ok|by rewrite <- Hn; apply hart_tick_noff_eq|done|exact Hk].
Qed.

Lemma idle_armed s : idle s → idle (armed s).
Proof. intros [Hh Hn Hl Hk]. split; [|done..]. split; [apply Hh|]. cbn. lia. Qed.

Lemma taken_tick j s : taken j (tick s) = taken j s.
Proof. unfold taken, tick, acquired. cbn. by rewrite hart_push_tick, hart_tick_tp. Qed.

Lemma taken_armed_tick j s : taken j (armed (tick s)) = taken j (armed s).
Proof.
  unfold taken, acquired, armed, tick. cbn. rewrite hart_tick_tp.
  assert (hart_push (set_h_sstatus (Z.lor (h_sstatus (hart_tick (k_hart s))) SSTATUS_SIE) (hart_tick (k_hart s))) =
    hart_push (set_h_sstatus (Z.lor (h_sstatus (k_hart s)) SSTATUS_SIE) (k_hart s))) as ->; [|done].
  destruct (k_hart s) as [? ? ? ? ? ? ? ? ? ? noff ?]. unfold hart_tick, hart_push. cbn.
  destruct (noff =? 0) eqn:E; cbn; by rewrite ?E.
Qed.

Lemma runnable_state s i : is_runnable (k_procs s) i ↔ p_state (proc_of i s) = RUNNABLE.
Proof.
  unfold is_runnable, proc_of. destruct (k_procs s !! i); cbn; [|done]. split; congruence.
Qed.

Lemma body_skip i s :
  idle s → (i < NPROC)%nat → ¬ is_runnable (k_procs s) i → sched_body i s = Ret tt (tick s).
Proof.
  intros Hi Hlt Hr. unfold sched_body.
  pose proof (id_locks _ Hi _ (known_proc i Hlt)) as Hfree. rewrite bind_acquire by done. rewrite bind_gets.
  change (proc_of i (acquired (L_proc i) s)) with (proc_of i s).
  rewrite bool_decide_eq_false_2 by (by rewrite <- runnable_state). unfold when. rewrite bind_mret.
  rewrite (release_eq _ s); [|done|apply Hi|done|done]. unfold tick, acquired, put_lock. kernel_eq.
Qed.

Lemma body_take j s :
  idle s → (j < NPROC)%nat → is_runnable (k_procs s) j →
  sched_body j s = Block (taken j s) (on_hart (set_c_proc None);; release (L_proc j)).
Proof.
  intros Hi Hlt Hr. unfold sched_body.
  pose proof (id_locks _ Hi _ (known_proc j Hlt)) as Hfree. rewrite bind_acquire by done. rewrite bind_gets.
  change (proc_of j (acquired (L_proc j) s)) with (proc_of j s).
  rewrite bool_decide_eq_true_2 by (by rewrite <- runnable_state). reflexivity.
Qed.

Lemma for_skip l1 l2 s :
  idle s → Forall (λ i, (i < NPROC)%nat ∧ ¬ is_runnable (k_procs s) i) l1 →
  ∃ s', for_each (l1 ++ l2) sched_body s = for_each l2 sched_body s' ∧ (s' = s ∨ s' = tick s).
Proof.
  intros Hi Hf. destruct l1 as [|x l1]; [exists s; by split; [|left]|].
  exists (tick s). split; [|by right]. revert s x Hi Hf.
  induction l1 as [|y l1 IH]; intros s x Hi [[Hx Hr] Hf]%Forall_cons; cbn [for_each app];
    rewrite (bind_Ret _ _ _ _ _ (body_skip x s Hi Hx Hr)); [done|].
  etrans; [by apply (IH (tick s) y); [apply idle_tick|]|]. by rewrite tick_tick.
Qed.

Lemma for_take l1 j l2 s :
  idle s → Forall (λ i, (i < NPROC)%nat ∧ ¬ is_runnable (k_procs s) i) l1 →
  (j < NPROC)%nat → is_runnable (k_procs s) j →
  for_each (l1 ++ j :: l2) sched_body s =
    Block (taken j s) ((on_hart (set_c_proc None);; release (L_proc j));; for_each l2 sched_body).
Proof.
  intros Hi Hf Hj Hr. destruct (for_skip l1 (j :: l2) s Hi Hf) as (s'&->&Hs'). cbn [for_each].
  apply bind_Block. destruct Hs' as [-> | ->]; [by apply body_take|].
  rewrite body_take; [by rewrite taken_tick|by apply idle_tick|done|done].
Qed.

(** A pass that finds a process, and what is left of it. *)
Lemma pass_take i k j l1 l2 n s :
  idle s → seq i k = l1 ++ j :: l2 → (i + k = NPROC)%nat →
  Forall (λ x, ¬ is_runnable (k_procs s) x) l1 → is_runnable (k_procs s) j →
  (for_each (seq i k) sched_body;; scheduler_loop n) s = Block (taken j s) (sched_rest j n).
Proof.
  intros Hi Hs Hk Hf Hr. destruct (seq_split _ _ _ _ _ Hs) as [Hl2 Hj].
  apply bind_Block. rewrite Hs. rewrite for_take; [|done| |lia|done].
  - by rewrite Hl2, Hk.
  - apply Forall_forall. intros x Hx. split; [|by rewrite Forall_forall in Hf; apply Hf].
    assert (x ∈ seq i k) as Hin by (rewrite Hs; apply elem_of_app; by left). apply elem_of_seq in Hin. lia.
Qed.

Lemma bind_assoc_mod g (m : M unit) (k : unit → M unit) s :
  ((modify g;; m) ≫= k) s = (m ≫= k) (g s).
Proof. done. Qed.

(** From an idle scheduler, the rest of a pass and one more. *)
Lemma dispatch i j n u :
  idle u → (i < NPROC)%nat → next_runnable (k_procs u) i = Some j →
  ∃ v m, (for_each (seq (S i) (NPROC - S i)) sched_body;; scheduler_loop (S n)) u =
    Block (taken j v) (sched_rest j m) ∧ (v = u ∨ v = armed u) ∧ (m = n ∨ m = S n).
Proof.
  intros Hi Hlt. unfold next_runnable. rewrite filter_app. set (a := seq (S i) (NPROC - S i)).
  destruct (filter (is_runnable (k_procs u)) a) as [|x xs] eqn:Ha; cbn [app].
  - intros (l1&l2&Hl&Hf&Hj)%head_filter_split.
    destruct (for_skip a [] u Hi) as (u'&Hr&Hu').
    { apply Forall_forall. intros x Hx. split; [apply elem_of_seq in Hx; lia|]. intros Hp.
      assert (x ∈ filter (is_runnable (k_procs u)) a) as Hin by (by apply list_elem_of_filter).
      rewrite Ha in Hin. by apply elem_of_nil in Hin. }
    rewrite app_nil_r in Hr. exists (armed u), n. split_and!; [|by right|by left].
    rewrite (bind_Ret _ _ _ _ _ Hr). cbn [scheduler_loop]. unfold scheduler_pass.
    change (seq 0 NPROC) with (seq 0 (NPROC - 0)) at 1.
    assert (idle u') as Hi' by (destruct Hu' as [-> | ->]; [done|by apply idle_tick]).
    transitivity (Block (taken j (armed u')) (sched_rest j n)).
    + apply (pass_take 0 NPROC j l1 l2 n (armed u')); [by apply idle_armed|done|done|..];
        by destruct Hu' as [-> | ->].
    + destruct Hu' as [-> | ->]; [done|by rewrite taken_armed_tick].
  - intros Hx. injection Hx as ->. destruct (head_filter_split (is_runnable (k_procs u)) a j) as (l1&l2&Hl&Hf&Hj); [by rewrite Ha|].
    exists u, (S n). split_and!; [|by left|by right].
    apply (pass_take (S i) _ j l1 l2); [done|exact Hl|lia|done|done].
Qed.

Lemma sie_set x : Z.testbit (Z.lor x SSTATUS_SIE) 1 = true.
Proof. rewrite Z.lor_spec. change (Z.testbit SSTATUS_SIE 1) with true. apply orb_true_r. Qed.

Lemma sie_cleared x : Z.testbit (Z.land x (Z.lnot SSTATUS_SIE)) 1 = false.
Proof. rewrite Z.land_spec. change (Z.testbit (Z.lnot SSTATUS_SIE) 1) with false. apply andb_false_r. Qed.

Lemma sie_set_clear x : Z.land (Z.lor x SSTATUS_SIE) (Z.lnot SSTATUS_SIE) = Z.land x (Z.lnot SSTATUS_SIE).
Proof. by rewrite Z.land_lor_distr_l, Z.land_lnot_diag, Z.lor_0_r. Qed.

(** The hart a process continues on, with its own interrupt state [i0]. *)
Definition back_hart (j : nat) (i0 : Z) (h : hart) : hart :=
  set_c_proc (Some j) (set_h_sstatus (if i0 =? 1 then Z.lor (h_sstatus h) SSTATUS_SIE
    else Z.land (h_sstatus h) (Z.lnot SSTATUS_SIE)) h).

Lemma back_hart_enabled j i0 h : intr_enabled (back_hart j i0 h) = (i0 =? 1).
Proof. rewrite intr_enabled_testbit. cbn. destruct (i0 =? 1); [apply sie_set|apply sie_cleared]. Qed.

Lemma back_hart_push j i0 h :
  c_noff h = 0 → i0 = 0 ∨ i0 = 1 →
  set_c_intena i0 (set_c_proc (Some j) (hart_push h)) = hart_push (back_hart j i0 h).
Proof.
  intros Hn Hi0. unfold hart_push. rewrite back_hart_enabled.
  destruct h as [tp x sepc sc sv stv satp sip pr ctx noff ie]. cbn in *. subst noff. cbn.
  f_equal; destruct Hi0 as [-> | ->]; cbn; [|by rewrite sie_set_clear].
  by rewrite <- Z.land_assoc, Z.land_diag.
Qed.

(** What the process switched to finds. *)
Lemma taken_gives_back j s i0 :
  idle s → (j < NPROC)%nat → i0 = 0 ∨ i0 = 1 →
  given_back j i0 (taken j s) (set_k_hart (back_hart j i0 (k_hart s)) s).
Proof.
  intros Hi Hj Hi0. split; [|split].
  - split; [split|..]; cbn; try done; try lia; [apply Hi|rewrite (id_noff _ Hi); lia|apply Hi|apply Hi|].
    intros l Hl _. apply (id_locks _ Hi l Hl).
  - done.
  - apply back_hart_push; [apply Hi|done].
Qed.

Lemma seq_before a n l1 j l2 x : seq a n = l1 ++ j :: l2 → (a ≤ x < j)%nat → x ∈ l1.
Proof.
  revert a l1. induction n as [|n IH]; intros a l1 Hs Hx; [by destruct l1|]. cbn in Hs.
  destruct l1 as [|y l1]; injection Hs as -> Hs; [lia|]. apply elem_of_cons.
  destruct (decide (x = y)) as [->|]; [by left|right]. apply (IH (S y)); [done|lia].
Qed.

Lemma next_runnable_min ps i j :
  length ps = NPROC → (i < NPROC)%nat → next_runnable ps i = Some j →
  (j < NPROC)%nat ∧ is_runnable ps j ∧ ∀ x, is_runnable ps x → (cyclic_dist i j ≤ cyclic_dist i x)%nat.
Proof.
  intros Hlen Hi. unfold next_runnable. rewrite filter_app. set (a := seq (S i) (NPROC - S i)).
  assert (∀ x, is_runnable ps x → (x < NPROC)%nat) as Hlt.
  { intros x Hx. unfold is_runnable in Hx. rewrite <- Hlen. apply lookup_lt_is_Some. destruct (ps !! x); [by eexists|done]. }
  destruct (filter (is_runnable ps) a) as [|y ys] eqn:Ha; cbn [app].
  - intros (l1&l2&Hl&Hf&Hj)%head_filter_split. split_and!; [by apply Hlt|done|]. intros x Hx.
    assert (∀ z, is_runnable ps z → (z ≤ i)%nat) as Hnot.
    { intros z Hz. destruct (decide (z ≤ i)%nat) as [|Hzi]; [done|].
      assert (z ∈ filter (is_runnable ps) a) as Hin.
      { apply list_elem_of_filter. split; [done|]. apply elem_of_seq. specialize (Hlt z Hz). lia. }
      rewrite Ha in Hin. by apply elem_of_nil in Hin. }
    pose proof (Hnot j Hj). pose proof (Hnot x Hx). unfold cyclic_dist. rewrite !decide_False by lia.
    destruct (decide (x < j)%nat) as [Hxj|]; [|lia].
    rewrite Forall_forall in Hf. destruct (Hf x); [|done]. apply (seq_before _ _ _ _ _ x Hl). lia.
  - intros Hy. injection Hy as ->.
    destruct (head_filter_split (is_runnable ps) a j) as (l1&l2&Hl&Hf&Hj); [by rewrite Ha|].
    split_and!; [by apply Hlt|done|]. intros x Hx. destruct (seq_split _ _ _ _ _ Hl) as [_ Hr].
    unfold cyclic_dist. rewrite (decide_True _ _ (P := (i < j)%nat)) by lia.
    destruct (decide (i < x)%nat); [|lia]. destruct (decide (x < j)%nat) as [Hxj|]; [|lia].
    rewrite Forall_forall in Hf. destruct (Hf x); [|done]. apply (seq_before _ _ _ _ _ x Hl). lia.
Qed.

Lemma next_runnable_exists ps i x :
  length ps = NPROC → is_runnable ps x → ∃ j, next_runnable ps i = Some j.
Proof.
  intros Hlen Hx. unfold next_runnable.
  assert (x ∈ filter (is_runnable ps) (seq (S i) (NPROC - S i) ++ seq 0 NPROC)) as Hin.
  { apply list_elem_of_filter. split; [done|]. apply elem_of_app. right. apply elem_of_seq. rewrite <- Hlen.
    split; [lia|]. apply lookup_lt_is_Some. unfold is_runnable in Hx. destruct (ps !! x); [by eexists|done]. }
  destruct (filter _ _) as [|j l]; [by apply elem_of_nil in Hin|]. by exists j.
Qed.

(** The processor is handed to [j] in [t']. *)
Definition handed_to (j : nat) (s t t' : kernel) : Prop :=
  k_procs t' = alter (set_p_state RUNNING) j (k_procs t) ∧
  t' = set_k_hart (k_hart t') (set_k_locks (k_locks t') (set_k_procs (k_procs t') t)) ∧
  ∀ i0, i0 = 0 ∨ i0 = 1 →
    ∃ v, given_back j i0 t' v ∧ k_locks v = k_locks s ∧ intr_enabled (k_hart v) = (i0 =? 1).

Lemma scheduler_ok i j n s t :
  idle s → (i < NPROC)%nat → within (L_proc i) s t → length (k_procs t) = NPROC →
  next_runnable (k_procs t) i = Some j →
  ∃ t' m, sched_rest i (S n) t = Block t' (sched_rest j m) ∧ (m = n ∨ m = S n) ∧ handed_to j s t t'.
Proof.
  intros Hi Hlt [Hl Hh] Hn Hj. set (s0 := set_k_hart (set_c_proc None (k_hart s)) s).
  set (t0 := set_k_hart (set_c_proc None (k_hart t)) t).
  set (u := set_k_locks (k_locks s0) (set_k_hart (hart_tick (k_hart s0)) t0)).
  assert (idle s0) as Hi0 by (destruct Hi; split; done).
  assert (((on_hart (set_c_proc None);; release (L_proc i))) t = Ret tt u) as Hrel.
  { unfold on_hart. rewrite bind_modify. apply release_eq.
    - apply (id_locks _ Hi0), known_proc, Hlt.
    - apply Hi0.
    - exact Hl.
    - cbn. rewrite Hh. cbn. unfold hart_push. destruct (k_hart s); cbn. by destruct (_ =? 0). }
  assert (idle u) as Hu.
  { destruct Hi0 as [A B C D]. split; [by apply hart_tick_ok|by cbn; rewrite hart_tick_noff_eq|done|].
    intros l Hk. destruct (D l Hk) as [name Hf]. by exists name. }
  destruct (dispatch i j n u Hu Hlt Hj) as (v&m&Hd&Hv&Hm).
  exists (taken j v), m. split; [|split; [done|]].
  - unfold sched_rest at 1. rewrite (bind_assoc _ _ _ _ _ _ Hrel). exact Hd.
  - assert (k_procs v = k_procs t ∧ v = set_k_hart (k_hart v) (set_k_locks (k_locks s) t) ∧ idle v) as (Hp&Hf&Hiv).
    { destruct Hv as [-> | ->]; split_and!; try done; by apply idle_armed. }
    destruct (next_runnable_min _ _ _ Hn Hlt Hj) as (Hj'&_&_).
    split_and!; [unfold taken; cbn; by rewrite Hp|rewrite Hf; done|].
    intros i0 Hi0'. eexists. split; [by apply taken_gives_back|]. split; [by rewrite Hf|apply back_hart_enabled].
Qed.

Lemma env_idle me s : env me [] s → idle s.
Proof.
  intros He. split; [apply He|by rewrite (env_noff _ _ _ He)|apply He|]. intros l Hl. by apply (env_free me).
Qed.

Lemma saved_bit h : c_noff h = 0 → c_intena (hart_push h) = Z.b2z (intr_enabled h).
Proof. intros Hn. unfold hart_push. rewrite Hn. done. Qed.

Lemma b2z_bit b : Z.b2z b = 0 ∨ Z.b2z b = 1.
Proof. destruct b; [by right|by left]. Qed.


(** [sleep(ch, lk)], called with [lk] held, gives the processor away with
    [lk] free, the process asleep on [ch] and only its own lock held. When the
    scheduler gives the processor back, it stops waiting for [ch], frees its
    lock, restores its interrupt state and holds [lk] again. *)
Theorem sleep_correct me ch lk s t :
  env me [] s → known lk = true → lk ≠ L_proc me → within lk s t → length (k_procs t) = NPROC →
  ∃ t' k, sleep ch lk t = Block t' k ∧
    within (L_proc me) s t' ∧ k_procs t' = asleep me ch (k_procs t) ∧
    t' = set_k_hart (k_hart t') (set_k_locks (k_locks t') (set_k_procs (k_procs t') t)) ∧
    ∀ u v, given_back me (Z.b2z (intr_enabled (k_hart s))) u v → length (k_procs u) = NPROC →
      ∃ w, k u = Ret tt w ∧ within lk (tick v) w ∧ env me [lk] w ∧
        w = set_k_hart (k_hart w) (set_k_locks (k_locks w)
              (set_k_procs (alter (set_p_chan Ch_null) me (k_procs u)) u)).
Proof.
  intros He Hk Hne Hw Hn. rewrite (sleep_eq me ch lk s t) by done. do 2 eexists. split; [reflexivity|].
  split_and!; [done|done|done|]. intros u v Hb Hu. rewrite saved_bit by (by rewrite (env_noff _ _ _ He)).
  rewrite (sleep_back_eq me lk _ u v Hb Hk). eexists. split; [reflexivity|]. destruct Hb as (Hv&_&_).
  assert (within lk (tick v) (acquired lk (set_k_procs (alter (set_p_chan Ch_null) me (k_procs u))
    (set_k_locks (k_locks v) (set_k_hart (hart_tick (k_hart v)) u))))) as Hw' by done.
  split_and!; [done| |unfold acquired; kernel_eq].
  apply (within_env me lk (tick v)); [by apply env_tick|done|]. cbn. by rewrite length_alter.
Qed.

(** a process that yields while no other is runnable gets the processor
    back from the scheduler, with its interrupt state and everything else as
    it was: the saved contexts of [yield] and [scheduler] fit together. *)
Theorem yield_resumes me n s :
  env me [] s → (∀ x, x ≠ me → ¬ is_runnable (k_procs s) x) →
  ∃ t k t' m s', yield s = Block t k ∧ sched_rest me (S n) t = Block t' (sched_rest me m) ∧ k t' = Ret tt s' ∧
    k_locks s' = k_locks s ∧ k_procs s' = alter (set_p_state RUNNING) me (k_procs s) ∧
    env me [] s' ∧ intr_enabled (k_hart s') = intr_enabled (k_hart s) ∧
    s' = set_k_hart (k_hart s') (set_k_procs (k_procs s') s).
Proof.
  intros He Hno. pose proof (env_tick _ _ _ He) as He1. pose proof (env_len _ _ _ He) as Hlen.
  rewrite (yield_eq me s He). set (t := set_k_procs _ _).
  assert (me < length (k_procs s))%nat as Hme by (rewrite Hlen; apply He).
  assert (is_runnable (k_procs t) me) as Hr.
  { apply runnable_state. by rewrite (proc_of_alter (set_p_state RUNNABLE) me t s). }
  assert (length (k_procs t) = NPROC) as Hn by (cbn; by rewrite length_alter).
  assert (next_runnable (k_procs t) me = Some me) as Hj.
  { destruct (next_runnable_exists _ me me Hn Hr) as [j Hj].
    destruct (next_runnable_min _ _ _ Hn (env_me _ _ _ He) Hj) as (_&Hrj&_).
    destruct (decide (j = me)) as [->|Hne]; [done|]. destruct (Hno j Hne).
    unfold is_runnable in *. cbn in Hrj. by rewrite list_lookup_alter_ne in Hrj by done. }
  destruct (scheduler_ok me me n (tick s) t (env_idle _ _ He1) (env_me _ _ _ He)) as (t'&m&H1&H2&Hp&Hf&Hg); [done..|].
  destruct (Hg (Z.b2z (intr_enabled (k_hart (tick s)))) (b2z_bit _)) as (v&Hgb&Hlk&Hie).
  assert (c_noff (k_hart (tick s)) = 0) as H0 by (by rewrite (env_noff _ _ _ He1)).
  rewrite (saved_bit (hart_tick (k_hart s)) H0).
  eexists t, _, t', m, _. split; [reflexivity|]. split; [exact H1|]. split; [by apply yield_back_eq|].
  assert (k_procs t' = alter (set_p_state RUNNING) me (k_procs s)) as Hp'.
  { rewrite Hp. cbn. by rewrite list_alter_alter. }
  split_and!; [by cbn; rewrite Hlk|exact Hp'| | |].
  - apply (env_ext me [] v); [apply Hgb|by right|done|]. cbn. rewrite Hp'. rewrite length_alter, Hlen.
    symmetry. apply (env_len me []), Hgb.
  - cbn [k_hart set_k_locks set_k_hart]. rewrite hart_tick_enabled, Hie. cbn [k_hart tick set_k_hart].
    rewrite hart_tick_enabled. by destruct (intr_enabled (k_hart s)).
  - cbn. rewrite Hf, Hp'. cbn. rewrite Hlk. unfold tick, acquired. kernel_eq.
Qed.

Lemma running_procs x : x ≠ 0%nat → ¬ is_runnable (k_procs running_kernel) x.
Proof.
  intros Hx. unfold is_runnable, running_kernel. cbn [k_procs set_k_hart set_k_procs].
  rewrite list_lookup_alter_ne by done. unfold zero_kernel. cbn [k_procs].
  destruct (replicate NPROC zero_proc !! x) as [p|] eqn:E; [|done]. apply lookup_replicate in E as [-> _]. done.
Qed.


(** Process 0 waits for console input. *)
Lemma sleep_correct_witness :
  ∃ t' k w, sleep Ch_cons_r L_cons (acquired L_cons running_kernel) = Block t' k ∧
    k_procs t' = asleep 0 Ch_cons_r (k_procs running_kernel) ∧
    k (taken 0 running_kernel) = Ret tt w ∧ env 0 [L_cons] w.
Proof.
  destruct (sleep_correct 0 Ch_cons_r L_cons running_kernel (acquired L_cons running_kernel) running_env
    ltac:(done) ltac:(done) ltac:(done) ltac:(reflexivity)) as (t'&k&H1&_&H2&_&H3).
  destruct (H3 (taken 0 running_kernel) (set_k_hart (back_hart 0 1 (k_hart running_kernel)) running_kernel))
    as (w&Hw&_&Hew&_); [|reflexivity|exists t', k, w; exact (conj H1 (conj H2 (conj Hw Hew)))].
  apply (taken_gives_back 0 running_kernel 1); [apply (env_idle 0), running_env|unfold NPROC; lia|by right].
Defined.

Lemma yield_resumes_witness :
  ∃ t k t' m s', yield running_kernel = Block t k ∧ sched_rest 0 1 t = Block t' (sched_rest 0 m) ∧
    k t' = Ret tt s' ∧ intr_enabled (k_hart s') = true.
Proof.
  destruct (yield_resumes 0 0 running_kernel running_env running_procs) as (t&k&t'&m&s'&H1&H2&H3&_&_&_&H4&_).
  exists t, k, t', m, s'. exact (conj H1 (conj H2 (conj H3 H4))).
Defined.
