(* ===== verification/VirtioSpec.v ===== *)
(** * The disk driver's requests (virtio_disk.c)

    [queue_ok d rs]: the descriptor table holds exactly the requests [rs], each a
    chain of three descriptors of its own, and everything else is free. A request
    keeps this from the allocation of its chain to its release; in between, the
    process sleeps without the lock and the device has the chain. *)

From S2P Require Import Prelude State Mem Kstring Spinlock Kalloc Vm Proc ProcSpec SchedSpec Uart UartSpec Sleeplock Bio.
From S2P Require Import BioSpec Virtio Scheduler.

(** ** Description *)

(** The registers the driver touches while it runs: a notification returns at
    once, and an interrupt is acknowledged; the kernel's own data stay as they
    are. *)
Class VirtioRegs (U : Mmio) := {
  reg_write s r v : r = VIRTIO_MMIO_QUEUE_NOTIFY ∨ r = VIRTIO_MMIO_INTERRUPT_ACK →
    ∃ d, mmio_write (VIRTIO0 + r) v s = Ret tt (set_k_dev d s);
  reg_status s : ∃ v d, mmio_read (VIRTIO0 + VIRTIO_MMIO_INTERRUPT_STATUS) s = Ret v (set_k_dev d s);
}.

(** A request: its three descriptors, its buffer and what it asks for. *)
Record request : Type := Request {
  rq_head : nat;
  rq_data : nat;
  rq_status : nat;
  rq_buf : nat;
  rq_write : bool;
  rq_sector : Z;
}.

Definition rq_descs (r : request) : list nat := [rq_head r; rq_data r; rq_status r].
Definition descs (rs : list request) : list nat := concat (rq_descs <$> rs).

(** The chain of a request as the device reads it. *)
Record formatted (d : vdisk) (r : request) : Prop := {
  fm_head : desc_at d (rq_head r) = Vdesc (DA_op (rq_head r)) 16 VRING_DESC_F_NEXT (Z.of_nat (rq_data r));
  fm_data : desc_at d (rq_data r) = Vdesc (DA_data (rq_buf r)) BSIZE
    (Z.lor (if rq_write r then 0 else VRING_DESC_F_WRITE) VRING_DESC_F_NEXT) (Z.of_nat (rq_status r));
  fm_status : desc_at d (rq_status r) = Vdesc (DA_status (rq_head r)) 1 VRING_DESC_F_WRITE 0;
  fm_op : vd_ops d !! rq_head r = Some (Vop (if rq_write r then VIRTIO_BLK_T_OUT else VIRTIO_BLK_T_IN) 0 (rq_sector r));
  fm_buf : vd_info_b d !! rq_head r = Some (Some (rq_buf r));
}.

Record tables (d : vdisk) : Prop := {
  tb_free : length (vd_free d) = NUM;
  tb_desc : length (vd_desc d) = NUM;
  tb_ops : length (vd_ops d) = NUM;
  tb_info : length (vd_info_b d) = NUM ∧ length (vd_info_status d) = NUM;
  tb_ring : length (vd_avail_ring d) = NUM;
}.

(** The descriptors in use are [l]. *)
Definition in_use (d : vdisk) (l : list nat) : Prop := ∀ i, (i < NUM)%nat → free_at d i = 0 ↔ i ∈ l.

Record queue_ok (d : vdisk) (rs : list request) : Prop := {
  qo_tables : tables d;
  qo_nodup : NoDup (descs rs);
  qo_range i : i ∈ descs rs → (i < NUM)%nat;
  qo_free : in_use d (descs rs);
  qo_req r : r ∈ rs → formatted d r;
}.

(** ** The tables *)

Definition take_free (i : nat) (d : vdisk) : vdisk := set_vd_free (<[i := 0]> (vd_free d)) d.

Definition format (r : request) (d : vdisk) : vdisk :=
  let d := set_vd_ops (<[rq_head r := Vop (if rq_write r then VIRTIO_BLK_T_OUT else VIRTIO_BLK_T_IN) 0 (rq_sector r)]> (vd_ops d)) d in
  let d := set_vd_desc (<[rq_head r := Vdesc (DA_op (rq_head r)) 16 VRING_DESC_F_NEXT (Z.of_nat (rq_data r))]> (vd_desc d)) d in
  let d := set_vd_desc (<[rq_data r := Vdesc (DA_data (rq_buf r)) BSIZE
    (Z.lor (if rq_write r then 0 else VRING_DESC_F_WRITE) VRING_DESC_F_NEXT) (Z.of_nat (rq_status r))]> (vd_desc d)) d in
  let d := set_vd_info_status (<[rq_head r := 0xff]> (vd_info_status d)) d in
  set_vd_desc (<[rq_status r := Vdesc (DA_status (rq_head r)) 1 VRING_DESC_F_WRITE 0]> (vd_desc d)) d.

(** [disk.info[idx[0]].b = b] and the entry in the ring. *)
Definition publish (r : request) (d : vdisk) : vdisk :=
  let d := set_vd_info_b (<[rq_head r := Some (rq_buf r)]> (vd_info_b d)) d in
  let d := set_vd_avail_ring (<[Z.to_nat (vd_avail_idx d mod Z.of_nat NUM) := Z.of_nat (rq_head r)]> (vd_avail_ring d)) d in
  set_vd_avail_idx (u16 (vd_avail_idx d + 1)) d.

Definition freed (i : nat) (d : vdisk) : vdisk :=
  let d := set_vd_desc (<[i := Vdesc DA_null 0 0 0]> (vd_desc d)) d in set_vd_free (<[i := 1]> (vd_free d)) d.

Definition retired (r : request) (d : vdisk) : vdisk :=
  freed (rq_status r) (freed (rq_data r) (freed (rq_head r) (set_vd_info_b (<[rq_head r := None]> (vd_info_b d)) d))).

Lemma in_use_take d i l : tables d → (i < NUM)%nat → in_use d l → in_use (take_free i d) (i :: l).
Proof.
  intros Ht Hi Hl j Hj. unfold free_at, take_free. cbn. pose proof (tb_free _ Ht). destruct (decide (j = i)) as [->|Hne].
  - rewrite list_lookup_insert_eq by lia. cbn. split; [by left|done].
  - rewrite list_lookup_insert_ne by done. rewrite elem_of_cons. rewrite <-(Hl j Hj). unfold free_at. naive_solver.
Qed.

Lemma tables_take i d : tables d → tables (take_free i d).
Proof. intros []. split; cbn; rewrite ?length_insert; done. Qed.

Lemma formatted_take i d r : formatted d r → formatted (take_free i d) r.
Proof. by intros []. Qed.

(** A table of [NUM] with fewer in use has a free one. *)
Lemma some_free (l : list nat) : (length l < NUM)%nat → ∃ i, (i < NUM)%nat ∧ i ∉ l.
Proof.
  intros Hl. destruct (decide (Exists (λ i, i ∉ l) (seq 0 NUM))) as [H|H].
  - apply Exists_exists in H as (i&Hi%elem_of_seq&Hn). exists i. split; [lia|done].
  - exfalso. assert (seq 0 NUM ⊆+ l) as Hs.
    { apply NoDup_submseteq; [apply NoDup_seq|]. intros i Hi. destruct (decide (i ∈ l)); [done|]. exfalso. apply H, Exists_exists. by exists i. }
    apply submseteq_length in Hs. rewrite length_seq in Hs. lia.
Qed.

Lemma length_descs rs : length (descs rs) = (3 * length rs)%nat.
Proof. unfold descs. induction rs as [|r rs IH]; [done|]. cbn [fmap list_fmap concat length]. rewrite length_app, IH. cbn. lia. Qed.

Lemma descs_cons r rs : descs (r :: rs) = rq_head r :: rq_data r :: rq_status r :: descs rs.
Proof. done. Qed.

Lemma elem_descs r rs i : r ∈ rs → i ∈ rq_descs r → i ∈ descs rs.
Proof. intros Hr Hi. apply list_elem_of_In, in_concat. exists (rq_descs r). split; apply list_elem_of_In; [|done]. by apply list_elem_of_fmap_2. Qed.

Lemma desc_at_insert d i x j :
  (i < length (vd_desc d))%nat → desc_at (set_vd_desc (<[i := x]> (vd_desc d)) d) j = if decide (j = i) then x else desc_at d j.
Proof.
  intros Hi. unfold desc_at. cbn. case_decide as E; [subst; by rewrite list_lookup_insert_eq|]. by rewrite list_lookup_insert_ne.
Qed.

Lemma tables_format r d : tables d → tables (publish r (format r d)).
Proof. intros [? ? ? [? ?] ?]. split; cbn; rewrite ?length_insert; done. Qed.

Lemma in_use_format r d l : in_use d l → in_use (publish r (format r d)) l.
Proof. done. Qed.

Lemma desc_format r d j :
  tables d → (∀ i, i ∈ rq_descs r → (i < NUM)%nat) → NoDup (rq_descs r) →
  desc_at (publish r (format r d)) j =
    if decide (j = rq_head r) then Vdesc (DA_op (rq_head r)) 16 VRING_DESC_F_NEXT (Z.of_nat (rq_data r))
    else if decide (j = rq_data r) then Vdesc (DA_data (rq_buf r)) BSIZE
      (Z.lor (if rq_write r then 0 else VRING_DESC_F_WRITE) VRING_DESC_F_NEXT) (Z.of_nat (rq_status r))
    else if decide (j = rq_status r) then Vdesc (DA_status (rq_head r)) 1 VRING_DESC_F_WRITE 0
    else desc_at d j.
Proof.
  intros Ht Hr Hnd. pose proof (tb_desc _ Ht) as Hl. unfold rq_descs in *.
  assert (rq_head r < NUM ∧ rq_data r < NUM ∧ rq_status r < NUM)%nat as (H0&H1&H2) by (split_and!; apply Hr; set_solver).
  apply NoDup_cons in Hnd as [N0 [N1 _]%NoDup_cons]. rewrite elem_of_cons, list_elem_of_singleton in N0. rewrite list_elem_of_singleton in N1.
  unfold desc_at, publish, format. cbn. destruct (decide (j = rq_status r)) as [->|Hj2].
  - rewrite list_lookup_insert_eq by (rewrite !length_insert; lia). rewrite !decide_False by naive_solver. done.
  - rewrite list_lookup_insert_ne by done. destruct (decide (j = rq_data r)) as [->|Hj1].
    + rewrite list_lookup_insert_eq by (rewrite !length_insert; lia). rewrite decide_False by naive_solver. done.
    + rewrite list_lookup_insert_ne by done. destruct (decide (j = rq_head r)) as [->|Hj0]; [by rewrite list_lookup_insert_eq by lia|].
      by rewrite list_lookup_insert_ne.
Qed.

Lemma formatted_new r d :
  tables d → (∀ i, i ∈ rq_descs r → (i < NUM)%nat) → NoDup (rq_descs r) → formatted (publish r (format r d)) r.
Proof.
  intros Ht Hr Hnd. pose proof Hnd as Hn. apply NoDup_cons in Hn as [N0 [N1 _]%NoDup_cons]. unfold rq_descs in *.
  rewrite elem_of_cons, list_elem_of_singleton in N0. rewrite list_elem_of_singleton in N1.
  assert (rq_head r < NUM)%nat as H0 by (apply Hr; set_solver). destruct Ht as [? ? Hops [Hib ?] ?].
  split; rewrite ?desc_format by done.
  - by rewrite decide_True.
  - by rewrite decide_False, decide_True by naive_solver.
  - by rewrite !decide_False, decide_True by naive_solver.
  - cbn. by rewrite list_lookup_insert_eq by lia.
  - cbn. by rewrite list_lookup_insert_eq by lia.
Qed.

Lemma formatted_other r d r' :
  tables d → (∀ i, i ∈ rq_descs r → (i < NUM)%nat) → NoDup (rq_descs r) → (∀ i, i ∈ rq_descs r' → i ∉ rq_descs r) →
  formatted d r' → formatted (publish r (format r d)) r'.
Proof.
  intros Ht Hr Hnd Hdis [F1 F2 F3 F4 F5].
  assert (∀ i, i ∈ rq_descs r' → i ≠ rq_head r ∧ i ≠ rq_data r ∧ i ≠ rq_status r) as Hne.
  { intros i Hi%Hdis. unfold rq_descs in Hi. rewrite !elem_of_cons in Hi. tauto. }
  destruct (Hne (rq_head r')) as (A1&A2&A3); [set_solver|]. destruct (Hne (rq_data r')) as (B1&B2&B3); [set_solver|].
  destruct (Hne (rq_status r')) as (C1&C2&C3); [set_solver|].
  split; rewrite ?desc_format by done; rewrite ?decide_False by done; try done; cbn; by rewrite list_lookup_insert_ne.
Qed.

(** A formatted request on free descriptors joins the queue. *)
Lemma queue_add d rs d' r :
  queue_ok d rs → tables d' → in_use d' (rq_descs r ++ descs rs) → (∀ r', formatted d r' → formatted d' r') →
  (∀ i, i ∈ rq_descs r → (i < NUM)%nat ∧ i ∉ descs rs) → NoDup (rq_descs r) → queue_ok (publish r (format r d')) (r :: rs).
Proof.
  intros [Q1 Q2 Q3 Q4 Q5] Ht Hu Hf Hi Hnd. assert (∀ i, i ∈ rq_descs r → (i < NUM)%nat) as Hr by (intros i H; by apply Hi).
  split.
  - by apply tables_format.
  - change (descs (r :: rs)) with (rq_descs r ++ descs rs). apply NoDup_app. split_and!; [done| |done]. intros i H. by apply Hi.
  - intros i. change (descs (r :: rs)) with (rq_descs r ++ descs rs). rewrite elem_of_app. intros [H|H]; auto.
  - by apply in_use_format.
  - intros r' [->|Hr']%elem_of_cons; [by apply formatted_new|]. apply formatted_other; auto.
    intros i H H'. destruct (Hi i H') as [_ Hn]. by apply Hn, (elem_descs r').
Qed.

Lemma retired_free r d i :
  tables d → (∀ i, i ∈ rq_descs r → (i < NUM)%nat) → free_at (retired r d) i = if decide (i ∈ rq_descs r) then 1 else free_at d i.
Proof.
  intros Ht Hr. pose proof (tb_free _ Ht) as Hl. unfold free_at, retired, freed. cbn. case_decide as Hi.
  - specialize (Hr i Hi). unfold rq_descs in Hi. rewrite !elem_of_cons in Hi.
    destruct (decide (i = rq_status r)) as [->|]; [by rewrite list_lookup_insert_eq by (rewrite !length_insert; lia)|].
    rewrite list_lookup_insert_ne by done. destruct (decide (i = rq_data r)) as [->|];
      [by rewrite list_lookup_insert_eq by (rewrite !length_insert; lia)|]. rewrite list_lookup_insert_ne by done.
    destruct Hi as [->|[?|[?|[]%elem_of_nil]]]; [|done|done]. by rewrite list_lookup_insert_eq by lia.
  - unfold rq_descs in Hi. rewrite !not_elem_of_cons in Hi. destruct Hi as (?&?&?&_). by rewrite !list_lookup_insert_ne by done.
Qed.

Lemma queue_retire d r rs : queue_ok d (r :: rs) → queue_ok (retired r d) rs.
Proof.
  intros [Q1 Q2 Q3 Q4 Q5]. change (descs (r :: rs)) with (rq_descs r ++ descs rs) in *.
  apply NoDup_app in Q2 as (N1&N2&N3). assert (∀ i, i ∈ rq_descs r → (i < NUM)%nat) as Hr by (intros i H; apply Q3, elem_of_app; by left).
  split.
  - destruct Q1 as [? ? ? [? ?] ?]. split; cbn; rewrite ?length_insert; done.
  - done.
  - intros i H. apply Q3, elem_of_app. by right.
  - intros i Hi. rewrite retired_free by done. case_decide as Hd; [split; [done|]; intros H; by apply (N2 i) in H|].
    rewrite (Q4 i Hi), elem_of_app. tauto.
  - intros r' Hr'. destruct (Q5 r') as [F1 F2 F3 F4 F5]; [by right|].
    assert (∀ i, i ∈ rq_descs r' → i ≠ rq_head r ∧ i ≠ rq_data r ∧ i ≠ rq_status r) as Hne.
    { intros i Hi. split_and!; intros ->; eapply N2; try (by apply (elem_descs r')); set_solver. }
    assert (∀ i, i ∈ rq_descs r' → desc_at (retired r d) i = desc_at d i) as Hdesc.
    { intros i Hi%Hne. unfold desc_at, retired, freed. cbn. by rewrite !list_lookup_insert_ne by naive_solver. }
    split; rewrite ?Hdesc by set_solver; try done. cbn. rewrite list_lookup_insert_ne; [done|].
    destruct (Hne (rq_head r')) as [? _]; [set_solver|done].
Qed.

(** ** Operations *)

Section operations.
Context (me : nat) {FU : Fuel} {U : Mmio} {V : VirtioRegs U}.

Lemma alloc_desc_loop_eq l s :
  alloc_desc_loop l s =
    match list_find (λ i, free_at (k_vdisk s) i ≠ 0) l with
    | Some (_, i) => Ret (Some i) (set_k_vdisk (take_free i (k_vdisk s)) s)
    | None => Ret None s
    end.
Proof.
  induction l as [|i l IH]; [done|]. cbn [alloc_desc_loop list_find]. rewrite bind_gets. destruct (free_at (k_vdisk s) i =? 0) eqn:E; cbn [negb].
  - rewrite decide_False by lia. rewrite IH. by destruct (list_find _ l) as [[]|].
  - rewrite decide_True by lia. done.
Qed.

(** With descriptors [l] in use, [alloc_desc] takes another one. *)
Lemma alloc_desc_ok s l :
  tables (k_vdisk s) → in_use (k_vdisk s) l → (length l < NUM)%nat →
  ∃ i, (i < NUM)%nat ∧ i ∉ l ∧ alloc_desc s = Ret (Some i) (set_k_vdisk (take_free i (k_vdisk s)) s) ∧
    tables (take_free i (k_vdisk s)) ∧ in_use (take_free i (k_vdisk s)) (i :: l).
Proof.
  intros Ht Hu Hl. unfold alloc_desc. rewrite alloc_desc_loop_eq.
  destruct (list_find _ (seq 0 NUM)) as [[k i]|] eqn:E.
  - apply list_find_Some in E as (Hi&Hf&_). apply list_elem_of_lookup_2, elem_of_seq in Hi. exists i.
    assert ((i < NUM)%nat) as Hi' by lia. split_and!; [done| |done|by apply tables_take|by apply in_use_take]. intros H. by apply Hf, Hu.
  - exfalso. apply list_find_None in E. destruct (some_free l Hl) as (i&Hi&Hn). rewrite Forall_forall in E.
    apply (E i); [apply elem_of_seq; lia|]. intros H. by apply Hn, Hu.
Qed.

Lemma alloc3_ok s rs :
  queue_ok (k_vdisk s) rs → (3 * length rs + 3 ≤ NUM)%nat →
  ∃ i0 i1 i2, let d := take_free i2 (take_free i1 (take_free i0 (k_vdisk s))) in
    alloc3_desc s = Ret (Some (i0, i1, i2)) (set_k_vdisk d s) ∧ tables d ∧ in_use d ([i0; i1; i2] ++ descs rs) ∧
    (∀ i, i ∈ [i0; i1; i2] → (i < NUM)%nat ∧ i ∉ descs rs) ∧ NoDup [i0; i1; i2].
Proof.
  intros [Q1 Q2 Q3 Q4 Q5] Hn. pose proof (length_descs rs) as Hl.
  destruct (alloc_desc_ok s (descs rs) Q1 Q4 ltac:(lia)) as (i0&H0&N0&E0&T0&U0).
  set (s0 := set_k_vdisk (take_free i0 (k_vdisk s)) s) in *.
  destruct (alloc_desc_ok s0 (i0 :: descs rs) T0 U0 ltac:(cbn; lia)) as (i1&H1&N1&E1&T1&U1).
  set (s1 := set_k_vdisk (take_free i1 (k_vdisk s0)) s0) in *.
  destruct (alloc_desc_ok s1 (i1 :: i0 :: descs rs) T1 U1 ltac:(cbn; lia)) as (i2&H2&N2&E2&T2&U2).
  rewrite not_elem_of_cons in N1. rewrite !not_elem_of_cons in N2. destruct N1 as [N1 N1'], N2 as (N2&N2'&N2'').
  exists i0, i1, i2. split_and!.
  - unfold alloc3_desc. rewrite (bind_Ret _ _ _ _ _ E0), (bind_Ret _ _ _ _ _ E1), (bind_Ret _ _ _ _ _ E2). done.
  - done.
  - intros i Hi. etransitivity; [exact (U2 i Hi)|]. rewrite !elem_of_app, !elem_of_cons. rewrite elem_of_nil. tauto.
  - intros i. rewrite !elem_of_cons, elem_of_nil. intros [->|[->|[->|[]]]]; done.
  - apply NoDup_ListNoDup. repeat constructor; cbn; intuition congruence.
Qed.

Lemma format_request_eq r s :
  format_request (rq_head r) (rq_data r) (rq_status r) (rq_buf r) (rq_write r) (rq_sector r) s =
    Ret tt (set_k_vdisk (format r (k_vdisk s)) s).
Proof. unfold format_request, on_vdisk, set_desc, on_vdisk. rewrite !bind_modify. unfold modify. done. Qed.

Lemma free_desc_ok i s :
  env me [L_vdisk] s → (i < NUM)%nat → free_at (k_vdisk s) i = 0 →
  free_desc i s = Ret tt (set_k_procs (woken me Ch_disk_free (k_procs s)) (set_k_vdisk (freed i (k_vdisk s)) s)).
Proof.
  intros He Hi Hf. unfold free_desc. rewrite decide_False by lia. rewrite bind_gets, Hf. cbn [Z.eqb negb].
  unfold set_desc, set_free, on_vdisk. rewrite !bind_modify.
  rewrite (wakeup_eq me [L_vdisk]).
  - f_equal. rewrite (env_tick_id me L_vdisk []); [unfold freed; kernel_eq|].
    apply (env_ext me [L_vdisk] s); [done|by left|done|]. cbn. apply length_woken.
  - apply (env_ext me [L_vdisk] s); [done|by left|done|done].
  - intros j Hj. by apply list_elem_of_singleton in Hj.
Qed.

Lemma woken_twice ch ps : woken me ch (woken me ch ps) = woken me ch ps.
Proof.
  unfold woken. apply list_eq. intros i. rewrite !list_lookup_imap. destruct (ps !! i) as [p|]; [|done]. cbn. f_equal.
  destruct (wakes me ch i p) eqn:E; [|by rewrite E].
  assert (wakes me ch i (set_p_state RUNNABLE p) = false) as ->; [|done].
  unfold wakes. cbn. by rewrite (bool_decide_false (RUNNABLE = SLEEPING)), andb_false_r.
Qed.

Lemma chain_step n i s :
  env me [L_vdisk] s → (i < NUM)%nat → free_at (k_vdisk s) i = 0 →
  let s' := set_k_procs (woken me Ch_disk_free (k_procs s)) (set_k_vdisk (freed i (k_vdisk s)) s) in
  free_chain_loop (S n) i s =
    (if negb (Z.land (d_flags (desc_at (k_vdisk s) i)) VRING_DESC_F_NEXT =? 0)
     then free_chain_loop n (Z.to_nat (d_next (desc_at (k_vdisk s) i))) else mret tt) s' ∧ env me [L_vdisk] s'.
Proof.
  intros He Hi Hf s'. cbn [free_chain_loop]. rewrite bind_gets, (bind_Ret _ _ _ _ _ (free_desc_ok i s He Hi Hf)). split; [done|].
  apply (env_ext me [L_vdisk] s); [done|by left|done|]. cbn. apply length_woken.
Qed.

(** Freeing the chain of a request. *)
Lemma free_chain_ok d r rs s :
  env me [L_vdisk] s → queue_ok d (r :: rs) → vd_free (k_vdisk s) = vd_free d → vd_desc (k_vdisk s) = vd_desc d →
  free_chain (rq_head r) s =
    Ret tt (set_k_procs (woken me Ch_disk_free (k_procs s))
      (set_k_vdisk (freed (rq_status r) (freed (rq_data r) (freed (rq_head r) (k_vdisk s)))) s)).
Proof.
  intros He Hq Hf Hd. pose proof (qo_nodup _ _ Hq) as Hnd. rewrite descs_cons in Hnd.
  apply NoDup_cons in Hnd as [N0 [N1 [N2 _]%NoDup_cons]%NoDup_cons].
  apply not_elem_of_cons in N0 as [N0 [N0' _]%not_elem_of_cons]. apply not_elem_of_cons in N1 as [N1 _]. destruct (qo_req _ _ Hq r) as [F0 F1 F2 _ _]; [by left|].
  assert (∀ i, i ∈ rq_descs r → (i < NUM)%nat ∧ free_at (k_vdisk s) i = 0) as Hi.
  { intros i H. assert (i ∈ descs (r :: rs)) as Hin by (apply (elem_descs r); [by left|done]).
    pose proof (qo_range _ _ Hq i Hin) as Hlt. split; [done|]. unfold free_at. rewrite Hf. by apply (qo_free _ _ Hq). }
  destruct (Hi (rq_head r)) as [H0 Z0]; [set_solver|]. destruct (Hi (rq_data r)) as [H1 Z1]; [set_solver|].
  destruct (Hi (rq_status r)) as [H2 Z2]; [set_solver|].
  assert (∀ d', desc_at (freed (rq_head r) d') (rq_data r) = desc_at d' (rq_data r) ∧ desc_at (freed (rq_head r) d') (rq_status r) = desc_at d' (rq_status r) ∧
    desc_at (freed (rq_data r) d') (rq_status r) = desc_at d' (rq_status r)) as Hother.
  { intros d'. unfold desc_at, freed. cbn. by rewrite !list_lookup_insert_ne by done. }
  assert (∀ d', free_at (freed (rq_head r) d') (rq_data r) = free_at d' (rq_data r) ∧ free_at (freed (rq_head r) d') (rq_status r) = free_at d' (rq_status r) ∧
    free_at (freed (rq_data r) d') (rq_status r) = free_at d' (rq_status r)) as Hfree.
  { intros d'. unfold free_at, freed. cbn. by rewrite !list_lookup_insert_ne by done. }
  assert (∀ i, desc_at (k_vdisk s) i = desc_at d i) as Hdd by (intros i; unfold desc_at; by rewrite Hd).
  unfold free_chain. change NUM with 8%nat. destruct (chain_step 7 (rq_head r) s He H0 Z0) as [-> He1]. rewrite Hdd, F0. cbn [d_flags d_next]. rewrite Nat2Z.id.
  change (negb (Z.land 1 1 =? 0)) with true. cbv iota. 
  set (s1 := set_k_procs (woken me Ch_disk_free (k_procs s)) (set_k_vdisk (freed (rq_head r) (k_vdisk s)) s)) in *.
  destruct (chain_step 6 (rq_data r) s1 He1 H1) as [-> He2]; [cbn; by rewrite (proj1 (Hfree _))|].
  set (s2 := set_k_procs (woken me Ch_disk_free (k_procs s1)) (set_k_vdisk (freed (rq_data r) (k_vdisk s1)) s1)) in *.
  change (k_vdisk s1) with (freed (rq_head r) (k_vdisk s)). rewrite (proj1 (Hother _)), Hdd, F1. cbn [d_flags d_next]. rewrite Nat2Z.id.
  replace (negb (Z.land _ 1 =? 0)) with true by (by destruct (rq_write r)).
  destruct (chain_step 5 (rq_status r) s2 He2 H2) as [-> He3]; [cbn; rewrite (proj2 (proj2 (Hfree _))), (proj1 (proj2 (Hfree _))); done|].
  change (k_vdisk s2) with (freed (rq_data r) (freed (rq_head r) (k_vdisk s))).
  rewrite (proj2 (proj2 (Hother _))), (proj1 (proj2 (Hother _))), Hdd, F2. cbn [d_flags]. change (negb (Z.land 2 1 =? 0)) with false. cbv iota.
  unfold mret, M_ret. f_equal. cbn [k_procs set_k_procs set_k_vdisk]. unfold s2, s1. cbn [k_procs set_k_procs set_k_vdisk]. rewrite !woken_twice. kernel_eq.
Qed.

(** What is left of [virtio_disk_rw] when the request is done. *)
Definition finish (r : request) : M unit :=
  on_vdisk (λ d, set_vd_info_b (<[rq_head r := None]> (vd_info_b d)) d);;
  free_chain (rq_head r);;
  release L_vdisk.

Lemma alloc3_wait_ok n s idx s' : alloc3_desc s = Ret (Some idx) s' → alloc3_wait n s = Ret idx s'.
Proof. intros E. destruct n; cbn [alloc3_wait]; by rewrite (bind_Ret _ _ _ _ _ E). Qed.

(** Up to the notification of the device. *)
Lemma submit_ok b write s rs :
  env me [] s → queue_ok (k_vdisk s) rs → (3 * length rs + 3 ≤ NUM)%nat →
  ∃ r d dv, rq_buf r = b ∧ rq_write r = write ∧ rq_sector r = u32 (b_blockno (buf_of b s) * 2) ∧
    queue_ok d (r :: rs) ∧ vd_avail_idx d = u16 (vd_avail_idx (k_vdisk s) + 1) ∧
    vd_avail_ring d = <[Z.to_nat (vd_avail_idx (k_vdisk s) mod Z.of_nat NUM) := Z.of_nat (rq_head r)]> (vd_avail_ring (k_vdisk s)) ∧
    virtio_rw b write s = (disk_wait fuel b;; finish r)
      (set_k_dev dv (set_k_vdisk d (set_k_bufs (alter (set_b_disk 1) b (k_bufs s)) (acquired L_vdisk s)))).
Proof.
  intros He Hq Hn. destruct (alloc3_ok (acquired L_vdisk s) rs Hq Hn) as (i0&i1&i2&E&Ht&Hu&Hi&Hnd).
  change (k_vdisk (acquired L_vdisk s)) with (k_vdisk s) in *. set (d3 := take_free i2 _) in *.
  set (r := Request i0 i1 i2 b write (u32 (b_blockno (buf_of b s) * 2))).
  assert (queue_ok (publish r (format r d3)) (r :: rs)) as Hq' by
    (apply (queue_add (k_vdisk s)); [done|done|done|intros r' Hr'; by do 3 apply formatted_take|done|done]).
  destruct (reg_write (set_k_vdisk (publish r (format r d3)) (set_k_bufs (alter (set_b_disk 1) b (k_bufs s)) (acquired L_vdisk s)))
    VIRTIO_MMIO_QUEUE_NOTIFY (u32 0)) as [dv Edv]; [by left|].
  exists r, (publish r (format r d3)), dv. split_and!; [done..|].
  unfold virtio_rw. rewrite bind_gets. rewrite bind_acquire by (by apply (env_free _ _ _ He)).
  rewrite (bind_Ret _ _ _ _ _ (alloc3_wait_ok fuel _ _ _ E)). cbv iota beta.
  change (u32 (b_blockno (buf_of b s) * (BSIZE / 512))) with (rq_sector r).
  rewrite (bind_Ret _ _ _ _ _ (format_request_eq r _)). unfold finish, on_buf, on_vdisk. rewrite !bind_modify. unfold vwrite.
  match goal with |- (_ ≫= _) ?x = _ =>
    replace x with (set_k_vdisk (publish r (format r d3)) (set_k_bufs (alter (set_b_disk 1) b (k_bufs s)) (acquired L_vdisk s))) by kernel_eq end.
  rewrite (bind_Ret _ _ _ _ _ Edv). done.
Qed.

Lemma finish_ok r rs v u :
  env me [] v → within L_vdisk v u → length (k_procs u) = NPROC → queue_ok (k_vdisk u) (r :: rs) →
  finish r u = Ret tt (set_k_locks (k_locks v) (set_k_hart (hart_tick (k_hart v))
    (set_k_procs (woken me Ch_disk_free (k_procs u)) (set_k_vdisk (retired r (k_vdisk u)) u)))).
Proof.
  intros He Hw Hl Hq. unfold finish, on_vdisk. rewrite bind_modify.
  set (u1 := set_k_vdisk _ u). assert (env me [L_vdisk] u1) as He1 by (by apply (within_env me L_vdisk v)).
  rewrite (bind_Ret _ _ _ _ _ (free_chain_ok (k_vdisk u) r rs u1 He1 Hq eq_refl eq_refl)).
  destruct Hw as [Hlk Hh]. rewrite (release_eq L_vdisk v); [|by apply (env_free _ _ _ He)|by apply (env_hart _ _ _ He)|exact Hlk|exact Hh].
  done.
Qed.

Lemma disk_wait_done n b u : b_disk (buf_of b u) = 0 → disk_wait n b u = Ret tt u.
Proof. intros E. destruct n; cbn [disk_wait]; rewrite bind_gets, E; done. Qed.

(** The request is out and the process sleeps; when it runs again and the device
    is done, the chain is released. *)
Lemma virtio_rw_ok b write s rs n :
  env me [] s → queue_ok (k_vdisk s) rs → (3 * length rs + 3 ≤ NUM)%nat → (b < length (k_bufs s))%nat → fuel = S n →
  ∃ r t k, virtio_rw b write s = Block t k ∧
    rq_buf r = b ∧ rq_write r = write ∧ rq_sector r = u32 (b_blockno (buf_of b s) * 2) ∧ queue_ok (k_vdisk t) (r :: rs) ∧
    vd_avail_idx (k_vdisk t) = u16 (vd_avail_idx (k_vdisk s) + 1) ∧
    vd_avail_ring (k_vdisk t) = <[Z.to_nat (vd_avail_idx (k_vdisk s) mod Z.of_nat NUM) := Z.of_nat (rq_head r)]> (vd_avail_ring (k_vdisk s)) ∧
    k_bufs t = alter (set_b_disk 1) b (k_bufs s) ∧ k_procs t = asleep me (Ch_buf b) (k_procs s) ∧ within (L_proc me) s t ∧
    ∀ u v rs', given_back me (Z.b2z (intr_enabled (k_hart s))) u v → length (k_procs u) = NPROC →
      b_disk (buf_of b u) = 0 → queue_ok (k_vdisk u) (r :: rs') →
      k u = Ret tt (set_k_locks (k_locks v) (set_k_hart (hart_tick (k_hart v))
        (set_k_procs (woken me Ch_disk_free (alter (set_p_chan Ch_null) me (k_procs u)))
          (set_k_vdisk (retired r (k_vdisk u)) u)))).
Proof.
  intros He Hq Hn Hb Hfuel. destruct (submit_ok b write s rs He Hq Hn) as (r&d&dv&R1&R2&R3&Hq'&Hi&Hr&E).
  set (t0 := set_k_dev dv _) in E. assert (within L_vdisk s t0) as Hw by done.
  assert (b_disk (buf_of b t0) = 1) as Hd.
  { unfold buf_of. change (k_bufs t0) with (alter (set_b_disk 1) b (k_bufs s)). rewrite list_lookup_alter_eq.
    destruct (lookup_lt_is_Some_2 _ _ Hb) as [x ->]. done. }
  assert (length (k_procs t0) = NPROC) as Hl by apply (env_len _ _ _ He).
  pose proof (sleep_eq me (Ch_buf b) L_vdisk s t0 He eq_refl ltac:(done) Hw Hl) as Hs.
  set (t := set_k_procs (asleep me (Ch_buf b) (k_procs t0)) _) in Hs. rewrite saved_bit in Hs by (by rewrite (env_noff _ _ _ He)).
  exists r, t, ((sleep_back me L_vdisk (Z.b2z (intr_enabled (k_hart s)));; disk_wait n b) ≫= λ _, finish r).
  refine (conj _ (conj R1 (conj R2 (conj R3 (conj Hq' (conj Hi (conj Hr (conj eq_refl (conj eq_refl (conj (conj eq_refl eq_refl) _)))))))))).
  - rewrite E. apply bind_Block. rewrite Hfuel. cbn [disk_wait]. rewrite bind_gets, Hd. cbn [Z.eqb]. by apply bind_Block.
  - intros u v rs' Hg Hlu Hdu Hqu. rewrite (bind_assoc _ _ _ _ _ _ (sleep_back_eq me L_vdisk _ u v Hg eq_refl)).
    set (w := acquired L_vdisk _). rewrite (bind_Ret _ _ _ _ _ (disk_wait_done n b w Hdu)).
    destruct Hg as (Hv&_&_). rewrite (finish_ok r rs' (tick v) w); [|by apply env_tick|done|cbn; by rewrite length_alter|done].
    f_equal. unfold w, tick. change (k_hart (set_k_hart (hart_tick (k_hart v)) v)) with (hart_tick (k_hart v)). rewrite hart_tick_idemp.
    unfold acquired, put_lock. kernel_eq.
Qed.

(** ** The interrupt *)

Definition done_bufs (rs : list request) (bs : list buf) : list buf := foldl (λ bs r, alter (set_b_disk 0) (rq_buf r) bs) bs rs.
Definition done_procs (rs : list request) (ps : list proc) : list proc := foldl (λ ps r, woken me (Ch_buf (rq_buf r)) ps) ps rs.

(** The used ring has the requests [done], with status 0, from the driver's
    index on. *)
Record reported (d : vdisk) (rs done : list request) : Prop := {
  rp_idx : 0 ≤ vd_used_idx d < 65536 ∧ 0 ≤ vd_used_hw d < 65536;
  rp_count : u16 (vd_used_hw d - vd_used_idx d) = Z.of_nat (length done);
  rp_done k r : done !! k = Some r →
    r ∈ rs ∧ vd_used_ring d !! Z.to_nat ((vd_used_idx d + Z.of_nat k) mod Z.of_nat NUM) = Some (Z.of_nat (rq_head r)) ∧
    vd_info_status d !! rq_head r = Some 0;
}.

Lemma reported_next d rs r done :
  reported d rs (r :: done) → reported (set_vd_used_idx (u16 (vd_used_idx d + 1)) d) rs done.
Proof.
  intros [Hi Hc Hd]. change (length (r :: done)) with (S (length done)) in Hc. split; cbn.
  - unfold u16 in *. zdm.
  - unfold u16 in *. zdm.
  - intros k x Hk. destruct (Hd (S k) x Hk) as (H1&H2&H3). split_and!; [done| |done]. rewrite <-H2. do 2 f_equal.
    change (Z.of_nat NUM) with 8. unfold u16. zdm.
Qed.

Lemma queue_used d rs x : queue_ok d rs → queue_ok (set_vd_used_idx x d) rs.
Proof. intros [[] Q2 Q3 Q4 Q5]. split; [by split|done..|]. intros r Hr. by destruct (Q5 r Hr). Qed.

Lemma disk_intr_loop_ok rs done : ∀ s,
  env me [L_vdisk] s → queue_ok (k_vdisk s) rs → reported (k_vdisk s) rs done →
  disk_intr_loop (length done) s = Ret tt (set_k_procs (done_procs done (k_procs s))
    (set_k_bufs (done_bufs done (k_bufs s)) (set_k_vdisk (set_vd_used_idx (vd_used_hw (k_vdisk s)) (k_vdisk s)) s))).
Proof.
  induction done as [|r done IH]; intros s He Hq Hrep; cbn [length disk_intr_loop]; rewrite bind_gets.
  - pose proof (rp_idx _ _ _ Hrep) as Hi. pose proof (rp_count _ _ _ Hrep) as Hc. cbn in Hc.
    assert (vd_used_idx (k_vdisk s) = vd_used_hw (k_vdisk s)) as E by (unfold u16 in Hc; zdm). rewrite <-E, Z.eqb_refl.
    unfold mret, M_ret. f_equal. destruct s as [? ? ? ? ? ? ? ? ? ? ? ? ? ? ? ? ? ? ? ? d ? ? ? ? ? ? ?]. by destruct d.
  - pose proof (rp_idx _ _ _ Hrep) as Hi. pose proof (rp_count _ _ _ Hrep) as Hc.
    destruct (rp_done _ _ _ Hrep 0%nat r eq_refl) as (Hr&Hring&Hst). rewrite Z.add_0_r in Hring.
    assert ((vd_used_idx (k_vdisk s) =? vd_used_hw (k_vdisk s)) = false) as ->.
    { apply Z.eqb_neq. intros E. rewrite E, Z.sub_diag in Hc. change (0 = Z.of_nat (S (length done))) in Hc. lia. }
    rewrite Hring. cbn [from_option id]. rewrite Nat2Z.id, Hst. cbn [from_option id Z.eqb negb]. rewrite (fm_buf _ _ (qo_req _ _ Hq r Hr)). cbn [mjoin option_join deref].
    rewrite bind_mret. unfold on_buf. rewrite bind_modify.
    set (s1 := set_k_bufs _ s). assert (env me [L_vdisk] s1) as He1 by (by apply (env_ext me [L_vdisk] s); [|left|..]).
    rewrite (bind_Ret _ _ _ _ _ (wakeup_eq me [L_vdisk] (Ch_buf (rq_buf r)) s1 He1 ltac:(by intros j ?%list_elem_of_singleton))).
    assert (∀ ps, length ps = length (k_procs s) → tick (set_k_procs ps s1) = set_k_procs ps s1) as Htick.
    { intros ps Hps. apply (env_tick_id me L_vdisk []). by apply (env_ext me [L_vdisk] s1); [|left|..]. }
    rewrite Htick by apply length_woken. unfold on_vdisk. rewrite bind_modify. rewrite IH.
    + done.
    + apply (env_ext me [L_vdisk] s); [done|by left|done|apply length_woken].
    + by apply queue_used.
    + by apply (reported_next _ _ r).
Qed.

Lemma done_bufs_lookup rs bs b :
  done_bufs rs bs !! b = (λ x, if decide (b ∈ rq_buf <$> rs) then set_b_disk 0 x else x) <$> bs !! b.
Proof.
  revert bs. induction rs as [|r rs IH]; intros bs; cbn [done_bufs foldl].
  - destruct (bs !! b) as [x|]; [|done]. cbn [fmap option_fmap option_map]. rewrite decide_False; [done|]. apply not_elem_of_nil.
  - fold (done_bufs rs (alter (set_b_disk 0) (rq_buf r) bs)). rewrite IH. destruct (decide (b = rq_buf r)) as [->|Hne].
    + rewrite list_lookup_alter_eq. destruct (bs !! rq_buf r) as [x|]; [|done]. cbn. f_equal.
      case_decide; (case_decide as Hin; [by destruct x|]); exfalso; apply Hin; by left.
    + rewrite list_lookup_alter_ne by done. destruct (bs !! b) as [x|]; [|done]. cbn. f_equal.
      case_decide as H1; case_decide as H2; try done; exfalso; [apply H2; by right|]. apply elem_of_cons in H2 as [?|?]; done.
Qed.

Lemma done_procs_lookup rs ps i :
  done_procs rs ps !! i = (λ p, if decide (i ≠ me ∧ p_state p = SLEEPING ∧ Exists (λ r, p_chan p = Ch_buf (rq_buf r)) rs)
    then set_p_state RUNNABLE p else p) <$> ps !! i.
Proof.
  revert ps. induction rs as [|r rs IH]; intros ps; cbn [done_procs foldl].
  - destruct (ps !! i) as [p|]; [|done]. cbn. rewrite decide_False; [done|]. by intros (_&_&?%Exists_nil).
  - fold (done_procs rs (woken me (Ch_buf (rq_buf r)) ps)). rewrite IH. unfold woken. rewrite list_lookup_imap.
    destruct (ps !! i) as [p|]; [|done]. cbn. f_equal. unfold wakes.
    destruct (decide (i ≠ me ∧ p_state p = SLEEPING ∧ p_chan p = Ch_buf (rq_buf r))) as [(H1&H2&H3)|H].
    + assert (negb (bool_decide (i = me)) && bool_decide (p_state p = SLEEPING) && bool_decide (p_chan p = Ch_buf (rq_buf r)) = true) as ->.
      { repeat case_bool_decide; naive_solver. }
      rewrite decide_False by (cbn; naive_solver).
      rewrite decide_True; [done|]. split_and!; [done|done|]. by left.
    + assert (negb (bool_decide (i = me)) && bool_decide (p_state p = SLEEPING) && bool_decide (p_chan p = Ch_buf (rq_buf r)) = false) as ->.
      { repeat case_bool_decide; naive_solver. }
      destruct (decide (i ≠ me ∧ p_state p = SLEEPING ∧ Exists _ rs)) as [(H1&H2&H3)|H'].
      * rewrite decide_True; [done|]. split_and!; [done|done|by right].
      * rewrite decide_False; [done|]. intros (H1&H2&[H3|H3]%Exists_cons); naive_solver.
Qed.

Lemma disk_intr_ok s rs done :
  env me [] s → queue_ok (k_vdisk s) rs → reported (k_vdisk s) rs done →
  ∃ dv, virtio_disk_intr s = Ret tt (set_k_locks (k_locks s) (set_k_hart (hart_tick (k_hart s))
    (set_k_procs (done_procs done (k_procs s)) (set_k_bufs (done_bufs done (k_bufs s))
      (set_k_vdisk (set_vd_used_idx (vd_used_hw (k_vdisk s)) (k_vdisk s)) (set_k_dev dv (acquired L_vdisk s))))))).
Proof.
  intros He Hq Hrep. unfold virtio_disk_intr. rewrite bind_acquire by (by apply (env_free _ _ _ He)).
  destruct (reg_status (acquired L_vdisk s)) as (st&d1&E1). unfold vread. rewrite (bind_Ret _ _ _ _ _ E1).
  destruct (reg_write (set_k_dev d1 (acquired L_vdisk s)) VIRTIO_MMIO_INTERRUPT_ACK (u32 (Z.land st 3))) as [d2 E2]; [by right|].
  unfold vwrite. rewrite (bind_Ret _ _ _ _ _ E2), bind_gets. exists d2.
  set (s1 := set_k_dev d2 _). change (k_vdisk s1) with (k_vdisk s). rewrite (rp_count _ _ _ Hrep), Nat2Z.id.
  assert (env me [L_vdisk] s1) as He1 by (apply (within_env me L_vdisk s); [done|done|apply (env_len _ _ _ He)]).
  rewrite (bind_Ret _ _ _ _ _ (disk_intr_loop_ok rs done s1 He1 Hq Hrep)).
  rewrite (release_eq L_vdisk s); [|by apply (env_free _ _ _ He)|by apply (env_hart _ _ _ He)|done|done]. done.
Qed.

End operations.

(** ** Contracts *)

Section contracts.
Context (me : nat) {FU : Fuel} {U : Mmio} {V : VirtioRegs U}.

(** C20: with room in the queue, virtio_disk_rw gives its request a chain of three
    free descriptors, which the device can read as the request for the buffer's
    block, enters the head of the chain in the available ring, marks the buffer as
    the device's and sleeps on it without the driver's lock. When it is woken with
    the buffer given back, whatever other requests came and went, it returns, its
    three descriptors are free again and all other requests are as they were. *)
Theorem virtio_rw_correct b write s rs :
  env me [] s → queue_ok (k_vdisk s) rs → (3 * length rs + 3 ≤ NUM)%nat → (b < length (k_bufs s))%nat → (0 < fuel)%nat →
  ∃ r t k, virtio_rw b write s = Block t k ∧
    rq_buf r = b ∧ rq_write r = write ∧ rq_sector r = u32 (b_blockno (buf_of b s) * 2) ∧ queue_ok (k_vdisk t) (r :: rs) ∧
    vd_avail_idx (k_vdisk t) = u16 (vd_avail_idx (k_vdisk s) + 1) ∧
    vd_avail_ring (k_vdisk t) = <[Z.to_nat (vd_avail_idx (k_vdisk s) mod Z.of_nat NUM) := Z.of_nat (rq_head r)]> (vd_avail_ring (k_vdisk s)) ∧
    k_bufs t = alter (set_b_disk 1) b (k_bufs s) ∧ k_procs t = asleep me (Ch_buf b) (k_procs s) ∧ within (L_proc me) s t ∧
    ∀ u v rs', given_back me (Z.b2z (intr_enabled (k_hart s))) u v → length (k_procs u) = NPROC →
      b_disk (buf_of b u) = 0 → queue_ok (k_vdisk u) (r :: rs') →
      ∃ w, k u = Ret tt w ∧ queue_ok (k_vdisk w) rs' ∧ k_bufs w = k_bufs u ∧ env me [] w.
Proof.
  intros He Hq Hn Hb Hf. destruct fuel as [|n] eqn:Hfuel; [lia|].
  destruct (virtio_rw_ok me b write s rs n He Hq Hn Hb Hfuel) as (r&t&k&H1&H2&H3&H4&H5&H6&H7&H8&H9&H10&H11).
  exists r, t, k. do 10 (split; [done|]). intros u v rs' Hg Hl Hd Hqu. eexists. split; [by apply (H11 u v rs')|].
  split; [by apply queue_retire|]. split; [done|]. destruct Hg as (Hv&_&_).
  apply (env_ext me [] v); [done|by right|done|]. cbn. rewrite length_woken, length_alter, Hl. symmetry. apply (env_len _ _ _ Hv).
Qed.

(** C21: for every request the device reported done, the interrupt handler gives the
    buffer back and makes its sleeper runnable; other buffers and processes, and
    the queue, are as they were, and nothing is left to report. *)
Theorem virtio_disk_intr_correct s rs done :
  env me [] s → queue_ok (k_vdisk s) rs → reported (k_vdisk s) rs done →
  ∃ w, virtio_disk_intr s = Ret tt w ∧ queue_ok (k_vdisk w) rs ∧ reported (k_vdisk w) rs [] ∧ env me [] w ∧
    (∀ b, k_bufs w !! b = (λ x, if decide (b ∈ rq_buf <$> done) then set_b_disk 0 x else x) <$> k_bufs s !! b) ∧
    (∀ i, k_procs w !! i = (λ p, if decide (i ≠ me ∧ p_state p = SLEEPING ∧ Exists (λ r, p_chan p = Ch_buf (rq_buf r)) done)
      then set_p_state RUNNABLE p else p) <$> k_procs s !! i).
Proof.
  intros He Hq Hrep. destruct (disk_intr_ok me s rs done He Hq Hrep) as [dv E]. eexists. split; [exact E|].
  split; [by apply queue_used|]. split; [|split; [|split; [apply done_bufs_lookup|apply done_procs_lookup]]].
  - destruct (rp_idx _ _ _ Hrep) as [H1 H2]. split; [cbn; lia|cbn; by rewrite Z.sub_diag|done].
  - apply (env_ext me [] s); [done|by right|done|]. cbn. unfold done_procs. clear.
    generalize (k_procs s). induction done as [|r done IH]; intros ps; [done|]. cbn. rewrite IH. apply length_woken.
Qed.

End contracts.

(** ** Examples *)

#[export] Instance slow_regs : VirtioRegs slow_uart.
Proof.
  split.
  - intros s r v Hr. exists (k_dev s). cbn. assert ((VIRTIO0 + r =? UART0 + THR) = false) as -> by (destruct Hr as [->| ->]; done).
    f_equal. by destruct s.
  - intros s. exists 0, (k_dev s). cbn. f_equal. by destruct s.
Qed.

(** All descriptors free. *)
Definition disk_kernel : kernel := set_k_vdisk (set_vd_free (replicate NUM 1) (k_vdisk zero_kernel)) running_kernel.

Lemma disk_kernel_queue : queue_ok (k_vdisk disk_kernel) [].
Proof.
  split; [by split|apply NoDup_nil_2|by intros i ?%elem_of_nil| |by intros r ?%elem_of_nil].
  intros i Hi. unfold free_at. cbn. split; [|by intros ?%elem_of_nil]. unfold NUM in Hi.
  do 8 (destruct i as [|i]; [done|]). lia.
Qed.

Lemma disk_kernel_env : env 0 [] disk_kernel.
Proof. by apply (env_ext 0 [] running_kernel); [apply running_env|left|..]. Qed.

(** A read of buffer 3 on an idle disk. *)
Lemma virtio_rw_correct_witness :
  env 0 [] disk_kernel ∧ ∃ t k, @virtio_rw 1%nat slow_uart 3%nat false disk_kernel = Block t k ∧ vd_avail_idx (k_vdisk t) = 1.
Proof.
  split; [exact disk_kernel_env|].
  destruct (@virtio_rw_correct 0 1%nat slow_uart slow_regs 3%nat false disk_kernel [] disk_kernel_env disk_kernel_queue)
    as (r&t&k&E&_&_&_&_&Hi&_); [unfold NUM; cbn; lia|cbn; lia|exact Nat.lt_0_1|].
  exists t, k. split; [exact E|exact Hi].
Defined.

(** The interrupt for one finished request, on descriptors 0, 1 and 2. *)
Definition example_request : request := Request 0 1 2 3 false 14.
Definition example_disk : vdisk :=
  let d := take_free 2 (take_free 1 (take_free 0 (k_vdisk disk_kernel))) in
  set_vd_info_status (replicate NUM 0) (set_vd_used_hw 1 (publish example_request (format example_request d))).
Definition busy_kernel : kernel := set_k_bufs (alter (set_b_disk 1) 3%nat (k_bufs disk_kernel)) (set_k_vdisk example_disk disk_kernel).

Lemma busy_queue : queue_ok example_disk [example_request].
Proof.
  split; [by split| | | |].
  - apply NoDup_ListNoDup. repeat constructor; cbn; lia.
  - intros i. cbn. rewrite !elem_of_cons, elem_of_nil. unfold NUM. lia.
  - intros i Hi. unfold free_at. unfold NUM in Hi. cbn [descs rq_descs fmap list_fmap concat example_request rq_head rq_data rq_status app].
    do 8 (destruct i as [|i]; [cbn; rewrite !elem_of_cons, elem_of_nil; lia|]). lia.
  - intros r ->%list_elem_of_singleton. by split.
Qed.

Lemma virtio_disk_intr_correct_witness :
  ∃ w, @virtio_disk_intr slow_uart busy_kernel = Ret tt w ∧ b_disk (buf_of 3 busy_kernel) = 1 ∧ b_disk (buf_of 3 w) = 0.
Proof.
  destruct (@virtio_disk_intr_correct 0 slow_uart slow_regs busy_kernel [example_request] [example_request]) as (w&E&_&_&_&Hb&_).
  - by apply (env_ext 0 [] disk_kernel); [apply disk_kernel_env|left|..].
  - exact busy_queue.
  - split; [cbn; lia|done|]. intros [|k] r Hk; [|by destruct k]. injection Hk as <-. split; [by left|]. done.
  - exists w. split; [exact E|]. split; [done|]. unfold buf_of. rewrite Hb. vm_compute. done.
Defined.
