(* ===== verification/Sysfile.v ===== *)
(** * kernel/sysfile.c: file system calls *)

From S2P Require Import Prelude State Mem Kstring Spinlock Kalloc Vm Proc Uart Printf Console.
From S2P Require Import Sleeplock Bio Log Fs Pipe File Exec.

(** ** Model *)

Section model.
Context `{Image} `{Fuel} `{Disk} `{Mmio}.

(** The descriptor and the file of argument [n], or [None] for -1. *)
Definition argfd (n : Z) : M (option (Z * nat)) :=
  fd ← argint n;
  if (fd <? 0) || (Z.of_nat NOFILE <=? fd) then mret None
  else
    p ← myproc;
    i ← deref p;
    f ← gets (λ s, mjoin (p_ofile (proc_of i s) !! Z.to_nat fd));
    mret (match f with Some f => Some (fd, f) | None => None end).

Definition set_ofile (i : nat) (fd : nat) (f : option nat) : M unit :=
  on_proc i (λ p, set_p_ofile (<[fd := f]> (p_ofile p)) p).

Fixpoint fdalloc_loop (l : list nat) (i f : nat) : M (option nat) :=
  match l with
  | [] => mret None
  | fd :: l' =>
      x ← gets (λ s, mjoin (p_ofile (proc_of i s) !! fd));
      match x with
      | None => set_ofile i fd (Some f);; mret (Some fd)
      | Some _ => fdalloc_loop l' i f
      end
  end.

Definition fdalloc (f : nat) : M (option nat) :=
  p ← myproc;
  i ← deref p;
  fdalloc_loop (seq 0 NOFILE) i f.

Definition sys_dup : M Z :=
  a ← argfd 0;
  match a with
  | None => mret (-1)
  | Some (_, f) =>
      fd ← fdalloc f;
      match fd with
      | None => mret (-1)
      | Some fd => _ ← filedup f; mret (Z.of_nat fd)
      end
  end.

Definition sys_read : M Z :=
  p ← argaddr 1;
  n ← argint 2;
  a ← argfd 0;
  match a with None => mret (-1) | Some (_, f) => fileread f p n end.

Definition sys_write : M Z :=
  p ← argaddr 1;
  n ← argint 2;
  a ← argfd 0;
  match a with None => mret (-1) | Some (_, f) => filewrite f p n end.

Definition sys_close : M Z :=
  a ← argfd 0;
  match a with
  | None => mret (-1)
  | Some (fd, f) =>
      p ← myproc;
      i ← deref p;
      set_ofile i (Z.to_nat fd) None;;
      fileclose f;;
      mret 0
  end.

Definition sys_fstat : M Z :=
  st ← argaddr 1;
  a ← argfd 0;
  match a with None => mret (-1) | Some (_, f) => filestat f st end.

(** [ip->nlink += d; iupdate(ip)]. *)
Definition add_nlink (ip : nat) (d : Z) : M unit :=
  on_inode ip (λ x, set_i_nlink (i16 (i_nlink x + d)) x);;
  iupdate ip.

(** The [bad] label of [sys_link]. *)
Definition link_bad (ip : nat) : M Z :=
  ilock (Some ip);;
  add_nlink ip (-1);;
  iunlockput ip;;
  end_op;;
  mret (-1).

Definition empty_name : list Z := replicate (Z.to_nat DIRSIZ) 0.

Definition sys_link : M Z :=
  old ← argstr 0 MAXPATH;
  match old with
  | None => mret (-1)
  | Some old =>
      new ← argstr 1 MAXPATH;
      match new with
      | None => mret (-1)
      | Some new =>
          begin_op;;
          ip ← namei old;
          match ip with
          | None => end_op;; mret (-1)
          | Some ip =>
              ilock (Some ip);;
              type ← gets (λ s, i_type (inode_of ip s));
              if type =? T_DIR then iunlockput ip;; end_op;; mret (-1)
              else
                add_nlink ip 1;;
                iunlock (Some ip);;
                r ← nameiparent new empty_name;
                match r with
                | (None, _) => link_bad ip
                | (Some dp, name) =>
                    ilock (Some dp);;
                    d ← gets (λ s, i_dev (inode_of dp s));
                    d' ← gets (λ s, i_dev (inode_of ip s));
                    inum ← gets (λ s, i_inum (inode_of ip s));
                    bad ← (if negb (d =? d') then mret true
                           else r ← dirlink dp name inum; mret (r <? 0));
                    if (bad : bool) then iunlockput dp;; link_bad ip
                    else iunlockput dp;; iput ip;; end_op;; mret 0
                end
          end
      end
  end.

Fixpoint isdirempty_loop (k : nat) (dp : nat) (off : Z) : M bool :=
  size ← gets (λ s, i_size (inode_of dp s));
  if negb (off <? size) then mret true
  else
    match k with
    | O => out_of_fuel
    | S k' =>
        r ← readi dp false image_local off sizeof_dirent;
        if negb (r =? sizeof_dirent) then panic "isdirempty: readi"
        else
          inum ← de_inum;
          if negb (inum =? 0) then mret false else isdirempty_loop k' dp (off + sizeof_dirent)
    end.

Definition isdirempty (dp : nat) : M bool :=
  size ← gets (λ s, i_size (inode_of dp s));
  isdirempty_loop (S (Z.to_nat (size / sizeof_dirent))) dp (2 * sizeof_dirent).

(** The [bad] label of [sys_unlink]. *)
Definition unlink_bad (dp : nat) : M Z := iunlockput dp;; end_op;; mret (-1).

Definition sys_unlink : M Z :=
  path ← argstr 0 MAXPATH;
  match path with
  | None => mret (-1)
  | Some path =>
      begin_op;;
      r ← nameiparent path empty_name;
      match r with
      | (None, _) => end_op;; mret (-1)
      | (Some dp, name) =>
          ilock (Some dp);;
          if (namecmp name (str_bytes ".") =? 0) || (namecmp name (str_bytes "..") =? 0)
          then unlink_bad dp
          else
            found ← dirlookup dp name;
            match found with
            | None => unlink_bad dp
            | Some (ip, off) =>
                ilock (Some ip);;
                x ← gets (inode_of ip);
                if i_nlink x <? 1 then panic "unlink: nlink < 1"
                else
                  full ← (if i_type x =? T_DIR then e ← isdirempty ip; mret (negb e)
                          else mret false);
                  if (full : bool) then iunlockput ip;; unlink_bad dp
                  else
                    on_mem (λ m, memset m image_local 0 sizeof_dirent);;
                    r ← writei dp false image_local off sizeof_dirent;
                    if negb (r =? sizeof_dirent) then panic "unlink: writei"
                    else
                      type ← gets (λ s, i_type (inode_of ip s));
                      when (type =? T_DIR) (add_nlink dp (-1));;
                      iunlockput dp;;
                      add_nlink ip (-1);;
                      iunlockput ip;;
                      end_op;;
                      mret 0
            end
      end
  end.

(** The [fail] label of [create]. *)
Definition create_fail (ip dp : nat) : M (option nat) :=
  on_inode ip (set_i_nlink 0);;
  iupdate ip;;
  iunlockput ip;;
  iunlockput dp;;
  mret None.

Definition create (path : list Z) (type major minor : Z) : M (option nat) :=
  r ← nameiparent path empty_name;
  match r with
  | (None, _) => mret None
  | (Some dp, name) =>
      ilock (Some dp);;
      found ← dirlookup dp name;
      match found with
      | Some (ip, _) =>
          iunlockput dp;;
          ilock (Some ip);;
          t ← gets (λ s, i_type (inode_of ip s));
          if (type =? T_FILE) && ((t =? T_FILE) || (t =? T_DEVICE)) then mret (Some ip)
          else iunlockput ip;; mret None
      | None =>
          dev ← gets (λ s, i_dev (inode_of dp s));
          ip ← ialloc dev type;
          match ip with
          | None => iunlockput dp;; mret None
          | Some ip =>
              ilock (Some ip);;
              on_inode ip (λ x, set_i_nlink 1 (set_i_minor minor (set_i_major major x)));;
              iupdate ip;;
              inum ← gets (λ s, i_inum (inode_of ip s));
              dnum ← gets (λ s, i_inum (inode_of dp s));
              bad ← (if type =? T_DIR then
                       r ← dirlink ip (str_bytes ".") inum;
                       if r <? 0 then mret true
                       else r ← dirlink ip (str_bytes "..") dnum; mret (r <? 0)
                     else mret false);
              if (bad : bool) then create_fail ip dp
              else
                r ← dirlink dp name inum;
                if r <? 0 then create_fail ip dp
                else
                  when (type =? T_DIR) (add_nlink dp 1);;
                  iunlockput dp;;
                  mret (Some ip)
          end
      end
  end.

(** [sys_open] up to the locked inode, or [None] when it returns -1. *)
Definition open_inode (path : list Z) (omode : Z) : M (option nat) :=
  if negb (Z.land omode O_CREATE =? 0) then
    ip ← create path T_FILE 0 0;
    match ip with None => end_op;; mret None | Some ip => mret (Some ip) end
  else
    ip ← namei path;
    match ip with
    | None => end_op;; mret None
    | Some ip =>
        ilock (Some ip);;
        type ← gets (λ s, i_type (inode_of ip s));
        if (type =? T_DIR) && negb (omode =? O_RDONLY)
        then iunlockput ip;; end_op;; mret None
        else mret (Some ip)
    end.

(** The file and descriptor for the opened inode. *)
Definition open_file (ip : nat) (omode : Z) : M Z :=
  f ← filealloc;
  fd ← (match f with Some f => fdalloc f | None => mret None end);
  match f, fd with
  | Some f, Some fd =>
      x ← gets (inode_of ip);
      (if i_type x =? T_DEVICE
       then on_file f (λ ff, set_f_major (i_major x) (set_f_type FD_DEVICE ff))
       else on_file f (λ ff, set_f_off 0 (set_f_type FD_INODE ff)));;
      on_file f (set_f_ip (Some ip));;
      on_file f (set_f_readable (Z.b2z (Z.land omode O_WRONLY =? 0)));;
      on_file f (set_f_writable
        (Z.b2z (negb (Z.land omode O_WRONLY =? 0) || negb (Z.land omode O_RDWR =? 0))));;
      when (negb (Z.land omode O_TRUNC =? 0) && (i_type x =? T_FILE)) (itrunc ip);;
      iunlock (Some ip);;
      end_op;;
      mret (Z.of_nat fd)
  | _, _ =>
      (match f with Some f => fileclose f | None => mret tt end);;
      iunlockput ip;;
      end_op;;
      mret (-1)
  end.

Definition sys_open : M Z :=
  omode ← argint 1;
  path ← argstr 0 MAXPATH;
  match path with
  | None => mret (-1)
  | Some path =>
      begin_op;;
      ip ← open_inode path omode;
      match ip with
      | None => mret (-1)
      | Some ip =>
          x ← gets (inode_of ip);
          if (i_type x =? T_DEVICE) && ((i_major x <? 0) || (NDEV <=? i_major x))
          then iunlockput ip;; end_op;; mret (-1)
          else open_file ip omode
      end
  end.

Definition sys_mkdir : M Z :=
  begin_op;;
  path ← argstr 0 MAXPATH;
  ip ← (match path with Some path => create path T_DIR 0 0 | None => mret None end);
  match ip with
  | None => end_op;; mret (-1)
  | Some ip => iunlockput ip;; end_op;; mret 0
  end.

Definition sys_mknod : M Z :=
  begin_op;;
  major ← argint 1;
  minor ← argint 2;
  path ← argstr 0 MAXPATH;
  ip ← (match path with
        | Some path => create path T_DEVICE (i16 major) (i16 minor)
        | None => mret None
        end);
  match ip with
  | None => end_op;; mret (-1)
  | Some ip => iunlockput ip;; end_op;; mret 0
  end.

Definition sys_chdir : M Z :=
  p ← myproc;
  begin_op;;
  path ← argstr 0 MAXPATH;
  ip ← (match path with Some path => namei path | None => mret None end);
  match ip with
  | None => end_op;; mret (-1)
  | Some ip =>
      ilock (Some ip);;
      type ← gets (λ s, i_type (inode_of ip s));
      if negb (type =? T_DIR) then iunlockput ip;; end_op;; mret (-1)
      else
        iunlock (Some ip);;
        i ← deref p;
        cwd ← gets (λ s, p_cwd (proc_of i s));
        cwd ← deref cwd;
        iput cwd;;
        end_op;;
        on_proc i (set_p_cwd (Some ip));;
        mret 0
  end.

(** The loop of [sys_exec] that fetches the arguments, [k] of them left to
    try: the pages filled so far, and whether the terminating null came. *)
Fixpoint fetch_argv (k : nat) (uargv i : Z) (argv : list Z) : M (bool * list Z) :=
  match k with
  | O => mret (false, argv)
  | S k' =>
      uarg ← fetchaddr (u64 (uargv + 8 * i));
      match uarg with
      | None => mret (false, argv)
      | Some uarg =>
          if uarg =? 0 then mret (true, argv)
          else
            page ← kalloc;
            if page =? 0 then mret (false, argv)
            else
              r ← fetchstr uarg PGSIZE;
              on_mem (λ m, st_bytes m page r.2);;
              if negb r.1 then mret (false, argv ++ [page])
              else fetch_argv k' uargv (i + 1) (argv ++ [page])
      end
  end.

Definition sys_exec : M Z :=
  uargv ← argaddr 1;
  path ← argstr 0 MAXPATH;
  match path with
  | None => mret (-1)
  | Some path =>
      r ← fetch_argv MAXARG uargv 0 [];
      if negb r.1 then for_each r.2 kfree;; mret (-1)
      else
        ret ← exec path r.2;
        for_each r.2 kfree;;
        mret ret
  end.

Definition sys_pipe : M Z :=
  p ← myproc;
  fdarray ← argaddr 0;
  fs ← pipealloc;
  match fs with
  | None => mret (-1)
  | Some (rf, wf) =>
      i ← deref p;
      fd0 ← fdalloc rf;
      fd1 ← (match fd0 with Some _ => fdalloc wf | None => mret None end);
      match fd0, fd1 with
      | Some fd0, Some fd1 =>
          pagetable ← gets (λ s, p_pagetable (proc_of i s));
          r ← copyout pagetable fdarray (to_le 4 (Z.of_nat fd0));
          r ← (if r <? 0 then mret r
               else copyout pagetable (u64 (fdarray + 4)) (to_le 4 (Z.of_nat fd1)));
          if r <? 0 then
            set_ofile i fd0 None;;
            set_ofile i fd1 None;;
            fileclose rf;;
            fileclose wf;;
            mret (-1)
          else mret 0
      | fd0, _ =>
          (match fd0 with Some fd0 => set_ofile i fd0 None | None => mret tt end);;
          fileclose rf;;
          fileclose wf;;
          mret (-1)
      end
  end.

End model.
