(* ===== verification/Syscall.v ===== *)
(** * kernel/sysproc.c and the dispatch of syscall.c *)

From S2P Require Import Prelude State Mem Kstring Spinlock Kalloc Vm Proc Uart Printf Console.
From S2P Require Import Sleeplock Bio Log Fs Pipe File Exec ProcLife Sysfile.

(** ** Model *)

(** syscall.h *)
Notation SYS_fork := 1%Z (only parsing).
Notation SYS_exit := 2%Z (only parsing).
Notation SYS_wait := 3%Z (only parsing).
Notation SYS_pipe := 4%Z (only parsing).
Notation SYS_read := 5%Z (only parsing).
Notation SYS_kill := 6%Z (only parsing).
Notation SYS_exec := 7%Z (only parsing).
Notation SYS_fstat := 8%Z (only parsing).
Notation SYS_chdir := 9%Z (only parsing).
Notation SYS_dup := 10%Z (only parsing).
Notation SYS_getpid := 11%Z (only parsing).
Notation SYS_sbrk := 12%Z (only parsing).
Notation SYS_sleep := 13%Z (only parsing).
Notation SYS_uptime := 14%Z (only parsing).
Notation SYS_open := 15%Z (only parsing).
Notation SYS_write := 16%Z (only parsing).
Notation SYS_mknod := 17%Z (only parsing).
Notation SYS_unlink := 18%Z (only parsing).
Notation SYS_link := 19%Z (only parsing).
Notation SYS_mkdir := 20%Z (only parsing).
Notation SYS_close := 21%Z (only parsing).

Section model.
Context `{Image} `{Fuel} `{Disk} `{Mmio}.

(** ** sysproc.c *)

Definition sys_exit : M Z := n ← argint 0; exit n;; mret 0.

Definition sys_getpid : M Z := mypid.

Definition sys_fork : M Z := fork.

Definition sys_wait : M Z := p ← argaddr 0; wait p.

Definition sys_sbrk : M Z :=
  n ← argint 0;
  p ← myproc;
  i ← deref p;
  addr ← gets (λ s, p_sz (proc_of i s));
  r ← growproc n;
  if r <? 0 then mret (-1) else mret addr.

(** [while(ticks - ticks0 < n)]: both sides are unsigned. *)
Fixpoint sys_sleep_loop (k : nat) (ticks0 n : Z) : M Z :=
  ticks ← gets k_ticks;
  if u32 (ticks - ticks0) <? u32 n then
    p ← myproc;
    i ← deref p;
    kl ← killed i;
    if negb (kl =? 0) then release L_ticks;; mret (-1)
    else
      match k with
      | O => out_of_fuel
      | S k' => sleep Ch_ticks L_ticks;; sys_sleep_loop k' ticks0 n
      end
  else release L_ticks;; mret 0.

Definition sys_sleep : M Z :=
  n ← argint 0;
  acquire L_ticks;;
  ticks0 ← gets k_ticks;
  sys_sleep_loop fuel ticks0 n.

Definition sys_kill : M Z := pid ← argint 0; kill pid.

Definition sys_uptime : M Z :=
  acquire L_ticks;;
  xticks ← gets k_ticks;
  release L_ticks;;
  mret xticks.

(** ** syscall.c *)

(** The table [syscalls[]]. *)
Definition syscalls (num : Z) : option (M Z) :=
  if num =? SYS_fork then Some sys_fork
  else if num =? SYS_exit then Some sys_exit
  else if num =? SYS_wait then Some sys_wait
  else if num =? SYS_pipe then Some sys_pipe
  else if num =? SYS_read then Some sys_read
  else if num =? SYS_kill then Some sys_kill
  else if num =? SYS_exec then Some sys_exec
  else if num =? SYS_fstat then Some sys_fstat
  else if num =? SYS_chdir then Some sys_chdir
  else if num =? SYS_dup then Some sys_dup
  else if num =? SYS_getpid then Some sys_getpid
  else if num =? SYS_sbrk then Some sys_sbrk
  else if num =? SYS_sleep then Some sys_sleep
  else if num =? SYS_uptime then Some sys_uptime
  else if num =? SYS_open then Some sys_open
  else if num =? SYS_write then Some sys_write
  else if num =? SYS_mknod then Some sys_mknod
  else if num =? SYS_unlink then Some sys_unlink
  else if num =? SYS_link then Some sys_link
  else if num =? SYS_mkdir then Some sys_mkdir
  else if num =? SYS_close then Some sys_close
  else None.

Definition syscall : M unit :=
  p ← myproc;
  i ← deref p;
  tf ← gets (λ s, p_trapframe (proc_of i s));
  num ← load64 (tf + tf_a7);
  let num := i32 num in
  match (if 0 <? num then syscalls num else None) with
  | Some f =>
      r ← f;
      tf ← gets (λ s, p_trapframe (proc_of i s));
      store64 (tf + tf_a0) (u64 r)
  | None =>
      pr ← gets (proc_of i);
      printf ("%d %s: unknown sys call %d" +:+ nl)
        [P_int (p_pid pr); P_str (Some (cstr (p_name pr))); P_int num];;
      store64 (tf + tf_a0) (u64 (-1))
  end.

End model.
