(* ===== verification/Trap.v ===== *)
(** * kernel/trap.c, plic.c and main.c: traps, interrupts and start-up *)

From S2P Require Import Prelude State Mem Kstring Spinlock Kalloc Vm Proc Uart Printf Console.
From S2P Require Import Sleeplock Bio Virtio Log Fs Pipe File Exec ProcLife Sysfile Syscall.

(** ** Model *)

(** memlayout.h *)
Definition PLIC_SENABLE (hart : Z) : Z := PLIC + 0x2080 + hart * 0x100.
Definition PLIC_SPRIORITY (hart : Z) : Z := PLIC + 0x201000 + hart * 0x2000.
Definition PLIC_SCLAIM (hart : Z) : Z := PLIC + 0x201004 + hart * 0x2000.

Section model.
Context `{Image} `{Fuel} `{Mmio}.

#[local] Existing Instance virtio_disk.

(** ** plic.c *)

Definition plicinit : M unit :=
  mmio_write (PLIC + UART0_IRQ * 4) 1;;
  mmio_write (PLIC + VIRTIO0_IRQ * 4) 1.

Definition plicinithart : M unit :=
  hart ← cpuid;
  mmio_write (PLIC_SENABLE hart) (Z.lor (Z.shiftl 1 UART0_IRQ) (Z.shiftl 1 VIRTIO0_IRQ));;
  mmio_write (PLIC_SPRIORITY hart) 0.

Definition plic_claim : M Z := hart ← cpuid; mmio_read (PLIC_SCLAIM hart).

Definition plic_complete (irq : Z) : M unit :=
  hart ← cpuid; mmio_write (PLIC_SCLAIM hart) irq.

(** ** trap.c *)

Definition w_stvec (x : Z) : M unit := on_hart (set_h_stvec x).
Definition r_sepc : M Z := gets (λ s, h_sepc (k_hart s)).
Definition w_sepc (x : Z) : M unit := on_hart (set_h_sepc x).
Definition r_scause : M Z := gets (λ s, h_scause (k_hart s)).
Definition r_stval : M Z := gets (λ s, h_stval (k_hart s)).

Definition trapinit : M unit := initlock L_ticks "time".

Definition trapinithart : M unit := w_stvec image_kernelvec.

Definition clockintr : M unit :=
  acquire L_ticks;;
  modify (λ s, set_k_ticks (u32 (k_ticks s + 1)) s);;
  wakeup Ch_ticks;;
  release L_ticks.

Definition devintr : M Z :=
  scause ← r_scause;
  if negb (Z.land scause 0x8000000000000000 =? 0) && (Z.land scause 0xff =? 9) then
    irq ← plic_claim;
    (if irq =? UART0_IRQ then uartintr
     else if irq =? VIRTIO0_IRQ then virtio_disk_intr
     else when (negb (irq =? 0))
            (printf ("unexpected interrupt irq=%d" +:+ nl) [P_int irq]));;
    when (negb (irq =? 0)) (plic_complete irq);;
    mret 1
  else if scause =? 0x8000000000000001 then
    hart ← cpuid;
    when (hart =? 0) clockintr;;
    sip ← gets (λ s, h_sip (k_hart s));
    on_hart (set_h_sip (Z.land sip (Z.lnot 2)));;
    mret 2
  else mret 0.

(** [usertrapret]: the value for [satp] with which it jumps to [userret]. *)
Definition usertrapret : M Z :=
  p ← myproc;
  i ← deref p;
  intr_off;;
  w_stvec (TRAMPOLINE + (image_uservec - image_trampoline));;
  pr ← gets (proc_of i);
  satp ← gets (λ s, h_satp (k_hart s));
  store64 (p_trapframe pr + tf_kernel_satp) satp;;
  store64 (p_trapframe pr + tf_kernel_sp) (p_kstack pr + PGSIZE);;
  store64 (p_trapframe pr + tf_kernel_trap) image_usertrap;;
  tp ← cpuid;
  store64 (p_trapframe pr + tf_kernel_hartid) tp;;
  x ← r_sstatus;
  let x := Z.land x (Z.lnot SSTATUS_SPP) in
  let x := Z.lor x SSTATUS_SPIE in
  w_sstatus x;;
  epc ← load64 (p_trapframe pr + tf_epc);
  w_sepc epc;;
  mret (MAKE_SATP (p_pagetable pr)).

Definition usertrap : M Z :=
  sstatus ← r_sstatus;
  if negb (Z.land sstatus SSTATUS_SPP =? 0) then panic "usertrap: not from user mode"
  else
    w_stvec image_kernelvec;;
    p ← myproc;
    i ← deref p;
    tf ← gets (λ s, p_trapframe (proc_of i s));
    epc ← r_sepc;
    store64 (tf + tf_epc) epc;;
    scause ← r_scause;
    which_dev ← (if scause =? 8 then
                   k ← killed i;
                   when (negb (k =? 0)) (exit (-1));;
                   epc ← load64 (tf + tf_epc);
                   store64 (tf + tf_epc) (u64 (epc + 4));;
                   intr_on;;
                   syscall;;
                   mret 0
                 else
                   d ← devintr;
                   if negb (d =? 0) then mret d
                   else
                     pid ← gets (λ s, p_pid (proc_of i s));
                     sepc ← r_sepc;
                     stval ← r_stval;
                     printf ("usertrap(): unexpected scause %p pid=%d" +:+ nl)
                       [P_ptr scause; P_int pid];;
                     printf ("            sepc=%p stval=%p" +:+ nl) [P_ptr sepc; P_ptr stval];;
                     setkilled i;;
                     mret 0);
    k ← killed i;
    when (negb (k =? 0)) (exit (-1));;
    when (which_dev =? 2) yield;;
    usertrapret.

Definition kerneltrap : M unit :=
  sepc ← r_sepc;
  sstatus ← r_sstatus;
  scause ← r_scause;
  if Z.land sstatus SSTATUS_SPP =? 0 then panic "kerneltrap: not from supervisor mode"
  else
    on ← intr_get;
    if (on : bool) then panic "kerneltrap: interrupts enabled"
    else
      which_dev ← devintr;
      if which_dev =? 0 then
        stval ← r_stval;
        sepc ← r_sepc;
        printf ("scause %p" +:+ nl) [P_ptr scause];;
        printf ("sepc=%p stval=%p" +:+ nl) [P_ptr sepc; P_ptr stval];;
        panic "kerneltrap"
      else
        (if which_dev =? 2 then
           p ← myproc;
           match p with
           | Some i =>
               st ← gets (λ s, p_state (proc_of i s));
               when (bool_decide (st = RUNNING)) yield
           | None => mret tt
           end
         else mret tt);;
        w_sepc sepc;;
        w_sstatus sstatus.

(** [forkret] (proc.c): where a new process starts. *)
Definition forkret : M Z :=
  p ← myproc;
  i ← deref p;
  release (L_proc i);;
  first ← gets k_first;
  when (negb (first =? 0)) (modify (set_k_first 0);; fsinit ROOTDEV);;
  usertrapret.

(** ** main.c *)

(** What hart 0 does. *)
Definition main_boot : M unit :=
  consoleinit;;
  printfinit;;
  printf nl [];;
  printf ("xv6 kernel is booting" +:+ nl) [];;
  printf nl [];;
  kinit;;
  kvminit;;
  kvminithart;;
  procinit;;
  trapinit;;
  trapinithart;;
  plicinit;;
  plicinithart;;
  binit;;
  iinit;;
  fileinit;;
  virtio_disk_init;;
  userinit;;
  modify (set_k_started 1).

(** [while(started == 0) ;]: another hart sets it. *)
Definition started_wait : M unit := λ s,
  if k_started s =? 0 then Block s (λ s', if k_started s' =? 0 then OutOfFuel else Ret tt s')
  else Ret tt s.

Definition main : M unit :=
  id ← cpuid;
  (if id =? 0 then main_boot
   else
     started_wait;;
     id ← cpuid;
     printf ("hart %d starting" +:+ nl) [P_int id];;
     kvminithart;;
     trapinithart;;
     plicinithart);;
  scheduler.

End model.
