(* ===== verification/Asm.v ===== *)
(** * The assembly: swtch.S, trampoline.S, kernelvec.S, entry.S, initcode.S, usys.pl

    Each routine as its list of instructions, and the instructions' meaning on
    the registers, the control and status registers and memory. Loads and stores
    go through the address translation that [satp] selects, which is a parameter,
    as are the addresses the linker gives to symbols and to return points. *)

From S2P Require Import Prelude State Mem Spinlock Kalloc Vm Proc Syscall.

(** ** The machine *)

Inductive reg : Type :=
| zero | ra | sp | gp | tp | t0 | t1 | t2 | s0 | s1 | a0 | a1 | a2 | a3 | a4 | a5 | a6 | a7
| s2 | s3 | s4 | s5 | s6 | s7 | s8 | s9 | s10 | s11 | t3 | t4 | t5 | t6.

#[export] Instance reg_eq_dec : EqDecision reg.
Proof. solve_decision. Defined.

(** The control and status registers the code touches. *)
Inductive csr : Type :=
| sscratch | satp | sip | sepc | mscratch | mhartid | mstatus | mepc | medeleg | mideleg | sie | mie
| pmpaddr0 | pmpcfg0 | mtvec.

#[export] Instance csr_eq_dec : EqDecision csr.
Proof. solve_decision. Defined.

Inductive instr : Type :=
| Sd (r : reg) (off : Z) (base : reg)
| Ld (r : reg) (off : Z) (base : reg)
| Addi (rd rs : reg) (imm : Z)
| Add (rd rs1 rs2 : reg)
| Mul (rd rs1 rs2 : reg)
| Li (rd : reg) (imm : Z)
| La (rd : reg) (sym : string)
| Csrr (rd : reg) (c : csr)
| Csrw (c : csr) (rs : reg)
| Csrrw (rd : reg) (c : csr) (rs : reg)
| Sfence
| Jr (rs : reg)
| Ret_
| Sret
| Mret
| Call (f : string)
| Jal (label : string)
| Ecall.

Record cpu : Type := Cpu {
  regs : reg → Z;
  csrs : csr → Z;
  mem : gmap Z Z;
}.

(** Where control goes at the end of a stretch of code. *)
Inductive control : Type :=
| Jump (pc : Z)
| Return_s (pc : Z)
| Return_m (pc : Z)
| Called (f : string) (rest : list instr)
| Label (l : string)
| Environment (rest : list instr).

(** ** swtch.S *)

Definition swtch_code : list instr :=
  [Sd ra 0 a0; Sd sp 8 a0; Sd s0 16 a0; Sd s1 24 a0; Sd s2 32 a0; Sd s3 40 a0; Sd s4 48 a0; Sd s5 56 a0;
   Sd s6 64 a0; Sd s7 72 a0; Sd s8 80 a0; Sd s9 88 a0; Sd s10 96 a0; Sd s11 104 a0;
   Ld ra 0 a1; Ld sp 8 a1; Ld s0 16 a1; Ld s1 24 a1; Ld s2 32 a1; Ld s3 40 a1; Ld s4 48 a1; Ld s5 56 a1;
   Ld s6 64 a1; Ld s7 72 a1; Ld s8 80 a1; Ld s9 88 a1; Ld s10 96 a1; Ld s11 104 a1;
   Ret_].

(** ** trampoline.S *)

Definition uservec : list instr :=
  [Csrw sscratch a0; Li a0 TRAPFRAME;
   Sd ra 40 a0; Sd sp 48 a0; Sd gp 56 a0; Sd tp 64 a0; Sd t0 72 a0; Sd t1 80 a0; Sd t2 88 a0; Sd s0 96 a0;
   Sd s1 104 a0; Sd a1 120 a0; Sd a2 128 a0; Sd a3 136 a0; Sd a4 144 a0; Sd a5 152 a0; Sd a6 160 a0; Sd a7 168 a0;
   Sd s2 176 a0; Sd s3 184 a0; Sd s4 192 a0; Sd s5 200 a0; Sd s6 208 a0; Sd s7 216 a0; Sd s8 224 a0; Sd s9 232 a0;
   Sd s10 240 a0; Sd s11 248 a0; Sd t3 256 a0; Sd t4 264 a0; Sd t5 272 a0; Sd t6 280 a0;
   Csrr t0 sscratch; Sd t0 112 a0;
   Ld sp 8 a0; Ld tp 32 a0; Ld t0 16 a0; Ld t1 0 a0;
   Sfence; Csrw satp t1; Sfence; Jr t0].

Definition userret : list instr :=
  [Sfence; Csrw satp a0; Sfence; Li a0 TRAPFRAME;
   Ld ra 40 a0; Ld sp 48 a0; Ld gp 56 a0; Ld tp 64 a0; Ld t0 72 a0; Ld t1 80 a0; Ld t2 88 a0; Ld s0 96 a0;
   Ld s1 104 a0; Ld a1 120 a0; Ld a2 128 a0; Ld a3 136 a0; Ld a4 144 a0; Ld a5 152 a0; Ld a6 160 a0; Ld a7 168 a0;
   Ld s2 176 a0; Ld s3 184 a0; Ld s4 192 a0; Ld s5 200 a0; Ld s6 208 a0; Ld s7 216 a0; Ld s8 224 a0; Ld s9 232 a0;
   Ld s10 240 a0; Ld s11 248 a0; Ld t3 256 a0; Ld t4 264 a0; Ld t5 272 a0; Ld t6 280 a0;
   Ld a0 112 a0; Sret].

(** ** kernelvec.S *)

Definition kernelvec : list instr :=
  [Addi sp sp (-256);
   Sd ra 0 sp; Sd sp 8 sp; Sd gp 16 sp; Sd tp 24 sp; Sd t0 32 sp; Sd t1 40 sp; Sd t2 48 sp; Sd s0 56 sp;
   Sd s1 64 sp; Sd a0 72 sp; Sd a1 80 sp; Sd a2 88 sp; Sd a3 96 sp; Sd a4 104 sp; Sd a5 112 sp; Sd a6 120 sp;
   Sd a7 128 sp; Sd s2 136 sp; Sd s3 144 sp; Sd s4 152 sp; Sd s5 160 sp; Sd s6 168 sp; Sd s7 176 sp; Sd s8 184 sp;
   Sd s9 192 sp; Sd s10 200 sp; Sd s11 208 sp; Sd t3 216 sp; Sd t4 224 sp; Sd t5 232 sp; Sd t6 240 sp;
   Call "kerneltrap";
   Ld ra 0 sp; Ld sp 8 sp; Ld gp 16 sp; Ld t0 32 sp; Ld t1 40 sp; Ld t2 48 sp; Ld s0 56 sp;
   Ld s1 64 sp; Ld a0 72 sp; Ld a1 80 sp; Ld a2 88 sp; Ld a3 96 sp; Ld a4 104 sp; Ld a5 112 sp; Ld a6 120 sp;
   Ld a7 128 sp; Ld s2 136 sp; Ld s3 144 sp; Ld s4 152 sp; Ld s5 160 sp; Ld s6 168 sp; Ld s7 176 sp; Ld s8 184 sp;
   Ld s9 192 sp; Ld s10 200 sp; Ld s11 208 sp; Ld t3 216 sp; Ld t4 224 sp; Ld t5 232 sp; Ld t6 240 sp;
   Addi sp sp 256; Sret].

Definition timervec : list instr :=
  [Csrrw a0 mscratch a0; Sd a1 0 a0; Sd a2 8 a0; Sd a3 16 a0;
   Ld a1 24 a0; Ld a2 32 a0; Ld a3 0 a1; Add a3 a3 a2; Sd a3 0 a1;
   Li a1 2; Csrw sip a1;
   Ld a3 16 a0; Ld a2 8 a0; Ld a1 0 a0; Csrrw a0 mscratch a0; Mret].

(** ** entry.S, initcode.S and the system call stubs *)

Definition entry : list instr :=
  [La sp "stack0"; Li a0 (1024 * 4); Csrr a1 mhartid; Addi a1 a1 1; Mul a0 a0 a1; Add sp sp a0; Call "start"; Jal "spin"].

Definition initcode : list instr :=
  [La a0 "init"; La a1 "argv"; Li a7 SYS_exec; Ecall; Li a7 SYS_exit; Ecall; Jal "exit"].

(** The stub usys.pl prints for system call [n]. *)
Definition stub (n : Z) : list instr := [Li a7 n; Ecall; Ret_].

(** ** Running code *)

Definition set_reg (r : reg) (v : Z) (c : cpu) : cpu :=
  Cpu (λ x, if decide (x = r) then (if decide (r = zero) then 0 else u64 v) else regs c x) (csrs c) (mem c).

Definition set_csr (k : csr) (v : Z) (c : cpu) : cpu :=
  Cpu (regs c) (λ x, if decide (x = k) then v else csrs c x) (mem c).

Lemma regs_same r v c : r ≠ zero → regs (set_reg r v c) r = u64 v.
Proof. intros Hr. cbn. by rewrite decide_True, decide_False. Qed.

Lemma regs_other r v c x : x ≠ r → regs (set_reg r v c) x = regs c x.
Proof. intros Hr. cbn. by rewrite decide_False. Qed.

Lemma csrs_same k v c : csrs (set_csr k v c) k = v.
Proof. cbn. by rewrite decide_True. Qed.

Lemma csrs_other k v c x : x ≠ k → csrs (set_csr k v c) x = csrs c x.
Proof. intros Hr. cbn. by rewrite decide_False. Qed.

Lemma set_reg_rest r v c : csrs (set_reg r v c) = csrs c ∧ mem (set_reg r v c) = mem c.
Proof. done. Qed.

Lemma set_csr_rest k v c : regs (set_csr k v c) = regs c ∧ mem (set_csr k v c) = mem c.
Proof. done. Qed.

(** Read registers off a state built by [set_reg] and [set_csr]. *)
Ltac asm_regs :=
  repeat first
    [ progress cbn [regs csrs mem] | rewrite regs_same by discriminate | rewrite regs_other by discriminate
    | rewrite csrs_same | rewrite csrs_other by discriminate
    | rewrite (proj1 (set_reg_rest _ _ _)) | rewrite (proj2 (set_reg_rest _ _ _))
    | rewrite (proj1 (set_csr_rest _ _ _)) | rewrite (proj2 (set_csr_rest _ _ _)) ].

#[global] Arguments set_reg : simpl never.
#[global] Arguments set_csr : simpl never.

Section machine.
Context (xlate : Z → Z → Z) (sym : string → Z) (link : list instr → Z).

(** The physical address of [off(base)]. *)
Definition pa_of (c : cpu) (off : Z) (base : reg) : Z := xlate (csrs c satp) (u64 (regs c base + off)).

Definition exec1 (i : instr) (c : cpu) : cpu :=
  match i with
  | Sd r off base => Cpu (regs c) (csrs c) (st64 (mem c) (pa_of c off base) (regs c r))
  | Ld r off base => set_reg r (ld64 (mem c) (pa_of c off base)) c
  | Addi rd rs imm => set_reg rd (regs c rs + imm) c
  | Add rd rs1 rs2 => set_reg rd (regs c rs1 + regs c rs2) c
  | Mul rd rs1 rs2 => set_reg rd (regs c rs1 * regs c rs2) c
  | Li rd imm => set_reg rd imm c
  | La rd s => set_reg rd (sym s) c
  | Csrr rd k => set_reg rd (csrs c k) c
  | Csrw k rs => set_csr k (regs c rs) c
  | Csrrw rd k rs => set_reg rd (csrs c k) (set_csr k (regs c rs) c)
  | _ => c
  end.

Fixpoint run (l : list instr) (c : cpu) : option (control * cpu) :=
  match l with
  | [] => None
  | i :: l' =>
      match i with
      | Jr rs => Some (Jump (regs c rs), c)
      | Ret_ => Some (Jump (regs c ra), c)
      | Sret => Some (Return_s (csrs c sepc), c)
      | Mret => Some (Return_m (csrs c mepc), c)
      | Call f => Some (Called f l', set_reg ra (link l') c)
      | Jal l => Some (Label l, c)
      | Ecall => Some (Environment l', c)
      | _ => run l' (exec1 i c)
      end
  end.

(** ** Saving and loading a set of registers *)

Definition slots := list (reg * Z).
Definition saves (base : reg) (l : slots) : list instr := (λ p, Sd p.1 p.2 base) <$> l.
Definition loads (base : reg) (l : slots) : list instr := (λ p, Ld p.1 p.2 base) <$> l.

(** The translation of the save area is contiguous. *)
Definition area (c : cpu) (base : reg) (pa size : Z) : Prop :=
  ∀ off, 0 ≤ off < size → pa_of c off base = pa + off.

(** Slots lie in the area, apart from each other and from what the code uses. *)
Definition slots_ok (l : slots) (size : Z) : Prop :=
  Forall (λ p, 0 ≤ p.2 ∧ p.2 + 8 ≤ size) l ∧ NoDup l.*1 ∧
  ∀ r1 o1 r2 o2, (r1, o1) ∈ l → (r2, o2) ∈ l → r1 ≠ r2 → o1 + 8 ≤ o2 ∨ o2 + 8 ≤ o1.

Definition saved (l : slots) (pa : Z) (m : gmap Z Z) (f : reg → Z) : Prop :=
  ∀ r o, (r, o) ∈ l → ld64 m (pa + o) = f r.

Lemma run_saves base l size pa rest c :
  slots_ok l size → area c base pa size → (∀ r, 0 ≤ regs c r < 2 ^ 64) →
  ∃ m, run (saves base l ++ rest) c = run rest (Cpu (regs c) (csrs c) m) ∧ saved l pa m (regs c) ∧
    (∀ a, (∀ r o, (r, o) ∈ l → a + 8 ≤ pa + o ∨ pa + o + 8 ≤ a) → ld64 m a = ld64 (mem c) a) ∧
    ∀ a, (∀ r o, (r, o) ∈ l → a < pa + o ∨ pa + o + 8 ≤ a) → ld8 m a = ld8 (mem c) a.
Proof.
  intros (Hf&Hnd&Hap) Ha Hr. revert c Ha Hr Hf Hnd Hap. induction l as [|[r o] l IH]; intros c Ha Hr Hf Hnd Hap.
  - exists (mem c). split_and!; [by destruct c| |done|done]. intros r o Hin. set_solver.
  - apply Forall_cons in Hf as [[H1 H2] Hf]. apply NoDup_cons in Hnd as [Hnin Hnd]. cbn in H1, H2.
    destruct (IH (exec1 (Sd r o base) c)) as (m&Hrun&Hs&Hoth&Hout); try done.
    { intros r1 o1 r2 o2 Hi1 Hi2. apply Hap; by right. }
    exists m. cbn in *. split_and!; [done| | |].
    + intros r' o' Hin. apply elem_of_cons in Hin as [[= -> ->]|Hin]; [|by apply Hs].
      rewrite Hoth.
      * rewrite Ha by lia. rewrite ld64_st64_same. apply u64_small. apply Hr.
      * intros r2 o2 Hin2. destruct (Hap r o r2 o2); [by left|by right| |lia|lia].
        intros ->. apply Hnin. apply list_elem_of_fmap. by exists (r2, o2).
    + intros a Hd. rewrite Hoth by (intros r2 o2 Hin; apply (Hd r2); by right). rewrite Ha by lia.
      apply ld64_st64_other. destruct (Hd r o); [by left|lia|lia].
    + intros a Hd. rewrite Hout by (intros r2 o2 Hin; apply (Hd r2); by right). rewrite Ha by lia.
      apply ld8_st64_other. destruct (Hd r o); [by left|lia|lia].
Qed.

(** Loading; the base register is not among those loaded. *)
Lemma run_loads base l size pa rest c :
  slots_ok l size → area c base pa size → base ∉ l.*1 → zero ∉ l.*1 →
  ∃ f, run (loads base l ++ rest) c = run rest (Cpu f (csrs c) (mem c)) ∧
    (∀ r o, (r, o) ∈ l → f r = ld64 (mem c) (pa + o)) ∧ ∀ r, r ∉ l.*1 → f r = regs c r.
Proof.
  intros (Hf&Hnd&_) Ha Hb Hz. revert c Ha. induction l as [|[r o] l IH]; intros c Ha.
  - exists (regs c). split_and!; [by destruct c|set_solver|done].
  - apply Forall_cons in Hf as [[H1 H2] Hf]. apply NoDup_cons in Hnd as [Hnin Hnd]. cbn in H1, H2.
    apply not_elem_of_cons in Hb as [Hbr Hb]. apply not_elem_of_cons in Hz as [Hzr Hz]. cbn in Hbr, Hzr.
    destruct (IH Hf Hnd Hb Hz (exec1 (Ld r o base) c)) as (f&Hrun&Hin&Hoth).
    { intros off Ho. unfold pa_of. cbn. rewrite regs_other by congruence. by apply Ha. }
    exists f. cbn in *. split_and!; [done| |].
    + intros r' o' Hin'. apply elem_of_cons in Hin' as [[= -> ->]|Hin']; [|by apply Hin].
      rewrite Hoth by done. rewrite regs_same by congruence. rewrite Ha by lia. apply u64_small, ld64_range.
    + intros r' Hr'. apply not_elem_of_cons in Hr' as [Hne Hr']. cbn in Hne. rewrite Hoth by done. by apply regs_other.
Qed.

(** ** swtch *)

(** [struct context]. *)
Definition context_slots : slots :=
  [(ra, 0); (sp, 8); (s0, 16); (s1, 24); (s2, 32); (s3, 40); (s4, 48); (s5, 56); (s6, 64); (s7, 72); (s8, 80); (s9, 88);
   (s10, 96); (s11, 104)].

(** Slots eight bytes apart, from [o] on. *)
Lemma slots_apart l size o :
  l.*2 = (λ k, o + 8 * k) <$> seqZ 0 (Z.of_nat (length l)) → 0 ≤ o → o + 8 * Z.of_nat (length l) ≤ size → NoDup l.*1 →
  slots_ok l size.
Proof.
  intros Hl Ho Hsize Hnd.
  assert (∀ i r x, l !! i = Some (r, x) → x = o + 8 * Z.of_nat i ∧ (i < length l)%nat) as Hlook.
  { intros i r x Hi. pose proof (lookup_lt_Some _ _ _ Hi) as Hlt. split; [|done].
    assert (l.*2 !! i = Some x) as H2 by (by rewrite list_lookup_fmap, Hi).
    rewrite Hl, list_lookup_fmap, lookup_seqZ_lt in H2 by lia. cbn in H2. injection H2 as <-. done. }
  split_and!; [|done|].
  - apply Forall_lookup. intros i [r x] Hi. destruct (Hlook i r x Hi). cbn. lia.
  - intros r1 o1 r2 o2 H1 H2 Hne. apply list_elem_of_lookup in H1 as [i Hi]. apply list_elem_of_lookup in H2 as [j Hj].
    destruct (Hlook _ _ _ Hi) as [-> _]. destruct (Hlook _ _ _ Hj) as [-> _].
    destruct (decide (i = j)) as [->|]; [rewrite Hi in Hj; congruence|lia].
Qed.

Lemma context_slots_ok : slots_ok context_slots 112.
Proof. apply (slots_apart _ _ 0); [by vm_compute|lia|cbn; lia|]. cbn. apply (bool_decide_unpack _). by vm_compute. Qed.

Definition regs_ok (c : cpu) : Prop := ∀ r, 0 ≤ regs c r < 2 ^ 64.

Definition apart (a n b m : Z) : Prop := a + n ≤ b ∨ b + m ≤ a.

Lemma swtch_run c old new :
  regs_ok c → area c a0 old 112 → area c a1 new 112 → apart old 112 new 112 →
  ∃ c', run swtch_code c = Some (Jump (ld64 (mem c) new), c') ∧ saved context_slots old (mem c') (regs c) ∧
    (∀ r o, (r, o) ∈ context_slots → regs c' r = ld64 (mem c) (new + o)) ∧
    (∀ r, r ∉ context_slots.*1 → regs c' r = regs c r) ∧ csrs c' = csrs c ∧
    ∀ a, a < old ∨ old + 112 ≤ a → ld8 (mem c') a = ld8 (mem c) a.
Proof.
  intros Hok Ha0 Ha1 Hap. change swtch_code with (saves a0 context_slots ++ loads a1 context_slots ++ [Ret_]).
  destruct (run_saves a0 context_slots 112 old (loads a1 context_slots ++ [Ret_]) c context_slots_ok Ha0 Hok)
    as (m&Hr1&Hs&Hfar&Hout).
  destruct (run_loads a1 context_slots 112 new [Ret_] (Cpu (regs c) (csrs c) m) context_slots_ok Ha1) as (f&Hr2&Hf&Hoth).
  { apply (bool_decide_unpack _). by vm_compute. } { apply (bool_decide_unpack _). by vm_compute. }
  assert (∀ r o, (r, o) ∈ context_slots → ld64 m (new + o) = ld64 (mem c) (new + o)) as Hnew.
  { intros r o Hin. apply Hfar. intros r' o' Hin'. destruct context_slots_ok as (Hb&_&_). rewrite Forall_forall in Hb.
    pose proof (Hb _ Hin) as H1. pose proof (Hb _ Hin') as H2. cbn in H1, H2. destruct Hap; lia. }
  exists (Cpu f (csrs c) m). rewrite Hr1, Hr2. cbn [run regs mem csrs] in *. split_and!; try done.
  - rewrite (Hf ra 0) by (by left). rewrite (Hnew ra 0) by (by left). by rewrite Z.add_0_r.
  - intros r o Hin. rewrite (Hf r o Hin). by apply (Hnew r).
  - intros a Ha. apply Hout. intros r o Hin. destruct context_slots_ok as (Hb&_&_). rewrite Forall_forall in Hb.
    specialize (Hb _ Hin). cbn in Hb. lia.
Qed.

Lemma ld64_ext m m' a : (∀ i, a ≤ i < a + 8 → ld8 m i = ld8 m' i) → ld64 m a = ld64 m' a.
Proof. intros H. apply ldn_ext. intros i Hi. apply H. lia. Qed.

(** C26: [swtch] is a coroutine switch. It stores the caller's callee-saved
    registers in [old], loads those of [new] and returns to the address they hold;
    nothing outside [old] and no other register changes. When later any other
    context switches to [old], [swtch] returns to the first caller with exactly
    the registers it had. *)
Theorem swtch_roundtrip c old new :
  regs_ok c → area c a0 old 112 → area c a1 new 112 → apart old 112 new 112 →
  ∃ c1, run swtch_code c = Some (Jump (ld64 (mem c) new), c1) ∧
    (∀ r o, (r, o) ∈ context_slots → regs c1 r = ld64 (mem c) (new + o)) ∧
    (∀ r, r ∉ context_slots.*1 → regs c1 r = regs c r) ∧
    (∀ a, a < old ∨ old + 112 ≤ a → ld8 (mem c1) a = ld8 (mem c) a) ∧
    ∀ c2 other, regs_ok c2 → area c2 a0 other 112 → area c2 a1 old 112 → apart other 112 old 112 →
      (∀ a, old ≤ a < old + 112 → ld8 (mem c2) a = ld8 (mem c1) a) →
      ∃ c3, run swtch_code c2 = Some (Jump (regs c ra), c3) ∧ ∀ r, r ∈ context_slots.*1 → regs c3 r = regs c r.
Proof.
  intros Hok Ha0 Ha1 Hap. destruct (swtch_run c old new Hok Ha0 Ha1 Hap) as (c1&Hr1&Hs1&Hn1&Ho1&_&Hm1).
  exists c1. split_and!; try done. intros c2 other Hok2 Hb0 Hb1 Hap2 Hsame.
  destruct (swtch_run c2 other old Hok2 Hb0 Hb1 Hap2) as (c3&Hr3&_&Hn3&_).
  assert (∀ r o, (r, o) ∈ context_slots → ld64 (mem c2) (old + o) = regs c r) as Hback.
  { intros r o Hin. rewrite <- (Hs1 r o Hin). destruct context_slots_ok as (Hb&_&_). rewrite Forall_forall in Hb.
    pose proof (Hb _ Hin) as H1. cbn in H1. apply ld64_ext. intros i Hi. apply Hsame. lia. }
  exists c3. split.
  - rewrite Hr3. do 3 f_equal. rewrite <- (Hback ra 0) by (by left). by rewrite Z.add_0_r.
  - intros r ([r' o]&->&Hin)%list_elem_of_fmap. cbn. rewrite (Hn3 r' o Hin). by apply Hback.
Qed.

(** ** uservec and userret *)

(** Where [struct trapframe] keeps the user's registers, but for [a0]. *)
Definition user_slots : slots :=
  [(ra, 40); (sp, 48); (gp, 56); (tp, 64); (t0, 72); (t1, 80); (t2, 88); (s0, 96); (s1, 104); (a1, 120); (a2, 128); (a3, 136);
   (a4, 144); (a5, 152); (a6, 160); (a7, 168); (s2, 176); (s3, 184); (s4, 192); (s5, 200); (s6, 208); (s7, 216); (s8, 224);
   (s9, 232); (s10, 240); (s11, 248); (t3, 256); (t4, 264); (t5, 272); (t6, 280)].

Lemma slots_ok_sub l l' size : (∀ p, p ∈ l → p ∈ l') → NoDup l.*1 → slots_ok l' size → slots_ok l size.
Proof.
  intros Hs Hnd (Hf&_&Hap). rewrite Forall_forall in Hf. split_and!; [|done|].
  - apply Forall_forall. auto.
  - intros r1 o1 r2 o2 H1 H2. by apply Hap; apply Hs.
Qed.

(** The whole of it. *)
Definition trapframe_slots : slots := take 9 user_slots ++ (a0, 112) :: drop 9 user_slots.

Lemma trapframe_slots_ok : slots_ok trapframe_slots 288.
Proof. apply (slots_apart _ _ 40); [by vm_compute|lia|cbn; lia|]. cbn. apply (bool_decide_unpack _). by vm_compute. Qed.

Lemma elem_trapframe p : p ∈ trapframe_slots ↔ p = (a0, 112) ∨ p ∈ user_slots.
Proof.
  unfold trapframe_slots. rewrite elem_of_app, elem_of_cons. rewrite <- (take_drop 9 user_slots) at 3.
  rewrite elem_of_app. tauto.
Qed.

Lemma user_slots_ok : slots_ok user_slots 288.
Proof.
  apply (slots_ok_sub _ trapframe_slots); [|apply (bool_decide_unpack _); by vm_compute|apply trapframe_slots_ok].
  intros p Hp. apply elem_trapframe. by right.
Qed.

Lemma user_slots_range r o : (r, o) ∈ user_slots → 40 ≤ o ∧ o + 8 ≤ 288 ∧ (o + 8 ≤ 112 ∨ 120 ≤ o) ∧ r ≠ a0.
Proof.
  intros Hin.
  assert (Forall (λ p, 40 ≤ p.2 ∧ p.2 + 8 ≤ 288 ∧ (p.2 + 8 ≤ 112 ∨ 120 ≤ p.2) ∧ p.1 ≠ a0) user_slots) as Hall
    by (apply (bool_decide_unpack _); by vm_compute).
  rewrite Forall_forall in Hall. exact (Hall _ Hin).
Qed.

(** The trapframe page is mapped at TRAPFRAME. *)
Definition maps_trapframe (pt tf : Z) : Prop := ∀ off, 0 ≤ off < 288 → xlate pt (TRAPFRAME + off) = tf + off.

Lemma TRAPFRAME_small off : 0 ≤ off < 288 → u64 (u64 TRAPFRAME + off) = TRAPFRAME + off.
Proof. intros Ho. change (u64 TRAPFRAME) with TRAPFRAME. apply u64_small. change TRAPFRAME with 274877898752. lia. Qed.

Lemma uservec_run c tf :
  regs_ok c → maps_trapframe (csrs c satp) tf →
  ∃ c1, run uservec c = Some (Jump (ld64 (mem c) (tf + 16)), c1) ∧ saved trapframe_slots tf (mem c1) (regs c) ∧
    regs c1 sp = ld64 (mem c) (tf + 8) ∧ regs c1 tp = ld64 (mem c) (tf + 32) ∧ csrs c1 satp = ld64 (mem c) tf ∧
    (∀ a, a < tf + 40 ∨ tf + 288 ≤ a → ld8 (mem c1) a = ld8 (mem c) a).
Proof.
  intros Hok Hm. set (c0 := set_reg a0 TRAPFRAME (set_csr sscratch (regs c a0) c)).
  change (run uservec c) with (run (saves a0 user_slots ++ drop 32 uservec) c0).
  assert (∀ off, 0 ≤ off < 288 → xlate (csrs c satp) (u64 (u64 TRAPFRAME + off)) = tf + off) as Hpa.
  { intros off Ho. rewrite TRAPFRAME_small by done. by apply Hm. }
  assert (area c0 a0 tf 288) as Harea.
  { intros off Ho. unfold pa_of, c0. asm_regs. by apply Hpa. }
  assert (regs_ok c0) as Hok0.
  { intros r. unfold c0. destruct (decide (r = a0)) as [->|Hne]; [asm_regs; apply u64_range|].
    rewrite regs_other by done. apply Hok. }
  destruct (run_saves a0 user_slots 288 tf (drop 32 uservec) c0 user_slots_ok Harea Hok0) as (m&Hr&Hs&Hfar&Hout).
  rewrite Hr. clear Hr. cbn [drop uservec run exec1]. unfold pa_of. asm_regs.
  unfold c0. asm_regs. rewrite !Hpa by lia. fold c0. set (m' := st64 m (tf + 112) (u64 (regs c a0))).
  assert (∀ o, 0 ≤ o ≤ 32 → ld64 m' (tf + o) = ld64 (mem c) (tf + o)) as Hk.
  { intros o Ho. unfold m'. rewrite ld64_st64_other by lia. apply Hfar. intros r x Hin. destruct (user_slots_range r x Hin). lia. }
  rewrite !Hk by lia. rewrite !u64_small by apply ld64_range. eexists. split; [reflexivity|]. asm_regs.
  rewrite !u64_small by apply ld64_range. rewrite Z.add_0_r. split_and!; try done.
  - intros r o [[= -> ->]|Hin]%elem_trapframe; unfold m'.
    + rewrite ld64_st64_same. rewrite !(u64_small (regs c a0)) by apply Hok. done.
    + destruct (user_slots_range _ _ Hin) as (H1&H2&H3&H4). rewrite ld64_st64_other by lia. rewrite (Hs _ _ Hin).
      unfold c0. by rewrite regs_other.
  - intros a Ha. unfold m'. rewrite ld8_st64_other by lia. apply Hout. intros r o Hin. destruct (user_slots_range r o Hin). lia.
Qed.

Lemma userret_run c tf :
  maps_trapframe (regs c a0) tf →
  ∃ c1, run userret c = Some (Return_s (csrs c sepc), c1) ∧ csrs c1 satp = regs c a0 ∧ mem c1 = mem c ∧
    ∀ r o, (r, o) ∈ trapframe_slots → regs c1 r = ld64 (mem c) (tf + o).
Proof.
  intros Hm. set (c0 := set_reg a0 TRAPFRAME (set_csr satp (regs c a0) c)).
  change (run userret c) with (run (loads a0 user_slots ++ [Ld a0 112 a0; Sret]) c0).
  assert (area c0 a0 tf 288) as Harea.
  { intros off Ho. unfold pa_of, c0. asm_regs. rewrite TRAPFRAME_small by done. by apply Hm. }
  destruct (run_loads a0 user_slots 288 tf [Ld a0 112 a0; Sret] c0 user_slots_ok Harea) as (f&Hr&Hf&Hoth).
  { apply (bool_decide_unpack _). by vm_compute. } { apply (bool_decide_unpack _). by vm_compute. }
  rewrite Hr. clear Hr. cbn [run exec1]. unfold pa_of. cbn [regs csrs mem].
  rewrite (Hoth a0) by (apply (bool_decide_unpack _); by vm_compute).
  change (xlate (csrs c0 satp) (u64 (regs c0 a0 + 112))) with (pa_of c0 112 a0). rewrite Harea by lia.
  eexists. split; [unfold c0; by asm_regs|]. unfold c0. asm_regs. split_and!; try done.
  intros r o [[= -> ->]|Hin]%elem_trapframe.
  - asm_regs. apply u64_small, ld64_range.
  - destruct (user_slots_range _ _ Hin) as (_&_&_&H4). rewrite regs_other by done. cbn [regs]. exact (Hf _ _ Hin).
Qed.

(** Every register but [zero] has its slot. *)
Lemma trapframe_all r : r ≠ zero → ∃ o, (r, o) ∈ trapframe_slots ∧ 40 ≤ o ∧ o + 8 ≤ 288.
Proof.
  intros Hr. assert (r ∈ trapframe_slots.*1) as ([r' o]&->&Hin)%list_elem_of_fmap.
  { destruct r; [done|..]; apply (bool_decide_unpack _); by vm_compute. }
  exists o. split; [done|]. apply elem_trapframe in Hin as [[= -> ->]|Hin]; [lia|].
  destruct (user_slots_range _ _ Hin). lia.
Qed.

(** C25: A trap from user space loses nothing. [uservec] saves all user registers in
    the trapframe and enters the kernel at [kernel_trap] with the kernel stack,
    hart id and page table the trapframe names, leaving all other memory alone.
    When [userret] later runs with the saved registers still in the trapframe, all
    registers hold the user's values again, the page table is the one passed and
    execution goes on at [sepc]. *)
Theorem trap_roundtrip c tf :
  regs_ok c → maps_trapframe (csrs c satp) tf →
  ∃ c1, run uservec c = Some (Jump (ld64 (mem c) (tf + tf_kernel_trap)), c1) ∧
    regs c1 sp = ld64 (mem c) (tf + tf_kernel_sp) ∧ regs c1 tp = ld64 (mem c) (tf + tf_kernel_hartid) ∧
    csrs c1 satp = ld64 (mem c) (tf + tf_kernel_satp) ∧
    (∀ a, a < tf + 40 ∨ tf + 288 ≤ a → ld8 (mem c1) a = ld8 (mem c) a) ∧
    ∀ c2, maps_trapframe (regs c2 a0) tf →
      (∀ a, tf + 40 ≤ a < tf + 288 → ld8 (mem c2) a = ld8 (mem c1) a) →
      ∃ c3, run userret c2 = Some (Return_s (csrs c2 sepc), c3) ∧ csrs c3 satp = regs c2 a0 ∧
        ∀ r, r ≠ zero → regs c3 r = regs c r.
Proof.
  intros Hok Hm. destruct (uservec_run c tf Hok Hm) as (c1&Hr1&Hs1&Hsp&Htp&Hsatp&Hout).
  exists c1. unfold tf_kernel_trap, tf_kernel_sp, tf_kernel_hartid, tf_kernel_satp. rewrite Z.add_0_r.
  split_and!; try done. intros c2 Hm2 Hsame.
  destruct (userret_run c2 tf Hm2) as (c3&Hr3&Hs3&_&Hregs). exists c3. split_and!; try done.
  intros r Hr. destruct (trapframe_all r Hr) as (o&Hin&Ho). rewrite (Hregs _ _ Hin), <- (Hs1 _ _ Hin).
  apply ld64_ext. intros i Hi. apply Hsame. lia.
Qed.

(** ** kernelvec *)

Definition frame_slots : slots :=
  [(ra, 0); (sp, 8); (gp, 16); (tp, 24); (t0, 32); (t1, 40); (t2, 48); (s0, 56); (s1, 64); (a0, 72); (a1, 80); (a2, 88); (a3, 96);
   (a4, 104); (a5, 112); (a6, 120); (a7, 128); (s2, 136); (s3, 144); (s4, 152); (s5, 160); (s6, 168); (s7, 176); (s8, 184);
   (s9, 192); (s10, 200); (s11, 208); (t3, 216); (t4, 224); (t5, 232); (t6, 240)].

(** Those restored after [ra] and [sp]. *)
Definition restored_slots : slots := (gp, 16) :: drop 4 frame_slots.

Lemma frame_slots_ok : slots_ok frame_slots 256.
Proof. apply (slots_apart _ _ 0); [by vm_compute|lia|cbn; lia|]. cbn. apply (bool_decide_unpack _). by vm_compute. Qed.

Lemma elem_restored p : p ∈ restored_slots → p ∈ frame_slots.
Proof.
  intros Hin. assert (Forall (λ p, p ∈ frame_slots) restored_slots) as Hall by (apply (bool_decide_unpack _); by vm_compute).
  rewrite Forall_forall in Hall. by apply Hall.
Qed.

Lemma frame_cases r o : (r, o) ∈ frame_slots → r = ra ∧ o = 0 ∨ r = sp ∨ r = tp ∨ (r, o) ∈ restored_slots.
Proof.
  intros Hin.
  assert (Forall (λ p, p.1 = ra ∧ p.2 = 0 ∨ p.1 = sp ∨ p.1 = tp ∨ p ∈ restored_slots) frame_slots) as Hall
    by (apply (bool_decide_unpack _); by vm_compute).
  rewrite Forall_forall in Hall. exact (Hall _ Hin).
Qed.

Lemma restored_slots_ok : slots_ok restored_slots 256.
Proof.
  apply (slots_ok_sub _ frame_slots); [apply elem_restored|apply (bool_decide_unpack _); by vm_compute|apply frame_slots_ok].
Qed.

(** What follows [call kerneltrap]. *)
Definition kernelvec_out : list instr := drop 33 kernelvec.

Lemma kernelvec_out_run c pa :
  regs_ok c → area c sp pa 256 → ld64 (mem c) (pa + 8) = regs c sp →
  ∃ c1, run kernelvec_out c = Some (Return_s (csrs c sepc), c1) ∧ csrs c1 = csrs c ∧ mem c1 = mem c ∧
    regs c1 sp = u64 (regs c sp + 256) ∧ regs c1 tp = regs c tp ∧
    ∀ r o, (r, o) ∈ frame_slots → r ≠ tp → r ≠ sp → regs c1 r = ld64 (mem c) (pa + o).
Proof.
  intros Hok Ha Hsp.
  change kernelvec_out with (Ld ra 0 sp :: Ld sp 8 sp :: loads sp restored_slots ++ [Addi sp sp 256; Sret]). cbn [run exec1].
  unfold pa_of. asm_regs. change (xlate (csrs c satp) (u64 (regs c sp + 8))) with (pa_of c 8 sp).
  change (xlate (csrs c satp) (u64 (regs c sp + 0))) with (pa_of c 0 sp). rewrite !Ha by lia.
  rewrite Hsp, Z.add_0_r. set (c0 := set_reg sp _ _).
  assert (regs c0 sp = regs c sp) as Hsp0 by (unfold c0; asm_regs; apply u64_small, Hok).
  assert (area c0 sp pa 256) as Ha0.
  { intros off Ho. unfold pa_of. rewrite Hsp0. unfold c0. asm_regs. by apply Ha. }
  destruct (run_loads sp restored_slots 256 pa [Addi sp sp 256; Sret] c0 restored_slots_ok Ha0) as (f&Hr&Hf&Hoth).
  { apply (bool_decide_unpack _). by vm_compute. } { apply (bool_decide_unpack _). by vm_compute. }
  rewrite Hr. clear Hr. cbn [run exec1]. asm_regs. eexists. split; [unfold c0; by asm_regs|]. asm_regs.
  rewrite (Hoth sp), Hsp0 by (apply (bool_decide_unpack _); by vm_compute). split_and!; try done.
  - rewrite (Hoth tp) by (apply (bool_decide_unpack _); by vm_compute). unfold c0. by asm_regs.
  - intros r o Hin Htp Hns. rewrite regs_other by done. cbn [regs].
    destruct (frame_cases _ _ Hin) as [[-> ->]|[->|[->|Hin']]]; [|done|done|].
    + rewrite (Hoth ra) by (apply (bool_decide_unpack _); by vm_compute). unfold c0. asm_regs. rewrite Z.add_0_r. apply u64_small, ld64_range.
    + rewrite (Hf _ _ Hin'). unfold c0. by asm_regs.
Qed.

(** An interrupt in the kernel is invisible to the code it interrupts.
    [kernelvec] saves every register on the stack below [sp], touching no other
    memory, and calls [kerneltrap] with the stack pointer lowered; if [kerneltrap]
    keeps the stack pointer, the page table and the frame, the rest of [kernelvec]
    returns with every register as it was, except [tp], which names the hart the
    code now runs on. *)
Theorem kernelvec_roundtrip c pa :
  regs_ok c → (∀ off, 0 ≤ off < 256 → xlate (csrs c satp) (u64 (u64 (regs c sp - 256) + off)) = pa + off) →
  ∃ c1 rest, run kernelvec c = Some (Called "kerneltrap" rest, c1) ∧ regs c1 sp = u64 (regs c sp - 256) ∧
    regs c1 tp = regs c tp ∧ (∀ a, a < pa ∨ pa + 256 ≤ a → ld8 (mem c1) a = ld8 (mem c) a) ∧
    ∀ c2, regs_ok c2 → regs c2 sp = regs c1 sp → csrs c2 satp = csrs c satp →
      (∀ a, pa ≤ a < pa + 256 → ld8 (mem c2) a = ld8 (mem c1) a) →
      ∃ c3, run rest c2 = Some (Return_s (csrs c2 sepc), c3) ∧ mem c3 = mem c2 ∧ regs c3 tp = regs c2 tp ∧
        ∀ r, r ≠ zero → r ≠ tp → regs c3 r = regs c r.
Proof.
  intros Hok Hx. set (c0 := set_reg sp (regs c sp + -256) c).
  change (run kernelvec c) with (run (saves sp frame_slots ++ Call "kerneltrap" :: kernelvec_out) c0).
  assert (regs c0 sp = u64 (regs c sp - 256)) as Hsp0 by (unfold c0; by asm_regs).
  assert (area c0 sp pa 256) as Ha0.
  { intros off Ho. unfold pa_of. rewrite Hsp0. unfold c0. asm_regs. by apply Hx. }
  assert (regs_ok c0) as Hok0.
  { intros r. unfold c0. destruct (decide (r = sp)) as [->|Hne]; [asm_regs; apply u64_range|].
    rewrite regs_other by done. apply Hok. }
  destruct (run_saves sp frame_slots 256 pa (Call "kerneltrap" :: kernelvec_out) c0 frame_slots_ok Ha0 Hok0)
    as (m&Hr&Hs&_&Hout).
  rewrite Hr. cbn [run]. eexists _, _. split; [reflexivity|]. asm_regs. split_and!; [done|unfold c0; by asm_regs| |].
  { intros a Ha. apply Hout. intros r o Hin. destruct frame_slots_ok as (Hb&_&_). rewrite Forall_forall in Hb.
    specialize (Hb _ Hin). cbn in Hb. lia. }
  intros c2 Hok2 Hsp2 Hsatp2 Hsame.
  assert (∀ r o, (r, o) ∈ frame_slots → ld64 (mem c2) (pa + o) = regs c0 r) as Hback.
  { intros r o Hin. rewrite <- (Hs _ _ Hin). destruct frame_slots_ok as (Hb&_&_). rewrite Forall_forall in Hb.
    specialize (Hb _ Hin). cbn in Hb. apply ld64_ext. intros i Hi. apply Hsame. lia. }
  destruct (kernelvec_out_run c2 pa Hok2) as (c3&Hr3&_&Hm3&Hsp3&Htp3&Hregs).
  { intros off Ho. unfold pa_of. rewrite Hsp2, Hsatp2. asm_regs. rewrite Hsp0. by apply Hx. }
  { rewrite (Hback sp 8); [by rewrite Hsp2|]. apply (bool_decide_unpack _). by vm_compute. }
  exists c3. split_and!; try done. intros r Hz Ht. destruct (decide (r = sp)) as [->|Hne].
  - rewrite Hsp3, Hsp2, Hsp0. pose proof (Hok sp). unfold u64. zdm.
  - assert (r ∈ frame_slots.*1) as ([r' o]&->&Hin)%list_elem_of_fmap.
    { destruct r; try done; apply (bool_decide_unpack _); by vm_compute. }
    change ((r', o).1) with r' in *. rewrite (Hregs _ _ Hin) by done. rewrite (Hback _ _ Hin). unfold c0. by rewrite regs_other.
Qed.

(** ** Single instructions *)

Lemma run_Sd r o b l d : run (Sd r o b :: l) d = run l (Cpu (regs d) (csrs d) (st64 (mem d) (pa_of d o b) (regs d r))).
Proof. done. Qed.
Lemma run_Ld r o b l d : run (Ld r o b :: l) d = run l (set_reg r (ld64 (mem d) (pa_of d o b)) d).
Proof. done. Qed.
Lemma run_Add r x y l d : run (Add r x y :: l) d = run l (set_reg r (regs d x + regs d y) d).
Proof. done. Qed.
Lemma run_Li r v l d : run (Li r v :: l) d = run l (set_reg r v d).
Proof. done. Qed.
Lemma run_Csrw k x l d : run (Csrw k x :: l) d = run l (set_csr k (regs d x) d).
Proof. done. Qed.
Lemma run_Csrrw r k x l d : run (Csrrw r k x :: l) d = run l (set_reg r (csrs d k) (set_csr k (regs d x) d)).
Proof. done. Qed.

End machine.

(** ** timervec *)

(** Machine mode is not translated. *)
Definition bare : Z → Z → Z := λ _ a, a.

Section timer.
Context (sym : string → Z) (link : list instr → Z).
#[local] Notation run := (run bare sym link).
#[local] Notation pa_of := (pa_of bare).

(** [timervec] runs with [mscratch] pointing to the scratch area
    start.c filled in, apart from the deadline register. *)
Record timer_ok (c : cpu) (scratch cmp : Z) : Prop := {
  tm_regs : regs_ok c;
  tm_scratch : csrs c mscratch = scratch;
  tm_range : 0 ≤ scratch ∧ scratch + 40 < 2 ^ 64;
  tm_cmp : ld64 (mem c) (scratch + 24) = cmp;
  tm_apart : apart scratch 40 cmp 8;
}.

(** Memory once the three registers are saved, and once the deadline is moved. *)
Definition timer_saved (c : cpu) (scratch : Z) : gmap Z Z :=
  st64 (st64 (st64 (mem c) scratch (regs c a1)) (scratch + 8) (regs c a2)) (scratch + 16) (regs c a3).
Definition next_deadline (c : cpu) (scratch cmp : Z) : Z := u64 (ld64 (mem c) cmp + ld64 (mem c) (scratch + 32)).
Definition timer_moved (c : cpu) (scratch cmp : Z) : gmap Z Z :=
  st64 (timer_saved c scratch) cmp (next_deadline c scratch cmp).

Lemma timer_pa c scratch cmp o d :
  timer_ok c scratch cmp → 0 ≤ o ≤ 40 → regs d a0 = scratch → pa_of d o a0 = scratch + o.
Proof. intros [] Ho Hd. unfold Asm.pa_of, bare. rewrite Hd. apply u64_small. lia. Qed.

Lemma timer_reads c scratch cmp :
  timer_ok c scratch cmp →
  (∀ o, 24 ≤ o ≤ 32 → ld64 (timer_saved c scratch) (scratch + o) = ld64 (mem c) (scratch + o)) ∧
  ld64 (timer_saved c scratch) cmp = ld64 (mem c) cmp ∧
  ld64 (timer_moved c scratch cmp) (scratch + 0) = regs c a1 ∧ ld64 (timer_moved c scratch cmp) (scratch + 8) = regs c a2 ∧
  ld64 (timer_moved c scratch cmp) (scratch + 16) = regs c a3.
Proof.
  intros [Hok _ _ _ Hap]. unfold timer_moved, timer_saved. split_and!.
  - intros o Ho. by rewrite !ld64_st64_other by lia.
  - by rewrite !ld64_st64_other by (destruct Hap; lia).
  - rewrite ld64_st64_other by (destruct Hap; lia). rewrite Z.add_0_r, !ld64_st64_other by lia. rewrite ld64_st64_same. apply u64_small, Hok.
  - rewrite !ld64_st64_other by (destruct Hap; lia). rewrite ld64_st64_same. apply u64_small, Hok.
  - rewrite ld64_st64_other by (destruct Hap; lia). rewrite ld64_st64_same. apply u64_small, Hok.
Qed.

(** The first half: save three registers, move the deadline. *)
Lemma timervec_deadline c scratch cmp :
  timer_ok c scratch cmp →
  ∃ d, run timervec c = run (drop 9 timervec) d ∧ regs d a0 = scratch ∧
    (∀ r, r ≠ a0 → r ≠ a1 → r ≠ a2 → r ≠ a3 → regs d r = regs c r) ∧
    csrs d = csrs (set_csr mscratch (regs c a0) c) ∧ mem d = timer_moved c scratch cmp.
Proof.
  intros Hok. pose proof (λ o d, timer_pa c scratch cmp o d Hok) as Hpa.
  destruct (timer_reads c scratch cmp Hok) as (Hm3&Hmc&_). destruct Hok as [Hok Hms [H0 Hend] Hcmp Hap].
  assert (u64 scratch = scratch) as Hus by (apply u64_small; lia).
  assert (∀ m a, u64 (ld64 m a) = ld64 m a) as Hul by (intros m a; apply u64_small, ld64_range).
  assert (u64 cmp = cmp) as Huc by (rewrite <- Hcmp; apply Hul).
  set (c1 := set_reg a0 scratch (set_csr mscratch (regs c a0) c)).
  assert (∀ d, regs d a1 = cmp → pa_of d 0 a1 = cmp) as Hpc.
  { intros d Hd. unfold Asm.pa_of, bare. by rewrite Hd, Z.add_0_r. }
  unfold timervec. rewrite run_Csrrw, Hms. fold c1.
  assert (regs c1 a1 = regs c a1 ∧ regs c1 a2 = regs c a2 ∧ regs c1 a3 = regs c a3) as (E1&E2&E3) by (unfold c1; by asm_regs).
  rewrite !run_Sd, !Hpa by (lia || unfold c1; by asm_regs). cbn [regs csrs mem]. change (mem c1) with (mem c).
  rewrite E1, E2, E3, Z.add_0_r. fold (timer_saved c scratch).
  rewrite run_Ld, Hpa by (lia || unfold c1; by asm_regs). cbn [regs csrs mem]. rewrite Hm3, Hcmp by lia.
  rewrite run_Ld, Hpa by (lia || unfold c1; by asm_regs). asm_regs. rewrite Hm3 by lia.
  rewrite run_Ld, Hpc by (unfold c1; by asm_regs). asm_regs. rewrite Hmc.
  rewrite run_Add. asm_regs. rewrite !Hul. rewrite run_Sd, Hpc by (unfold c1; by asm_regs). asm_regs.
  fold (next_deadline c scratch cmp). fold (timer_moved c scratch cmp).
  eexists. split; [reflexivity|]. split_and!; [unfold c1; asm_regs; done| |done|done].
  intros r N0 N1 N2 N3. cbn [regs]. rewrite !regs_other by done. cbn [regs]. unfold c1. by rewrite regs_other.
Qed.

(** A machine-mode timer interrupt is invisible too: [timervec] moves the next
    deadline by the interval, raises a supervisor software interrupt, and returns
    with every register, [mscratch] and all memory outside the scratch area and
    the deadline as they were. *)
Theorem timervec_correct c scratch cmp :
  timer_ok c scratch cmp →
  ∃ c', run timervec c = Some (Return_m (csrs c mepc), c') ∧
    ld64 (mem c') cmp = u64 (ld64 (mem c) cmp + ld64 (mem c) (scratch + 32)) ∧ csrs c' sip = 2 ∧
    (∀ r, r ≠ zero → regs c' r = regs c r) ∧ (∀ k, k ≠ sip → csrs c' k = csrs c k) ∧
    ∀ a, a < scratch ∨ scratch + 24 ≤ a → a < cmp ∨ cmp + 8 ≤ a → ld8 (mem c') a = ld8 (mem c) a.
Proof.
  intros Ht. pose proof (λ o d, timer_pa c scratch cmp o d Ht) as Hpa.
  destruct (timer_reads c scratch cmp Ht) as (_&_&R1&R2&R3).
  destruct (timervec_deadline c scratch cmp Ht) as (d&->&Hd0&Hdr&Hdc&Hdm). destruct Ht as [Hok Hms [H0 Hend] Hcmp Hap].
  cbn [drop timervec]. set (m4 := timer_moved c scratch cmp) in *.
  rewrite run_Li, run_Csrw, run_Ld, Hpa by (lia || asm_regs; rewrite ?Hdc; by asm_regs). asm_regs. rewrite Hdm.
  rewrite run_Ld, Hpa by (lia || asm_regs; rewrite ?Hdc; by asm_regs). asm_regs. rewrite Hdm.
  rewrite run_Ld, Hpa by (lia || asm_regs; rewrite ?Hdc; by asm_regs). asm_regs. rewrite Hdm.
  rewrite run_Csrrw. asm_regs. cbn [run]. asm_regs. rewrite Hdc, Hd0, R1, R2, R3.
  eexists. split; [by asm_regs|]. asm_regs. rewrite Hdm. split_and!; try done.
  - unfold m4, timer_moved. rewrite ld64_st64_same. apply u64_small, u64_range.
  - intros r Hr. destruct (decide (r = a0)) as [->|N0]; [asm_regs; apply u64_small, Hok|].
    rewrite regs_other by done. rewrite (proj1 (set_csr_rest _ _ _)).
    destruct (decide (r = a1)) as [->|N1]; [asm_regs; apply u64_small, Hok|]. rewrite regs_other by done.
    destruct (decide (r = a2)) as [->|N2]; [asm_regs; apply u64_small, Hok|]. rewrite regs_other by done.
    destruct (decide (r = a3)) as [->|N3]; [asm_regs; apply u64_small, Hok|]. rewrite !regs_other by done.
    rewrite (proj1 (set_csr_rest _ _ _)), regs_other by done. by apply Hdr.
  - intros k Hk. destruct (decide (k = mscratch)) as [->|Nm]; [by asm_regs|]. rewrite csrs_other by done. asm_regs.
    rewrite csrs_other by done. asm_regs. rewrite Hdc. by apply csrs_other.
  - intros a Ha Hc. unfold m4, timer_moved, timer_saved. by rewrite !ld8_st64_other by lia.
Qed.

End timer.

(** ** Examples *)

(** A processor with [a0] and [a1] as given, and its number in every other register. *)
Definition cpu_at (x y z : Z) (m : gmap Z Z) : cpu :=
  Cpu (λ r, match r with a0 => x | a1 => y | sp => z | zero => 0 | ra => 1111 | s1 => 2222 | _ => 9 end) (λ _, 0) m.

Lemma cpu_at_ok x y z m : 0 ≤ x < 2 ^ 64 → 0 ≤ y < 2 ^ 64 → 0 ≤ z < 2 ^ 64 → regs_ok (cpu_at x y z m).
Proof. intros Hx Hy Hz r. destruct r; cbn; lia. Qed.

(** Two processes at 4096 and 8192; the second resumes at 7777. *)
Lemma swtch_roundtrip_witness :
  ∃ c1, run bare (λ _, 0) (λ _, 0) swtch_code (cpu_at 4096 8192 500 (st64 ∅ 8192 7777)) = Some (Jump 7777, c1).
Proof.
  destruct (swtch_roundtrip bare (λ _, 0) (λ _, 0) (cpu_at 4096 8192 500 (st64 ∅ 8192 7777)) 4096 8192) as (c1&Hr&_).
  - apply cpu_at_ok; lia.
  - intros off Ho. unfold pa_of, bare. cbn [regs cpu_at]. apply u64_small. lia.
  - intros off Ho. unfold pa_of, bare. cbn [regs cpu_at]. apply u64_small. lia.
  - left. lia.
  - exists c1. rewrite Hr. vm_compute. reflexivity.
Defined.

(** The trapframe, where it is mapped, names 500 as the kernel's entry. *)
Lemma trap_roundtrip_witness :
  ∃ c1, run bare (λ _, 0) (λ _, 0) uservec (cpu_at 1 2 3 (st64 ∅ (TRAPFRAME + 16) 500)) = Some (Jump 500, c1).
Proof.
  destruct (trap_roundtrip bare (λ _, 0) (λ _, 0) (cpu_at 1 2 3 (st64 ∅ (TRAPFRAME + 16) 500)) TRAPFRAME) as (c1&Hr&_).
  - apply cpu_at_ok; lia.
  - intros off Ho. reflexivity.
  - exists c1. rewrite Hr. vm_compute. reflexivity.
Defined.

Lemma kernelvec_roundtrip_witness :
  ∃ c1 rest, run bare (λ _, 0) (λ _, 0) kernelvec (cpu_at 1 2 4096 ∅) = Some (Called "kerneltrap" rest, c1) ∧ regs c1 sp = 3840.
Proof.
  destruct (kernelvec_roundtrip bare (λ _, 0) (λ _, 0) (cpu_at 1 2 4096 ∅) 3840) as (c1&rest&Hr&Hsp&_).
  - apply cpu_at_ok; lia.
  - intros off Ho. unfold bare. cbn [regs cpu_at]. change (u64 (4096 - 256)) with 3840. apply u64_small. lia.
  - exact (ex_intro _ c1 (ex_intro _ rest (conj Hr Hsp))).
Defined.

Definition timer_cpu : cpu :=
  Cpu (λ _, 9) (λ k, if decide (k = mscratch) then 4096 else 0) (st64 (st64 (st64 ∅ 4120 8192) 4128 1000) 8192 50).

Lemma timervec_correct_witness :
  ∃ c', run bare (λ _, 0) (λ _, 0) timervec timer_cpu = Some (Return_m 0, c') ∧ ld64 (mem c') 8192 = 1050.
Proof.
  destruct (timervec_correct (λ _, 0) (λ _, 0) timer_cpu 4096 8192) as (c'&Hr&Hm&_).
  - split; [intros r; cbn; lia|by vm_compute|lia|by vm_compute|left; lia].
  - exists c'. split; [exact Hr|]. rewrite Hm. vm_compute. reflexivity.
Defined.
