(* ===== verification/Start.v ===== *)
(** * kernel/start.c: from machine mode to [main]

    The accessors of riscv.h for the machine-mode registers, [start] and
    [timerinit] on the machine of Asm.v, and that what they set up is what the
    timer interrupt handler and [mret] need. *)

From S2P Require Import Prelude State Mem Spinlock Kalloc Vm Proc Syscall Asm.

(** ** riscv.h *)

Definition MSTATUS_MPP_MASK : Z := Z.shiftl 3 11.
Definition MSTATUS_MPP_S : Z := Z.shiftl 1 11.
Definition MSTATUS_MIE : Z := Z.shiftl 1 3.
Definition SIE_SEIE : Z := Z.shiftl 1 9.
Definition SIE_STIE : Z := Z.shiftl 1 5.
Definition SIE_SSIE : Z := Z.shiftl 1 1.
Definition MIE_MTIE : Z := Z.shiftl 1 7.

Definition r_mhartid (c : cpu) : Z := csrs c mhartid.
Definition r_mstatus (c : cpu) : Z := csrs c mstatus.
Definition r_sie (c : cpu) : Z := csrs c sie.
Definition r_mie (c : cpu) : Z := csrs c mie.
Definition w_mstatus : Z → cpu → cpu := set_csr mstatus.
Definition w_mepc : Z → cpu → cpu := set_csr mepc.
Definition w_sie : Z → cpu → cpu := set_csr sie.
Definition w_mie : Z → cpu → cpu := set_csr mie.
Definition w_medeleg : Z → cpu → cpu := set_csr medeleg.
Definition w_mideleg : Z → cpu → cpu := set_csr mideleg.
Definition w_mtvec : Z → cpu → cpu := set_csr mtvec.
Definition w_pmpcfg0 : Z → cpu → cpu := set_csr pmpcfg0.
Definition w_pmpaddr0 : Z → cpu → cpu := set_csr pmpaddr0.
Definition w_satp : Z → cpu → cpu := set_csr satp.
Definition w_mscratch : Z → cpu → cpu := set_csr mscratch.
Definition w_tp : Z → cpu → cpu := set_reg tp.

(** ** memlayout.h: the core local interruptor *)

Definition CLINT : Z := 0x2000000.
Definition CLINT_MTIMECMP (hartid : Z) : Z := CLINT + 0x4000 + 8 * hartid.
Definition CLINT_MTIME : Z := CLINT + 0xBFF8.

Definition store (a v : Z) (c : cpu) : cpu := Cpu (regs c) (csrs c) (st64 (mem c) a v).

Section start.
(** Where the linker put [main], [timervec] and [timer_scratch]. *)
Context (sym : string → Z).

Definition timerinit (c : cpu) : cpu :=
  let id := i32 (r_mhartid c) in
  let interval := 1000000 in
  let c := store (CLINT_MTIMECMP id) (u64 (ld64 (mem c) CLINT_MTIME + interval)) c in
  let scratch := sym "timer_scratch" + 40 * id in
  let c := store (scratch + 24) (CLINT_MTIMECMP id) c in
  let c := store (scratch + 32) interval c in
  let c := w_mscratch scratch c in
  let c := w_mtvec (sym "timervec") c in
  let c := w_mstatus (Z.lor (r_mstatus c) MSTATUS_MIE) c in
  w_mie (Z.lor (r_mie c) MIE_MTIE) c.

(** [start] up to its [mret]. *)
Definition start (c : cpu) : cpu :=
  let x := r_mstatus c in
  let x := Z.land x (Z.lnot MSTATUS_MPP_MASK) in
  let x := Z.lor x MSTATUS_MPP_S in
  let c := w_mstatus x c in
  let c := w_mepc (sym "main") c in
  let c := w_satp 0 c in
  let c := w_medeleg 0xffff c in
  let c := w_mideleg 0xffff c in
  let c := w_sie (Z.lor (Z.lor (Z.lor (r_sie c) SIE_SEIE) SIE_STIE) SIE_SSIE) c in
  let c := w_pmpaddr0 0x3fffffffffffff c in
  let c := w_pmpcfg0 0xf c in
  let c := timerinit c in
  let id := i32 (r_mhartid c) in
  w_tp id c.

(** The mode [mret] returns to. *)
Definition mpp (status : Z) : Z := Z.land (Z.shiftr status 11) 3.

Lemma mpp_start x : 0 ≤ x → mpp (Z.lor (Z.lor (Z.land x (Z.lnot MSTATUS_MPP_MASK)) MSTATUS_MPP_S) MSTATUS_MIE) = 1.
Proof.
  intros Hx. unfold mpp. apply Z.bits_inj'. intros n Hn. rewrite Z.land_spec, Z.shiftr_spec, !Z.lor_spec, Z.land_spec by done.
  unfold MSTATUS_MPP_MASK, MSTATUS_MPP_S, MSTATUS_MIE. rewrite Z.lnot_spec by lia. rewrite !Z.shiftl_spec by lia.
  replace (n + 11 - 11) with n by lia. destruct (decide (n = 0)) as [->|N0]; [cbn; by rewrite ?andb_false_r|].
  destruct (decide (n = 1)) as [->|N1]; [cbn; by rewrite ?andb_false_r|].
  assert (Z.testbit 3 n = false) as -> by (apply Z.bits_above_log2; [lia|]; change (Z.log2 3) with 1; lia).
  rewrite andb_false_r. symmetry. apply Z.bits_above_log2; [lia|]. change (Z.log2 1) with 0. lia.
Qed.
(** The scratch area of a hart. *)
Definition scratch_of (id : Z) : Z := sym "timer_scratch" + 40 * id.

Lemma lor_bit x k : 0 ≤ k → Z.testbit (Z.lor x (Z.shiftl 1 k)) k = true.
Proof. intros Hk. rewrite Z.lor_spec, Z.shiftl_spec, Z.sub_diag by lia. apply orb_true_r. Qed.

Lemma lor_keeps x y k : Z.testbit x k = true → Z.testbit (Z.lor x y) k = true.
Proof. intros H. by rewrite Z.lor_spec, H. Qed.

Lemma timerinit_mem c id :
  i32 (csrs c mhartid) = id → 0 ≤ id < 8 → apart (scratch_of id) 40 (CLINT_MTIMECMP id) 8 →
  mem (timerinit c) = st64 (st64 (st64 (mem c) (CLINT_MTIMECMP id) (u64 (ld64 (mem c) CLINT_MTIME + 1000000)))
    (scratch_of id + 24) (CLINT_MTIMECMP id)) (scratch_of id + 32) 1000000 ∧
  ld64 (mem (timerinit c)) (CLINT_MTIMECMP id) = u64 (ld64 (mem c) CLINT_MTIME + 1000000) ∧
  ld64 (mem (timerinit c)) (scratch_of id + 24) = CLINT_MTIMECMP id ∧ ld64 (mem (timerinit c)) (scratch_of id + 32) = 1000000.
Proof.
  intros Hid Hr Hap. unfold timerinit, r_mhartid, w_mie, w_mstatus, w_mtvec, w_mscratch, store. rewrite Hid. asm_regs.
  fold (scratch_of id). split_and!; [done|..].
  - rewrite !ld64_st64_other by (destruct Hap; lia). rewrite ld64_st64_same. apply u64_small, u64_range.
  - rewrite ld64_st64_other, ld64_st64_same by lia. apply u64_small. unfold CLINT_MTIMECMP, CLINT. lia.
  - rewrite ld64_st64_same. done.
Qed.

Lemma timerinit_csrs c :
  csrs (timerinit c) mstatus = Z.lor (csrs c mstatus) MSTATUS_MIE ∧ csrs (timerinit c) mie = Z.lor (csrs c mie) MIE_MTIE ∧
  csrs (timerinit c) mtvec = sym "timervec" ∧ csrs (timerinit c) mscratch = scratch_of (i32 (csrs c mhartid)) ∧
  regs (timerinit c) = regs c ∧
  ∀ k, k ≠ mie → k ≠ mstatus → k ≠ mtvec → k ≠ mscratch → csrs (timerinit c) k = csrs c k.
Proof.
  unfold timerinit, w_mie, w_mstatus, w_mtvec, w_mscratch, r_mie, r_mstatus, r_mhartid, store. asm_regs. split_and!; try done.
  intros k N1 N2 N3 N4. by rewrite !csrs_other by done.
Qed.

(** The registers [start] sets before it calls [timerinit]. *)
Definition before_timer (c : cpu) : cpu :=
  let x := Z.lor (Z.land (r_mstatus c) (Z.lnot MSTATUS_MPP_MASK)) MSTATUS_MPP_S in
  w_pmpcfg0 0xf (w_pmpaddr0 0x3fffffffffffff
    (w_sie (Z.lor (Z.lor (Z.lor (r_sie c) SIE_SEIE) SIE_STIE) SIE_SSIE)
      (w_mideleg 0xffff (w_medeleg 0xffff (w_satp 0 (w_mepc (sym "main") (w_mstatus x c))))))).

Lemma start_eq c : start c = w_tp (i32 (csrs (timerinit (before_timer c)) mhartid)) (timerinit (before_timer c)).
Proof. unfold start, before_timer, r_sie, w_mideleg, w_medeleg, w_satp, w_mepc, w_mstatus. by asm_regs. Qed.

Lemma before_timer_csrs c :
  let c' := before_timer c in
  csrs c' mstatus = Z.lor (Z.land (csrs c mstatus) (Z.lnot MSTATUS_MPP_MASK)) MSTATUS_MPP_S ∧ csrs c' mepc = sym "main" ∧
  csrs c' satp = 0 ∧ csrs c' medeleg = 0xffff ∧ csrs c' mideleg = 0xffff ∧
  csrs c' sie = Z.lor (Z.lor (Z.lor (csrs c sie) SIE_SEIE) SIE_STIE) SIE_SSIE ∧ csrs c' mhartid = csrs c mhartid ∧
  mem c' = mem c ∧ regs c' = regs c.
Proof.
  unfold before_timer, w_pmpcfg0, w_pmpaddr0, w_sie, w_mideleg, w_medeleg, w_satp, w_mepc, w_mstatus, r_mstatus, r_sie.
  cbv zeta. by asm_regs.
Qed.

(** [start] leaves each hart ready for [mret] to [main] in supervisor mode with
    paging off, every trap delegated, supervisor interrupts unmasked and its hart
    id in [tp]; the first timer deadline is set, and the handler, its scratch
    pointer and the scratch area's contents are what [timervec] relies on. *)
Theorem start_correct c id :
  regs_ok c → csrs c mhartid = id → 0 ≤ id < 8 → 0 ≤ csrs c mstatus →
  0 ≤ scratch_of id → scratch_of id + 40 < 2 ^ 64 → apart (scratch_of id) 40 (CLINT_MTIMECMP id) 8 →
  let c' := start c in
  mpp (csrs c' mstatus) = 1 ∧ Z.testbit (csrs c' mstatus) 3 = true ∧ csrs c' mepc = sym "main" ∧ csrs c' satp = 0 ∧
  csrs c' medeleg = 0xffff ∧ csrs c' mideleg = 0xffff ∧
  (∀ k, k ∈ [1; 5; 9] → Z.testbit (csrs c' sie) k = true) ∧ Z.testbit (csrs c' mie) 7 = true ∧
  csrs c' mtvec = sym "timervec" ∧ regs c' tp = id ∧
  ld64 (mem c') (CLINT_MTIMECMP id) = u64 (ld64 (mem c) CLINT_MTIME + 1000000) ∧
  ld64 (mem c') (scratch_of id + 32) = 1000000 ∧ timer_ok c' (scratch_of id) (CLINT_MTIMECMP id).
Proof.
  intros Hok Hid Hr Hst H0 Hend Hap c'. unfold c'. rewrite start_eq.
  destruct (before_timer_csrs c) as (B1&B2&B3&B4&B5&B6&B7&B8&B9). set (c1 := before_timer c) in *.
  destruct (timerinit_csrs c1) as (T1&T2&T3&T4&T5&T6).
  assert (i32 (csrs c1 mhartid) = id) as Hid1 by (rewrite B7, Hid; apply i32_small; lia).
  destruct (timerinit_mem c1 id Hid1 Hr Hap) as (_&M1&M2&M3). rewrite B8 in M1. rewrite Hid1 in T4.
  unfold w_tp. rewrite (T6 mhartid), Hid1 by done. asm_regs.
  rewrite T1, T2, T3, (T6 mepc), (T6 satp), (T6 medeleg), (T6 mideleg), (T6 sie) by done.
  rewrite B1, B2, B3, B4, B5, B6. split_and!; try done.
  - by apply mpp_start.
  - apply lor_bit. lia.
  - assert (Forall (λ k, Z.testbit (Z.lor (Z.lor (Z.lor (csrs c sie) SIE_SEIE) SIE_STIE) SIE_SSIE) k = true) [1; 5; 9]) as Hall.
    { repeat constructor; [apply lor_bit|do 1 apply lor_keeps; apply lor_bit|do 2 apply lor_keeps; apply lor_bit]; lia. }
    by apply Forall_forall.
  - apply lor_bit. lia.
  - apply u64_small. lia.
  - split; [|by asm_regs|lia|by asm_regs|done].
    intros r. destruct (decide (r = tp)) as [->|Hne]; [asm_regs; apply u64_range|]. rewrite regs_other by done.
    rewrite T5, B9. apply Hok.
Qed.

(** [_entry] gives each hart its own 4096 bytes of [stack0]. *)
Lemma entry_correct xlate link c id :
  csrs c mhartid = id → 0 ≤ id < 8 → 0 ≤ sym "stack0" → sym "stack0" + 4096 * 8 < 2 ^ 64 →
  ∃ rest c', run xlate sym link entry c = Some (Called "start" rest, c') ∧ regs c' sp = sym "stack0" + 4096 * id + 4096 ∧
    csrs c' = csrs c ∧ mem c' = mem c.
Proof.
  intros Hid Hr H0 Hend. unfold entry. cbn [run exec1]. eexists _, _. split; [reflexivity|]. asm_regs. rewrite Hid.
  split_and!; try done. rewrite (u64_small id), (u64_small (id + 1)), (u64_small (1024 * 4)) by lia.
  rewrite (u64_small (sym "stack0")) by lia. rewrite (u64_small (1024 * 4 * (id + 1))), u64_small by lia. lia.
Qed.

End start.

(** Hart 2, with [timer_scratch] in kernel memory. *)
Lemma start_correct_witness :
  let c := Cpu (λ _, 0) (λ k, if decide (k = mhartid) then 2 else 0) ∅ in
  mpp (csrs (start (λ _, 0x80010000) c) mstatus) = 1 ∧ regs (start (λ _, 0x80010000) c) tp = 2.
Proof.
  intros c. destruct (start_correct (λ _, 0x80010000) c 2) as (H1&_&_&_&_&_&_&_&_&H2&_).
  - intros r. cbn. lia.
  - by vm_compute.
  - lia.
  - by vm_compute.
  - by vm_compute.
  - by vm_compute.
  - right. vm_compute. discriminate.
  - exact (conj H1 H2).
Defined.
