(* ===== verification/User.v ===== *)
(** * The system call interface as user programs see it

    User programs reach the kernel through the calls of user.h only. [Os] is that
    interface: a state of the world and the calls on it. What a program needs of
    the calls it makes is stated as classes, which say what read and write
    on a descriptor promise; [pipe_os] is an instance that honours them. *)

From S2P Require Import Prelude State Mem Kstring.

(** The calls, each with its return value; [os_read] and [os_fstat] also deliver
    bytes. *)
Class Os (W : Type) := {
  os_read : Z → Z → W → Z * list Z * W;
  os_write : Z → list Z → W → Z * W;
  os_open : list Z → Z → W → Z * W;
  os_close : Z → W → Z * W;
  os_fstat : Z → W → Z * list Z * W;
  os_sbrk : Z → W → Z * W;
}.

(** Reading descriptor [fd] delivers, in order, the bytes [rem]: at least one and
    at most as many as asked for while there are any, then 0. *)
Class Reads {W : Type} (O : Os W) (fd : Z) (rem : W → list Z) : Prop := {
  read_some w n : 0 < n → rem w ≠ [] →
    ∃ k w', os_read fd n w = (Z.of_nat k, take k (rem w), w') ∧ (1 ≤ k ≤ length (rem w))%nat ∧ Z.of_nat k ≤ n ∧
      rem w' = drop k (rem w);
  read_none w n : n ≤ 0 ∨ rem w = [] → ∃ w', os_read fd n w = (0, [], w') ∧ rem w' = rem w;
}.

(** Writing to descriptor [fd] appends to [out]. *)
Class Writes {W : Type} (O : Os W) (fd : Z) (out : W → list Z) : Prop := {
  write_all w bytes : ∃ w', os_write fd bytes w = (Z.of_nat (length bytes), w') ∧ out w' = out w ++ bytes;
}.

(** Reading [fd] and writing [fd'] are independent. *)
Class Independent {W : Type} (O : Os W) (fd : Z) (rem : W → list Z) (fd' : Z) (out : W → list Z) : Prop := {
  read_out w n : out (os_read fd n w).2 = out w;
  write_rem w bytes : rem (os_write fd' bytes w).2 = rem w;
}.

(** [sbrk n] gives the [n] bytes that start at [brk], or fails and gives none; a
    process stays below 32 gigabytes. *)
Class Grows {W : Type} (O : Os W) (brk : W → Z) : Prop := {
  sbrk_grows w n : 0 < n →
    ∃ w', (os_sbrk n w = (-1, w') ∧ brk w' = brk w) ∨
          (os_sbrk n w = (brk w, w') ∧ brk w' = brk w + n ∧ brk w + n < 34359738368);
}.

(** ** A world with one input and one output

    Input arrives in pieces of at most [chunk] bytes. *)

Record world : Type := World {
  wd_in : list Z;
  wd_out : list Z;
  wd_brk : Z;
}.

Definition chunk : nat := 3.

Definition read_input (n : Z) (w : world) : Z * list Z * world :=
  let k := Nat.min (Nat.min (Z.to_nat n) chunk) (length (wd_in w)) in
  (Z.of_nat k, take k (wd_in w), World (drop k (wd_in w)) (wd_out w) (wd_brk w)).

#[export] Instance pipe_os : Os world := {
  os_read fd n w := read_input n w;
  os_write fd bytes w := (Z.of_nat (length bytes), World (wd_in w) (wd_out w ++ bytes) (wd_brk w));
  os_open path mode w := (3, w);
  os_close fd w := (0, w);
  os_fstat fd w := (0, replicate 24 0, w);
  os_sbrk n w :=
    if wd_brk w + n <? 134217728 then (wd_brk w, World (wd_in w) (wd_out w) (wd_brk w + n)) else (-1, w);
}.

#[export] Instance pipe_reads fd : Reads pipe_os fd wd_in.
Proof.
  split.
  - intros w n Hn Hne. assert (length (wd_in w) ≠ 0%nat) by (by destruct (wd_in w)). cbn. unfold read_input, chunk.
    eexists _, _. split; [reflexivity|]. cbn. split; [lia|]. split; [lia|done].
  - intros w n Hor. cbn. unfold read_input.
    assert (Nat.min (Nat.min (Z.to_nat n) chunk) (length (wd_in w)) = 0%nat) as ->.
    { destruct Hor as [Hn| ->]; [|cbn; lia]. assert (Z.to_nat n = 0%nat) as -> by lia. done. }
    eexists. split; [done|]. done.
Qed.

#[export] Instance pipe_writes fd : Writes pipe_os fd wd_out.
Proof. split. intros w bytes. eexists. split; [done|]. done. Qed.

#[export] Instance pipe_independent fd fd' : Independent pipe_os fd wd_in fd' wd_out.
Proof. by split. Qed.

#[export] Instance pipe_grows : Grows pipe_os wd_brk.
Proof.
  split. intros w n Hn. cbn. destruct (wd_brk w + n <? 134217728) eqn:E; eexists.
  - right. split; [done|]. split; [done|lia].
  - left. by split.
Qed.
