(* ===== verification/Ulib.v ===== *)
(** * user/ulib.c: the C library of the user programs

    The string routines run on the memory of the process, the others through the
    system call interface. Loops that end at a NUL byte take fuel; the lemmas say
    how much is enough. *)

From S2P Require Import Prelude State Mem Kstring User.

(** ** Model *)

(** Copy bytes up to and including a NUL. *)
Fixpoint strcpy (n : nat) (m : gmap Z Z) (s t : Z) : option (gmap Z Z) :=
  match n with
  | O => None
  | S n' =>
      let c := ld8 m t in
      let m := st8 m s c in
      if negb (c =? 0) then strcpy n' m (s + 1) (t + 1) else Some m
  end.

(** Skip equal bytes up to a NUL, then compare. *)
Fixpoint strcmp (n : nat) (m : gmap Z Z) (p q : Z) : option Z :=
  match n with
  | O => None
  | S n' =>
      if negb (ld8 m p =? 0) && (ld8 m p =? ld8 m q) then strcmp n' m (p + 1) (q + 1)
      else Some (ld8 m p - ld8 m q)
  end.

(** [for(n = 0; s[n]; n++)]. *)
Fixpoint strlen_from (k : nat) (m : gmap Z Z) (s n : Z) : option Z :=
  match k with
  | O => None
  | S k' => if negb (ld8 m (s + n) =? 0) then strlen_from k' m s (i32 (n + 1)) else Some (u32 n)
  end.
Definition strlen (k : nat) (m : gmap Z Z) (s : Z) : option Z := strlen_from k m s 0.

Fixpoint memset_from (k : nat) (m : gmap Z Z) (dst c : Z) : gmap Z Z :=
  match k with O => m | S k' => memset_from k' (st8 m dst c) (dst + 1) c end.
Definition memset (m : gmap Z Z) (dst c n : Z) : gmap Z Z := memset_from (Z.to_nat n) m dst c.

(** The address of the first [c], 0 for none. *)
Fixpoint strchr (k : nat) (m : gmap Z Z) (s c : Z) : option Z :=
  match k with
  | O => None
  | S k' =>
      if negb (ld8 m s =? 0) then (if ld8 m s =? c then Some s else strchr k' m (s + 1) c)
      else Some 0
  end.

Fixpoint atoi_from (k : nat) (m : gmap Z Z) (s n : Z) : option Z :=
  match k with
  | O => None
  | S k' =>
      let c := ld8 m s in
      if (48 <=? c) && (c <=? 57) then atoi_from k' m (s + 1) (i32 (i32 (n * 10 + c) - 48)) else Some n
  end.
Definition atoi (k : nat) (m : gmap Z Z) (s : Z) : option Z := atoi_from k m s 0.

(** [memmove]; [n] is an [int]. *)
Definition memmove (m : gmap Z Z) (vdst vsrc n : Z) : gmap Z Z :=
  if vdst <? vsrc then copy_up (Z.to_nat n) m vdst vsrc
  else copy_down (Z.to_nat n) m (vdst + n) (vsrc + n).

Fixpoint memcmp_from (k : nat) (m : gmap Z Z) (p1 p2 : Z) : Z :=
  match k with
  | O => 0
  | S k' => if negb (ld8 m p1 =? ld8 m p2) then ld8 m p1 - ld8 m p2 else memcmp_from k' m (p1 + 1) (p2 + 1)
  end.
Definition memcmp (m : gmap Z Z) (s1 s2 n : Z) : Z := memcmp_from (Z.to_nat n) m s1 s2.

(** [n] is a [uint] here and an [int] there. *)
Definition memcpy (m : gmap Z Z) (dst src n : Z) : gmap Z Z := memmove m dst src (i32 n).

Section calls.
Context {W : Type} {OS : Os W}.

(** [gets(buf, max)] from byte [i] on; the fuel bounds the bytes still to read. *)
Fixpoint gets_from (k : nat) (buf max i : Z) (m : gmap Z Z) (w : W) : gmap Z Z * W :=
  match k with
  | O => (st8 m (buf + i) 0, w)
  | S k' =>
      if i + 1 <? max then
        let '(cc, bytes, w) := os_read 0 1 w in
        if cc <? 1 then (st8 m (buf + i) 0, w)
        else
          let c := default 0 (head bytes) in
          let m := st8 m (buf + i) c in
          if (c =? 10) || (c =? 13) then (st8 m (buf + (i + 1)) 0, w)
          else gets_from k' buf max (i + 1) m w
      else (st8 m (buf + i) 0, w)
  end.
Definition gets (buf max : Z) (m : gmap Z Z) (w : W) : gmap Z Z * W := gets_from (Z.to_nat max) buf max 0 m w.

(** [stat(n, st)]: the result and the bytes of the [struct stat]. *)
Definition stat (n : list Z) (w : W) : Z * list Z * W :=
  let '(fd, w) := os_open n 0 w in
  if fd <? 0 then (-1, [], w)
  else
    let '(r, st, w) := os_fstat fd w in
    let '(_, w) := os_close fd w in
    (r, st, w).

End calls.

(** ** Strings in memory *)

(** [s] points to the string [l]: its bytes, none of them NUL, then a NUL. *)
Definition string_at (m : gmap Z Z) (s : Z) (l : list Z) : Prop :=
  Forall (λ c, 0 < c < 256) l ∧ ld_bytes (length l) m s = l ∧ ld8 m (s + Z.of_nat (length l)) = 0.

Lemma string_at_nil m s : string_at m s [] ↔ ld8 m s = 0.
Proof. unfold string_at. cbn. rewrite Z.add_0_r. split; [tauto|]. done. Qed.

Lemma string_at_cons m s c l :
  string_at m s (c :: l) ↔ 0 < c < 256 ∧ ld8 m s = c ∧ string_at m (s + 1) l.
Proof.
  unfold string_at. rewrite Forall_cons. cbn [length ld_bytes]. replace (s + Z.of_nat (S (length l))) with (s + 1 + Z.of_nat (length l)) by lia.
  split.
  - intros ([Hc Hl]&[= H1 H2]&H3). exact (conj Hc (conj H1 (conj Hl (conj H2 H3)))).
  - intros (Hc&H1&Hl&H2&H3). split; [done|]. split; [by f_equal|done].
Qed.

Lemma string_at_ext m m' s l :
  (∀ a, s ≤ a ≤ s + Z.of_nat (length l) → ld8 m' a = ld8 m a) → string_at m s l → string_at m' s l.
Proof.
  intros Hs (H1&H2&H3). split_and!; [done| |].
  - rewrite <- H2 at 2. apply ld_bytes_ext. intros i Hi. apply Hs. lia.
  - rewrite Hs by lia. done.
Qed.

Lemma strlen_from_ok k m s n l :
  string_at m (s + n) l → (length l < k)%nat → 0 ≤ n → n + Z.of_nat (length l) < 2 ^ 31 →
  strlen_from k m s n = Some (n + Z.of_nat (length l)).
Proof.
  revert k n. induction l as [|c l IH]; intros [|k] n Hl Hk Hn Hmax; cbn [length] in *; try lia; cbn [strlen_from].
  - apply string_at_nil in Hl. rewrite Hl. cbn. rewrite u32_small by lia. f_equal. lia.
  - apply string_at_cons in Hl as (Hc&Hs&Hl). rewrite Hs. rewrite (proj2 (Z.eqb_neq c 0)) by lia. cbn.
    rewrite i32_small by lia. rewrite (IH k (n + 1)); [f_equal; lia| |lia|lia|lia].
    replace (s + (n + 1)) with (s + n + 1) by lia. done.
Qed.

Lemma strlen_ok k m s l : string_at m s l → (length l < k)%nat → Z.of_nat (length l) < 2 ^ 31 → strlen k m s = Some (Z.of_nat (length l)).
Proof. intros Hl Hk Hmax. unfold strlen. rewrite (strlen_from_ok k m s 0 l); [done|by rewrite Z.add_0_r|lia|lia|lia]. Qed.

Lemma strchr_ok k m s c l :
  string_at m s l → (length l < k)%nat →
  strchr k m s c = Some (match list_find (λ x, x = c) l with Some (i, _) => s + Z.of_nat i | None => 0 end).
Proof.
  revert k s. induction l as [|x l IH]; intros [|k] s Hl Hk; cbn [length] in *; try lia; cbn [strchr].
  - apply string_at_nil in Hl. by rewrite Hl.
  - apply string_at_cons in Hl as (Hx&Hs&Hl). rewrite Hs. rewrite (proj2 (Z.eqb_neq x 0)) by lia. cbn [negb].
    cbn [list_find]. destruct (decide (x = c)) as [->|Hne].
    + rewrite Z.eqb_refl. f_equal. lia.
    + rewrite (proj2 (Z.eqb_neq x c)) by done. rewrite (IH k (s + 1)) by (done || lia).
      destruct (list_find _ l) as [[i y]|]; cbn; [f_equal; lia|done].
Qed.

Lemma strcpy_ok k m s t l :
  string_at m t l → (length l < k)%nat → s ≤ t ∨ t + Z.of_nat (length l) < s →
  ∃ m', strcpy k m s t = Some m' ∧ string_at m' s l ∧
    ∀ a, a < s ∨ s + Z.of_nat (length l) < a → ld8 m' a = ld8 m a.
Proof.
  revert k m s t. induction l as [|c l IH]; intros [|k] m s t Hl Hk Ho; cbn [length] in *; try lia; cbn [strcpy].
  - apply string_at_nil in Hl. rewrite Hl. cbn. eexists. split; [done|]. split.
    + apply string_at_nil. by rewrite ld8_st8_same.
    + intros a Ha. apply ld8_st8_other. lia.
  - apply string_at_cons in Hl as (Hc&Hs&Hl). rewrite Hs. rewrite (proj2 (Z.eqb_neq c 0)) by lia. cbn [negb].
    destruct (IH k (st8 m s c) (s + 1) (t + 1)) as (m'&Hr&Hs'&Hout); [|lia|lia|].
    + apply (string_at_ext m); [|done]. intros a Ha. apply ld8_st8_other. lia.
    + exists m'. split; [done|]. split; [|intros a Ha; rewrite Hout by lia; apply ld8_st8_other; lia].
      apply string_at_cons. split; [done|]. split; [|done]. rewrite Hout by lia. rewrite ld8_st8_same. apply u8_small. lia.
Qed.

Lemma strcmp_ok k m p q l1 l2 :
  string_at m p l1 → string_at m q l2 → (length l1 < k)%nat → strcmp k m p q = Some (lex_diff l1 l2).
Proof.
  revert k p q l2. induction l1 as [|x l1 IH]; intros [|k] p q l2 H1 H2 Hk; cbn [length] in *; try lia; cbn [strcmp].
  - apply string_at_nil in H1. rewrite H1. cbn. destruct l2 as [|y l2]; [apply string_at_nil in H2; by rewrite H2|].
    apply string_at_cons in H2 as (_&->&_). f_equal.
  - apply string_at_cons in H1 as (Hx&Hp&H1). rewrite Hp. rewrite (proj2 (Z.eqb_neq x 0)) by lia. cbn [negb andb].
    destruct l2 as [|y l2]; [apply string_at_nil in H2; rewrite H2, (proj2 (Z.eqb_neq x 0)) by lia; cbn; f_equal; lia|].
    apply string_at_cons in H2 as (Hy&Hq&H2). rewrite Hq. cbn [lex_diff]. destruct (x =? y) eqn:E; [|done].
    apply IH; [done|done|lia].
Qed.

Lemma memmove_ok m dst src n a :
  0 ≤ n → ld8 (memmove m dst src n) a = if decide (dst ≤ a < dst + n) then ld8 m (src + (a - dst)) else ld8 m a.
Proof.
  intros Hn. unfold memmove. destruct (dst <? src) eqn:E; reflect_tests.
  - rewrite ld8_copy_up, Z2Nat.id by lia. done.
  - rewrite ld8_copy_down, Z2Nat.id by lia. repeat case_decide; try lia; f_equal; lia.
Qed.

(** ** Numbers *)

(** The value of a decimal numeral. *)
Definition decimal (l : list Z) : Z := foldl (λ n c, n * 10 + (c - 48)) 0 l.

Definition digit (c : Z) : Prop := 48 ≤ c ≤ 57.

Lemma foldl_decimal_mono l n : Forall digit l → 0 ≤ n → n ≤ foldl (λ n c, n * 10 + (c - 48)) n l.
Proof.
  intros Hl. revert n. induction Hl as [|c l Hc Hl IH]; intros n Hn; cbn; [done|]. unfold digit in Hc.
  etransitivity; [|apply IH]; lia.
Qed.

(** [atoi] reads the digits in front; the value must fit an [int]. *)
Lemma atoi_from_ok k m s n l c :
  Forall digit l → ld_bytes (length l) m s = l → ld8 m (s + Z.of_nat (length l)) = c → ¬ digit c →
  (length l < k)%nat → 0 ≤ n → foldl (λ n c, n * 10 + (c - 48)) n l < 2 ^ 31 - 48 →
  atoi_from k m s n = Some (foldl (λ n c, n * 10 + (c - 48)) n l).
Proof.
  intros Hl. revert k s n. induction Hl as [|x l Hx Hl IH]; intros [|k] s n Hm Hc Hnd Hk Hn Hmax; cbn [length] in *; try lia;
    cbn [atoi_from].
  - rewrite Z.add_0_r in Hc. rewrite Hc. unfold digit in Hnd. destruct (_ && _) eqn:E; reflect_tests; [lia|done].
  - cbn [ld_bytes] in Hm. injection Hm as Hs Hm. rewrite Hs. unfold digit in Hx.
    assert ((48 <=? x) && (x <=? 57) = true) as -> by (apply andb_true_iff; split; apply Z.leb_le; lia).
    cbn [foldl] in *. pose proof (foldl_decimal_mono l (n * 10 + (x - 48)) Hl ltac:(lia)).
    rewrite !i32_small by (rewrite ?i32_small; lia). replace (n * 10 + x - 48) with (n * 10 + (x - 48)) by lia.
    apply IH; try done; [|lia|lia]. rewrite <- Hc. f_equal. lia.
Qed.
