(* ===== verification/Uprintf.v ===== *)
(** * user/printf.c: formatted output of the user programs

    [vprintf] goes through the format with its two states and writes one byte at
    a time; [render] is the text it writes. *)

From S2P Require Import Prelude State Mem Kstring User.

(** ** Model *)

(** What [va_arg] takes; a string is the list of its bytes, [None] a null pointer. *)
Inductive uarg : Type :=
| U_int (x : Z)
| U_long (x : Z)
| U_ptr (x : Z)
| U_str (s : option (list Z))
| U_char (c : Z).

(** "\n". *)
Definition nl : string := String (Ascii.ascii_of_nat 10) EmptyString.

Definition digits : list Z := str_bytes "0123456789ABCDEF".
Definition digit (k : Z) : Z := default 0 (digits !! Z.to_nat k).

(** The [do ... while] of [printint]. *)
Fixpoint int_digits (n : nat) (x base : Z) : list Z :=
  match n with
  | O => []
  | S n' => digit (x mod base) :: (if x / base =? 0 then [] else int_digits n' (x / base) base)
  end.

(** [buf[]] when its bytes are printed, last to first. *)
Definition int_buf (xx base : Z) (sgn : bool) : list Z :=
  let neg := sgn && (xx <? 0) in
  let x := u32 (if neg then - xx else xx) in
  int_digits 32 x base ++ (if neg then [45] else []).

Section model.
Context {W : Type} {OS : Os W}.

Definition putc (fd c : Z) (w : W) : W := (os_write fd [u8 c] w).2.

Fixpoint puts (fd : Z) (l : list Z) (w : W) : W :=
  match l with [] => w | c :: l' => puts fd l' (putc fd c w) end.

(** [xx] is an [int]: the argument is converted to one. *)
Definition printint (fd xx base : Z) (sgn : bool) (w : W) : W := puts fd (reverse (int_buf (i32 xx) base sgn)) w.

Fixpoint printptr_loop (n : nat) (fd x : Z) (w : W) : W :=
  match n with
  | O => w
  | S n' => printptr_loop n' fd (u64 (Z.shiftl x 4)) (putc fd (digit (Z.shiftr x 60)) w)
  end.
Definition printptr (fd x : Z) (w : W) : W := printptr_loop 16 fd x (putc fd 120 (putc fd 48 w)).

(** The character after a percent sign. [va_arg] has no value when the argument
    is missing or of another type, and nothing is written here. *)
Definition convert (fd c : Z) (args : list uarg) (w : W) : list uarg * W :=
  if c =? 100 then match args with U_int x :: args' => (args', printint fd x 10 true w) | _ => (args, w) end
  else if c =? 108 then match args with U_long x :: args' => (args', printint fd x 10 false w) | _ => (args, w) end
  else if c =? 120 then match args with U_int x :: args' => (args', printint fd x 16 false w) | _ => (args, w) end
  else if c =? 112 then match args with U_ptr x :: args' => (args', printptr fd x w) | _ => (args, w) end
  else if c =? 115 then
    match args with U_str s :: args' => (args', puts fd (default (str_bytes "(null)") s) w) | _ => (args, w) end
  else if c =? 99 then match args with U_char x :: args' => (args', putc fd x w) | _ => (args, w) end
  else if c =? 37 then (args, putc fd c w)
  else (args, putc fd c (putc fd 37 w)).

(** The loop, with [percent] its [state]. *)
Fixpoint vprintf_loop (fd : Z) (fmt : list Z) (percent : bool) (args : list uarg) (w : W) : W :=
  match fmt with
  | [] => w
  | c :: fmt' =>
      if percent then let '(args, w) := convert fd c args w in vprintf_loop fd fmt' false args w
      else if c =? 37 then vprintf_loop fd fmt' true args w
      else vprintf_loop fd fmt' false args (putc fd c w)
  end.

Definition vprintf (fd : Z) (fmt : string) (args : list uarg) (w : W) : W := vprintf_loop fd (str_bytes fmt) false args w.
Definition fprintf : Z → string → list uarg → W → W := vprintf.
Definition printf : string → list uarg → W → W := vprintf 1.

End model.

(** ** What it writes *)

Fixpoint ptr_digits (n : nat) (x : Z) : list Z :=
  match n with O => [] | S n' => digit (Z.shiftr x 60) :: ptr_digits n' (u64 (Z.shiftl x 4)) end.

Definition render_conv (c : Z) (args : list uarg) : list Z * list uarg :=
  if c =? 100 then match args with U_int x :: args' => (reverse (int_buf (i32 x) 10 true), args') | _ => ([], args) end
  else if c =? 108 then match args with U_long x :: args' => (reverse (int_buf (i32 x) 10 false), args') | _ => ([], args) end
  else if c =? 120 then match args with U_int x :: args' => (reverse (int_buf (i32 x) 16 false), args') | _ => ([], args) end
  else if c =? 112 then match args with U_ptr x :: args' => ([48; 120] ++ ptr_digits 16 x, args') | _ => ([], args) end
  else if c =? 115 then match args with U_str s :: args' => (default (str_bytes "(null)") s, args') | _ => ([], args) end
  else if c =? 99 then match args with U_char x :: args' => ([x], args') | _ => ([], args) end
  else (if c =? 37 then [37] else [37; c], args).

Fixpoint render_from (fmt : list Z) (percent : bool) (args : list uarg) : list Z :=
  match fmt with
  | [] => []
  | c :: fmt' =>
      if percent then let r := render_conv c args in r.1 ++ render_from fmt' false r.2
      else if c =? 37 then render_from fmt' true args
      else c :: render_from fmt' false args
  end.
Definition render (fmt : string) (args : list uarg) : list Z := u8 <$> render_from (str_bytes fmt) false args.

Section output.
Context {W : Type} {OS : Os W} (fd : Z) (out : W → list Z) {Wr : Writes OS fd out}.

Lemma putc_ok c w : out (putc fd c w) = out w ++ [u8 c].
Proof. unfold putc. destruct (write_all (fd := fd) (out := out) w [u8 c]) as (w'&->&Ho). done. Qed.

Lemma puts_ok l w : out (puts fd l w) = out w ++ (u8 <$> l).
Proof.
  revert w. induction l as [|c l IH]; intros w; cbn; [by rewrite app_nil_r|]. by rewrite IH, putc_ok, <- app_assoc.
Qed.

Lemma printptr_loop_ok n x w : out (printptr_loop n fd x w) = out w ++ (u8 <$> ptr_digits n x).
Proof.
  revert x w. induction n as [|n IH]; intros x w; cbn [printptr_loop ptr_digits fmap list_fmap]; [by rewrite app_nil_r|].
  by rewrite IH, putc_ok, <- app_assoc.
Qed.

Lemma convert_ok c args w :
  let r := convert fd c args w in
  r.1 = (render_conv c args).2 ∧ out r.2 = out w ++ (u8 <$> (render_conv c args).1).
Proof.
  unfold convert, render_conv, printint, printptr.
  repeat (case_match; subst; cbn [fst snd fmap list_fmap]); split; try done;
    rewrite ?puts_ok, ?printptr_loop_ok, ?putc_ok, ?app_nil_r, <- ?app_assoc; try done.
  all: reflect_tests; subst; done.
Qed.

Lemma vprintf_loop_ok fmt percent args w :
  out (vprintf_loop fd fmt percent args w) = out w ++ (u8 <$> render_from fmt percent args).
Proof.
  revert percent args w. induction fmt as [|c fmt IH]; intros percent args w; cbn [vprintf_loop render_from].
  - by rewrite app_nil_r.
  - destruct percent.
    + destruct (convert_ok c args w) as [H1 H2]. destruct (convert fd c args w) as [args' w']. cbn in H1, H2. subst args'.
      rewrite IH, H2, fmap_app, <- app_assoc. done.
    + destruct (c =? 37); [apply IH|]. rewrite IH, putc_ok, <- app_assoc. done.
Qed.

Lemma vprintf_ok fmt args w : out (vprintf fd fmt args w) = out w ++ render fmt args.
Proof. apply vprintf_loop_ok. Qed.

End output.

(** [%l] takes 64 bits and prints 32 of them: 2^32 comes out as 0. *)
Lemma long_truncated x : render "%l" [U_long (x + 4294967296)] = render "%l" [U_long x].
Proof.
  unfold render. cbn. unfold render_conv. cbn. unfold i32.
  replace (x + 4294967296 + 2147483648) with (x + 2147483648 + 1 * 4294967296) by lia. by rewrite Z.mod_add.
Qed.
