(* ===== verification/Grep.v ===== *)
(** * user/grep.c: the pattern matcher, the line filter and the program

    A C string is the list of the bytes before its NUL. The matcher is shown
    equivalent to the language its pattern denotes; the filter, which works through
    the input in pieces of whatever size [read] delivers, to selecting the lines
    that match. *)

From S2P Require Import Prelude State Mem Kstring User Uprintf.

(** ** The matcher *)

(** [matchhere]; the inner loop is [matchstar] on the rest of the pattern. *)
Fixpoint matchhere (re text : list Z) {struct re} : bool :=
  match re with
  | [] => true
  | c :: re1 =>
      let once :=
        if (c =? 36) && bool_decide (re1 = []) then bool_decide (text = [])
        else
          match text with
          | [] => false
          | t :: text' => ((c =? 46) || (c =? t)) && matchhere re1 text'
          end in
      match re1 with
      | [] => once
      | s :: re2 =>
          if s =? 42 then
            (fix matchstar (text : list Z) : bool :=
               matchhere re2 text ||
               match text with
               | [] => false
               | t :: text' => ((t =? c) || (c =? 46)) && matchstar text'
               end) text
          else once
      end
  end.

(** [matchstar(c, re, text)] as its own function. *)
Fixpoint matchstar (c : Z) (re text : list Z) : bool :=
  matchhere re text ||
  match text with
  | [] => false
  | t :: text' => ((t =? c) || (c =? 46)) && matchstar c re text'
  end.

(** The loop of [match] over the text; it must look at the empty string too. *)
Fixpoint match_anywhere (re text : list Z) : bool :=
  matchhere re text || match text with [] => false | _ :: text' => match_anywhere re text' end.

Definition match_ (re text : list Z) : bool :=
  match re with
  | c :: re' => if c =? 94 then matchhere re' text else match_anywhere re text
  | [] => match_anywhere re text
  end.

(** ** The filter *)

(** [strchr(p, '\n')] on the bytes from [p] to the end of the buffer. *)
Definition newline_in (s : list Z) : option nat := fst <$> list_find (λ c, c = 10) (cstr s).

Section grep.
Context {W : Type} {OS : Os W}.

(** The inner loop, from [p] on; returns what is left from [p] to the end. *)
Fixpoint grep_lines (k : nat) (pattern s : list Z) (w : W) : list Z * W :=
  match k with
  | O => (s, w)
  | S k' =>
      match newline_in s with
      | None => (s, w)
      | Some i =>
          let w := if match_ pattern (take i s) then (os_write 1 (take i s ++ [10]) w).2 else w in
          grep_lines k' pattern (drop (S i) s) w
      end
  end.

(** The outer loop; [s] is [buf[0..m)]. *)
Fixpoint grep_loop (k : nat) (pattern : list Z) (fd : Z) (s : list Z) (w : W) : option W :=
  match k with
  | O => None
  | S k' =>
      let '(n, bytes, w) := os_read fd (1024 - Z.of_nat (length s) - 1) w in
      if 0 <? n then
        let s := s ++ bytes in
        let '(s, w) := grep_lines (length s) pattern s w in
        grep_loop k' pattern fd s w
      else Some w
  end.

Definition grep (k : nat) (pattern : list Z) (fd : Z) (w : W) : option W := grep_loop k pattern fd [] w.

(** The loop of [main] over the files; the exit status and the world at exit. *)
Fixpoint grep_files (k : nat) (pattern : list Z) (argv : list (list Z)) (w : W) : option (Z * W) :=
  match argv with
  | [] => Some (0, w)
  | name :: argv' =>
      let '(fd, w) := os_open name 0 w in
      if fd <? 0 then Some (1, printf ("grep: cannot open %s" +:+ nl) [U_str (Some name)] w)
      else
        match grep k pattern fd w with
        | Some w => grep_files k pattern argv' (os_close fd w).2
        | None => None
        end
  end.

(** [argv] without the program's name. *)
Definition grep_main (k : nat) (argv : list (list Z)) (w : W) : option (Z * W) :=
  match argv with
  | [] => Some (1, fprintf 2 ("usage: grep pattern [file ...]" +:+ nl) [] w)
  | [pattern] => match grep k pattern 0 w with Some w => Some (0, w) | None => None end
  | pattern :: names => grep_files k pattern names w
  end.

End grep.

(** ** What a pattern denotes *)

(** A pattern is a sequence of characters and repeated characters, perhaps
    anchored at the end. *)
Inductive item : Type :=
| One (c : Z)
| Many (c : Z).

Fixpoint items (re : list Z) : list item * bool :=
  match re with
  | [] => ([], false)
  | c :: re1 =>
      let once :=
        if (c =? 36) && bool_decide (re1 = []) then ([], true) else (One c :: (items re1).1, (items re1).2) in
      match re1 with
      | [] => once
      | s :: re2 => if s =? 42 then (Many c :: (items re2).1, (items re2).2) else once
      end
  end.

(** The character matches: itself, or any for a dot. *)
Definition accepts (c t : Z) : Prop := c = 46 ∨ c = t.

(** The strings a sequence of items denotes. *)
Inductive denotes : list item → list Z → Prop :=
| denotes_nil : denotes [] []
| denotes_one c l t u : accepts c t → denotes l u → denotes (One c :: l) (t :: u)
| denotes_stop c l u : denotes l u → denotes (Many c :: l) u
| denotes_more c l t u : accepts c t → denotes (Many c :: l) u → denotes (Many c :: l) (t :: u).

(** [re] matches at the front of [text]. *)
Definition matches_here (re text : list Z) : Prop :=
  ∃ u v, text = u ++ v ∧ denotes (items re).1 u ∧ ((items re).2 = true → v = []).

Definition matches (re text : list Z) : Prop :=
  match re with
  | c :: re' => if c =? 94 then matches_here re' text else ∃ u v, text = u ++ v ∧ matches_here re v
  | [] => ∃ u v, text = u ++ v ∧ matches_here re v
  end.

Lemma matchhere_star c re2 text : matchhere (c :: 42 :: re2) text = matchstar c re2 text.
Proof. cbn [matchhere]. induction text as [|t text IH]; cbn [matchstar]; [done|]. by rewrite <- IH. Qed.

Lemma accepts_eq c t : accepts c t ↔ (c =? 46) || (c =? t) = true.
Proof. unfold accepts. rewrite orb_true_iff, !Z.eqb_eq. tauto. Qed.

Lemma accepts_star c t : accepts c t ↔ (t =? c) || (c =? 46) = true.
Proof. rewrite accepts_eq, orb_comm. by rewrite (Z.eqb_sym c t). Qed.

(** Matching repetitions of [c] and then [re]. *)
Lemma matchstar_ok c re text :
  (∀ text, matchhere re text = true ↔ matches_here re text) →
  matchstar c re text = true ↔
  ∃ u v, text = u ++ v ∧ denotes (Many c :: (items re).1) u ∧ ((items re).2 = true → v = []).
Proof.
  intros IH. induction text as [|t text IHt]; cbn [matchstar]; rewrite orb_true_iff, IH.
  - split.
    + intros [(u&v&H1&H2&H3)|[=]]. exists u, v. split_and!; [done|by apply denotes_stop|done].
    + intros (u&v&H1&H2&H3). left. symmetry in H1. apply app_eq_nil in H1 as [-> ->]. exists [], []. split_and!; [done| |done].
      by inversion H2.
  - rewrite andb_true_iff, IHt, <- accepts_star. split.
    + intros [(u&v&H1&H2&H3)|[Ha (u&v&->&H2&H3)]].
      * exists u, v. split_and!; [done|by apply denotes_stop|done].
      * exists (t :: u), v. split_and!; [done|by apply denotes_more|done].
    + intros (u&v&H1&H2&H3). inversion H2 as [| |? ? ? Hd|? ? t' u' Ha Hd]; subst.
      * left. by exists u, v.
      * right. injection H1 as <- ->. split; [done|]. by exists u', v.
Qed.

(** Matching one character and then [re]. *)
Lemma matchonce_ok c re1 text :
  (∀ text, matchhere re1 text = true ↔ matches_here re1 text) →
  (if (c =? 36) && bool_decide (re1 = []) then bool_decide (text = [])
   else match text with [] => false | t :: text' => ((c =? 46) || (c =? t)) && matchhere re1 text' end) = true ↔
  let once := if (c =? 36) && bool_decide (re1 = []) then ([], true) else (One c :: (items re1).1, (items re1).2) in
  ∃ u v, text = u ++ v ∧ denotes once.1 u ∧ (once.2 = true → v = []).
Proof.
  intros IH. destruct ((c =? 36) && bool_decide (re1 = [])); cbn.
  - rewrite bool_decide_eq_true. split.
    + intros ->. exists [], []. split_and!; [done|constructor|done].
    + intros (u&v&->&Hd&Hv). inversion Hd. by rewrite Hv.
  - destruct text as [|t text].
    + split; [done|]. intros (u&v&H1&Hd&_). symmetry in H1. apply app_eq_nil in H1 as [-> _]. inversion Hd.
    + rewrite andb_true_iff, <- accepts_eq, IH. split.
      * intros [Ha (u&v&->&Hd&Hv)]. exists (t :: u), v. split_and!; [done|by constructor|done].
      * intros (u&v&H1&Hd&Hv). inversion Hd as [|? ? t' u' Ha Hd'| |]; subst. injection H1 as <- ->. split; [done|].
        by exists u', v.
Qed.

Lemma matchhere_ok re text : matchhere re text = true ↔ matches_here re text.
Proof.
  remember (length re) as n eqn:Hn. assert (length re ≤ n)%nat as Hle by lia. clear Hn. revert re Hle text.
  induction n as [|n IH]; intros [|c re1] Hle text; cbn [length] in Hle; try lia.
  1, 2: cbn; split; [|done]; intros _; exists [], text; split_and!; [done|constructor|done].
  destruct re1 as [|s re2]; [|destruct (s =? 42) eqn:Hs].
  - rewrite (matchonce_ok c [] text) by (intros; apply IH; cbn; lia). done.
  - apply Z.eqb_eq in Hs. subst s. rewrite matchhere_star. unfold matches_here. cbn [items]. rewrite Z.eqb_refl.
    apply matchstar_ok. intros. apply IH. cbn in Hle. lia.
  - unfold matches_here. cbn [items]. rewrite Hs. rewrite <- (matchonce_ok c (s :: re2) text) by (intros; apply IH; lia).
    cbn [matchhere]. by rewrite Hs.
Qed.

Lemma match_anywhere_ok re text :
  match_anywhere re text = true ↔ ∃ u v, text = u ++ v ∧ matches_here re v.
Proof.
  induction text as [|t text IH]; cbn [match_anywhere]; rewrite orb_true_iff, matchhere_ok.
  - split; [intros [H|[=]]; by exists [], []|]. intros (u&v&H1&H2). symmetry in H1. apply app_eq_nil in H1 as [-> ->]. by left.
  - rewrite IH. split.
    + intros [H|(u&v&->&H)]; [by exists [], (t :: text)|by exists (t :: u), v].
    + intros ([|t' u]&v&H1&H2); [left; by rewrite H1|right]. injection H1 as _ ->. by exists u, v.
Qed.

Lemma match_ok re text : match_ re text = true ↔ matches re text.
Proof.
  destruct re as [|c re]; cbn [match_ matches]; [apply match_anywhere_ok|].
  destruct (c =? 94); [apply matchhere_ok|apply match_anywhere_ok].
Qed.

(** C34: The matcher decides the language of its pattern: [match] accepts a line
    exactly when some part of it, at its start for a leading [^] and up to its end
    for a trailing [$], is in the language of the pattern's items, in which a dot
    stands for any character and a star for any number of repetitions of the
    character before it. *)
Theorem match_correct re text : match_ re text = true ↔ matches re text.
Proof. apply match_ok. Qed.

(** ** Lines *)

(** The complete lines of a text, and what follows the last newline. *)
Fixpoint lines_from (cur s : list Z) : list (list Z) * list Z :=
  match s with
  | [] => ([], cur)
  | c :: s' =>
      if c =? 10 then let r := lines_from [] s' in (cur :: r.1, r.2) else lines_from (cur ++ [c]) s'
  end.
Definition lines (s : list Z) : list (list Z) * list Z := lines_from [] s.

(** What [grep] prints for a text. *)
Definition selected (pattern : list Z) (ls : list (list Z)) : list Z :=
  concat ((λ l, l ++ [10]) <$> filter (λ l, match_ pattern l = true) ls).

Lemma lines_from_app cur a b :
  lines_from cur (a ++ b) =
  ((lines_from cur a).1 ++ (lines_from (lines_from cur a).2 b).1, (lines_from (lines_from cur a).2 b).2).
Proof.
  revert cur. induction a as [|c a IH]; intros cur; cbn; [by destruct (lines_from cur b)|].
  destruct (c =? 10); cbn; [by rewrite IH|apply IH].
Qed.

Lemma lines_from_cur cur s : Forall (λ c, c ≠ 10) cur → lines_from cur s = lines (cur ++ s).
Proof.
  intros Hc. unfold lines. rewrite lines_from_app. assert (lines_from [] cur = ([], cur)) as ->; [|by cbn; destruct (lines_from cur s)].
  assert (∀ acc, lines_from acc cur = ([], acc ++ cur)) as H; [|by rewrite H].
  induction Hc as [|c cur Hc _ IH]; intros acc; cbn; [by rewrite app_nil_r|].
  rewrite (proj2 (Z.eqb_neq c 10)) by done. by rewrite IH, <- app_assoc.
Qed.

Lemma lines_rest cur s : Forall (λ c, c ≠ 10) cur → Forall (λ c, c ≠ 10) (lines_from cur s).2.
Proof.
  revert cur. induction s as [|c s IH]; intros cur Hc; cbn; [done|]. destruct (c =? 10) eqn:E; cbn; [by apply IH|].
  apply IH. apply Forall_app. split; [done|]. constructor; [by apply Z.eqb_neq|done].
Qed.

Lemma lines_rest_sub (P : Z → Prop) cur s : Forall P cur → Forall P s → Forall P (lines_from cur s).2.
Proof.
  intros Hc Hs. revert cur Hc. induction Hs as [|c s Hp _ IH]; intros cur Hc; cbn; [done|].
  destruct (c =? 10); cbn; [by apply IH|]. apply IH. apply Forall_app. split; [done|by constructor].
Qed.

Lemma lines_app a b :
  lines (a ++ b) = ((lines a).1 ++ (lines ((lines a).2 ++ b)).1, (lines ((lines a).2 ++ b)).2).
Proof. unfold lines at 1. rewrite lines_from_app. fold (lines a). by rewrite lines_from_cur by (by apply lines_rest). Qed.

(** Text without NULs: the newline found is the first one. *)
Lemma newline_in_ok s :
  Forall (λ c, c ≠ 0) s →
  match newline_in s with
  | None => lines s = ([], s)
  | Some i => (i < length s)%nat ∧ lines s = (take i s :: (lines (drop (S i) s)).1, (lines (drop (S i) s)).2)
  end.
Proof.
  intros Hs. unfold newline_in. assert (cstr s = s) as ->.
  { induction Hs as [|c s Hc _ IH]; cbn; [done|]. by rewrite (proj2 (Z.eqb_neq c 0)), IH. }
  assert (∀ cur, match fst <$> list_find (λ c, c = 10) s with
    | None => lines_from cur s = ([], cur ++ s)
    | Some i => (i < length s)%nat ∧ lines_from cur s = ((cur ++ take i s) :: (lines (drop (S i) s)).1, (lines (drop (S i) s)).2)
    end) as H; [|exact (H [])].
  clear Hs. induction s as [|c s IH]; intros cur; cbn; [by rewrite app_nil_r|]. destruct (decide (c = 10)) as [->|Hc]; cbn.
  - rewrite app_nil_r. split; [lia|done].
  - rewrite (proj2 (Z.eqb_neq c 10)) by done. specialize (IH (cur ++ [c])).
    destruct (list_find (λ c, c = 10) s) as [[i x]|]; cbn in *; [|by rewrite IH, <- app_assoc].
    destruct IH as [Hi ->]. rewrite <- app_assoc. split; [lia|done].
Qed.

Lemma selected_app pattern l1 l2 : selected pattern (l1 ++ l2) = selected pattern l1 ++ selected pattern l2.
Proof. unfold selected. by rewrite filter_app, fmap_app, concat_app. Qed.

Lemma selected_cons pattern l ls :
  selected pattern (l :: ls) = (if match_ pattern l then l ++ [10] else []) ++ selected pattern ls.
Proof.
  unfold selected. rewrite filter_cons. case_decide as H; cbn.
  - rewrite H. by rewrite <- app_assoc.
  - by rewrite (not_true_is_false _ H).
Qed.

(** A bound on the lines bounds what is left of the text read so far. *)
Lemma lines_bound n cur a b :
  (∀ l, l ∈ (lines_from cur (a ++ b)).1 ∨ l = (lines_from cur (a ++ b)).2 → (length l ≤ n)%nat) →
  (length (lines_from cur a).2 ≤ n)%nat ∧
  ∀ l, l ∈ (lines_from (lines_from cur a).2 b).1 ∨ l = (lines_from (lines_from cur a).2 b).2 → (length l ≤ n)%nat.
Proof.
  intros Hb. rewrite lines_from_app in Hb. cbn in Hb. split; [|intros l [Hl|Hl]; apply Hb; [left; apply elem_of_app; by right|by right]].
  assert (∀ r b, ∃ l, (l ∈ (lines_from r b).1 ∨ l = (lines_from r b).2) ∧ (length r ≤ length l)%nat) as Hex.
  { clear. intros r b. revert r. induction b as [|c b IH]; intros r; cbn; [exists r; auto|]. destruct (c =? 10); cbn.
    - exists r. split; [left; by left|done].
    - destruct (IH (r ++ [c])) as (l&Hl&Hlen). exists l. split; [done|]. rewrite length_app in Hlen. lia. }
  destruct (Hex (lines_from cur a).2 b) as (l&Hl&Hlen). etransitivity; [exact Hlen|]. apply Hb.
  destruct Hl as [Hl|Hl]; [left; apply elem_of_app; by right|by right].
Qed.

Section filter.
Context {W : Type} {OS : Os W} (pattern : list Z) (fd : Z) (rem out : W → list Z).
Context {R : Reads OS fd rem} {Wr : Writes OS 1 out} {In : Independent OS fd rem 1 out}.

Lemma grep_lines_ok k s w :
  Forall (λ c, c ≠ 0) s → (length s ≤ k)%nat →
  let r := grep_lines k pattern s w in
  r.1 = (lines s).2 ∧ out r.2 = out w ++ selected pattern (lines s).1 ∧ rem r.2 = rem w.
Proof.
  revert s w. induction k as [|k IH]; intros s w Hs Hk; cbn [grep_lines].
  - assert (s = []) as -> by (destruct s; [done|cbn in Hk; lia]). cbn. by rewrite app_nil_r.
  - pose proof (newline_in_ok s Hs) as Hn. destruct (newline_in s) as [i|].
    + destruct Hn as [Hi ->]. set (w1 := if match_ pattern (take i s) then _ else w).
      assert (out w1 = out w ++ (if match_ pattern (take i s) then take i s ++ [10] else []) ∧ rem w1 = rem w) as [Ho Hr].
      { unfold w1. destruct (match_ pattern (take i s)); [|by rewrite app_nil_r].
        destruct (write_all (fd := 1) (out := out) w (take i s ++ [10])) as (w'&He&Ho). rewrite He. cbn. split; [done|].
        pose proof (write_rem (fd := fd) (rem := rem) (fd' := 1) (out := out) w (take i s ++ [10])) as H. by rewrite He in H. }
      destruct (IH (drop (S i) s) w1) as (H1&H2&H3); [by apply Forall_drop|rewrite length_drop; lia|].
      cbn zeta. rewrite H1, H2, H3, Ho, Hr. cbn [fst snd]. rewrite selected_cons, app_assoc. done.
    + rewrite Hn. cbn. by rewrite app_nil_r.
Qed.

Lemma grep_loop_ok k s w :
  Forall (λ c, c ≠ 10) s → Forall (λ c, c ≠ 0) (s ++ rem w) → (length (rem w) < k)%nat → (length s ≤ 1022)%nat →
  (∀ l, l ∈ (lines (s ++ rem w)).1 ∨ l = (lines (s ++ rem w)).2 → (length l ≤ 1022)%nat) →
  ∃ w', grep_loop k pattern fd s w = Some w' ∧ rem w' = [] ∧ out w' = out w ++ selected pattern (lines (s ++ rem w)).1.
Proof.
  revert s w. induction k as [|k IH]; intros s w Hs Hz Hk Hlen Hb; [lia|]. cbn [grep_loop].
  destruct (decide (rem w = [])) as [He|Hne].
  - destruct (read_none (fd := fd) (rem := rem) w (1024 - Z.of_nat (length s) - 1)) as (w'&Hr&Hrem); [by right|]. rewrite Hr. cbn.
    exists w'. split_and!; [done|by rewrite Hrem|]. pose proof (read_out (fd := fd) (rem := rem) (fd' := 1) (out := out) w (1024 - Z.of_nat (length s) - 1)) as H.
    rewrite Hr in H. cbn in H. rewrite H, He, app_nil_r. rewrite <- (app_nil_r s), <- (lines_from_cur s []) by done. cbn. by rewrite app_nil_r.
  - destruct (read_some (fd := fd) (rem := rem) w (1024 - Z.of_nat (length s) - 1)) as (n&w1&Hr&Hn&_&Hrem); [lia|done|].
    pose proof (read_out (fd := fd) (rem := rem) (fd' := 1) (out := out) w (1024 - Z.of_nat (length s) - 1)) as Hout. rewrite Hr in *. cbn in Hout.
    assert (0 <? Z.of_nat n = true) as -> by (apply Z.ltb_lt; lia).
    set (a := s ++ take n (rem w)) in *.
    assert (s ++ rem w = a ++ rem w1) as Hsplit by (unfold a; by rewrite Hrem, <- app_assoc, take_drop).
    rewrite Hsplit in *. apply Forall_app in Hz as [Hza Hzr].
    destruct (grep_lines_ok (length a) a w1 Hza ltac:(lia)) as (H1&H2&H3).
    destruct (grep_lines (length a) pattern a w1) as [s2 w2]. cbn in H1, H2, H3. subst s2.
    pose proof (lines_rest [] a ltac:(done)) as Hnl. fold (lines a) in Hnl.
    destruct (lines_bound 1022 [] a (rem w1) Hb) as [Hb1 Hb2]. fold (lines a) in Hb1, Hb2.
    rewrite lines_from_cur in Hb2 by done.
    destruct (IH (lines a).2 w2) as (w'&Hr'&Hrem'&Hout'); [done| | |done|by rewrite H3|].
    + rewrite H3. apply Forall_app. split; [|done]. by apply lines_rest_sub.
    + rewrite H3, Hrem, length_drop. lia.
    + exists w'. split_and!; [done|done|]. rewrite Hout', H2, Hout, H3, <- app_assoc. f_equal.
      rewrite <- selected_app. f_equal. by rewrite (lines_app a (rem w1)).
Qed.

Lemma grep_ok k w :
  Forall (λ c, c ≠ 0) (rem w) → (length (rem w) < k)%nat →
  (∀ l, l ∈ (lines (rem w)).1 ∨ l = (lines (rem w)).2 → (length l ≤ 1022)%nat) →
  ∃ w', grep k pattern fd w = Some w' ∧ rem w' = [] ∧ out w' = out w ++ selected pattern (lines (rem w)).1.
Proof. intros Hz Hk Hb. apply (grep_loop_ok k []); [done|done|done|cbn; lia|done]. Qed.

(** C35: [grep] filters lines. On any input of text whose lines fit its buffer,
    however [read] cuts it into pieces, it reads to the end and writes exactly the
    newline-terminated lines that match the pattern, complete and in order. *)
Theorem grep_correct k w :
  Forall (λ c, c ≠ 0) (rem w) → (length (rem w) < k)%nat →
  (∀ l, l ∈ (lines (rem w)).1 ∨ l = (lines (rem w)).2 → (length l ≤ 1022)%nat) →
  ∃ w', grep k pattern fd w = Some w' ∧ rem w' = [] ∧ out w' = out w ++ selected pattern (lines (rem w)).1.
Proof. exact (grep_ok k w). Qed.

(** A line that fills the buffer is where it stops: [read] is asked for no bytes,
    and its 0 is taken for the end of the input. *)
Lemma grep_stops_at_long_line k s w :
  length s = 1023%nat → ∃ w', grep_loop (S k) pattern fd s w = Some w' ∧ rem w' = rem w ∧ out w' = out w.
Proof.
  intros Hs. cbn [grep_loop]. rewrite Hs. destruct (read_none (fd := fd) (rem := rem) w (1024 - Z.of_nat 1023 - 1)) as (w'&Hr&Hrem); [left; lia|].
  rewrite Hr. cbn. exists w'. split_and!; [done|done|].
  pose proof (read_out (fd := fd) (rem := rem) (fd' := 1) (out := out) w (1024 - Z.of_nat 1023 - 1)) as H. by rewrite Hr in H.
Qed.

End filter.

(** "ab\nxab\nb" filtered by "^a*b$". *)
Lemma grep_correct_witness :
  ∃ w', grep 20 [94; 97; 42; 98; 36] 0 (World [97; 98; 10; 120; 97; 98; 10; 98] [] 0) = Some w' ∧ wd_out w' = [97; 98; 10].
Proof.
  destruct (grep_correct [94; 97; 42; 98; 36] 0 wd_in wd_out 20 (World [97; 98; 10; 120; 97; 98; 10; 98] [] 0)) as (w'&Hr&_&Ho).
  - repeat constructor; discriminate.
  - cbn. lia.
  - assert (Forall (λ l, (length l ≤ 1022)%nat) ((lines [97; 98; 10; 120; 97; 98; 10; 98]).2 :: (lines [97; 98; 10; 120; 97; 98; 10; 98]).1)) as Hall
      by (repeat constructor; cbn; lia).
    rewrite Forall_forall in Hall. intros l [Hl|Hl]; apply Hall; [by right|subst; by left].
  - exists w'. split; [exact Hr|]. rewrite Ho. vm_compute. reflexivity.
Defined.
