(* ===== verification/Umalloc.v ===== *)
(** * user/umalloc.c: the memory allocator

    Kernighan and Ritchie's allocator: the free blocks form a circular list,
    sorted by address, that starts at the static header [base]. A header is 16
    bytes, a 64-bit pointer and a 32-bit size in units of 16 bytes, and lies in
    the memory of the process; [sbrk] is the system call. *)

From S2P Require Import Prelude State Mem Kstring User.

(** ** Model *)

(** [p->s.ptr] and [p->s.size]. *)
Definition ptr_of (m : gmap Z Z) (p : Z) : Z := ld64 m p.
Definition size_of (m : gmap Z Z) (p : Z) : Z := ld32 m (p + 8).
Definition set_ptr (p v : Z) (m : gmap Z Z) : gmap Z Z := st64 m p v.
Definition set_size (p v : Z) (m : gmap Z Z) : gmap Z Z := st32 m (p + 8) v.

(** [p + n] on [Header*]. *)
Definition units (p n : Z) : Z := p + 16 * n.

(** The memory and the variable [freep]. *)
Record heap : Type := Heap {
  hp_mem : gmap Z Z;
  hp_freep : Z;
}.

Section model.
(** The address of [base]; the world [sbrk] acts on. *)
Context {W : Type} {OS : Os W} (base : Z).

(** The [for] of [free]: the block after which [bp] belongs. *)
Fixpoint free_search (k : nat) (m : gmap Z Z) (bp p : Z) : option Z :=
  match k with
  | O => None
  | S k' =>
      let next := ptr_of m p in
      if (p <? bp) && (bp <? next) then Some p
      else if (next <=? p) && ((p <? bp) || (bp <? next)) then Some p
      else free_search k' m bp next
  end.

Definition free_at (bp p : Z) (m : gmap Z Z) : gmap Z Z :=
  let m :=
    if units bp (size_of m bp) =? ptr_of m p then
      let next := ptr_of m p in
      let m := set_size bp (u32 (size_of m bp + size_of m next)) m in
      set_ptr bp (ptr_of m (ptr_of m p)) m
    else set_ptr bp (ptr_of m p) m in
  if units p (size_of m p) =? bp then
    let m := set_size p (u32 (size_of m p + size_of m bp)) m in
    set_ptr p (ptr_of m bp) m
  else set_ptr p bp m.

(** [free(ap)]; the fuel bounds the walk around the list. *)
Definition free (k : nat) (ap : Z) (h : heap) : option heap :=
  let bp := ap - 16 in
  match free_search k (hp_mem h) bp (hp_freep h) with
  | None => None
  | Some p => Some (Heap (free_at bp p (hp_mem h)) p)
  end.

(** [morecore(nu)]: [freep], or 0 when there is no memory. *)
Definition morecore (k : nat) (nu : Z) (h : heap) (w : W) : option (Z * heap * W) :=
  let nu := if nu <? 4096 then 4096 else nu in
  let '(p, w) := os_sbrk (i32 (nu * 16)) w in
  if p =? -1 then Some (0, h, w)
  else
    match free k (p + 16) (Heap (set_size p nu (hp_mem h)) (hp_freep h)) with
    | None => None
    | Some h => Some (hp_freep h, h, w)
    end.

(** Take [nunits] units from block [p], whose predecessor is [prevp]. *)
Definition take_block (nunits prevp p : Z) (m : gmap Z Z) : Z * gmap Z Z :=
  if size_of m p =? nunits then (p, set_ptr prevp (ptr_of m p) m)
  else
    let m := set_size p (u32 (size_of m p - nunits)) m in
    let p := units p (size_of m p) in
    (p, set_size p nunits m).

(** The [for(;;)] of [malloc]; the result is the address returned, or 0. *)
Fixpoint malloc_loop (k : nat) (nunits prevp p : Z) (h : heap) (w : W) : option (Z * heap * W) :=
  match k with
  | O => None
  | S k' =>
      if nunits <=? size_of (hp_mem h) p then
        let '(p, m) := take_block nunits prevp p (hp_mem h) in
        Some (p + 16, Heap m prevp, w)
      else if p =? hp_freep h then
        match morecore k' nunits h w with
        | None => None
        | Some (p, h, w) =>
            if p =? 0 then Some (0, h, w) else malloc_loop k' nunits p (ptr_of (hp_mem h) p) h w
        end
      else malloc_loop k' nunits p (ptr_of (hp_mem h) p) h w
  end.

Definition malloc (k : nat) (nbytes : Z) (h : heap) (w : W) : option (Z * heap * W) :=
  let nunits := u32 ((nbytes + 16 - 1) / 16 + 1) in
  let h :=
    if hp_freep h =? 0 then Heap (set_size base 0 (set_ptr base base (hp_mem h))) base else h in
  let prevp := hp_freep h in
  malloc_loop k nunits prevp (ptr_of (hp_mem h) prevp) h w.

End model.

(** ** The list in memory *)

(** A block: its address and its size in units. *)
Notation block := (Z * Z)%type.
Definition block_end (b : block) : Z := units b.1 b.2.

Definition head_addr (l : list block) (e : Z) : Z := match l with [] => e | b :: _ => b.1 end.

(** The blocks of [l] are linked in order, the last one to [e]. *)
Fixpoint linked (m : gmap Z Z) (l : list block) (e : Z) : Prop :=
  match l with
  | [] => True
  | b :: l' => ptr_of m b.1 = head_addr l' e ∧ size_of m b.1 = b.2 ∧ linked m l' e
  end.

(** In a circle. *)
Definition ring (m : gmap Z Z) (l : list block) : Prop := linked m l (head_addr l 0).

Lemma head_addr_app l1 l2 e : head_addr (l1 ++ l2) e = head_addr l1 (head_addr l2 e).
Proof. by destruct l1. Qed.

Lemma blocks_app m l1 l2 e : linked m (l1 ++ l2) e ↔ linked m l1 (head_addr l2 e) ∧ linked m l2 e.
Proof.
  induction l1 as [|b l1 IH]; cbn; [tauto|]. rewrite head_addr_app, IH. tauto.
Qed.

Lemma ring_rotate m l1 l2 : ring m (l1 ++ l2) → ring m (l2 ++ l1).
Proof.
  destruct l1 as [|a l1]; [by rewrite app_nil_r|]. destruct l2 as [|b l2]; [by rewrite app_nil_r|].
  unfold ring. rewrite !blocks_app, !head_addr_app. cbn [head_addr]. tauto.
Qed.

(** A header's fields are at [p .. p+16). *)
Definition header_apart (p q : Z) : Prop := p + 16 ≤ q ∨ q + 16 ≤ p.

Lemma ld32_range m a : 0 ≤ ld32 m a < 4294967296.
Proof. apply (ldn_range 4 m a). Qed.

Lemma ptr_set_ptr p v m : 0 ≤ v < 2 ^ 64 → ptr_of (set_ptr p v m) p = v.
Proof. intros Hv. unfold ptr_of, set_ptr. rewrite ld64_st64_same. by apply u64_small. Qed.
Lemma ptr_set_ptr_other p q v m : header_apart p q → ptr_of (set_ptr p v m) q = ptr_of m q.
Proof. intros H. apply ld64_st64_other. unfold header_apart in H. lia. Qed.
Lemma size_set_ptr p q v m : p = q ∨ header_apart p q → size_of (set_ptr p v m) q = size_of m q.
Proof. intros H. apply ldn_stn_other. unfold header_apart in H. lia. Qed.
Lemma ptr_set_size p q v m : p = q ∨ header_apart p q → ptr_of (set_size p v m) q = ptr_of m q.
Proof. intros H. apply ldn_stn_other. unfold header_apart in H. lia. Qed.
Lemma size_set_size p v m : 0 ≤ v < 2 ^ 32 → size_of (set_size p v m) p = v.
Proof. intros Hv. unfold size_of, set_size, ld32, st32. rewrite ldn_stn_same. apply Z.mod_small. exact Hv. Qed.
Lemma size_set_size_other p q v m : header_apart p q → size_of (set_size p v m) q = size_of m q.
Proof. intros H. apply ldn_stn_other. unfold header_apart in H. lia. Qed.

(** Writes to headers apart from those of [l] leave it linked. *)
Lemma blocks_ext m m' l e :
  (∀ b, b ∈ l → ptr_of m' b.1 = ptr_of m b.1 ∧ size_of m' b.1 = size_of m b.1) → linked m l e → linked m' l e.
Proof.
  induction l as [|b l IH]; cbn; [done|]. intros Hs (H1&H2&H3). destruct (Hs b) as [-> ->]; [by left|].
  split_and!; [done|done|]. apply IH; [|done]. intros c Hc. apply Hs. by right.
Qed.

(** ** The heap *)

(** Blocks in order, with room between their headers and between the blocks. *)
Definition below (b c : block) : Prop := b.1 + 16 ≤ c.1 ∧ block_end b < c.1.

Fixpoint spread (l : list block) : Prop :=
  match l with
  | [] => True
  | b :: l' => Forall (below b) l' ∧ spread l'
  end.

Definition apart (b c : block) : Prop := block_end b ≤ c.1 ∨ block_end c ≤ b.1.

Fixpoint pairwise (l : list block) : Prop :=
  match l with [] => True | b :: l' => Forall (apart b) l' ∧ pairwise l' end.

(** The heap between [lo] and [hi] with free blocks [fl] and allocated blocks
    [al]: each header says the size, the free ones are linked in order behind
    [base], and no two blocks overlap or, when both are free, touch. *)
Record heap_ok (base lo hi : Z) (h : heap) (fl al : list block) : Prop := {
  hk_range : 0 < base ∧ base + 16 ≤ lo ∧ lo ≤ hi ∧ hi < 2 ^ 35;
  hk_ring : ring (hp_mem h) ((base, 0) :: fl);
  hk_freep : hp_freep h ∈ ((base, 0) :: fl).*1;
  hk_in b : b ∈ fl ++ al → lo ≤ b.1 ∧ block_end b ≤ hi ∧ 0 < b.2;
  hk_spread : spread ((base, 0) :: fl);
  hk_apart b c : b ∈ fl → c ∈ al → apart b c;
  hk_al : pairwise al;
  hk_size b : b ∈ al → size_of (hp_mem h) b.1 = b.2;
}.

Lemma spread_app l1 l2 :
  spread (l1 ++ l2) ↔ spread l1 ∧ spread l2 ∧ ∀ b c, b ∈ l1 → c ∈ l2 → below b c.
Proof.
  induction l1 as [|a l1 IH]; cbn [app spread]; [set_solver|]. rewrite IH, Forall_app, !Forall_forall. set_solver.
Qed.

Lemma below_units b c d : below b c → below c d → below b d.
Proof. unfold below, block_end, units. lia. Qed.

(** ** The search of [free] *)

(** Climbing from a block below [bp] ends at the last block [q] below it. *)
Lemma search_up m bp e l q k :
  linked m (l ++ [q]) e → spread (l ++ [q]) → q.1 < bp → bp < e ∨ e ≤ q.1 →
  free_search (length l + S k) m bp (head_addr (l ++ [q]) e) = Some q.1.
Proof.
  intros Hl Hs Hq He. induction l as [|b l IH]; cbn [length Nat.add free_search app head_addr].
  - destruct Hl as (->&_). cbn. assert ((q.1 <? bp) = true) as -> by lia.
    destruct (bp <? e) eqn:E; [done|]. assert ((e <=? q.1) = true) as -> by lia. done.
  - destruct Hl as (->&_&Hl), Hs as [Hb Hs]. rewrite Forall_forall in Hb.
    assert (b.1 < head_addr (l ++ [q]) e ≤ q.1) as Hh.
    { destruct l as [|c l]; cbn; [destruct (Hb q) as [? _]; [by left|lia]|].
      destruct (Hb c) as [? _]; [by left|]. destruct Hs as [Hc _]. rewrite Forall_forall in Hc.
      destruct (Hc q) as [? _]; [set_solver|lia]. }
    assert ((bp <? head_addr (l ++ [q]) e) = false) as -> by lia.
    assert ((head_addr (l ++ [q]) e <=? b.1) = false) as -> by lia. rewrite andb_false_r. by apply IH.
Qed.

(** From a block above [bp] the search goes on to the start of the list. *)
Lemma search_over m bp e l k :
  linked m l e → spread l → (∀ b, b ∈ l → bp < b.1) → e < bp →
  free_search (length l + k) m bp (head_addr l e) = free_search k m bp e.
Proof.
  intros Hl Hs Hb He. induction l as [|b l IH]; [done|]. cbn [length Nat.add free_search head_addr].
  destruct Hl as (->&_&Hl), Hs as [Hbe Hs]. pose proof (Hb b ltac:(by left)).
  assert ((b.1 <? bp) = false) as -> by lia. cbn [andb orb].
  rewrite IH; [|done|done|intros; apply Hb; by right]. destruct l as [|c l]; cbn [head_addr].
  - assert ((bp <? e) = false) as -> by lia. by rewrite andb_false_r.
  - rewrite Forall_forall in Hbe. destruct (Hbe c) as [? _]; [by left|].
    assert ((c.1 <=? b.1) = false) as -> by lia. done.
Qed.

Lemma linked_tail m l1 l2 e : linked m (l1 ++ l2) e → linked m l2 e.
Proof. by intros [_ ?]%blocks_app. Qed.

(** Wherever it starts, the search finds the block [q] after which [bp] belongs. *)
Lemma free_search_ok m bp p A q B k :
  ring m (A ++ q :: B) → spread (A ++ q :: B) → q.1 < bp → (∀ b, b ∈ B → bp < b.1) → p ∈ (A ++ q :: B).*1 →
  (length A + length B + 1 ≤ k)%nat → free_search k m bp p = Some q.1.
Proof.
  intros Hr Hs Hq HB Hp Hk. set (e := head_addr (A ++ [q]) 0).
  assert (head_addr (A ++ q :: B) 0 = e) as He by (unfold e; by destruct A). unfold ring in Hr. rewrite He in Hr.
  assert (e ≤ q.1) as Hle.
  { unfold e. destruct A as [|a A]; cbn; [lia|]. destruct Hs as [Ha _]. rewrite Forall_forall in Ha.
    destruct (Ha q) as [? _]; [set_solver|lia]. }
  assert (∀ l1 l2 k, A = l1 ++ l2 → (length l2 + 1 ≤ k)%nat →
    free_search k m bp (head_addr (l2 ++ [q]) 0) = Some q.1) as Hup.
  { intros l1 l2 j -> Hj. replace j with (length l2 + S (j - length l2 - 1))%nat by lia.
    replace (head_addr (l2 ++ [q]) 0) with (head_addr (l2 ++ [q]) (head_addr B e)) by (by destruct l2).
    rewrite <-app_assoc in Hr, Hs. apply linked_tail in Hr. apply spread_app in Hs as (_&Hs&_).
    change (q :: B) with ([q] ++ B) in Hr, Hs. rewrite app_assoc in Hr, Hs. apply blocks_app in Hr as [Hr _].
    apply spread_app in Hs as (Hs&_). apply search_up; [done|done|done|].
    destruct B as [|c B]; cbn; [right; done|left; apply HB; by left]. }
  apply list_elem_of_fmap in Hp as (x&->&Hx). apply elem_of_app in Hx as [Hx|Hx].
  - apply list_elem_of_split in Hx as (l1&l2&->). rewrite length_app in Hk. cbn in Hk.
    apply (Hup l1 (x :: l2)); [done|cbn; lia].
  - apply elem_of_cons in Hx as [->|Hx]; [apply (Hup A []); [by rewrite app_nil_r|cbn; lia]|].
    apply list_elem_of_split in Hx as (l1&l2&->). rewrite length_app in Hk. cbn in Hk.
    replace k with (length (x :: l2) + (k - length (x :: l2)))%nat by (cbn; lia).
    change x.1 with (head_addr (x :: l2) e). change (q :: l1 ++ x :: l2) with ((q :: l1) ++ x :: l2) in Hr, Hs.
    rewrite app_assoc in Hr, Hs. apply linked_tail in Hr. apply spread_app in Hs as (_&Hs&_).
    rewrite search_over; [|done|done|set_solver|lia]. apply (Hup [] A); [done|cbn; lia].
Qed.

(** ** Inserting a block *)

(** [b] joined with the block above it, if they touch. *)
Definition join_right (b : block) (B : list block) : block * list block :=
  match B with
  | c :: B' => if block_end b =? c.1 then ((b.1, b.2 + c.2), B') else (b, B)
  | [] => (b, [])
  end.

(** The blocks from [q] on when [b] is inserted between [q] and [B]. *)
Definition insert_block (q b : block) (B : list block) : list block :=
  let '(b', B') := join_right b B in
  if block_end q =? b.1 then (q.1, q.2 + b'.2) :: B' else q :: b' :: B'.

Definition same_header (m m' : gmap Z Z) (x : Z) : Prop := ptr_of m' x = ptr_of m x ∧ size_of m' x = size_of m x.

Lemma same_set_ptr m p v x : header_apart p x → same_header m (set_ptr p v m) x.
Proof. intros H. split; [by apply ptr_set_ptr_other|]. apply size_set_ptr. by right. Qed.
Lemma same_set_size m p v x : header_apart p x → same_header m (set_size p v m) x.
Proof. intros H. split; [|by apply size_set_size_other]. apply ptr_set_size. by right. Qed.
Lemma same_trans m1 m2 m3 x : same_header m1 m2 x → same_header m2 m3 x → same_header m1 m3 x.
Proof. intros [??] [??]. split; congruence. Qed.

#[local] Hint Resolve same_set_ptr same_set_size : core.

(** The first [if] of [free]: the header of [b] afterwards. *)
Lemma free_right_ok m (q b : block) B e :
  let next := head_addr B e in
  let m' :=
    if units b.1 (size_of m b.1) =? ptr_of m q.1 then
      let next := ptr_of m q.1 in
      let m := set_size b.1 (u32 (size_of m b.1 + size_of m next)) m in
      set_ptr b.1 (ptr_of m (ptr_of m q.1)) m
    else set_ptr b.1 (ptr_of m q.1) m in
  linked m (q :: B) e → size_of m b.1 = b.2 → 0 < b.2 → q.1 + 16 ≤ b.1 → 0 ≤ e < b.1 → b.1 < 2 ^ 35 →
  (∀ c, c ∈ B → b.1 + 16 ≤ c.1 ∧ 0 < c.2 ∧ block_end c < 2 ^ 35) →
  (∀ x, header_apart b.1 x → same_header m m' x) ∧
  ptr_of m' b.1 = head_addr (join_right b B).2 e ∧ size_of m' b.1 = (join_right b B).1.2.
Proof.
  intros next m' (Hp&_&HB) Hb Hb0 Hqb He Hb35 Hc. subst m'. rewrite Hp, Hb. cbv zeta. subst next. unfold block_end, units in *.
  destruct B as [|c B]; cbn [head_addr join_right].
  - assert ((b.1 + 16 * b.2 =? e) = false) as -> by lia. split; [auto|]. split; cbn.
    + rewrite ptr_set_ptr; lia.
    + rewrite size_set_ptr; auto.
  - destruct HB as (Hcp&Hcs&HB). destruct (Hc c) as (H1&H2&H3); [by left|].
    assert (0 ≤ head_addr B e < 2 ^ 64) as Hn.
    { destruct B as [|d B]; cbn; [lia|]. destruct (Hc d) as (?&?&?); [right; by left|]. lia. }
    assert (ptr_of m q.1 = c.1) as Hpc by done. unfold block_end, units.
    case_test; cbn [fst snd].
    + assert (ptr_of (set_size b.1 (u32 (b.2 + size_of m c.1)) m) q.1 = c.1) as ->.
      { rewrite ptr_set_size; [done|right; unfold header_apart; lia]. }
      assert (ptr_of (set_size b.1 (u32 (b.2 + size_of m c.1)) m) c.1 = head_addr B e) as ->.
      { rewrite ptr_set_size; [done|right; unfold header_apart; lia]. }
      split; [intros x Hx; eapply same_trans; [|by apply same_set_ptr]; auto|]. split; [by rewrite ptr_set_ptr|].
      rewrite size_set_ptr by auto. rewrite Hcs. rewrite u32_small by lia. rewrite size_set_size; lia.
    + split; [auto|]. split; [rewrite ptr_set_ptr; cbn; lia|]. rewrite size_set_ptr; auto.
Qed.

(** The second [if]. *)
Lemma free_left_ok m (q b : block) n :
  let m' :=
    if units q.1 (size_of m q.1) =? b.1 then
      let m := set_size q.1 (u32 (size_of m q.1 + size_of m b.1)) m in
      set_ptr q.1 (ptr_of m b.1) m
    else set_ptr q.1 b.1 m in
  size_of m q.1 = q.2 → size_of m b.1 = n → 0 ≤ q.2 → 0 < n → q.2 + n < 2 ^ 32 → q.1 + 16 ≤ b.1 → 0 ≤ b.1 < 2 ^ 64 →
  (∀ x, header_apart q.1 x → same_header m m' x) ∧
  if block_end q =? b.1 then ptr_of m' q.1 = ptr_of m b.1 ∧ size_of m' q.1 = q.2 + n
  else ptr_of m' q.1 = b.1 ∧ size_of m' q.1 = q.2.
Proof.
  intros m' Hq Hb Hq0 Hn Hsum Hqb Hb64. subst m'. rewrite Hq, Hb. unfold block_end. cbv zeta. case_test.
  - split; [intros x Hx; eapply same_trans; [|by apply same_set_ptr]; auto|]. rewrite u32_small by lia.
    rewrite (ptr_set_size q.1 b.1) by (right; unfold header_apart; lia). split.
    + rewrite ptr_set_ptr; [done|]. apply ld64_range.
    + rewrite size_set_ptr by auto. apply size_set_size. lia.
  - split; [auto|]. split; [by apply ptr_set_ptr|]. rewrite size_set_ptr; auto.
Qed.

Lemma join_right_cases b B :
  join_right b B = (b, B) ∨ ∃ c B', B = c :: B' ∧ block_end b = c.1 ∧ join_right b B = ((b.1, b.2 + c.2), B').
Proof.
  destruct B as [|c B]; cbn; [by left|]. case_test; [|by left]. right. by exists c, B.
Qed.

(** A property of blocks that joining adjacent blocks keeps. *)
Lemma insert_block_Forall (P : block → Prop) q b B :
  (∀ x y, P x → P y → 0 < y.2 → block_end x = y.1 → P (x.1, x.2 + y.2)) →
  P q → P b → Forall P B → 0 < b.2 → Forall (λ x, 0 < x.2) B → Forall P (insert_block q b B).
Proof.
  intros HJ Hq Hb HB Hb0 HB0. unfold insert_block. destruct (join_right_cases b B) as [->|(c&B'&->&Hbc&->)].
  - case_test; repeat constructor; try done. by apply HJ.
  - apply Forall_cons in HB as [Hc HB], HB0 as [Hc0 HB0].
    case_test; repeat constructor; try done; [|by apply HJ]. apply (HJ q (b.1, b.2 + c.2)); [done|by apply HJ|cbn; lia|done].
Qed.

(** [b] lies strictly inside the gap between [q] and [B]. *)
Definition in_gap (q b : block) (B : list block) : Prop :=
  q.1 + 16 ≤ b.1 ∧ block_end q ≤ b.1 ∧ 0 < b.2 ∧ Forall (λ c, block_end b ≤ c.1 ∧ 0 < c.2) B.

Lemma insert_block_spread q b B : in_gap q b B → spread (q :: B) → spread (insert_block q b B).
Proof.
  intros (H1&H2&H3&H4) [HqB HB]. rewrite !Forall_forall in *. unfold insert_block.
  destruct (join_right b B) as [b' B'] eqn:E.
  assert (b'.1 = b.1 ∧ (∀ x, x ∈ B' → x ∈ B ∧ below b' x) ∧ spread B') as (Hb1&Hb'&HB').
  { destruct B as [|c B]; cbn in E; [injection E as <- <-; set_solver|]. destruct HB as [HcB HB]. rewrite Forall_forall in HcB.
    destruct (block_end b =? c.1) eqn:Eb; reflect_tests; injection E as <- <-; cbn.
    - split_and!; [done| |done]. intros x Hx. split; [by right|]. destruct (HcB x Hx). unfold below, block_end, units in *. cbn. lia.
    - split_and!; [done| |by rewrite Forall_forall|done]. intros x Hx. split; [done|].
      destruct (H4 c ltac:(by left)). apply elem_of_cons in Hx as [->|Hx].
      + unfold below, block_end, units in *. lia.
      + destruct (HcB x Hx). unfold below, block_end, units in *. lia. }
  case_test; cbn [spread]; rewrite !Forall_forall.
  - split; [|done]. intros x Hx. destruct (Hb' x Hx) as [HxB [??]]. destruct (HqB x HxB).
    unfold below, block_end, units in *. cbn. lia.
  - split; [|split; [|done]].
    + intros x [->|Hx]%elem_of_cons; [unfold below, block_end, units in *; lia|]. apply HqB. by apply Hb'.
    + intros x Hx. by apply Hb'.
Qed.

Lemma insert_block_head q b B : ∃ n B', insert_block q b B = (q.1, n) :: B'.
Proof. unfold insert_block. destruct (join_right b B). case_test; eauto. destruct q. eauto. Qed.

Lemma insert_linked m1 m2 (q b : block) B e :
  linked m2 (join_right b B).2 e →
  ptr_of m1 b.1 = head_addr (join_right b B).2 e → size_of m1 b.1 = (join_right b B).1.2 → same_header m1 m2 b.1 →
  (if block_end q =? b.1 then ptr_of m2 q.1 = ptr_of m1 b.1 ∧ size_of m2 q.1 = q.2 + (join_right b B).1.2
   else ptr_of m2 q.1 = b.1 ∧ size_of m2 q.1 = q.2) →
  linked m2 (insert_block q b B) e.
Proof.
  assert ((join_right b B).1.1 = b.1) as Hb1 by (destruct (join_right_cases b B) as [->|(?&?&?&?&->)]; done).
  unfold insert_block. destruct (join_right b B) as [b' B']. cbn [fst snd] in *. intros HB' Hp Hs [Hs1 Hs2].
  case_test; intros [H1 H2]; cbn [linked fst snd head_addr].
  - split_and!; [congruence|done|done].
  - rewrite Hb1. split_and!; [done|done|congruence|congruence|done].
Qed.

Lemma insert_block_has q b B :
  0 ≤ q.2 → 0 < b.2 → Forall (λ c, 0 < c.2) B → ∃ c, c ∈ insert_block q b B ∧ b.2 ≤ c.2.
Proof.
  intros Hq Hb HB. unfold insert_block. destruct (join_right_cases b B) as [->|(c&B'&->&_&->)].
  - case_test; [exists (q.1, q.2 + b.2)|exists b]; (split; [set_solver|cbn; lia]).
  - apply Forall_cons in HB as [Hc _].
    case_test; [exists (q.1, q.2 + (b.2 + c.2))|exists (b.1, b.2 + c.2)]; (split; [set_solver|cbn; lia]).
Qed.

(** The rest of [free] after the search puts the block in the list. *)
Lemma free_at_ok m A (q b : block) B :
  ring m (A ++ q :: B) → spread (A ++ q :: B) → in_gap q b B → size_of m b.1 = b.2 → 0 ≤ q.2 → 0 ≤ head_addr (A ++ [q]) 0 →
  b.1 < 2 ^ 35 → block_end b < 2 ^ 35 → 0 ≤ q.1 → (∀ c, c ∈ B → block_end c < 2 ^ 35) →
  ring (free_at b.1 q.1 m) (A ++ insert_block q b B) ∧
  ∀ x, header_apart b.1 x → header_apart q.1 x → same_header m (free_at b.1 q.1 m) x.
Proof.
  intros Hr Hs Hg Hb Hq0 He0 Hb35 Hbe Hq1 HB35. pose proof Hg as (G1&G2&G3&G4). rewrite Forall_forall in G4.
  unfold ring in *. set (e := head_addr (A ++ q :: B) 0) in *.
  assert (0 ≤ e < b.1) as He.
  { apply spread_app in Hs as (_&_&Hs). unfold e in *. destruct A as [|a A]; cbn in *; [lia|].
    destruct (Hs a q) as [? _]; [by left|by left|]. lia. }
  apply blocks_app in Hr as [HA HqB]. cbn [head_addr] in HA.
  pose proof (free_right_ok m q b B e HqB Hb G3 G1 He Hb35) as (F1&F2&F3).
  { intros c Hc. destruct (G4 c Hc). specialize (HB35 c Hc). unfold block_end, units in *. lia. }
  unfold free_at. revert F1 F2 F3. match goal with |- context [same_header m ?mm] => set (m1 := mm) end. intros F1 F2 F3.
  destruct (F1 q.1) as [Hq1p Hq1s]; [unfold header_apart; lia|].
  assert (linked m B e) as HB by (by destruct HqB as (_&_&?)).
  set (n := (join_right b B).1.2) in *.
  assert (0 < n ∧ q.2 + n < 2 ^ 32) as [Hn0 Hn].
  { unfold n. destruct (join_right_cases b B) as [->|(c&B'&->&?&->)]; cbn [fst snd].
    - unfold block_end, units in *. lia.
    - destruct (G4 c ltac:(by left)). specialize (HB35 c ltac:(by left)). unfold block_end, units in *. lia. }
  pose proof (free_left_ok m1 q b n) as Hl. cbv zeta in Hl.
  match type of Hl with context [same_header m1 ?mm] => set (m2 := mm) in * end.
  destruct Hl as [L1 L2]; [destruct HqB as (_&?&_); congruence|done|done|done|done|done|lia|].
  assert (∀ x, header_apart b.1 x → header_apart q.1 x → same_header m m2 x) as Hsame.
  { intros x Hx1 Hx2. eapply same_trans; [by apply F1|by apply L1]. }
  split; [|exact Hsame].
  assert (head_addr (A ++ insert_block q b B) 0 = e) as ->.
  { destruct (insert_block_head q b B) as (?&?&->). unfold e. by destruct A. }
  apply blocks_app. split.
  - replace (head_addr (insert_block q b B) e) with q.1 by (destruct (insert_block_head q b B) as (?&?&->); done).
    revert HA. apply blocks_ext. intros x Hx. apply Hsame.
    + apply spread_app in Hs as (_&_&Hs). destruct (Hs x q Hx ltac:(by left)). unfold header_apart. lia.
    + apply spread_app in Hs as (_&_&Hs). destruct (Hs x q Hx ltac:(by left)). unfold header_apart. lia.
  - apply (insert_linked m1); [|done|done|apply L1; unfold header_apart; lia|done].
    assert (linked m2 B e) as HB2.
    { revert HB. apply blocks_ext. intros x Hx. destruct (G4 x Hx). apply Hsame; unfold header_apart, block_end, units in *; lia. }
    destruct (join_right_cases b B) as [->|(c&B'&->&?&->)]; [done|]. by destruct HB2 as (_&_&?).
Qed.

(** [free] writes the headers of two blocks only. *)
Lemma ld8_set_ptr p v m a : a < p ∨ p + 16 ≤ a → ld8 (set_ptr p v m) a = ld8 m a.
Proof. intros H. apply ld8_stn_other. lia. Qed.
Lemma ld8_set_size p v m a : a < p ∨ p + 16 ≤ a → ld8 (set_size p v m) a = ld8 m a.
Proof. intros H. apply ld8_stn_other. lia. Qed.

Lemma free_at_frame m bp p a :
  a < bp ∨ bp + 16 ≤ a → a < p ∨ p + 16 ≤ a → ld8 (free_at bp p m) a = ld8 m a.
Proof. intros H1 H2. unfold free_at. cbv zeta. repeat case_test; repeat first [rewrite ld8_set_ptr by done | rewrite ld8_set_size by done]; done. Qed.

(** The addresses of a list of blocks. *)
Definition covers (l : list block) (a : Z) : Prop := ∃ b, b ∈ l ∧ b.1 ≤ a < block_end b.

Lemma covers_cons b l a : covers (b :: l) a ↔ b.1 ≤ a < block_end b ∨ covers l a.
Proof. unfold covers. set_solver. Qed.
Lemma covers_app l1 l2 a : covers (l1 ++ l2) a ↔ covers l1 a ∨ covers l2 a.
Proof. unfold covers. set_solver. Qed.

Lemma insert_block_covers q b B a :
  0 ≤ q.2 → 0 < b.2 → Forall (λ c, 0 < c.2) B → covers (insert_block q b B) a ↔ covers (q :: b :: B) a.
Proof.
  intros Hq Hb HB. unfold insert_block. destruct (join_right_cases b B) as [->|(c&B'&->&Hbc&->)].
  - case_test; rewrite !covers_cons; [|done]. unfold block_end, units in *. cbn. intuition lia.
  - apply Forall_cons in HB as [Hc HB]. unfold block_end, units in *. case_test; rewrite !covers_cons; unfold block_end, units; cbn; intuition lia.
Qed.

Lemma apart_comm b c : apart b c ↔ apart c b.
Proof. unfold apart. tauto. Qed.

Lemma pairwise_app l1 l2 :
  pairwise (l1 ++ l2) ↔ pairwise l1 ∧ pairwise l2 ∧ ∀ b c, b ∈ l1 → c ∈ l2 → apart b c.
Proof.
  induction l1 as [|a l1 IH]; cbn [app pairwise]; [set_solver|]. rewrite IH, Forall_app, !Forall_forall. set_solver.
Qed.

(** Where the block [b] belongs in the list. *)
Lemma gap_exists L q0 (b : block) :
  spread (q0 :: L) → q0.1 + 16 ≤ b.1 → block_end q0 ≤ b.1 → 0 < b.2 → (∀ c, c ∈ L → 0 < c.2 ∧ apart c b) →
  ∃ A q B, q0 :: L = A ++ q :: B ∧ in_gap q b B.
Proof.
  revert q0. induction L as [|c L IH]; intros q0 Hs H1 H2 Hb Hap.
  - exists [], q0, []. split; [done|]. by split_and!.
  - destruct (Hap c) as [Hc [Hcb|Hcb]]; [by left| |].
    + destruct (IH c) as (A&q&B&->&Hg); [by destruct Hs|unfold block_end, units in *; lia|done|done|intros; apply Hap; by right|].
      by exists (q0 :: A), q, B.
    + exists [], q0, (c :: L). split; [done|]. split_and!; [done..|]. destruct Hs as (_&Hs&_). rewrite Forall_forall in Hs.
      apply Forall_forall. intros d Hd. destruct (Hap d Hd) as [Hd0 _]. split; [|done].
      apply elem_of_cons in Hd as [->|Hd]; [done|]. destruct (Hs d Hd). unfold block_end, units in *. lia.
Qed.

(** Joining keeps [P]. *)
Definition joins (P : block → Prop) : Prop :=
  ∀ x y, P x → P y → 0 < x.2 → 0 < y.2 → block_end x = y.1 → P (x.1, x.2 + y.2).

(** Inserting into the list behind [base]. *)
Lemma insert_list base fl b A q B :
  (base, 0) :: fl = A ++ q :: B → in_gap q b B → Forall (λ c, 0 < c.2) fl →
  ∃ fl', A ++ insert_block q b B = (base, 0) :: fl' ∧ (length fl' ≤ length fl + 1)%nat ∧
    ∀ P, joins P → P b → Forall P fl → Forall P fl'.
Proof.
  intros HL (G1&G2&G3&_) Hpos. destruct A as [|a A]; cbn [app] in HL; injection HL as <- ->.
  - cbn [app]. unfold insert_block. assert ((block_end (base, 0) =? b.1) = false) as E.
    { unfold block_end, units in *. cbn in *. lia. }
    destruct (join_right_cases b B) as [->|(c&B'&->&Hbc&->)]; rewrite E; eexists; (split; [done|]).
    + split; [cbn; lia|]. intros P HP Hb HB. by constructor.
    + split; [cbn; lia|]. intros P HP Hb [Hc HB]%Forall_cons. apply Forall_cons in Hpos as [??]. constructor; [by apply HP|done].
  - exists (A ++ insert_block q b B). split; [done|]. split.
    { rewrite !length_app. unfold insert_block. destruct (join_right_cases b B) as [->|(c&B'&->&_&->)]; case_test; cbn; lia. }
    intros P HP Hb Hfl. apply Forall_app in Hfl as [HA [Hq HB]%Forall_cons], Hpos as [_ [Hq0 HB0]%Forall_cons].
    apply Forall_app. split; [done|]. apply (Forall_impl (λ x, 0 < x.2 ∧ P x)); [|tauto].
    apply insert_block_Forall; [|done|done|apply Forall_and; by split|done|done].
    intros x y [??] [??] ??. split; [cbn; lia|]. by apply HP.
Qed.

Lemma joins_apart c : 0 < c.2 → joins (apart c).
Proof. intros Hc x y. unfold joins, apart, block_end, units. cbn. lia. Qed.

Lemma joins_in lo hi : joins (λ x, lo ≤ x.1 ∧ block_end x ≤ hi ∧ 0 < x.2).
Proof. intros x y. unfold block_end, units. cbn. lia. Qed.

(** The bytes of the blocks [al] are kept. *)
Definition keeps (al : list block) (m m' : gmap Z Z) : Prop :=
  ∀ a, covers al a → ld8 m' a = ld8 m a.

Lemma ldn_keeps m m' al b :
  keeps al m m' → b ∈ al → 0 < b.2 → size_of m' b.1 = size_of m b.1.
Proof.
  intros Hk Hb H0. apply ldn_ext. intros i Hi. apply Hk. exists b. split; [done|]. unfold block_end, units. lia.
Qed.

Lemma covers_base base fl a : covers ((base, 0) :: fl) a ↔ covers fl a.
Proof. rewrite covers_cons. unfold block_end, units. cbn. intuition lia. Qed.

(** The bytes of an allocated block are outside the header of another block and
    of [base]. *)
Lemma outside_header (x : block) al a :
  0 < x.2 → (∀ c, c ∈ al → apart x c) → covers al a → a < x.1 ∨ x.1 + 16 ≤ a.
Proof. intros Hx Hal (c&Hc&Ha). destruct (Hal c Hc); unfold block_end, units in *; lia. Qed.

Lemma spread_insert A q b B : in_gap q b B → spread (A ++ q :: B) → spread (A ++ insert_block q b B).
Proof.
  intros Hg (HA&HqB&HAB)%spread_app. apply spread_app. split; [done|]. split; [by apply insert_block_spread|].
  pose proof Hg as (?&?&?&HB). intros x c Hx Hc.
  assert (below x q) as Hxq by (apply HAB; [done|by left]).
  assert (Forall (below x) (insert_block q b B)) as HF.
  { apply insert_block_Forall; [|done| | |done|].
    - intros y z. unfold below. cbn. tauto.
    - unfold below, block_end, units in *. lia.
    - apply Forall_forall. intros y Hy. apply HAB; [done|by right].
    - eapply Forall_impl; [exact HB|]. cbn. tauto. }
  rewrite Forall_forall in HF. by apply HF.
Qed.

(** The heap after a block has gone to the free list. *)
Lemma heap_insert base lo hi h fl al1 b al2 m' A q B fl' :
  heap_ok base lo hi h fl (al1 ++ b :: al2) → (base, 0) :: fl = A ++ q :: B → in_gap q b B →
  A ++ insert_block q b B = (base, 0) :: fl' → (∀ P, joins P → P b → Forall P fl → Forall P fl') →
  ring m' (A ++ insert_block q b B) → keeps (al1 ++ al2) (hp_mem h) m' →
  heap_ok base lo hi (Heap m' q.1) fl' (al1 ++ al2).
Proof.
  intros [Hrg Hr Hfp Hin Hs Hap Hal Hsz] HL Hg HL' HP Hr' Hkeep.
  apply pairwise_app in Hal as (Hal1&[Hb2 Hal2]&Hal12). rewrite Forall_forall in Hb2.
  assert (∀ c, c ∈ al1 ++ al2 → c ∈ al1 ++ b :: al2) as Hsub by set_solver.
  assert (∀ c, c ∈ al1 ++ al2 → apart c b) as Hcb.
  { intros c [Hc|Hc]%elem_of_app; [apply Hal12; [done|by left]|by apply apart_comm, Hb2]. }
  split; [done| | | | | | |]; cbn [hp_mem hp_freep].
  - by rewrite <-HL'.
  - rewrite <-HL'. destruct (insert_block_head q b B) as (n&B'&->). apply list_elem_of_fmap. exists (q.1, n). set_solver.
  - intros c [Hc|Hc]%elem_of_app; [|apply Hin; set_solver].
    assert (Forall (λ x, lo ≤ x.1 ∧ block_end x ≤ hi ∧ 0 < x.2) fl') as HF.
    { apply HP; [apply joins_in|apply Hin; set_solver|]. apply Forall_forall. set_solver. }
    rewrite Forall_forall in HF. by apply HF.
  - rewrite <-HL'. apply spread_insert; [done|]. by rewrite <-HL.
  - intros x c Hx Hc. assert (Forall (apart c) fl') as HF.
    { apply HP; [apply joins_apart; apply Hin; set_solver|by apply Hcb|]. apply Forall_forall. intros y Hy.
      apply apart_comm, Hap; [done|by apply Hsub]. }
    rewrite Forall_forall in HF. by apply apart_comm, HF.
  - apply pairwise_app. split; [done|]. split; [done|]. intros x c Hx Hc. apply Hal12; [done|by right].
  - intros c Hc. rewrite (ldn_keeps (hp_mem h) m' (al1 ++ al2)); [apply Hsz|done|done|apply Hin]; set_solver.
Qed.

(** [free] of an allocated block [b]. *)
Lemma free_ok base lo hi h fl al1 b al2 k :
  heap_ok base lo hi h fl (al1 ++ b :: al2) → (length fl + 1 ≤ k)%nat →
  ∃ h' fl', free k (b.1 + 16) h = Some h' ∧ heap_ok base lo hi h' fl' (al1 ++ al2) ∧ (length fl' ≤ length fl + 1)%nat ∧
    (∃ c, c ∈ fl' ∧ b.2 ≤ c.2) ∧ (∀ a, covers fl' a ↔ covers (b :: fl) a) ∧ keeps (al1 ++ al2) (hp_mem h) (hp_mem h').
Proof.
  intros Hok Hk. pose proof Hok as [Hrg Hr Hfp Hin Hs Hap Hal Hsz].
  assert (∀ c, c ∈ fl → lo ≤ c.1 ∧ block_end c ≤ hi ∧ 0 < c.2) as Hfl by set_solver.
  assert (lo ≤ b.1 ∧ block_end b ≤ hi ∧ 0 < b.2) as Hb by set_solver.
  destruct (gap_exists fl (base, 0) b) as (A&q&B&HL&Hg); [done|cbn; lia|unfold block_end, units; cbn; lia|lia| |].
  { intros c Hc. split; [by apply Hfl|]. apply Hap; set_solver. }
  assert (Forall (λ c, 0 < c.2) fl) as Hpos by (apply Forall_forall; intros c Hc; by apply Hfl).
  destruct (insert_list base fl b A q B HL Hg Hpos) as (fl'&HL'&Hlen&HP).
  assert (q ∈ (base, 0) :: fl) as Hq by (rewrite HL; set_solver).
  assert (∀ c, c ∈ B → c ∈ fl) as HBfl.
  { intros c Hc. destruct A; cbn in HL; injection HL as _ ->; set_solver. }
  rewrite HL in Hr, Hs, Hfp.
  assert (0 ≤ q.1 ∧ 0 ≤ q.2) as Hq0.
  { apply elem_of_cons in Hq as [->|Hq]; [cbn; lia|]. destruct (Hfl q Hq). lia. }
  assert (free_search k (hp_mem h) b.1 (hp_freep h) = Some q.1) as Hsearch.
  { destruct Hg as (?&?&?&HB). rewrite Forall_forall in HB. apply (free_search_ok _ _ _ A q B); [done|done|lia| |done|].
    - intros c Hc. destruct (HB c Hc). unfold block_end, units in *. lia.
    - apply (f_equal length) in HL. rewrite length_app in HL. cbn in HL. lia. }
  destruct (free_at_ok (hp_mem h) A q b B) as [Hr' Hsame]; [done|done|done|apply Hsz; set_solver|lia| | | |lia| |].
  { destruct A as [|x A]; [cbn; lia|]. injection HL as <- _. cbn. lia. }
  1-2: unfold block_end, units in *; lia.
  { intros c Hc. destruct (Hfl c (HBfl c Hc)). lia. }
  assert (keeps (al1 ++ al2) (hp_mem h) (free_at b.1 q.1 (hp_mem h))) as Hkeep.
  { intros a Ha. apply free_at_frame.
    - apply (outside_header b (al1 ++ al2)); [lia| |done]. intros c Hc. apply pairwise_app in Hal as (_&[Hb2 _]&Hb1).
      rewrite Forall_forall in Hb2. apply elem_of_app in Hc as [Hc|Hc]; [|by apply Hb2]. apply apart_comm, Hb1; [done|by left].
    - apply elem_of_cons in Hq as [->|Hq].
      + destruct Ha as (c&Hc&Ha). destruct (Hin c) as [? _]; [set_solver|]. cbn. lia.
      + apply (outside_header q (al1 ++ al2)); [by apply Hfl| |done]. intros c Hc. apply Hap; set_solver. }
  exists (Heap (free_at b.1 q.1 (hp_mem h)) q.1), fl'. split_and!.
  - unfold free. replace (b.1 + 16 - 16) with b.1 by lia. by rewrite Hsearch.
  - by apply (heap_insert base lo hi h fl al1 b al2 _ A q B fl').
  - done.
  - destruct (insert_block_has q b B) as (c&Hc&Hbc); [lia|lia| |].
    { apply Forall_forall. intros c Hc. by apply Hfl, HBfl. }
    exists c. split; [|done]. assert (c ∈ (base, 0) :: fl') as [->|?]%elem_of_cons; [rewrite <-HL'; set_solver|cbn in *; lia|done].
  - intros a. rewrite <-(covers_base base fl'), <-HL', covers_app, insert_block_covers; [|lia|lia|].
    + rewrite (covers_cons b fl), <-(covers_base base fl), HL, covers_app, !covers_cons. tauto.
    + apply Forall_forall. intros c Hc. by apply Hfl, HBfl.
  - done.
Qed.

(** ** Taking a block *)

Lemma header_apart_comm p q : header_apart p q ↔ header_apart q p.
Proof. unfold header_apart. tauto. Qed.

Lemma spread_apart A c B x : spread (A ++ c :: B) → x ∈ A ∨ x ∈ B → header_apart c.1 x.1.
Proof.
  intros (_&[HB _]&HA)%spread_app Hx. rewrite Forall_forall in HB.
  destruct Hx as [Hx|Hx]; [destruct (HA x c Hx ltac:(by left))|destruct (HB x Hx)]; unfold header_apart; lia.
Qed.

Lemma ring_ext m m' l : (∀ b, b ∈ l → same_header m m' b.1) → ring m l → ring m' l.
Proof. intros H. by apply blocks_ext. Qed.

(** The whole block is unlinked. *)
Lemma ring_remove m A x c B :
  ring m (A ++ x :: c :: B) → spread (A ++ x :: c :: B) → ring (set_ptr x.1 (ptr_of m c.1) m) (A ++ x :: B).
Proof.
  intros Hr Hs. unfold ring in *. replace (head_addr (A ++ x :: c :: B) 0) with (head_addr (A ++ x :: B) 0) in Hr by (by destruct A).
  apply blocks_app in Hr as (HA&Hx&Hxs&Hc&_&HB). apply blocks_app. split; [|split_and!].
  - revert HA. apply blocks_ext. intros y Hy. apply same_set_ptr. eapply spread_apart; [exact Hs|by left].
  - rewrite ptr_set_ptr; [done|apply ld64_range].
  - by rewrite size_set_ptr by auto.
  - revert HB. apply blocks_ext. intros y Hy. apply same_set_ptr. eapply spread_apart; [exact Hs|right; by right].
Qed.

(** Or it shrinks. *)
Lemma ring_shrink m A c n B :
  0 ≤ n < 2 ^ 32 → ring m (A ++ c :: B) → spread (A ++ c :: B) → ring (set_size c.1 n m) (A ++ (c.1, n) :: B).
Proof.
  intros Hn Hr Hs. unfold ring in *. replace (head_addr (A ++ (c.1, n) :: B) 0) with (head_addr (A ++ c :: B) 0) by (by destruct A).
  apply blocks_app in Hr as (HA&Hc&_&HB). apply blocks_app. split; [|split_and!].
  - revert HA. apply blocks_ext. intros y Hy. apply same_set_size. eapply spread_apart; [exact Hs|by left].
  - by rewrite ptr_set_size by auto.
  - by rewrite size_set_size.
  - revert HB. apply blocks_ext. intros y Hy. apply same_set_size. eapply spread_apart; [exact Hs|by right].
Qed.

Lemma spread_remove A x c B : spread (A ++ x :: c :: B) → spread (A ++ x :: B).
Proof. rewrite !spread_app. cbn [spread]. rewrite !Forall_cons. set_solver. Qed.

Lemma spread_shrink A c n B : n ≤ c.2 → spread (A ++ c :: B) → spread (A ++ (c.1, n) :: B).
Proof.
  intros Hn. rewrite !spread_app. cbn [spread]. intros (HA&[Hc HB]&HAc). split_and!; [done| |done|].
  - eapply Forall_impl; [exact Hc|]. intros y [??]. unfold below, block_end, units in *. cbn. lia.
  - intros b d Hb [->|Hd]%elem_of_cons; [|apply HAc; [done|by right]]. exact (HAc b c Hb ltac:(by left)).
Qed.

Lemma behind_base (base : Z) (fl A : list block) (x c : block) B :
  (base, 0) :: fl = A ++ x :: c :: B → ∃ fl1, fl = fl1 ++ c :: B ∧ A ++ [x] = (base, 0) :: fl1.
Proof.
  intros HL. destruct A as [|a A]; cbn in HL; injection HL as <- ->.
  - by exists [].
  - exists (A ++ [x]). by rewrite <-app_assoc.
Qed.

(** What taking block [b] of [n] units promises. *)
Definition taken base lo hi (h : heap) fl al n (b : block) (h' : heap) : Prop :=
  ∃ fl', b.2 = n ∧ heap_ok base lo hi h' fl' (b :: al) ∧ (length fl' ≤ length fl)%nat ∧
    (∀ a, covers fl a ↔ covers (b :: fl') a) ∧ keeps al (hp_mem h) (hp_mem h').

Lemma take_all base lo hi h fl al A (x c : block) B :
  heap_ok base lo hi h fl al → (base, 0) :: fl = A ++ x :: c :: B →
  taken base lo hi h fl al c.2 c (Heap (set_ptr x.1 (ptr_of (hp_mem h) c.1) (hp_mem h)) x.1).
Proof.
  intros [Hrg Hr Hfp Hin Hs Hap Hal Hsz] HL. destruct (behind_base base fl A x c B HL) as (fl1&->&HA).
  assert (A ++ x :: B = (base, 0) :: fl1 ++ B) as HL1 by (change (x :: B) with ([x] ++ B); by rewrite app_assoc, HA).
  rewrite HL in Hr, Hs. assert (x ∈ (base, 0) :: fl1) as Hx by (rewrite <-HA; set_solver).
  assert (keeps al (hp_mem h) (set_ptr x.1 (ptr_of (hp_mem h) c.1) (hp_mem h))) as Hk.
  { intros a Ha. apply ld8_set_ptr. apply elem_of_cons in Hx as [->|Hx].
    - destruct Ha as (d&Hd&Ha). destruct (Hin d) as [? _]; [set_solver|]. cbn. lia.
    - apply (outside_header x al); [apply Hin; set_solver|intros d Hd; apply Hap; set_solver|done]. }
  exists (fl1 ++ B). split; [done|]. split; [split; [done|..]; cbn [hp_mem hp_freep]|].
  - rewrite <-HL1. by apply ring_remove.
  - apply list_elem_of_fmap. exists x. rewrite <-HL1. set_solver.
  - set_solver.
  - rewrite <-HL1. by eapply spread_remove.
  - intros b d Hb [->|Hd]%elem_of_cons; [|apply Hap; set_solver]. rewrite <-HL in Hs.
    change ((base, 0) :: fl1 ++ c :: B) with (((base, 0) :: fl1) ++ c :: B) in Hs.
    apply spread_app in Hs as (_&[HcB _]&Hs). rewrite Forall_forall in HcB. apply elem_of_app in Hb as [Hb|Hb].
    + destruct (Hs b c); [set_solver|set_solver|]. left. lia.
    + destruct (HcB b Hb). right. lia.
  - split; [|done]. apply Forall_forall. intros d Hd. apply Hap; set_solver.
  - intros b [->|Hb]%elem_of_cons.
    + rewrite size_set_ptr; [|right; apply header_apart_comm; eapply (spread_apart (A ++ [x]) c B); [by rewrite <-app_assoc|set_solver]].
      apply blocks_app in Hr as [_ (_&_&_&?&_)]. done.
    + rewrite (ldn_keeps (hp_mem h) _ al); [by apply Hsz|done|done|apply Hin; set_solver].
  - split; [rewrite !length_app; cbn; lia|]. split; [|done]. intros a. rewrite !covers_app, !covers_cons, covers_app. tauto.
Qed.

Lemma take_part base lo hi h fl al A (x c : block) B n :
  heap_ok base lo hi h fl al → (base, 0) :: fl = A ++ x :: c :: B → 0 < n < c.2 →
  let b := (units c.1 (c.2 - n), n) in
  taken base lo hi h fl al n b (Heap (set_size b.1 n (set_size c.1 (c.2 - n) (hp_mem h))) x.1).
Proof.
  intros [Hrg Hr Hfp Hin Hs Hap Hal Hsz] HL Hn b. destruct (behind_base base fl A x c B HL) as (fl1&->&HA).
  set (c' := (c.1, c.2 - n)) in *. set (m' := set_size b.1 n (set_size c.1 (c.2 - n) (hp_mem h))).
  assert (A ++ x :: c' :: B = (base, 0) :: fl1 ++ c' :: B) as HL1 by (change (x :: c' :: B) with ([x] ++ c' :: B); by rewrite app_assoc, HA).
  assert (lo ≤ c.1 ∧ block_end c ≤ hi ∧ 0 < c.2) as Hc by (apply Hin; set_solver).
  assert (b.1 = c.1 + 16 * (c.2 - n) ∧ block_end b = block_end c) as [Hb1 Hbe] by (unfold b, block_end, units; cbn; lia).
  change ((base, 0) :: fl1 ++ c :: B) with (((base, 0) :: fl1) ++ c :: B) in Hr, Hs.
  assert (∀ y, y ∈ (base, 0) :: fl1 ∨ y ∈ B → apart y c ∧ header_apart b.1 y.1) as Hother.
  { intros y Hy. pose proof Hs as (_&[HB _]&HF)%spread_app. rewrite Forall_forall in HB.
    destruct Hy as [Hy|Hy]; [destruct (HF y c Hy ltac:(by left))|destruct (HB y Hy)];
      unfold apart, header_apart, block_end, units in *; lia. }
  assert (∀ y, apart y c → apart b y) as Hbap by (intros y; unfold apart, block_end, units in *; lia).
  assert (∀ y, y ∈ al → apart b y) as Hbal by (intros y Hy; apply Hbap, apart_comm, Hap; set_solver).
  assert (keeps al (hp_mem h) m') as Hk.
  { intros a Ha. unfold m'. rewrite !ld8_set_size; [done|..].
    - apply (outside_header c al); [lia|intros d Hd; apply Hap; set_solver|done].
    - apply (outside_header b al); [cbn; lia|done|done]. }
  exists (fl1 ++ c' :: B). split; [done|]. split; [split; [done|..]; cbn [hp_mem hp_freep]|].
  - apply (ring_ext (set_size c.1 (c.2 - n) (hp_mem h)) _ (((base, 0) :: fl1) ++ c' :: B));
      [|apply ring_shrink; [unfold block_end, units in *; lia|done|done]].
    intros y Hy. apply same_set_size. apply elem_of_app in Hy as [Hy|[->|Hy]%elem_of_cons]; [apply Hother; by left| |apply Hother; by right].
    unfold header_apart. change c'.1 with c.1. lia.
  - apply list_elem_of_fmap. exists x. rewrite <-HL1. set_solver.
  - intros d Hd. assert (d = c' ∨ d = b ∨ d ∈ (fl1 ++ c :: B) ++ al) as [->|[->|Hd']] by set_solver; [| |by apply Hin];
      unfold block_end, units in *; cbn; lia.
  - change (spread (((base, 0) :: fl1) ++ c' :: B)). apply spread_shrink; [lia|done].
  - intros d e Hd He. assert (d = c' ∨ d ∈ fl1 ++ B) as [->|Hd'] by set_solver.
    + apply elem_of_cons in He as [->|He]; [left; unfold block_end, units in *; cbn; lia|].
      destruct (Hap c e); [set_solver|done|left|right]; unfold block_end, units in *; cbn; lia.
    + apply elem_of_cons in He as [->|He]; [|apply Hap; set_solver]. apply apart_comm, Hbap. apply Hother. set_solver.
  - split; [|done]. apply Forall_forall. intros d Hd. by apply Hbal.
  - intros d [->|Hd]%elem_of_cons; [unfold m'; rewrite size_set_size; [done|unfold block_end, units in *; cbn; lia]|].
    rewrite (ldn_keeps (hp_mem h) _ al); [by apply Hsz|done|done|apply Hin; set_solver].
  - split; [rewrite !length_app; cbn; lia|]. split; [|done]. intros a. rewrite covers_app, !covers_cons, covers_app, covers_cons.
    unfold b, c', block_end, units. cbn. intuition lia.
Qed.

Lemma take_block_ok base lo hi h fl al prevp n :
  let p := ptr_of (hp_mem h) prevp in
  heap_ok base lo hi h fl al → prevp ∈ ((base, 0) :: fl).*1 → 0 < n ≤ size_of (hp_mem h) p →
  ∃ b m', take_block n prevp p (hp_mem h) = (b.1, m') ∧ taken base lo hi h fl al n b (Heap m' prevp).
Proof.
  intros p Hok Hprev Hn. pose proof Hok as [Hrg Hr _ Hin _ _ _ _]. apply list_elem_of_fmap in Hprev as (x&->&Hx).
  apply list_elem_of_split in Hx as (A&B&HL). rewrite HL in Hr. unfold ring in Hr.
  apply blocks_app in Hr as [HA (Hxp&_&HB)]. destruct B as [|c B].
  - assert (head_addr (A ++ [x]) 0 = base) as He by (by rewrite <-HL). unfold p in Hn. rewrite Hxp in Hn. cbn [head_addr] in Hn.
    rewrite He in Hn. pose proof (hk_ring _ _ _ _ _ _ Hok) as (_&Hs0&_). cbn in Hs0. lia.
  - destruct HB as (_&Hcs&_). unfold p in *. rewrite Hxp in *. cbn [head_addr] in *. unfold take_block. rewrite Hcs in *. case_test.
    + subst n. eexists _, _. split; [done|]. by apply (take_all base lo hi h fl al A x c B).
    + assert (lo ≤ c.1 ∧ block_end c ≤ hi ∧ 0 < c.2) as Hc.
      { apply Hin. destruct A; injection HL as _ ->; set_solver. }
      rewrite u32_small by (unfold block_end, units in *; lia).
      rewrite size_set_size by (unfold block_end, units in *; lia). eexists (units c.1 (c.2 - n), n), _. split; [done|].
      apply (take_part base lo hi h fl al A x c B n); [done|done|lia].
Qed.

(** ** The search of [malloc] *)

Section search.
Context {W : Type} {OS : Os W}.

(** The result of scanning [l]: a block that is large enough is taken, or there
    is none and [morecore] is called. *)
Definition scanned base fl (h : heap) (w : W) n (l : list block) k res : Prop :=
  (∃ prevp, prevp ∈ ((base, 0) :: fl).*1 ∧ n ≤ size_of (hp_mem h) (ptr_of (hp_mem h) prevp) ∧
     res = let '(p, m) := take_block n prevp (ptr_of (hp_mem h) prevp) (hp_mem h) in Some (p + 16, Heap m prevp, w)) ∨
  (∀ b, b ∈ l → b.2 < n) ∧
  res = match morecore k n h w with
        | None => None
        | Some (p, h, w) => if p =? 0 then Some (0, h, w) else malloc_loop k n p (ptr_of (hp_mem h) p) h w
        end.

(** The scan of the blocks [l], the last of which is [freep]: it takes the first that is large enough. *)
Lemma malloc_scan base fl (h : heap) (w : W) n l f e prev k :
  linked (hp_mem h) (l ++ [f]) e → f.1 = hp_freep h → (∀ b, b ∈ l → b.1 ≠ hp_freep h) →
  (∀ b, b ∈ l ++ [f] → b.1 ∈ ((base, 0) :: fl).*1) →
  prev ∈ ((base, 0) :: fl).*1 → ptr_of (hp_mem h) prev = head_addr (l ++ [f]) e →
  scanned base fl h w n (l ++ [f]) k (malloc_loop (length l + S k) n prev (head_addr (l ++ [f]) e) h w).
Proof.
  intros Hl Hf Hne Hin Hprev Hptr. revert prev Hl Hne Hin Hprev Hptr.
  induction l as [|b l IH]; intros prev Hl Hne Hin Hprev Hptr; cbn [app head_addr length Nat.add malloc_loop] in *;
    destruct Hl as (Hp&Hs&Hl); rewrite Hs; case_test.
  - left. exists prev. split; [done|]. rewrite Hptr, Hs. done.
  - right. split; [set_solver by lia|]. rewrite Hf, Z.eqb_refl. done.
  - left. exists prev. split; [done|]. rewrite Hptr, Hs. done.
  - pose proof (Hne b ltac:(by left)). assert ((b.1 =? hp_freep h) = false) as -> by lia. rewrite Hp.
    destruct (IH b.1) as [Hfit|[Hno Hres]]; [done|set_solver|set_solver|apply Hin; by left|done|left; done|].
    right. split; [|exact Hres]. intros c [->|Hc]%elem_of_cons; [lia|by apply Hno].
Qed.

(** ... over the whole list. *)
Lemma malloc_scan_all base lo hi fl al (h : heap) (w : W) n k :
  heap_ok base lo hi h fl al →
  scanned base fl h w n fl k (malloc_loop (length fl + S k) n (hp_freep h) (ptr_of (hp_mem h) (hp_freep h)) h w).
Proof.
  intros [_ Hr Hfp _ Hs _ _ _]. pose proof Hfp as (f&Hf&Hx)%list_elem_of_fmap. apply list_elem_of_split in Hx as (A&B&HL).
  assert (length fl = length (B ++ A)) as ->.
  { apply (f_equal length) in HL. rewrite length_app in *. cbn in HL. lia. }
  assert (∀ b, b ∈ B ++ A → b.1 ≠ hp_freep h) as Hne.
  { intros b Hb. rewrite Hf. rewrite HL in Hs. assert (header_apart f.1 b.1) as Ha by (eapply spread_apart; [exact Hs|set_solver]).
    unfold header_apart in Ha. lia. }
  rewrite HL in Hr. change (f :: B) with ([f] ++ B) in Hr. rewrite app_assoc in Hr. apply ring_rotate in Hr. unfold ring in Hr.
  assert (ptr_of (hp_mem h) (hp_freep h) = head_addr ((B ++ A) ++ [f]) (head_addr (B ++ A ++ [f]) 0)) as Hp.
  { rewrite Hf. rewrite app_assoc in Hr. apply blocks_app in Hr as [_ (->&_)]. cbn. rewrite app_assoc. by destruct (B ++ A). }
  rewrite Hp. rewrite app_assoc in Hr. rewrite app_assoc in Hp |- *.
  destruct (malloc_scan base fl h w n (B ++ A) f (head_addr ((B ++ A) ++ [f]) 0) (hp_freep h) k) as [H|[Hno H]];
    [done|done|done| |done|done|left; exact H|right].
  - intros b Hb. rewrite HL. apply list_elem_of_fmap. exists b. set_solver.
  - split; [|exact H]. intros b Hb. apply Hno. assert (b ∈ (base, 0) :: fl) as Hb' by (by right). rewrite HL in Hb'. set_solver.
Qed.

Context (brk : W → Z) `{!Grows OS brk}.

(** [morecore] adds a free block of at least [n] units, or there is no memory. *)
Lemma morecore_ok base lo hi fl al (h : heap) (w : W) n k :
  heap_ok base lo hi h fl al → hi ≤ brk w → 0 < n < 134217728 → (length fl + 1 ≤ k)%nat →
  ∃ h' w', (morecore k n h w = Some (0, h, w') ∧ brk w' = brk w ∧ h' = h) ∨
    ∃ fl', morecore k n h w = Some (hp_freep h', h', w') ∧ heap_ok base lo (brk w') h' fl' al ∧
      (length fl' ≤ length fl + 1)%nat ∧ (∃ c, c ∈ fl' ∧ n ≤ c.2) ∧ keeps al (hp_mem h) (hp_mem h').
Proof.
  intros Hok Hbrk Hn Hk. pose proof Hok as [Hrg Hr Hfp Hin Hs Hap Hal Hsz]. unfold morecore.
  set (nu := if n <? 4096 then 4096 else n). assert (n ≤ nu ∧ 4096 ≤ nu < 134217728) as Hnu by (unfold nu; case_test; lia).
  rewrite i32_small by lia. destruct (sbrk_grows w (nu * 16) ltac:(lia)) as (w'&[(->&Hb)|(->&Hb&Hmax)]).
  { exists h, w'. left. done. }
  assert ((brk w =? -1) = false) as -> by lia.
  set (b := (brk w, nu)). set (h1 := Heap (set_size (brk w) nu (hp_mem h)) (hp_freep h)).
  assert (∀ c, c ∈ fl ++ al → block_end c ≤ b.1) as Hbelow by (intros c Hc; destruct (Hin c Hc) as (?&?&?); cbn; lia).
  assert (keeps al (hp_mem h) (hp_mem h1)) as Hk1.
  { intros a (c&Hc&Ha). apply ld8_set_size. specialize (Hbelow c ltac:(set_solver)). cbn in Hbelow. lia. }
  assert (heap_ok base lo (brk w') h1 fl ([] ++ b :: al)) as Hok1.
  { split; cbn [app hp_mem hp_freep h1]; [lia| |done| |done| | |].
    - apply (ring_ext (hp_mem h)); [|done]. intros c Hc. apply same_set_size. apply elem_of_cons in Hc as [->|Hc].
      + unfold header_apart. cbn. lia.
      + pose proof (Hbelow c ltac:(set_solver)). destruct (Hin c) as (?&?&?); [set_solver|]. unfold header_apart, block_end, units in *. cbn in *. lia.
    - intros c Hc. assert (c = b ∨ c ∈ fl ++ al) as [->|Hc'] by set_solver.
      + unfold block_end, units. cbn. lia.
      + destruct (Hin c Hc') as (?&?&?). lia.
    - intros x c Hx [->|Hc]%elem_of_cons; [left; apply Hbelow; set_solver|by apply Hap].
    - split; [|done]. apply Forall_forall. intros c Hc. right. apply Hbelow. set_solver.
    - intros c [->|Hc]%elem_of_cons; [apply size_set_size; cbn; lia|].
      change (size_of (hp_mem h1) c.1 = c.2). rewrite (ldn_keeps (hp_mem h) _ al); [by apply Hsz|done|done|apply Hin; set_solver]. }
  destruct (free_ok base lo (brk w') h1 fl [] b al k Hok1 Hk) as (h'&fl'&Hfree&Hok'&Hlen&(c&Hc&Hbc)&_&Hkeep).
  exists h', w'. right. exists fl'. change (brk w + 16) with (b.1 + 16). rewrite Hfree. split_and!; [done|done|done| |].
  - exists c. split; [done|]. cbn in Hbc. lia.
  - intros a Ha. by rewrite Hkeep, Hk1.
Qed.

(** The loop from a list in which some block is large enough. *)
Lemma malloc_loop_fits base lo hi fl al (h : heap) (w : W) n k :
  heap_ok base lo hi h fl al → 0 < n → (∃ c, c ∈ fl ∧ n ≤ c.2) → (length fl + 1 ≤ k)%nat →
  ∃ b h', malloc_loop k n (hp_freep h) (ptr_of (hp_mem h) (hp_freep h)) h w = Some (b.1 + 16, h', w) ∧
    taken base lo hi h fl al n b h'.
Proof.
  intros Hok Hn (c&Hc&Hnc) Hk. replace k with (length fl + S (k - length fl - 1))%nat by lia.
  destruct (malloc_scan_all base lo hi fl al h w n (k - length fl - 1) Hok) as [(prevp&Hin&Hfit&->)|[Hno _]].
  - destruct (take_block_ok base lo hi h fl al prevp n) as (b&m&->&Ht); [done|done|lia|]. by exists b, (Heap m prevp).
  - specialize (Hno c Hc). lia.
Qed.

Lemma malloc_loop_ok base lo hi fl al (h : heap) (w : W) n k :
  heap_ok base lo hi h fl al → hi ≤ brk w → 0 < n < 134217728 → (2 * length fl + 4 ≤ k)%nat →
  ∃ r h' w', malloc_loop k n (hp_freep h) (ptr_of (hp_mem h) (hp_freep h)) h w = Some (r, h', w') ∧
    keeps al (hp_mem h) (hp_mem h') ∧
    ((r = 0 ∧ h' = h ∧ brk w' = brk w ∧ ∀ c, c ∈ fl → c.2 < n) ∨
     ∃ b hi' fl', r = b.1 + 16 ∧ b.2 = n ∧ heap_ok base lo hi' h' fl' (b :: al) ∧ hi' ≤ brk w').
Proof.
  intros Hok Hbrk Hn Hk. replace k with (length fl + S (k - length fl - 1))%nat by lia.
  set (k2 := (k - length fl - 1)%nat). assert (length fl + 3 ≤ k2)%nat as Hk2 by lia.
  destruct (malloc_scan_all base lo hi fl al h w n k2 Hok) as [(prevp&Hin&Hfit&->)|[Hno ->]].
  - destruct (take_block_ok base lo hi h fl al prevp n) as (b&m&->&fl'&Hb&Hok'&_&_&Hkeep); [done|done|lia|].
    eexists _, _, _. split; [done|]. split; [done|]. right. by exists b, hi, fl'.
  - destruct (morecore_ok base lo hi fl al h w n k2 Hok Hbrk Hn ltac:(lia)) as (h'&w'&[(->&Hb&->)|(fl'&->&Hok'&Hlen&Hc&Hkeep)]).
    { exists 0, h, w'. split; [done|]. split; [done|]. left. done. }
    assert ((hp_freep h' =? 0) = false) as ->.
    { pose proof Hok' as [? _ Hfp Hin _ _ _ _]. apply list_elem_of_fmap in Hfp as (x&->&[->|Hx]%elem_of_cons); [cbn; lia|].
      destruct (Hin x) as (?&?&?); [set_solver|]. lia. }
    destruct (malloc_loop_fits base lo (brk w') fl' al h' w' n k2 Hok' ltac:(lia) Hc ltac:(lia))
      as (b&h2&->&fl2&Hb&Hok2&_&_&Hkeep2).
    eexists _, _, _. split; [done|]. split; [intros a Ha; by rewrite Hkeep2, Hkeep|].
    right. exists b, (brk w'), fl2. split; [done|]. split; [done|]. split; [done|lia].
Qed.

End search.

(** ** The allocator *)

(** Before the first call of [malloc] there is no list. *)
Definition alloc_ok (base lo hi : Z) (h : heap) (fl al : list block) : Prop :=
  heap_ok base lo hi h fl al ∨
  hp_freep h = 0 ∧ fl = [] ∧ al = [] ∧ 0 < base ∧ base + 16 ≤ lo ∧ lo ≤ hi ∧ hi < 2 ^ 35.

Lemma heap_init base lo hi m :
  0 < base ∧ base + 16 ≤ lo ∧ lo ≤ hi ∧ hi < 2 ^ 35 →
  heap_ok base lo hi (Heap (set_size base 0 (set_ptr base base m)) base) [] [].
Proof.
  intros Hrg. split; cbn [hp_mem hp_freep app]; [done| |set_solver|set_solver| |set_solver|done|set_solver].
  - split_and!; [|by rewrite size_set_size|done]. cbn. rewrite ptr_set_size by auto. apply ptr_set_ptr. lia.
  - by split.
Qed.


(** C32: [free] of an allocated block makes exactly its bytes free, keeps the list
    in order with adjacent blocks joined, and touches no other allocated block;
    its search around the circular list ends. *)
Theorem free_correct base lo hi h fl al1 b al2 k :
  heap_ok base lo hi h fl (al1 ++ b :: al2) → (length fl + 1 ≤ k)%nat →
  ∃ h' fl', free k (b.1 + 16) h = Some h' ∧ heap_ok base lo hi h' fl' (al1 ++ al2) ∧
    (∀ a, covers fl' a ↔ covers (b :: fl) a) ∧ keeps (al1 ++ al2) (hp_mem h) (hp_mem h').
Proof.
  intros Hok Hk. destruct (free_ok base lo hi h fl al1 b al2 k Hok Hk) as (h'&fl'&?&?&_&_&?&?). by exists h', fl'.
Qed.

(** [nu * sizeof(Header)] is passed to [sbrk] as an [int]. For the largest
    request it is 2^32 + 16, so [sbrk] grows the process by 16 bytes and [malloc]
    returns the address of a block that has none of the memory asked for. *)
Lemma malloc_truncated :
  ∃ h, malloc 4096 10 4294967295 (Heap ∅ 0) (World [] [] 8192) = Some (8208, h, World [] [] 8208).
Proof. eexists. vm_compute. reflexivity. Qed.

(** ** Examples *)


(** One allocated block of five units. *)
Definition one_block : heap := Heap (set_size 8192 5 (set_size 4096 0 (set_ptr 4096 4096 ∅))) 4096.

Lemma one_block_ok : heap_ok 4096 8192 12288 one_block [] [(8192, 5)].
Proof.
  split; [lia| |set_solver| | |set_solver| |].
  - by vm_compute.
  - intros b Hb. apply list_elem_of_singleton in Hb as ->. vm_compute. intuition congruence.
  - by split.
  - by split.
  - intros b Hb. apply list_elem_of_singleton in Hb as ->. by vm_compute.
Qed.

Lemma free_correct_witness :
  ∃ h' fl', free 1 (8192 + 16) one_block = Some h' ∧ heap_ok 4096 8192 12288 h' fl' [] ∧
    (∀ a, covers fl' a ↔ covers [(8192, 5)] a) ∧ keeps [] (hp_mem one_block) (hp_mem h').
Proof. apply (free_correct 4096 8192 12288 one_block [] [] (8192, 5) [] 1); [exact one_block_ok|cbn; lia]. Defined.
