(* ===== verification/Sh.v ===== *)
(** * user/sh.c: the command parser of the shell

    A command line is the list of its bytes before the NUL, and a pointer into it
    an offset. [parsecmd] is a recursive-descent parser that builds the tree of
    the command, whose words are pairs of pointers into the line, and then writes
    a NUL at the end of each word. Its functions take fuel; [panic] is [Fail] with
    the text the shell writes before it exits. *)

From S2P Require Import Prelude State Mem Kstring.

(** ** Model *)

(** The five kinds of command; a word is its start and its end. *)
Inductive cmd : Type :=
| EXEC (argv : list (nat * nat))
| REDIR (c : cmd) (file efile : nat) (mode fd : Z)
| PIPE (left right : cmd)
| LIST (left right : cmd)
| BACK (c : cmd).

Definition MAXARGS : Z := 10.

Definition whitespace : list Z := [32; 9; 13; 10; 11].
Definition symbols : list Z := str_bytes "<|>&;()".

Inductive parsed (A : Type) : Type :=
| Parsed (a : A)
| Fail (text : list Z)
| Deep.
Arguments Parsed {A} _.
Arguments Fail {A} _.
Arguments Deep {A}.

Declare Scope parse_scope.
Notation "'parse' x := m 'in' k" :=
  (match m with Parsed x => k | Fail e => Fail e | Deep => Deep end)
  (at level 200, x pattern, m at level 100, k at level 200, right associativity) : parse_scope.
#[local] Open Scope parse_scope.

Definition panic {A : Type} (msg : string) : parsed A := Fail (str_bytes msg ++ [10]).

(** [strchr(set, c)] as a condition. *)
Definition in_set (set : list Z) (c : Z) : bool := existsb (Z.eqb c) set.

(** A store through [cmd] in [parseexec] reaches the EXEC node inside [ret]. *)
Fixpoint add_arg (q eq : nat) (ret : cmd) : cmd :=
  match ret with
  | EXEC argv => EXEC (argv ++ [(q, eq)])
  | REDIR c file efile mode fd => REDIR (add_arg q eq c) file efile mode fd
  | c => c
  end.

(** The [switch] of [parseredirs]. *)
Definition redirect (tok : Z) (c : cmd) (q eq : nat) : cmd :=
  if tok =? 60 then REDIR c q eq O_RDONLY 0
  else if tok =? 62 then REDIR c q eq (Z.lor (Z.lor O_WRONLY O_CREATE) O_TRUNC) 1
  else if tok =? 43 then REDIR c q eq (Z.lor O_WRONLY O_CREATE) 1
  else c.

Section parser.
Context (buf : list Z).

Definition es : nat := length buf.
Definition char_at (s : nat) : Z := default 0 (buf !! s).

(** [while(s < es && p( *s)) s++]; the fuel is [es - s]. *)
Fixpoint advance (k : nat) (p : Z → bool) (s : nat) : nat :=
  match k with
  | O => s
  | S k' => if p (char_at s) then advance k' p (S s) else s
  end.
Definition skip_white (s : nat) : nat := advance (es - s) (in_set whitespace) s.

(** The token, its start and its end, and the new [*ps]. *)
Definition gettoken (s : nat) : Z * nat * nat * nat :=
  let s := skip_white s in
  let q := s in
  let c := char_at s in
  let '(ret, s) :=
    if c =? 0 then (c, s)
    else if (c =? 124) || (c =? 40) || (c =? 41) || (c =? 59) || (c =? 38) || (c =? 60) then (c, S s)
    else if c =? 62 then (if char_at (S s) =? 62 then (43, S (S s)) else (c, S s))
    else (97, advance (es - s) (λ c, negb (in_set whitespace c) && negb (in_set symbols c)) s) in
  (ret, q, s, skip_white s).

Definition peek (s : nat) (toks : string) : bool * nat :=
  let s := skip_white s in
  (negb (char_at s =? 0) && in_set (str_bytes toks) (char_at s), s).

Fixpoint parseredirs (k : nat) (c : cmd) (s : nat) : parsed (cmd * nat) :=
  match k with
  | O => Deep
  | S k' =>
      let '(more, s) := peek s "<>" in
      if more then
        let '(tok, _, _, s) := gettoken s in
        let '(word, q, eq, s) := gettoken s in
        if negb (word =? 97) then panic "missing file for redirection"
        else parseredirs k' (redirect tok c q eq) s
      else Parsed (c, s)
  end.

(** The loop of [parseexec]. *)
Fixpoint parseargs (k : nat) (argc : Z) (ret : cmd) (s : nat) : parsed (cmd * nat) :=
  match k with
  | O => Deep
  | S k' =>
      let '(stop, s) := peek s "|)&;" in
      if stop then Parsed (ret, s)
      else
        let '(tok, q, eq, s) := gettoken s in
        if tok =? 0 then Parsed (ret, s)
        else if negb (tok =? 97) then panic "syntax"
        else
          let ret := add_arg q eq ret in
          let argc := argc + 1 in
          if MAXARGS <=? argc then panic "too many args"
          else parse (ret, s) := parseredirs k' ret s in parseargs k' argc ret s
  end.

(** The loop of [parseline]. *)
Fixpoint parsebacks (k : nat) (c : cmd) (s : nat) : parsed (cmd * nat) :=
  match k with
  | O => Deep
  | S k' =>
      let '(more, s) := peek s "&" in
      if more then let '(_, _, _, s) := gettoken s in parsebacks k' (BACK c) s else Parsed (c, s)
  end.

Fixpoint parseline (k : nat) (s : nat) : parsed (cmd * nat) :=
  match k with
  | O => Deep
  | S k' =>
      parse (c, s) := parsepipe k' s in
      parse (c, s) := parsebacks k' c s in
      let '(more, s) := peek s ";" in
      if more then
        let '(_, _, _, s) := gettoken s in
        parse (r, s) := parseline k' s in Parsed (LIST c r, s)
      else Parsed (c, s)
  end
with parsepipe (k : nat) (s : nat) : parsed (cmd * nat) :=
  match k with
  | O => Deep
  | S k' =>
      parse (c, s) := parseexec k' s in
      let '(more, s) := peek s "|" in
      if more then
        let '(_, _, _, s) := gettoken s in
        parse (r, s) := parsepipe k' s in Parsed (PIPE c r, s)
      else Parsed (c, s)
  end
with parseexec (k : nat) (s : nat) : parsed (cmd * nat) :=
  match k with
  | O => Deep
  | S k' =>
      let '(block, s) := peek s "(" in
      if block then parseblock k' s
      else parse (ret, s) := parseredirs k' (EXEC []) s in parseargs k' 0 ret s
  end
with parseblock (k : nat) (s : nat) : parsed (cmd * nat) :=
  match k with
  | O => Deep
  | S k' =>
      let '(block, s) := peek s "(" in
      if negb block then panic "parseblock"
      else
        let '(_, _, _, s) := gettoken s in
        parse (c, s) := parseline k' s in
        let '(closed, s) := peek s ")" in
        if negb closed then panic "syntax - missing )"
        else let '(_, _, _, s) := gettoken s in parseredirs k' c s
  end.

End parser.

(** [nulterminate] on the bytes of the line, its NUL included. *)
Fixpoint nulterminate (c : cmd) (line : list Z) : list Z :=
  match c with
  | EXEC argv => foldl (λ line w, <[w.2 := 0]> line) line argv
  | REDIR c _ efile _ _ => <[efile := 0]> (nulterminate c line)
  | PIPE l r => nulterminate r (nulterminate l line)
  | LIST l r => nulterminate r (nulterminate l line)
  | BACK c => nulterminate c line
  end.

(** The command and the line after it, NULs included. *)
Definition parsecmd (k : nat) (buf : list Z) : parsed (cmd * list Z) :=
  parse (c, s) := parseline buf k 0 in
  let '(_, s) := peek buf s "" in
  if negb (s =? es buf)%nat then Fail (str_bytes "leftovers: " ++ drop s buf ++ [10] ++ str_bytes "syntax" ++ [10])
  else Parsed (c, nulterminate c (buf ++ [0])).
