(* ===== verification/ShSpec.v ===== *)
(** * user/sh.c: the parser accepts exactly the command language

    The language is given twice, as tokens and as a grammar over them. The parser
    terminates on every line; it builds the tree of the grammar when there is one
    and fails when there is none. After [nulterminate] each word of the tree is a
    C string. *)

From S2P Require Import Prelude State Mem Kstring Sh.

#[local] Open Scope parse_scope.

(** ** The language of the shell *)

(** A token: its kind, as [gettoken] returns it, and its place. *)
Notation token := (Z * nat * nat)%type.
Definition kind (t : token) : Z := t.1.1.

Definition word_char (c : Z) : Prop := c ∉ whitespace ∧ c ∉ symbols.

(** The tokens of a text that starts at offset [p]. *)
Inductive Lexes : nat → list Z → list token → Prop :=
| lex_end p : Lexes p [] []
| lex_white p c l ts : c ∈ whitespace → Lexes (S p) l ts → Lexes p (c :: l) ts
| lex_symbol p c l ts : c ∈ symbols → c ≠ 62 → Lexes (S p) l ts → Lexes p (c :: l) ((c, p, S p) :: ts)
| lex_to p l ts : head l ≠ Some 62 → Lexes (S p) l ts → Lexes p (62 :: l) ((62, p, S p) :: ts)
| lex_append p l ts : Lexes (S (S p)) l ts → Lexes p (62 :: 62 :: l) ((43, p, S (S p)) :: ts)
| lex_word p w l ts :
    w ≠ [] → Forall word_char w → (∀ c, head l = Some c → ¬ word_char c) → Lexes (p + length w) l ts →
    Lexes p (w ++ l) ((97, p, (p + length w)%nat) :: ts).

(** The redirections after a command, innermost first. *)
Inductive Redirs : cmd → cmd → list token → Prop :=
| redirs_nil c : Redirs c c []
| redirs_cons c d t w ts :
    kind t ∈ [60; 62; 43] → kind w = 97 → Redirs (redirect (kind t) c w.1.2 w.2) d ts → Redirs c d (t :: w :: ts).

(** Words and redirections in any order; [n] is the number of words. *)
Inductive Items : cmd → nat → cmd → list token → Prop :=
| items_nil c : Items c 0 c []
| items_redir c n d t w ts :
    kind t ∈ [60; 62; 43] → kind w = 97 → Items (redirect (kind t) c w.1.2 w.2) n d ts → Items c n d (t :: w :: ts)
| items_word c n d w ts :
    kind w = 97 → Items (add_arg w.1.2 w.2 c) n d ts → Items c (S n) d (w :: ts).

(** line ::= pipe &* | pipe &* ; line
    pipe ::= simple | simple "|" pipe
    simple ::= ( line ) redirs | items, with at most nine words *)
Inductive Line : cmd → list token → Prop :=
| line_one c ts n amps :
    Pipeline c ts → Forall (λ t, kind t = 38) amps → length amps = n → Line (Nat.iter n BACK c) (ts ++ amps)
| line_more c ts n amps semi d us :
    Pipeline c ts → Forall (λ t, kind t = 38) amps → length amps = n → kind semi = 59 → Line d us →
    Line (LIST (Nat.iter n BACK c) d) (ts ++ amps ++ semi :: us)
with Pipeline : cmd → list token → Prop :=
| pipe_one c ts : Simple c ts → Pipeline c ts
| pipe_more c ts bar d us : Simple c ts → kind bar = 124 → Pipeline d us → Pipeline (PIPE c d) (ts ++ bar :: us)
with Simple : cmd → list token → Prop :=
| simple_block l c ts r d us :
    kind l = 40 → Line c ts → kind r = 41 → Redirs c d us → Simple d (l :: ts ++ r :: us)
| simple_items n d ts : Items (EXEC []) n d ts → (n ≤ 9)%nat → Simple d ts.

Scheme Line_mut := Minimality for Line Sort Prop
  with Pipeline_mut := Minimality for Pipeline Sort Prop
  with Simple_mut := Minimality for Simple Sort Prop.
Combined Scheme grammar_ind from Line_mut, Pipeline_mut, Simple_mut.

(** ** Tokens *)

Lemma in_set_spec set c : in_set set c = true ↔ c ∈ set.
Proof.
  unfold in_set. rewrite existsb_exists. split.
  - intros (x&Hx&E). apply Z.eqb_eq in E as ->. by apply list_elem_of_In.
  - intros Hc. exists c. split; [by apply list_elem_of_In|apply Z.eqb_refl].
Qed.

Lemma in_set_false set c : in_set set c = false ↔ c ∉ set.
Proof. rewrite <-in_set_spec. by destruct (in_set set c). Qed.

(** The first byte of a symbol. *)
Definition first (t : token) : Z := if kind t =? 43 then 62 else kind t.

Section lexing.
Context (buf : list Z) (Hnul : 0 ∉ buf).

(** What is left of the line at [s] is [l]. *)
Definition at_text (s : nat) (l : list Z) : Prop := (s ≤ es buf)%nat ∧ drop s buf = l.

(** The tokens from [s] on. *)
Definition toks (s : nat) (ts : list token) : Prop := ∃ l, at_text s l ∧ Lexes s l ts.

Lemma at_text_app s w l : at_text s (w ++ l) → at_text (s + length w) l.
Proof.
  intros [Hs Hd]. assert (length (drop s buf) = length (w ++ l)) as Hl by (by rewrite Hd).
  rewrite length_drop, length_app in Hl. unfold es in *. split; [unfold es; lia|].
  by rewrite <-drop_drop, Hd, drop_app_length.
Qed.

Lemma char_at_cons s c l : at_text s (c :: l) → char_at buf s = c.
Proof. intros [_ Hd]. unfold char_at. by rewrite <-(Nat.add_0_r s), <-lookup_drop, Hd. Qed.

Lemma char_at_nil s : at_text s [] → char_at buf s = 0.
Proof. intros [_ Hd]. unfold char_at. by rewrite <-(Nat.add_0_r s), <-lookup_drop, Hd. Qed.

Lemma at_text_length s l : at_text s l → (es buf - s)%nat = length l.
Proof. intros [_ <-]. by rewrite length_drop. Qed.

Lemma at_text_nonzero s c l : at_text s (c :: l) → c ≠ 0.
Proof.
  intros [_ Hd] ->. apply Hnul. rewrite <-(take_drop s buf), Hd. set_solver.
Qed.

Lemma advance_ok p s w l :
  at_text s (w ++ l) → Forall (λ c, p c = true) w → (∀ c, head l = Some c → p c = false) →
  advance buf (es buf - s) p s = (s + length w)%nat.
Proof.
  intros Ht Hw Hl. rewrite (at_text_length _ _ Ht). revert s Ht. induction Hw as [|c w Hc Hw IH]; intros s Ht; cbn [app length].
  - rewrite Nat.add_0_r. destruct l as [|c l]; [done|]. cbn. rewrite (char_at_cons _ _ _ Ht), Hl; done.
  - cbn [advance]. rewrite (char_at_cons _ _ _ Ht), Hc. rewrite IH; [lia|]. apply (at_text_app s [c]) in Ht.
    by rewrite Nat.add_1_r in Ht.
Qed.

Lemma skip_lex p l ts :
  Lexes p l ts →
  ∃ w l', l = w ++ l' ∧ Forall (λ c, in_set whitespace c = true) w ∧ Lexes (p + length w) l' ts ∧
    ∀ c, head l' = Some c → in_set whitespace c = false.
Proof.
  assert (∀ c, c ∈ symbols → in_set whitespace c = false) as Hsym.
  { intros c Hc. vm_compute in Hc. repeat (apply elem_of_cons in Hc as [->|Hc]; [done|]). set_solver. }
  induction 1 as [p|p c l ts Hc H (w&l'&->&Hw&HL&Hh)|p c l ts Hc Hne H _|p l ts Hh H _|p l ts H _|p w l ts Hne Hw Hh H _];
    [|exists (c :: w), l'; split_and!; [done|constructor; [by apply in_set_spec|done]|by replace (p + length (c :: w))%nat with (S p + length w)%nat by (cbn; lia)|done]|..].
  all: exists []; eexists; split; [done|]; split; [done|]; rewrite Nat.add_0_r; split; [by constructor|].
  - done.
  - intros d [= <-]. auto.
  - by intros d [= <-].
  - by intros d [= <-].
  - destruct w as [|d w]; [done|]. intros e [= <-]. apply in_set_false. by apply Forall_cons in Hw as [[? _] _].
Qed.

Lemma skip_white_ok s ts :
  toks s ts → ∃ l, at_text (skip_white buf s) l ∧ Lexes (skip_white buf s) l ts ∧
    ∀ c, head l = Some c → in_set whitespace c = false.
Proof.
  intros (l&Ht&HL). destruct (skip_lex _ _ _ HL) as (w&l'&->&Hw&HL'&Hh).
  unfold skip_white. rewrite (advance_ok _ _ w l' Ht Hw Hh). exists l'. split; [by apply at_text_app|done].
Qed.

Lemma toks_skip s ts : toks s ts → toks (skip_white buf s) ts.
Proof. intros (l&?&?&_)%skip_white_ok. by exists l. Qed.

(** [gettoken] takes the first token; at the end of the line it returns 0. *)
Lemma gettoken_nil s : toks s [] → ∃ q eq s', gettoken buf s = (0, q, eq, s') ∧ toks s' [].
Proof.
  intros (l&Ht&HL&Hh)%skip_white_ok. unfold gettoken. inversion HL as [|p c l' ts Hc| | | |]; subst.
  - rewrite (char_at_nil _ Ht). cbn. eexists _, _, _. split; [done|]. apply toks_skip. by exists [].
  - specialize (Hh c eq_refl). apply in_set_spec in Hc. congruence.
Qed.

(** The tests of [gettoken] on the first byte of a word. *)
Lemma word_char_tests c : word_char c →
  (c =? 124) || (c =? 40) || (c =? 41) || (c =? 59) || (c =? 38) || (c =? 60) = false ∧ (c =? 62) = false.
Proof.
  intros [_ Hs]. vm_compute in Hs. split; repeat (apply orb_false_iff; split); apply Z.eqb_neq; intros ->; set_solver.
Qed.

Lemma symbol_tests c : c ∈ symbols → c ≠ 62 →
  (c =? 124) || (c =? 40) || (c =? 41) || (c =? 59) || (c =? 38) || (c =? 60) = true.
Proof.
  intros Hc Hne. vm_compute in Hc. repeat (apply elem_of_cons in Hc as [->|Hc]; [done|]). set_solver.
Qed.

Lemma gettoken_cons s t ts : toks s (t :: ts) → ∃ s', gettoken buf s = (kind t, t.1.2, t.2, s') ∧ toks s' ts.
Proof.
  intros (l&Ht&HL&Hh)%skip_white_ok. unfold gettoken. set (s1 := skip_white buf s) in *.
  inversion HL as [|p c l' ts' Hc|p c l' ts' Hc Hne HL'|p l' ts' Hne HL'|p l' ts' HL'|p w l' ts' Hne Hw Hh' HL']; subst.
  - specialize (Hh c eq_refl). apply in_set_spec in Hc. congruence.
  - rewrite (char_at_cons _ _ _ Ht). rewrite (proj2 (Z.eqb_neq c 0) (at_text_nonzero _ _ _ Ht)), symbol_tests by done.
    eexists. split; [done|]. apply toks_skip. exists l'. split; [|done]. rewrite <-Nat.add_1_r. by apply (at_text_app s1 [c]).
  - rewrite (char_at_cons _ _ _ Ht). cbn. apply (at_text_app s1 [62]) in Ht as Ht2. rewrite Nat.add_1_r in Ht2.
    assert ((char_at buf (S s1) =? 62) = false) as ->.
    { destruct l' as [|d l']; [by rewrite (char_at_nil _ Ht2)|]. rewrite (char_at_cons _ _ _ Ht2). apply Z.eqb_neq. by intros ->. }
    eexists. split; [done|]. apply toks_skip. by exists l'.
  - rewrite (char_at_cons _ _ _ Ht). cbn. apply (at_text_app s1 [62]) in Ht as Ht2. rewrite Nat.add_1_r in Ht2.
    rewrite (char_at_cons _ _ _ Ht2). cbn. eexists. split; [done|]. apply toks_skip. exists l'. split; [|done].
    apply (at_text_app (S s1) [62]) in Ht2. by rewrite Nat.add_1_r in Ht2.
  - rewrite (advance_ok _ _ w l' Ht).
    + destruct w as [|c w]; [done|]. cbn [app] in Ht. rewrite (char_at_cons _ _ _ Ht).
      rewrite (proj2 (Z.eqb_neq c 0) (at_text_nonzero _ _ _ Ht)).
      apply Forall_cons in Hw as [Hc _]. destruct (word_char_tests c Hc) as [-> ->].
      eexists. split; [done|]. apply toks_skip. exists l'. split; [|done]. by apply (at_text_app s1 (c :: w)).
    + eapply Forall_impl; [exact Hw|]. intros c [H1 H2]. by rewrite !(proj2 (in_set_false _ _)).
    + intros c Hc. specialize (Hh' c Hc). destruct (in_set whitespace c) eqn:E1, (in_set symbols c) eqn:E2; try done.
      apply in_set_false in E1, E2. by destruct Hh'.
Qed.

Lemma toks_kind s t ts : toks s (t :: ts) → kind t ≠ 0.
Proof.
  intros (l&Ht&HL&Hh)%skip_white_ok. inversion HL as [|p c l' ts' Hc|p c l' ts' Hc Hne HL'| | |]; subst; unfold kind; cbn; try done.
  - specialize (Hh c eq_refl). apply in_set_spec in Hc. congruence.
  - by apply at_text_nonzero in Ht.
Qed.

(** [peek] tests the first byte of the next token. *)
Lemma peek_ok s ts set :
  toks s ts → str_bytes set ⊆ symbols →
  ∃ s', peek buf s set = (match ts with [] => false | t :: _ => in_set (str_bytes set) (first t) end, s') ∧ toks s' ts.
Proof.
  intros Hts Hset. pose proof (toks_skip _ _ Hts) as Hts'. destruct (skip_white_ok _ _ Hts) as (l&Ht&HL&Hh). unfold peek.
  exists (skip_white buf s). split; [|done]. f_equal.
  assert (∀ c l', l = c :: l' → negb (char_at buf (skip_white buf s) =? 0) && in_set (str_bytes set) (char_at buf (skip_white buf s)) =
    in_set (str_bytes set) c) as Hcons.
  { intros c l' ->. rewrite (char_at_cons _ _ _ Ht). by rewrite (proj2 (Z.eqb_neq c 0) (at_text_nonzero _ _ _ Ht)). }
  inversion HL as [|p c l' ts' Hc|p c l' ts' Hc Hne HL'|p l' ts' Hne HL'|p l' ts' HL'|p w l' ts' Hne Hw Hh' HL']; subst.
  - by rewrite (char_at_nil _ Ht).
  - specialize (Hh c eq_refl). apply in_set_spec in Hc. congruence.
  - rewrite (Hcons c l' eq_refl). unfold first, kind. cbn. destruct (c =? 43) eqn:E; [|done].
    apply Z.eqb_eq in E as ->. vm_compute in Hc. set_solver.
  - by rewrite (Hcons 62 l' eq_refl).
  - by rewrite (Hcons 62 (62 :: l') eq_refl).
  - destruct w as [|c w]; [done|]. rewrite (Hcons c (w ++ l') eq_refl). apply Forall_cons in Hw as [[_ Hc] _].
    rewrite (proj2 (in_set_false _ _)) by set_solver. symmetry. apply in_set_false. intros H%Hset. vm_compute in H. set_solver.
Qed.

End lexing.

(** Every line has tokens, and no more of them than bytes. *)
Lemma word_span l : ∃ w l', l = w ++ l' ∧ Forall word_char w ∧ ∀ c, head l' = Some c → ¬ word_char c.
Proof.
  induction l as [|c l (w&l'&->&Hw&Hh)]; [by exists [], []|].
  destruct (decide (c ∉ whitespace ∧ c ∉ symbols)) as [Hc|Hc].
  - exists (c :: w), l'. split_and!; [done|by constructor|done].
  - exists [], (c :: w ++ l'). split_and!; [done|done|]. by intros d [= <-].
Qed.

Lemma lexes_exists n : ∀ l p, (length l ≤ n)%nat → ∃ ts, Lexes p l ts ∧ (length ts ≤ length l)%nat.
Proof.
  induction n as [|n IH]; intros l p Hl; [destruct l; [|cbn in Hl; lia]; exists []; split; [constructor|done]|].
  destruct l as [|c l]; [exists []; split; [constructor|done]|]. cbn in Hl.
  destruct (decide (c ∈ whitespace)) as [Hw|Hw].
  { destruct (IH l (S p)) as (ts&?&?); [lia|]. exists ts. split; [by constructor|cbn; lia]. }
  destruct (decide (c ∈ symbols)) as [Hs|Hs].
  - destruct (decide (c = 62)) as [->|Hne].
    + destruct (decide (head l = Some 62)) as [Hh|Hh].
      * destruct l as [|d l]; [done|]. injection Hh as ->. cbn in Hl.
        destruct (IH l (S (S p))) as (ts&?&?); [lia|]. eexists. split; [by apply lex_append|cbn; lia].
      * destruct (IH l (S p)) as (ts&?&?); [lia|]. eexists. split; [by apply lex_to|cbn; lia].
    + destruct (IH l (S p)) as (ts&?&?); [lia|]. eexists. split; [by apply lex_symbol|cbn; lia].
  - destruct (word_span l) as (w&l'&->&Hw'&Hh). rewrite length_app in Hl.
    destruct (IH l' (p + length (c :: w))%nat) as (ts&?&?); [lia|]. eexists. split.
    + apply (lex_word p (c :: w) l'); [done|by constructor|done|done].
    + cbn. rewrite length_app. lia.
Qed.

(** The sets the parser looks for. *)
Lemma in_one c t : c ≠ 62 → c ≠ 43 → in_set [c] (first t) = bool_decide (kind t = c).
Proof.
  intros H1 H2. unfold first, in_set. cbn. case_bool_decide as E.
  - rewrite E, (proj2 (Z.eqb_neq c 43) H2), Z.eqb_refl. done.
  - destruct (kind t =? 43) eqn:?; rewrite orb_false_r; apply Z.eqb_neq; lia.
Qed.

Lemma in_redirs t : in_set (str_bytes "<>") (first t) = bool_decide (kind t ∈ [60; 62; 43]).
Proof.
  unfold first, in_set. cbn. case_bool_decide as E.
  - repeat (apply elem_of_cons in E as [->|E]; [done|]). set_solver.
  - rewrite !not_elem_of_cons in E. destruct E as (?&?&?&_). destruct (kind t =? 43) eqn:?; [lia|].
    repeat (apply orb_false_iff; split); try apply Z.eqb_neq; done.
Qed.

Lemma in_follow t : in_set (str_bytes "|)&;") (first t) = bool_decide (kind t ∈ [124; 41; 38; 59]).
Proof.
  unfold first, in_set. cbn. case_bool_decide as E.
  - repeat (apply elem_of_cons in E as [->|E]; [done|]). set_solver.
  - rewrite !not_elem_of_cons in E. destruct E as (?&?&?&?&_). destruct (kind t =? 43) eqn:?; [done|].
    repeat (apply orb_false_iff; split); try apply Z.eqb_neq; done.
Qed.

(** Whether the next token is of one of the kinds [ks]. *)
Definition next_in (ks : list Z) (ts : list token) : bool :=
  match ts with [] => false | t :: _ => bool_decide (kind t ∈ ks) end.

Section peeks.
Context (buf : list Z) (Hnul : 0 ∉ buf) (s : nat) (ts : list token) (Hts : toks buf s ts).

Lemma peek_one c set :
  str_bytes set = [c] → c ∈ symbols → c ≠ 62 → ∃ s', peek buf s set = (next_in [c] ts, s') ∧ toks buf s' ts.
Proof.
  intros Hset Hc Hne. destruct (peek_ok buf Hnul s ts set Hts) as (s'&E&H').
  { rewrite Hset. by intros ? ->%list_elem_of_singleton. } exists s'. split; [|done].
  rewrite E. f_equal. destruct ts as [|t ts']; [done|]. cbn. rewrite Hset, in_one; [|done|].
  - apply bool_decide_ext. set_solver.
  - intros ->. vm_compute in Hc. set_solver.
Qed.

Lemma peek_redirs : ∃ s', peek buf s "<>" = (next_in [60; 62; 43] ts, s') ∧ toks buf s' ts.
Proof.
  destruct (peek_ok buf Hnul s ts "<>" Hts) as (s'&E&H'); [vm_compute; set_solver|]. exists s'. split; [|done].
  rewrite E. f_equal. destruct ts as [|t ts']; [done|]. apply in_redirs.
Qed.

Lemma peek_follow : ∃ s', peek buf s "|)&;" = (next_in [124; 41; 38; 59] ts, s') ∧ toks buf s' ts.
Proof.
  destruct (peek_ok buf Hnul s ts "|)&;" Hts) as (s'&E&H'); [vm_compute; set_solver|]. exists s'. split; [|done].
  rewrite E. f_equal. destruct ts as [|t ts']; [done|]. apply in_follow.
Qed.

End peeks.

Lemma next_in_true ks ts : next_in ks ts = true → ∃ t ts', ts = t :: ts' ∧ kind t ∈ ks.
Proof. destruct ts as [|t ts]; [done|]. cbn. intros H%bool_decide_eq_true. eauto. Qed.

(** ** Soundness *)

Section sound.
Context (buf : list Z) (Hnul : 0 ∉ buf).

(** Where [s] is at the tokens [ts], the result [r] has consumed tokens for which
    [P] holds of the command built. *)
Definition consumes (ts : list token) (r : parsed (cmd * nat)) (P : cmd → list token → Prop) : Prop :=
  match r with
  | Parsed (c, s') => ∃ us rest, ts = us ++ rest ∧ toks buf s' rest ∧ P c us
  | _ => True
  end.

Lemma parseredirs_sound k c s ts : toks buf s ts → consumes ts (parseredirs buf k c s) (Redirs c).
Proof.
  revert c s ts. induction k as [|k IH]; intros c s ts Hts; [done|]. cbn [parseredirs].
  destruct (peek_redirs buf Hnul s ts Hts) as (s1&->&H1). destruct (next_in _ ts) eqn:En.
  - apply next_in_true in En as (t&ts'&->&Ht). destruct (gettoken_cons buf Hnul _ _ _ H1) as (s2&->&H2).
    destruct ts' as [|w ts']; [by destruct (gettoken_nil buf Hnul _ H2) as (?&?&?&->&_)|].
    destruct (gettoken_cons buf Hnul _ _ _ H2) as (s3&->&H3). destruct (kind w =? 97) eqn:Ew; [|done]. cbn [negb].
    specialize (IH (redirect (kind t) c w.1.2 w.2) s3 ts' H3). destruct (parseredirs buf k _ s3) as [[d s4]| |]; [|done..].
    destruct IH as (us&rest&->&H4&HR). exists (t :: w :: us), rest. split; [done|]. split; [done|]. constructor; [done|lia|done].
  - exists [], ts. split; [done|]. split; [done|]. constructor.
Qed.

Lemma redirs_items c d us n e vs : Redirs c d us → Items d n e vs → Items c n e (us ++ vs).
Proof. induction 1; intros; [done|]. cbn. constructor; auto. Qed.

Lemma parseargs_sound k argc ret s ts :
  toks buf s ts → consumes ts (parseargs buf k argc ret s) (λ d us, ∃ n, Items ret n d us ∧ (argc ≤ 9 → argc + Z.of_nat n ≤ 9)).
Proof.
  revert argc ret s ts. induction k as [|k IH]; intros argc ret s ts Hts; [done|]. cbn [parseargs].
  destruct (peek_follow buf Hnul s ts Hts) as (s1&->&H1). destruct (next_in _ ts) eqn:En.
  { exists [], ts. split; [done|]. split; [done|]. exists 0%nat. split; [constructor|lia]. }
  destruct ts as [|w ts].
  { destruct (gettoken_nil buf Hnul _ H1) as (?&?&s2&->&H2). cbn. exists [], []. split; [done|]. split; [done|].
    exists 0%nat. split; [constructor|lia]. }
  destruct (gettoken_cons buf Hnul _ _ _ H1) as (s2&->&H2). case_test.
  { by destruct (toks_kind buf Hnul _ _ _ H1). }
  destruct (kind w =? 97) eqn:Ew; [|done]. cbn [negb]. unfold MAXARGS. destruct (10 <=? argc + 1) eqn:Ea; [done|].
  pose proof (parseredirs_sound k (add_arg w.1.2 w.2 ret) s2 ts H2) as HR.
  destruct (parseredirs buf k _ s2) as [[d s3]| |]; [|done..]. destruct HR as (us&rest&->&H3&HR).
  specialize (IH (argc + 1) d s3 rest H3). destruct (parseargs buf k _ d s3) as [[e s4]| |]; [|done..].
  destruct IH as (vs&rest'&->&H4&n&HI&Hn). exists (w :: us ++ vs), rest'. split; [cbn; by rewrite <-app_assoc|]. split; [done|].
  exists (S n). split; [|lia]. constructor; [lia|]. by eapply redirs_items.
Qed.

Lemma parsebacks_sound k c s ts :
  toks buf s ts → consumes ts (parsebacks buf k c s) (λ d us, Forall (λ t, kind t = 38) us ∧ d = Nat.iter (length us) BACK c).
Proof.
  revert c s ts. induction k as [|k IH]; intros c s ts Hts; [done|]. cbn [parsebacks].
  destruct (peek_one buf Hnul s ts Hts 38 "&") as (s1&->&H1); [done|vm_compute; set_solver|done|]. destruct (next_in _ ts) eqn:En.
  - apply next_in_true in En as (t&ts'&->&Ht%list_elem_of_singleton). destruct (gettoken_cons buf Hnul _ _ _ H1) as (s2&->&H2).
    specialize (IH (BACK c) s2 ts' H2). destruct (parsebacks buf k _ s2) as [[d s3]| |]; [|done..].
    destruct IH as (us&rest&->&H3&Hus&->). exists (t :: us), rest. split; [done|]. split; [done|]. split; [by constructor|].
    cbn [length]. by rewrite Nat.iter_succ_r.
  - exists [], ts. split; [done|]. split; [done|]. by split; [constructor|].
Qed.

Lemma parse_sound k s ts : toks buf s ts →
  consumes ts (parseline buf k s) Line ∧ consumes ts (parsepipe buf k s) Pipeline ∧
  consumes ts (parseexec buf k s) Simple ∧ consumes ts (parseblock buf k s) Simple.
Proof.
  revert s ts. induction k as [|k IH]; intros s ts Hts; [done|]. cbn [parseline parsepipe parseexec parseblock]. split_and!.
  - destruct (IH s ts Hts) as (_&IHp&_). destruct (parsepipe buf k s) as [[c s1]| |]; [|done..].
    destruct IHp as (us&rest&->&H1&Hp). pose proof (parsebacks_sound k c s1 rest H1) as HB.
    destruct (parsebacks buf k c s1) as [[c2 s2]| |]; [|done..]. destruct HB as (amps&rest2&->&H2&Hamps&->).
    destruct (peek_one buf Hnul s2 rest2 H2 59 ";") as (s3&->&H3); [done|vm_compute; set_solver|done|].
    destruct (next_in _ rest2) eqn:En.
    + apply next_in_true in En as (t&rest3&->&Ht%list_elem_of_singleton). destruct (gettoken_cons buf Hnul _ _ _ H3) as (s4&->&H4).
      destruct (IH s4 rest3 H4) as (IHl&_). destruct (parseline buf k s4) as [[d s5]| |]; [|done..].
      destruct IHl as (vs&rest4&->&H5&Hl). exists (us ++ amps ++ t :: vs), rest4.
      split; [by rewrite <-!app_assoc|]. split; [done|]. by constructor.
    + exists (us ++ amps), rest2. split; [by rewrite <-app_assoc|]. split; [done|]. by constructor.
  - destruct (IH s ts Hts) as (_&_&IHe&_). destruct (parseexec buf k s) as [[c s1]| |]; [|done..].
    destruct IHe as (us&rest&->&H1&He). destruct (peek_one buf Hnul s1 rest H1 124 "|") as (s2&->&H2); [done|vm_compute; set_solver|done|].
    destruct (next_in _ rest) eqn:En.
    + apply next_in_true in En as (t&rest2&->&Ht%list_elem_of_singleton). destruct (gettoken_cons buf Hnul _ _ _ H2) as (s3&->&H3).
      destruct (IH s3 rest2 H3) as (_&IHp&_). destruct (parsepipe buf k s3) as [[d s4]| |]; [|done..].
      destruct IHp as (vs&rest3&->&H4&Hp). exists (us ++ t :: vs), rest3. split; [by rewrite <-app_assoc|]. split; [done|]. by constructor.
    + exists us, rest. split; [done|]. split; [done|]. by constructor.
  - destruct (peek_one buf Hnul s ts Hts 40 "(") as (s1&->&H1); [done|vm_compute; set_solver|done|].
    destruct (next_in _ ts); [by apply IH|]. pose proof (parseredirs_sound k (EXEC []) s1 ts H1) as HR.
    destruct (parseredirs buf k _ s1) as [[c s2]| |]; [|done..]. destruct HR as (us&rest&->&H2&HR).
    pose proof (parseargs_sound k 0 c s2 rest H2) as HA. destruct (parseargs buf k 0 c s2) as [[d s3]| |]; [|done..].
    destruct HA as (vs&rest2&->&H3&n&HI&Hn). exists (us ++ vs), rest2. split; [by rewrite <-app_assoc|]. split; [done|].
    apply (simple_items n); [by eapply redirs_items|lia].
  - destruct (peek_one buf Hnul s ts Hts 40 "(") as (s1&->&H1); [done|vm_compute; set_solver|done|].
    destruct (next_in [40] ts) eqn:En; [cbn [negb]|done]. apply next_in_true in En as (l&ts'&->&Hl%list_elem_of_singleton).
    destruct (gettoken_cons buf Hnul _ _ _ H1) as (s2&->&H2). destruct (IH s2 ts' H2) as (IHl&_).
    destruct (parseline buf k s2) as [[c s3]| |]; [|done..]. destruct IHl as (us&rest&->&H3&HL).
    destruct (peek_one buf Hnul s3 rest H3 41 ")") as (s4&->&H4); [done|vm_compute; set_solver|done|].
    destruct (next_in [41] rest) eqn:En; [cbn [negb]|done]. apply next_in_true in En as (r&rest2&->&Hr%list_elem_of_singleton).
    destruct (gettoken_cons buf Hnul _ _ _ H4) as (s5&->&H5). pose proof (parseredirs_sound k c s5 rest2 H5) as HR.
    destruct (parseredirs buf k c s5) as [[d s6]| |]; [|done..]. destruct HR as (vs&rest3&->&H6&HR).
    exists (l :: us ++ r :: vs), rest3. split; [cbn; by rewrite <-app_assoc|]. split; [done|]. by apply simple_block with c.
Qed.

End sound.

(** ** Termination *)

Section terminates.
Context (buf : list Z) (Hnul : 0 ∉ buf).

Lemma parseredirs_ends k c s ts : toks buf s ts → (length ts < k)%nat → parseredirs buf k c s ≠ Deep.
Proof.
  revert c s ts. induction k as [|k IH]; intros c s ts Hts Hk; [lia|]. cbn [parseredirs].
  destruct (peek_redirs buf Hnul s ts Hts) as (s1&->&H1). destruct (next_in _ ts) eqn:En; [|done].
  apply next_in_true in En as (t&ts'&->&Ht). destruct (gettoken_cons buf Hnul _ _ _ H1) as (s2&->&H2).
  destruct ts' as [|w ts']; [by destruct (gettoken_nil buf Hnul _ H2) as (?&?&?&->&_)|].
  destruct (gettoken_cons buf Hnul _ _ _ H2) as (s3&->&H3). case_match; [done|]. apply (IH _ _ ts'); [done|cbn in Hk; lia].
Qed.

Lemma parseargs_ends k argc ret s ts : toks buf s ts → (length ts < k)%nat → parseargs buf k argc ret s ≠ Deep.
Proof.
  revert argc ret s ts. induction k as [|k IH]; intros argc ret s ts Hts Hk; [lia|]. cbn [parseargs].
  destruct (peek_follow buf Hnul s ts Hts) as (s1&->&H1). destruct (next_in _ ts) eqn:En; [done|].
  destruct ts as [|w ts]; [by destruct (gettoken_nil buf Hnul _ H1) as (?&?&s2&->&H2)|].
  destruct (gettoken_cons buf Hnul _ _ _ H1) as (s2&->&H2). cbn in Hk. do 3 (match goal with |- (if ?b then _ else _) ≠ _ => destruct b; [done|] end).
  pose proof (parseredirs_sound buf Hnul k (add_arg w.1.2 w.2 ret) s2 ts H2) as HR.
  pose proof (parseredirs_ends k (add_arg w.1.2 w.2 ret) s2 ts H2 ltac:(lia)) as HE.
  destruct (parseredirs buf k _ s2) as [[d s3]| |]; [|done..]. destruct HR as (us&rest&->&H3&_).
  rewrite length_app in Hk. apply (IH _ _ _ rest); [done|lia].
Qed.

Lemma parsebacks_ends k c s ts : toks buf s ts → (length ts < k)%nat → parsebacks buf k c s ≠ Deep.
Proof.
  revert c s ts. induction k as [|k IH]; intros c s ts Hts Hk; [lia|]. cbn [parsebacks].
  destruct (peek_one buf Hnul s ts Hts 38 "&") as (s1&->&H1); [done|vm_compute; set_solver|done|]. destruct (next_in _ ts) eqn:En; [|done].
  apply next_in_true in En as (t&ts'&->&_). destruct (gettoken_cons buf Hnul _ _ _ H1) as (s2&->&H2).
  apply (IH _ _ ts'); [done|cbn in Hk; lia].
Qed.

Lemma parse_ends k s ts : toks buf s ts →
  ((4 * length ts + 4 ≤ k)%nat → parseline buf k s ≠ Deep) ∧ ((4 * length ts + 3 ≤ k)%nat → parsepipe buf k s ≠ Deep) ∧
  ((4 * length ts + 2 ≤ k)%nat → parseexec buf k s ≠ Deep) ∧ ((4 * length ts + 1 ≤ k)%nat → parseblock buf k s ≠ Deep).
Proof.
  revert s ts. induction k as [|k IH]; intros s ts Hts; [split_and!; lia|]. cbn [parseline parsepipe parseexec parseblock].
  split_and!; intros Hk.
  - destruct (parse_sound buf Hnul k s ts Hts) as (_&HS&_). destruct (IH s ts Hts) as (_&IHp&_). specialize (IHp ltac:(lia)).
    destruct (parsepipe buf k s) as [[c s1]| |]; [|done..]. destruct HS as (us&rest&->&H1&_). rewrite length_app in Hk.
    pose proof (parsebacks_sound buf Hnul k c s1 rest H1) as HB. pose proof (parsebacks_ends k c s1 rest H1 ltac:(lia)) as HE.
    destruct (parsebacks buf k c s1) as [[c2 s2]| |]; [|done..]. destruct HB as (amps&rest2&->&H2&_). rewrite length_app in Hk.
    destruct (peek_one buf Hnul s2 rest2 H2 59 ";") as (s3&->&H3); [done|vm_compute; set_solver|done|].
    destruct (next_in _ rest2) eqn:En; [|done].
    apply next_in_true in En as (t&rest3&->&_). destruct (gettoken_cons buf Hnul _ _ _ H3) as (s4&->&H4). cbn [length] in Hk.
    destruct (IH s4 rest3 H4) as (IHl&_). specialize (IHl ltac:(lia)). by destruct (parseline buf k s4) as [[d s5]| |].
  - destruct (parse_sound buf Hnul k s ts Hts) as (_&_&HS&_). destruct (IH s ts Hts) as (_&_&IHe&_). specialize (IHe ltac:(lia)).
    destruct (parseexec buf k s) as [[c s1]| |]; [|done..]. destruct HS as (us&rest&->&H1&_). rewrite length_app in Hk.
    destruct (peek_one buf Hnul s1 rest H1 124 "|") as (s2&->&H2); [done|vm_compute; set_solver|done|].
    destruct (next_in _ rest) eqn:En; [|done].
    apply next_in_true in En as (t&rest2&->&_). destruct (gettoken_cons buf Hnul _ _ _ H2) as (s3&->&H3). cbn [length] in Hk.
    destruct (IH s3 rest2 H3) as (_&IHp&_). specialize (IHp ltac:(lia)). by destruct (parsepipe buf k s3) as [[d s4]| |].
  - destruct (peek_one buf Hnul s ts Hts 40 "(") as (s1&->&H1); [done|vm_compute; set_solver|done|].
    destruct (next_in _ ts); [apply (IH s1 ts H1); lia|]. pose proof (parseredirs_sound buf Hnul k (EXEC []) s1 ts H1) as HR.
    pose proof (parseredirs_ends k (EXEC []) s1 ts H1 ltac:(lia)) as HE.
    destruct (parseredirs buf k _ s1) as [[c s2]| |]; [|done..]. destruct HR as (us&rest&->&H2&_). rewrite length_app in Hk.
    apply (parseargs_ends _ _ _ _ rest); [done|lia].
  - destruct (peek_one buf Hnul s ts Hts 40 "(") as (s1&->&H1); [done|vm_compute; set_solver|done|].
    destruct (next_in [40] ts) eqn:En; [cbn [negb]|done]. apply next_in_true in En as (l&ts'&->&_). cbn [length] in Hk.
    destruct (gettoken_cons buf Hnul _ _ _ H1) as (s2&->&H2). destruct (IH s2 ts' H2) as (IHl&_). specialize (IHl ltac:(lia)).
    destruct (parse_sound buf Hnul k s2 ts' H2) as (HS&_).
    destruct (parseline buf k s2) as [[c s3]| |]; [|done..]. destruct HS as (us&rest&->&H3&_). rewrite length_app in Hk.
    destruct (peek_one buf Hnul s3 rest H3 41 ")") as (s4&->&H4); [done|vm_compute; set_solver|done|].
    destruct (next_in [41] rest) eqn:En; [cbn [negb]|done]. apply next_in_true in En as (r&rest2&->&_). cbn [length] in Hk.
    destruct (gettoken_cons buf Hnul _ _ _ H4) as (s5&->&H5). apply (parseredirs_ends _ _ _ rest2); [done|lia].
Qed.

End terminates.

(** ** Completeness *)

(** [ts] is empty or goes on with one of the kinds [ks]. *)
Definition follow (ks : list Z) (ts : list token) : Prop := ts = [] ∨ next_in ks ts = true.

Lemma follow_not ks ks' ts : follow ks ts → (∀ k, k ∈ ks → k ∉ ks') → next_in ks' ts = false.
Proof.
  intros [->|(t&ts'&->&Ht)%next_in_true] H; [done|]. cbn. apply bool_decide_eq_false. by apply H.
Qed.

Lemma follow_weaken ks ks' ts : follow ks ts → (∀ k, k ∈ ks → k ∈ ks') → follow ks' ts.
Proof.
  intros [->|(t&ts'&->&Ht)%next_in_true] H; [by left|right]. cbn. apply bool_decide_eq_true. by apply H.
Qed.

Lemma follow_cons ks t ts : kind t ∈ ks → follow ks (t :: ts).
Proof. intros H. right. cbn. by apply bool_decide_eq_true. Qed.

Lemma follow_amps ks amps ts : Forall (λ t, kind t = 38) amps → 38 ∈ ks → follow ks ts → follow ks (amps ++ ts).
Proof. intros Ha Hk Hf. destruct Ha as [|t amps Ht Ha]; [done|]. cbn. apply follow_cons. by rewrite Ht. Qed.

(** Inclusion and disjointness of sets of kinds. *)
Ltac kinds := intros ? Hk; repeat (apply elem_of_cons in Hk as [->|Hk]; [set_solver|]); set_solver.

Section complete.
Context (buf : list Z) (Hnul : 0 ∉ buf).

(** The result, unless the fuel runs out. *)
Definition gives (r : parsed (cmd * nat)) (c : cmd) (rest : list token) : Prop :=
  r = Deep ∨ ∃ s', r = Parsed (c, s') ∧ toks buf s' rest.

Lemma parseredirs_complete c d us : Redirs c d us → ∀ k s rest,
  toks buf s (us ++ rest) → next_in [60; 62; 43] rest = false → gives (parseredirs buf k c s) d rest.
Proof.
  induction 1 as [c|c d t w us Ht Hw HR IH]; intros [|k] s rest Hts Hf; try (by left); cbn [parseredirs app] in *;
    destruct (peek_redirs buf Hnul s _ Hts) as (s1&->&H1).
  - rewrite Hf. right. by exists s1.
  - cbn [next_in]. rewrite (bool_decide_eq_true_2 _ Ht). destruct (gettoken_cons buf Hnul _ _ _ H1) as (s2&->&H2).
    destruct (gettoken_cons buf Hnul _ _ _ H2) as (s3&->&H3). rewrite Hw. cbn [negb Z.eqb Pos.eqb]. by apply IH.
Qed.

Lemma parsebacks_complete amps : Forall (λ t, kind t = 38) amps → ∀ k c s rest,
  toks buf s (amps ++ rest) → next_in [38] rest = false → gives (parsebacks buf k c s) (Nat.iter (length amps) BACK c) rest.
Proof.
  induction 1 as [|t amps Ht Ha IH]; intros [|k] c s rest Hts Hf; try (by left); cbn [parsebacks app] in *;
    (destruct (peek_one buf Hnul s _ Hts 38 "&") as (s1&->&H1); [done|vm_compute; set_solver|done|]).
  - rewrite Hf. right. by exists s1.
  - cbn [next_in]. rewrite bool_decide_eq_true_2 by set_solver. destruct (gettoken_cons buf Hnul _ _ _ H1) as (s2&->&H2).
    cbn [length]. rewrite Nat.iter_succ_r. by apply IH.
Qed.

Lemma items_complete c n d us : Items c n d us → ∀ k1 k2 argc s rest,
  toks buf s (us ++ rest) → follow [124; 41; 38; 59] rest → argc + Z.of_nat n ≤ 9 →
  gives (parse (ret, s) := parseredirs buf k1 c s in parseargs buf k2 argc ret s) d rest.
Proof.
  induction 1 as [c|c n d t w us Ht Hw HI IH|c n d w us Hw HI IH]; intros [|k1] k2 argc s rest Hts Hf Hn; try (by left);
    cbn [parseredirs app] in *; destruct (peek_redirs buf Hnul s _ Hts) as (s1&->&H1).
  - rewrite (follow_not _ [60; 62; 43] _ Hf) by kinds. destruct k2 as [|k2]; [by left|]. cbn [parseargs].
    destruct (peek_follow buf Hnul s1 _ H1) as (s2&->&H2). destruct Hf as [->| ->]; [|right; by exists s2].
    cbn [next_in]. destruct (gettoken_nil buf Hnul _ H2) as (?&?&s3&->&H3). right. by exists s3.
  - cbn [next_in]. rewrite (bool_decide_eq_true_2 _ Ht). destruct (gettoken_cons buf Hnul _ _ _ H1) as (s2&->&H2).
    destruct (gettoken_cons buf Hnul _ _ _ H2) as (s3&->&H3). rewrite Hw. cbn [negb Z.eqb Pos.eqb]. by apply IH.
  - cbn [next_in]. rewrite bool_decide_eq_false_2 by (rewrite Hw; set_solver). destruct k2 as [|k2]; [by left|]. cbn [parseargs].
    destruct (peek_follow buf Hnul s1 _ H1) as (s2&->&H2). cbn [next_in]. rewrite bool_decide_eq_false_2 by (rewrite Hw; set_solver).
    destruct (gettoken_cons buf Hnul _ _ _ H2) as (s3&->&H3). rewrite Hw. cbn [negb Z.eqb Pos.eqb]. unfold MAXARGS.
    assert ((10 <=? argc + 1) = false) as -> by lia. apply IH; [done|done|lia].
Qed.

Lemma items_no_block c n d us rest :
  Items c n d us → follow [124; 41; 38; 59] rest → next_in [40] (us ++ rest) = false.
Proof.
  intros HI Hf. inversion HI as [|? ? ? t w us' Ht Hw|? ? ? w us' Hw]; subst; cbn.
  - apply (follow_not _ _ _ Hf). kinds.
  - apply bool_decide_eq_false. set_solver by lia.
  - apply bool_decide_eq_false. set_solver by lia.
Qed.

(** A result through one more step. *)
Lemma gives_bind r c rest (f : cmd → nat → parsed (cmd * nat)) d rest' :
  gives r c rest → (∀ s', toks buf s' rest → gives (f c s') d rest') →
  gives (parse (c, s) := r in f c s) d rest'.
Proof. intros [->|(s'&->&Hs)] H; [by left|by apply H]. Qed.

Lemma parse_complete :
  (∀ c ts, Line c ts → ∀ k s rest, toks buf s (ts ++ rest) → follow [41] rest → gives (parseline buf k s) c rest) ∧
  (∀ c ts, Pipeline c ts → ∀ k s rest, toks buf s (ts ++ rest) → follow [41; 38; 59] rest → gives (parsepipe buf k s) c rest) ∧
  (∀ c ts, Simple c ts → ∀ k s rest, toks buf s (ts ++ rest) → follow [124; 41; 38; 59] rest → gives (parseexec buf k s) c rest).
Proof.
  apply grammar_ind.
  - intros c ts n amps _ IH Ha <- [|k] s rest Hts Hf; [by left|]. cbn [parseline]. rewrite <-app_assoc in Hts.
    eapply gives_bind; [apply (IH k s _ Hts); apply follow_amps; [done|set_solver|by apply (follow_weaken [41]); [|kinds]]|].
    intros s1 H1. eapply gives_bind; [apply (parsebacks_complete _ Ha k c s1 _ H1); by apply (follow_not [41]); [|kinds]|].
    intros s2 H2. destruct (peek_one buf Hnul s2 rest H2 59 ";") as (s3&->&H3); [done|vm_compute; set_solver|done|].
    rewrite (follow_not _ _ _ Hf) by kinds. right. by exists s3.
  - intros c ts n amps semi d us _ IH Ha <- Hsemi _ IHd [|k] s rest Hts Hf; [by left|]. cbn [parseline].
    rewrite <-!app_assoc in Hts.
    eapply gives_bind; [apply (IH k s _ Hts); apply follow_amps; [done|set_solver|apply follow_cons; rewrite Hsemi; set_solver]|].
    intros s1 H1. eapply gives_bind; [apply (parsebacks_complete _ Ha k c s1 _ H1)|].
    { cbn. apply bool_decide_eq_false. rewrite Hsemi. set_solver. }
    intros s2 H2. cbn [app] in H2. destruct (peek_one buf Hnul s2 _ H2 59 ";") as (s3&->&H3); [done|vm_compute; set_solver|done|].
    cbn [next_in]. rewrite bool_decide_eq_true_2 by set_solver. destruct (gettoken_cons buf Hnul _ _ _ H3) as (s4&->&H4).
    eapply gives_bind; [by apply (IHd k s4 rest)|]. intros s5 H5. right. by exists s5.
  - intros c ts _ IH [|k] s rest Hts Hf; [by left|]. cbn [parsepipe].
    eapply gives_bind; [apply (IH k s _ Hts); by apply (follow_weaken [41; 38; 59]); [|kinds]|].
    intros s1 H1. destruct (peek_one buf Hnul s1 rest H1 124 "|") as (s2&->&H2); [done|vm_compute; set_solver|done|].
    rewrite (follow_not _ _ _ Hf) by kinds. right. by exists s2.
  - intros c ts bar d us _ IH Hbar _ IHd [|k] s rest Hts Hf; [by left|]. cbn [parsepipe]. rewrite <-app_assoc in Hts.
    eapply gives_bind; [apply (IH k s _ Hts); cbn; apply follow_cons; rewrite Hbar; set_solver|].
    intros s1 H1. cbn [app] in H1. destruct (peek_one buf Hnul s1 _ H1 124 "|") as (s2&->&H2); [done|vm_compute; set_solver|done|].
    cbn [next_in]. rewrite bool_decide_eq_true_2 by set_solver. destruct (gettoken_cons buf Hnul _ _ _ H2) as (s3&->&H3).
    eapply gives_bind; [by apply (IHd k s3 rest)|]. intros s4 H4. right. by exists s4.
  - intros l c ts r d us Hl _ IH Hr HR [|[|k]] s rest Hts Hf; try (by left); cbn [app] in Hts; cbn [parseexec];
      (destruct (peek_one buf Hnul s _ Hts 40 "(") as (s1&->&H1); [done|vm_compute; set_solver|done|]);
      cbn [next_in]; rewrite bool_decide_eq_true_2 by set_solver; [by left|]. cbn [parseblock].
    destruct (peek_one buf Hnul s1 _ H1 40 "(") as (s2&->&H2); [done|vm_compute; set_solver|done|].
    cbn [next_in]. rewrite bool_decide_eq_true_2 by set_solver. cbn [negb]. destruct (gettoken_cons buf Hnul _ _ _ H2) as (s3&->&H3).
    rewrite <-app_assoc in H3. eapply gives_bind; [apply (IH k s3 _ H3); cbn; apply follow_cons; rewrite Hr; set_solver|].
    intros s4 H4. cbn [app] in H4. destruct (peek_one buf Hnul s4 _ H4 41 ")") as (s5&->&H5); [done|vm_compute; set_solver|done|].
    cbn [next_in]. rewrite bool_decide_eq_true_2 by set_solver. cbn [negb]. destruct (gettoken_cons buf Hnul _ _ _ H5) as (s6&->&H6).
    apply (parseredirs_complete _ _ _ HR); [done|]. by apply (follow_not _ _ _ Hf); kinds.
  - intros n d ts HI Hn [|k] s rest Hts Hf; [by left|]. cbn [parseexec].
    destruct (peek_one buf Hnul s _ Hts 40 "(") as (s1&->&H1); [done|vm_compute; set_solver|done|].
    rewrite (items_no_block _ _ _ _ _ HI Hf). apply (items_complete _ _ _ _ HI); [done|done|lia].
Qed.

End complete.

(** ** [nulterminate] *)

(** The words of a command. *)
Fixpoint words (c : cmd) : list (nat * nat) :=
  match c with
  | EXEC argv => argv
  | REDIR c file efile _ _ => words c ++ [(file, efile)]
  | PIPE l r | LIST l r => words l ++ words r
  | BACK c => words c
  end.

Definition nul_at (line : list Z) (w : nat * nat) : list Z := <[w.2 := 0]> line.

Lemma nulterminate_words c line : nulterminate c line = foldl nul_at line (words c).
Proof.
  revert line. induction c as [argv|c IH q eq mode fd|l IHl r IHr|l IHl r IHr|c IH]; intros line; cbn;
    rewrite ?foldl_app; cbn; try done; [by rewrite IH|by rewrite IHr, IHl|by rewrite IHr, IHl].
Qed.

Lemma nuls_lookup ws line i :
  foldl nul_at line ws !! i = if decide (i ∈ ws.*2 ∧ (i < length line)%nat) then Some 0 else line !! i.
Proof.
  revert line. induction ws as [|w ws IH]; intros line; cbn [foldl fmap list_fmap].
  - rewrite decide_False; [done|]. set_solver.
  - rewrite IH. unfold nul_at. rewrite length_insert. destruct (decide (i = w.2)) as [->|Hne].
    + destruct (decide (w.2 < length line)%nat) as [Hl|Hl].
      * rewrite (decide_True (P := w.2 ∈ w.2 :: ws.*2 ∧ _)) by set_solver. destruct (decide _); [reflexivity|]. by apply list_lookup_insert_eq.
      * rewrite !decide_False by tauto. rewrite list_insert_ge by lia. done.
    + rewrite list_lookup_insert_ne by done. apply decide_ext. set_solver.
Qed.

(** A word token spans word bytes and ends before another byte. *)
Definition word_at (buf : list Z) (q eq : nat) : Prop :=
  (q < eq ≤ length buf)%nat ∧ Forall word_char (take (eq - q) (drop q buf)) ∧ ∀ c, buf !! eq = Some c → ¬ word_char c.

Lemma lexes_words buf p l ts :
  Lexes p l ts → at_text buf p l → ∀ t, t ∈ ts → kind t = 97 → word_at buf t.1.2 t.2.
Proof.
  induction 1 as [p|p c l ts Hc H IH|p c l ts Hc Hne H IH|p l ts Hh H IH|p l ts H IH|p w l ts Hne Hw Hh H IH]; intros Hp t Ht Hk.
  - set_solver.
  - apply (at_text_app buf p [c]) in Hp. rewrite Nat.add_1_r in Hp. by apply IH.
  - apply (at_text_app buf p [c]) in Hp. rewrite Nat.add_1_r in Hp. apply elem_of_cons in Ht as [->|Ht]; [|by apply IH].
    cbn in Hk. subst c. vm_compute in Hc. set_solver.
  - apply (at_text_app buf p [62]) in Hp. rewrite Nat.add_1_r in Hp. apply elem_of_cons in Ht as [->|Ht]; [done|by apply IH].
  - apply (at_text_app buf p [62; 62]) in Hp. assert (at_text buf (S (S p)) l) as Hp2 by (by replace (S (S p)) with (p + length [62; 62])%nat by (cbn; lia)).
    apply elem_of_cons in Ht as [->|Ht]; [done|by apply IH].
  - pose proof (at_text_app buf p w l Hp) as Hp'. apply elem_of_cons in Ht as [->|Ht]; [|by apply IH].
    destruct Hp as [_ Hd], Hp' as [Hl' Hd']. cbn. split; [|split].
    + unfold es in Hl'. destruct w; [done|]. cbn in *. lia.
    + rewrite Hd. replace (p + length w - p)%nat with (length w) by lia. by rewrite take_app_length.
    + intros c Hc. apply Hh. rewrite <-Hd'. destruct (drop (p + length w) buf) as [|d l'] eqn:E.
      * apply (f_equal length) in E. rewrite length_drop in E. apply lookup_lt_Some in Hc. cbn in E. lia.
      * assert (buf !! (p + length w + 0)%nat = Some d) as Hd2 by (by rewrite <-lookup_drop, E).
        rewrite Nat.add_0_r in Hd2. cbn. congruence.
Qed.

(** The words of a command are word tokens of its line. *)
Definition from_tokens (ts : list token) (w : nat * nat) : Prop := ∃ t, t ∈ ts ∧ kind t = 97 ∧ w = (t.1.2, t.2).

Lemma from_tokens_mono ts ts' w : ts ⊆ ts' → from_tokens ts w → from_tokens ts' w.
Proof. intros H (t&Ht&?&?). exists t. by split; [apply H|]. Qed.

Lemma words_redirect k c q eq w : w ∈ words (redirect k c q eq) → w ∈ words c ∨ w = (q, eq).
Proof. unfold redirect. repeat case_match; cbn; set_solver. Qed.

Lemma words_add_arg q eq c w : w ∈ words (add_arg q eq c) → w ∈ words c ∨ w = (q, eq).
Proof. induction c; cbn; set_solver. Qed.

Lemma redirs_words c d ts : Redirs c d ts → ∀ w, w ∈ words d → w ∈ words c ∨ from_tokens ts w.
Proof.
  induction 1 as [c|c d t v ts Ht Hv HR IH]; intros w Hw; [by left|]. destruct (IH w Hw) as [Hw'|Hw'].
  - apply words_redirect in Hw' as [?| ->]; [by left|right]. exists v. set_solver.
  - right. eapply from_tokens_mono; [|done]. set_solver.
Qed.

Lemma items_words c n d ts : Items c n d ts → ∀ w, w ∈ words d → w ∈ words c ∨ from_tokens ts w.
Proof.
  induction 1 as [c|c n d t v ts Ht Hv HR IH|c n d v ts Hv HR IH]; intros w Hw; [by left|..]; (destruct (IH w Hw) as [Hw'|Hw'];
    [|right; eapply from_tokens_mono; [|done]; set_solver]).
  - apply words_redirect in Hw' as [?| ->]; [by left|right]. exists v. set_solver.
  - apply words_add_arg in Hw' as [?| ->]; [by left|right]. exists v. set_solver.
Qed.

Lemma words_iter n c : words (Nat.iter n BACK c) = words c.
Proof. by induction n. Qed.

Lemma line_words :
  (∀ c ts, Line c ts → ∀ w, w ∈ words c → from_tokens ts w) ∧
  (∀ c ts, Pipeline c ts → ∀ w, w ∈ words c → from_tokens ts w) ∧
  (∀ c ts, Simple c ts → ∀ w, w ∈ words c → from_tokens ts w).
Proof.
  apply grammar_ind.
  - intros c ts n amps _ IH _ _ w. rewrite words_iter. intros Hw. eapply from_tokens_mono; [|by apply IH]. set_solver.
  - intros c ts n amps semi d us _ IH _ _ _ _ IHd w. cbn. rewrite words_iter. intros [Hw|Hw]%elem_of_app.
    + eapply from_tokens_mono; [|by apply IH]. set_solver.
    + eapply from_tokens_mono; [|by apply IHd]. set_solver.
  - auto.
  - intros c ts bar d us _ IH _ _ IHd w. cbn. intros [Hw|Hw]%elem_of_app.
    + eapply from_tokens_mono; [|by apply IH]. set_solver.
    + eapply from_tokens_mono; [|by apply IHd]. set_solver.
  - intros l c ts r d us _ _ IH _ HR w Hw. destruct (redirs_words _ _ _ HR w Hw) as [Hw'|Hw'].
    + eapply from_tokens_mono; [|by apply IH]. set_solver.
    + eapply from_tokens_mono; [|done]. set_solver.
  - intros n d ts HI _ w Hw. destruct (items_words _ _ _ _ HI w Hw) as [Hw'|Hw']; [set_solver|done].
Qed.

(** ** [parsecmd] *)

Lemma lexes_length p l ts : Lexes p l ts → (length ts ≤ length l)%nat.
Proof.
  induction 1 as [| | | | |p w l ts Hne]; cbn in *; try lia. rewrite length_app. destruct w; [done|]. cbn. lia.
Qed.

Lemma toks_start buf ts : Lexes 0 buf ts → toks buf 0 ts.
Proof. intros H. exists buf. split; [split; [lia|done]|done]. Qed.

Lemma lexes_nil p ts : Lexes p [] ts → ts = [].
Proof. intros H. apply lexes_length in H. destruct ts; [done|]. cbn in H. lia. Qed.

(** The check for leftovers. *)
Lemma toks_end buf (Hnul : 0 ∉ buf) s ts : toks buf s ts → (skip_white buf s = es buf ↔ ts = []).
Proof.
  intros (l&[Hs Hd]&HL&Hh)%skip_white_ok; [|done]. split.
  - intros E. assert (l = []) as ->; [|by apply lexes_nil in HL]. rewrite <-Hd, E. apply drop_ge. done.
  - intros ->. destruct l as [|c l].
    + apply (f_equal length) in Hd. rewrite length_drop in Hd. cbn in Hd. unfold es in *. lia.
    + inversion HL as [|p c' l' ts Hc| | | |]; subst. apply in_set_spec in Hc. specialize (Hh c eq_refl). congruence.
Qed.

Lemma parsecmd_parses buf k ts :
  0 ∉ buf → (4 * length buf + 4 ≤ k)%nat → Lexes 0 buf ts →
  (∃ c, parsecmd k buf = Parsed (c, nulterminate c (buf ++ [0])) ∧ Line c ts) ∨
  (∃ text, parsecmd k buf = Fail text ∧ ∀ c, ¬ Line c ts).
Proof.
  intros Hnul Hk HL. pose proof (toks_start _ _ HL) as H0. pose proof (lexes_length _ _ _ HL) as Hlen.
  destruct (parse_sound buf Hnul k 0 ts H0) as (HS&_). destruct (parse_ends buf Hnul k 0 ts H0) as (HE&_). specialize (HE ltac:(lia)).
  assert (∀ c, Line c ts → ∃ s', parseline buf k 0 = Parsed (c, s') ∧ toks buf s' []) as HC.
  { intros c Hc. destruct (proj1 (parse_complete buf Hnul) c ts Hc k 0%nat []) as [?|?]; [by rewrite app_nil_r|by left|done|done]. }
  unfold parsecmd. destruct (parseline buf k 0) as [[c s1]|text|]; [|right; exists text; split; [done|]|done].
  - destruct HS as (us&rest&->&H1&Hl). cbn. destruct (decide (rest = [])) as [->|Hne].
    + left. exists c. rewrite app_nil_r. split; [|done]. by rewrite (proj2 (toks_end buf Hnul s1 [] H1) eq_refl), Nat.eqb_refl.
    + right. eexists. split.
      * rewrite (proj2 (Nat.eqb_neq (skip_white buf s1) (es buf))); [done|]. by intros ?%(toks_end buf Hnul s1 rest H1).
      * intros d Hd. destruct (HC d Hd) as (s'&[= -> ->]&H2). apply Hne, (toks_end buf Hnul s' rest H1).
        by apply (toks_end buf Hnul s' [] H2).
  - intros c Hc. by destruct (HC c Hc) as (?&?&_).
Qed.

(** C13: [parsecmd] returns for every command line. When the tokens of the line
    form a command of the shell's grammar it builds the tree of that command, and
    otherwise it reports an error; with at most nine words a command is never
    rejected for their number. *)
Theorem parsecmd_correct buf k :
  0 ∉ buf → (4 * length buf + 4 ≤ k)%nat →
  (∃ ts, Lexes 0 buf ts) ∧
  ∀ ts, Lexes 0 buf ts →
    (∃ c, parsecmd k buf = Parsed (c, nulterminate c (buf ++ [0])) ∧ Line c ts) ∨
    (∃ text, parsecmd k buf = Fail text ∧ ∀ c, ¬ Line c ts).
Proof.
  intros Hnul Hk. split; [|intros ts; by apply parsecmd_parses].
  destruct (lexes_exists (length buf) buf 0 ltac:(lia)) as (ts&?&_). by exists ts.
Qed.

(** A word in a line in which only the ends of words have become NUL. *)
Lemma word_terminated buf ws q eq :
  0 ∉ buf → word_at buf q eq → (q, eq) ∈ ws → (∀ w, w ∈ ws → word_at buf w.1 w.2) →
  cstr (drop q (foldl nul_at (buf ++ [0]) ws)) = take (eq - q) (drop q buf).
Proof.
  intros Hnul (Hq&HF&_) Hin Hws. set (line := foldl nul_at (buf ++ [0]) ws).
  assert (line !! eq = Some 0) as H0.
  { unfold line. rewrite nuls_lookup, decide_True; [done|]. rewrite length_app. cbn. split; [|lia].
    apply list_elem_of_fmap. by exists (q, eq). }
  assert (take (eq - q) (drop q line) = take (eq - q) (drop q buf)) as Htake.
  { apply list_eq. intros i. destruct (decide (i < eq - q)%nat) as [Hi|Hi]; [|by rewrite !lookup_take_ge by lia].
    rewrite !lookup_take_lt, !lookup_drop by done. unfold line. rewrite nuls_lookup, decide_False; [by rewrite lookup_app_l by lia|].
    intros [Hend _]. apply list_elem_of_fmap in Hend as (w&Hw&Hw'). destruct (Hws w Hw') as (_&_&Hnw).
    rewrite Forall_lookup in HF. destruct (lookup_lt_is_Some_2 buf (q + i)) as [c Hc]; [lia|].
    apply (Hnw c); [by rewrite <-Hw|]. apply (HF i). by rewrite lookup_take_lt, lookup_drop. }
  rewrite <-(take_drop (eq - q) (drop q line)), Htake, drop_drop. replace (q + (eq - q))%nat with eq by lia.
  rewrite (drop_S line 0 eq H0). apply cstr_stop. apply Forall_forall. intros x Hx ->. apply Hnul.
  by eapply subseteq_drop, subseteq_take.
Qed.

(** after a successful parse every word of the command, arguments and file
    names, is in the line as a NUL-terminated string of exactly its bytes. *)
Theorem nulterminate_correct buf k c line :
  0 ∉ buf → (4 * length buf + 4 ≤ k)%nat → parsecmd k buf = Parsed (c, line) →
  length line = S (length buf) ∧
  ∀ q eq, (q, eq) ∈ words c → (q < eq ≤ length buf)%nat ∧ cstr (drop q line) = take (eq - q) (drop q buf).
Proof.
  intros Hnul Hk Hp. destruct (lexes_exists (length buf) buf 0 ltac:(lia)) as (ts&HL&_).
  destruct (parsecmd_parses buf k ts Hnul Hk HL) as [(d&Hd&HLine)|(?&?&_)]; [|congruence].
  rewrite Hd in Hp. injection Hp as <- <-. rewrite nulterminate_words.
  assert (∀ q eq, (q, eq) ∈ words d → word_at buf q eq) as Hat.
  { intros q eq Hw. destruct (proj1 line_words d ts HLine _ Hw) as (t&Ht&Hk97&[= -> ->]).
    by apply (lexes_words buf 0 buf ts HL (conj (Nat.le_0_l _) eq_refl) t). }
  split.
  - assert (∀ ws l, length (foldl nul_at l ws) = length l) as ->; [|by rewrite length_app, Nat.add_1_r].
    induction ws as [|w ws IH]; intros l; [done|]. cbn. rewrite IH. apply length_insert.
  - intros q eq Hw. destruct (Hat q eq Hw) as (Hq&HF&_). split; [done|].
    apply word_terminated; [done|by apply Hat|done|]. intros w Hw'. apply Hat. by destruct w.
Qed.

(** ** Examples *)

(** [grep a < f | wc] *)
Definition example_line : list Z := str_bytes "grep a < f | wc".

Lemma parsecmd_correct_witness :
  (∃ ts, Lexes 0 example_line ts) ∧
  ∀ ts, Lexes 0 example_line ts →
    (∃ c, parsecmd 64 example_line = Parsed (c, nulterminate c (example_line ++ [0])) ∧ Line c ts) ∨
    (∃ text, parsecmd 64 example_line = Fail text ∧ ∀ c, ¬ Line c ts).
Proof. apply (parsecmd_correct example_line 64); [apply (bool_decide_unpack _); by vm_compute|vm_compute; lia]. Defined.

Definition example_cmd : cmd := PIPE (REDIR (EXEC [(0, 4); (5, 6)]%nat) 9 10 O_RDONLY 0) (EXEC [(13, 15)]%nat).
Definition example_terminated : list Z := str_bytes "grep" ++ [0] ++ str_bytes "a" ++ [0] ++ str_bytes "< f" ++ [0] ++ str_bytes "| wc" ++ [0].

Lemma nulterminate_correct_witness :
  length example_terminated = 16%nat ∧
  ∀ q eq, (q, eq) ∈ words example_cmd →
    (q < eq ≤ 15)%nat ∧ cstr (drop q example_terminated) = take (eq - q) (drop q example_line).
Proof.
  apply (nulterminate_correct example_line 64 example_cmd example_terminated);
    [apply (bool_decide_unpack _); by vm_compute|vm_compute; lia|by vm_compute].
Defined.
