(* ===== verification/Prog.v ===== *)
(** * User programs as trees of system calls

    A program is what it does next as a function of what the kernel answered:
    a call and a continuation, or the end. [fork] needs nothing special: the
    parent goes on with the child's pid and the child with 0. Loops without a
    bound of their own take fuel and end in [Spin] when it is used up.
    [perform] runs the tree of a single process over the system call interface
    [Os]. *)

From S2P Require Import Prelude State Mem Kstring User Uprintf.

(** ** Model *)

(** The calls of user.h with their arguments; a string is its bytes before the
    NUL. *)
Inductive call : Type :=
| Read (fd n : Z)
| Write (fd : Z) (bytes : list Z)
| Open (path : list Z) (mode : Z)
| Close (fd : Z)
| Dup (fd : Z)
| Pipe
| Exec (path : list Z) (argv : list (list Z))
| Fork
| Wait
| Kill (pid : Z)
| Link (old new : list Z)
| Unlink (path : list Z)
| Mkdir (path : list Z)
| Mknod (path : list Z) (major minor : Z)
| Chdir (path : list Z)
| Fstat (fd : Z)
| Sleep (n : Z)
| Getpid
| Sbrk (n : Z).

(** The answer is the return value and the bytes delivered: what was read, the
    [struct stat] as it lies in memory; [pipe] delivers its two descriptors,
    [wait] the exit status. *)
Inductive prog : Type :=
| Exit (code : Z)
| Do (c : call) (k : Z → list Z → prog)
| Spin.

(** A call whose answer is not looked at. *)
Definition just (c : call) (p : prog) : prog := Do c (λ _ _, p).

(** [fprintf(fd, ...)] writes one byte at a time. *)
Fixpoint say (fd : Z) (text : list Z) (p : prog) : prog :=
  match text with [] => p | c :: text' => just (Write fd [c]) (say fd text' p) end.

(** The formats end in a newline. *)
Definition print_line (fd : Z) (fmt : string) (args : list uarg) (p : prog) : prog := say fd (render (fmt +:+ nl) args) p.

(** ** Running one process *)

(** The calls [Os] does not have. *)
Class Others (W : Type) := os_other : call → W → Z * list Z * W.

Section perform.
Context {W : Type} {OS : Os W} {X : Others W}.

Definition answer (c : call) (w : W) : Z * list Z * W :=
  match c with
  | Read fd n => os_read fd n w
  | Write fd bytes => let '(r, w) := os_write fd bytes w in (r, [], w)
  | Open path mode => let '(r, w) := os_open path mode w in (r, [], w)
  | Close fd => let '(r, w) := os_close fd w in (r, [], w)
  | Fstat fd => os_fstat fd w
  | Sbrk n => let '(r, w) := os_sbrk n w in (r, [], w)
  | c => os_other c w
  end.

(** The exit status and the world at exit. *)
Fixpoint perform (p : prog) (w : W) : option (Z * W) :=
  match p with
  | Exit code => Some (code, w)
  | Do c k => let '(r, bytes, w) := answer c w in perform (k r bytes) w
  | Spin => None
  end.

End perform.

(** ** Output *)

Section output.
Context {W : Type} {OS : Os W} {X : Others W} (fd : Z) (out : W → list Z) `{!Writes OS fd out}.

Lemma perform_write bytes k w :
  ∃ w', perform (Do (Write fd bytes) k) w = perform (k (Z.of_nat (length bytes)) []) w' ∧ w' = (os_write fd bytes w).2 ∧
    out w' = out w ++ bytes.
Proof.
  destruct (write_all (fd := fd) (out := out) w bytes) as (w'&E&Ho). exists w'. cbn. rewrite E. done.
Qed.

(** Printing adds the text, whatever the program does next. *)
Lemma perform_say text p w :
  ∃ w', perform (say fd text p) w = perform p w' ∧ out w' = out w ++ text ∧
    ∀ (P : W → Prop), (∀ v b, P v → P (os_write fd b v).2) → P w → P w'.
Proof.
  revert w. induction text as [|c text IH]; intros w; [exists w; by rewrite app_nil_r|].
  cbn [say]. unfold just. destruct (perform_write [c] (λ _ _, say fd text p) w) as (w1&->&E1&Ho).
  destruct (IH w1) as (w'&->&Ho'&HP). exists w'. split; [done|]. split; [by rewrite Ho', Ho, <-app_assoc|].
  intros P Hw HPw. apply HP; [done|]. subst w1. by apply Hw.
Qed.

End output.
