(* ===== verification/Programs.v ===== *)
(** * The small user programs: cat, wc, echo, kill, ln, mkdir, rm, ls, init,
    zombie, forktest and stressfs

    Each [main] is the tree of its system calls; [argv] does not include the
    name of the program. *)

From S2P Require Import Prelude State Mem Kstring Console User Uprintf Prog.

(** ** Model *)

Definition str : string → list Z := str_bytes.

(** *** cat.c *)

Fixpoint cat (k : nat) (fd : Z) (next : prog) : prog :=
  match k with
  | O => Spin
  | S k' =>
      Do (Read fd 512) (λ n bytes,
        if 0 <? n then
          Do (Write 1 bytes) (λ r _,
            if negb (r =? n) then print_line 2 "cat: write error" [] (Exit 1) else cat k' fd next)
        else if n <? 0 then print_line 2 "cat: read error" [] (Exit 1)
        else next)
  end.

Fixpoint cat_files (k : nat) (argv : list (list Z)) : prog :=
  match argv with
  | [] => Exit 0
  | f :: argv' =>
      Do (Open f 0) (λ fd _,
        if fd <? 0 then print_line 2 "cat: cannot open %s" [U_str (Some f)] (Exit 1)
        else cat k fd (just (Close fd) (cat_files k argv')))
  end.

Definition cat_main (k : nat) (argv : list (list Z)) : prog :=
  match argv with [] => cat k 0 (Exit 0) | _ => cat_files k argv end.

(** *** wc.c *)

(** [l], [w], [c] and [inword]. *)
Record counts : Type := Counts { n_lines : Z; n_words : Z; n_chars : Z; in_word : bool }.

Definition wc_white : list Z := [32; 13; 9; 10; 11].

(** The body of the [for]. *)
Definition wc_char (x : counts) (b : Z) : counts :=
  let l := if b =? 10 then n_lines x + 1 else n_lines x in
  let c := n_chars x + 1 in
  if existsb (Z.eqb b) wc_white then Counts l (n_words x) c false
  else if negb (in_word x) then Counts l (n_words x + 1) c true
  else Counts l (n_words x) c (in_word x).

Fixpoint wc_loop (k : nat) (fd : Z) (name : list Z) (x : counts) (next : prog) : prog :=
  match k with
  | O => Spin
  | S k' =>
      Do (Read fd 512) (λ n bytes,
        if 0 <? n then wc_loop k' fd name (foldl wc_char x bytes) next
        else if n <? 0 then print_line 1 "wc: read error" [] (Exit 1)
        else print_line 1 "%d %d %d %s" [U_int (n_lines x); U_int (n_words x); U_int (n_chars x); U_str (Some name)] next)
  end.
Definition wc (k : nat) (fd : Z) (name : list Z) (next : prog) : prog := wc_loop k fd name (Counts 0 0 0 false) next.

Fixpoint wc_files (k : nat) (argv : list (list Z)) : prog :=
  match argv with
  | [] => Exit 0
  | f :: argv' =>
      Do (Open f 0) (λ fd _,
        if fd <? 0 then print_line 1 "wc: cannot open %s" [U_str (Some f)] (Exit 1)
        else wc k fd f (just (Close fd) (wc_files k argv')))
  end.

Definition wc_main (k : nat) (argv : list (list Z)) : prog :=
  match argv with [] => wc k 0 [] (Exit 0) | _ => wc_files k argv end.

(** *** echo.c, kill.c, ln.c, mkdir.c, rm.c *)

Fixpoint echo_main (argv : list (list Z)) : prog :=
  match argv with
  | [] => Exit 0
  | a :: argv' => just (Write 1 a) (just (Write 1 (if negb (bool_decide (argv' = [])) then [32] else [10])) (echo_main argv'))
  end.

(** [atoi] of a string: its leading digits. *)
Fixpoint atoi_str (n : Z) (s : list Z) : Z :=
  match s with
  | c :: s' => if (48 <=? c) && (c <=? 57) then atoi_str (i32 (i32 (n * 10 + c) - 48)) s' else n
  | [] => n
  end.

Fixpoint kill_all (argv : list (list Z)) : prog :=
  match argv with [] => Exit 0 | a :: argv' => just (Kill (atoi_str 0 a)) (kill_all argv') end.
Definition kill_main (argv : list (list Z)) : prog :=
  match argv with [] => print_line 2 "usage: kill pid..." [] (Exit 1) | _ => kill_all argv end.

Definition ln_main (argv : list (list Z)) : prog :=
  match argv with
  | [old; new] =>
      Do (Link old new) (λ r _,
        if r <? 0 then print_line 2 "link %s %s: failed" [U_str (Some old); U_str (Some new)] (Exit 0) else Exit 0)
  | _ => print_line 2 "Usage: ln old new" [] (Exit 1)
  end.

Fixpoint mkdir_all (argv : list (list Z)) : prog :=
  match argv with
  | [] => Exit 0
  | a :: argv' =>
      Do (Mkdir a) (λ r _,
        if r <? 0 then print_line 2 "mkdir: %s failed to create" [U_str (Some a)] (Exit 0) else mkdir_all argv')
  end.
Definition mkdir_main (argv : list (list Z)) : prog :=
  match argv with [] => print_line 2 "Usage: mkdir files..." [] (Exit 1) | _ => mkdir_all argv end.

Fixpoint rm_all (argv : list (list Z)) : prog :=
  match argv with
  | [] => Exit 0
  | a :: argv' =>
      Do (Unlink a) (λ r _,
        if r <? 0 then print_line 2 "rm: %s failed to delete" [U_str (Some a)] (Exit 0) else rm_all argv')
  end.
Definition rm_main (argv : list (list Z)) : prog :=
  match argv with [] => print_line 2 "Usage: rm files..." [] (Exit 1) | _ => rm_all argv end.

(** *** ls.c *)

(** The part after the last slash, found from the end. *)
Fixpoint until_slash (l : list Z) : list Z :=
  match l with [] => [] | c :: l' => if c =? 47 then [] else c :: until_slash l' end.
Definition after_slash (path : list Z) : list Z := reverse (until_slash (reverse path)).

Definition fmtname (path : list Z) : list Z :=
  let p := after_slash path in
  if DIRSIZ <=? Z.of_nat (length p) then p else p ++ replicate (Z.to_nat DIRSIZ - length p) 32.

(** The fields of [struct stat]. *)
Definition st_ino (st : list Z) : Z := get32 st 4.
Definition st_type (st : list Z) : Z := i16 (get16 st 8).
Definition st_size (st : list Z) : Z := of_le (sub st 16 8).

(** [stat(path, &st)]. *)
Definition stat (path : list Z) (k : Z → list Z → prog) : prog :=
  Do (Open path 0) (λ fd _,
    if fd <? 0 then k (-1) []
    else Do (Fstat fd) (λ r st, just (Close fd) (k r st))).

(** The loop over the entries of directory [path]. *)
Fixpoint ls_entries (k : nat) (fd : Z) (path : list Z) (next : prog) : prog :=
  match k with
  | O => Spin
  | S k' =>
      Do (Read fd sizeof_dirent) (λ n de,
        if negb (n =? sizeof_dirent) then next
        else if get16 de 0 =? 0 then ls_entries k' fd path next
        else
          let buf := cstr (path ++ [47] ++ sub de 2 14) in
          stat buf (λ r st,
            if r <? 0 then print_line 1 "ls: cannot stat %s" [U_str (Some buf)] (ls_entries k' fd path next)
            else print_line 1 "%s %d %d %d" [U_str (Some (fmtname buf)); U_int (st_type st); U_int (st_ino st); U_int (st_size st)]
                   (ls_entries k' fd path next)))
  end.

Definition ls (k : nat) (path : list Z) (next : prog) : prog :=
  Do (Open path 0) (λ fd _,
    if fd <? 0 then print_line 2 "ls: cannot open %s" [U_str (Some path)] next
    else
      Do (Fstat fd) (λ r st,
        if r <? 0 then print_line 2 "ls: cannot stat %s" [U_str (Some path)] (just (Close fd) next)
        else
          let type := st_type st in
          if (type =? T_DEVICE) || (type =? T_FILE) then
            print_line 1 "%s %d %d %l" [U_str (Some (fmtname path)); U_int type; U_int (st_ino st); U_long (st_size st)]
              (just (Close fd) next)
          else if type =? T_DIR then
            if 512 <? Z.of_nat (length path) + 1 + DIRSIZ + 1 then print_line 1 "ls: path too long" [] (just (Close fd) next)
            else ls_entries k fd path (just (Close fd) next)
          else just (Close fd) next)).

Fixpoint ls_all (k : nat) (argv : list (list Z)) : prog :=
  match argv with [] => Exit 0 | a :: argv' => ls k a (ls_all k argv') end.
Definition ls_main (k : nat) (argv : list (list Z)) : prog :=
  match argv with [] => ls k (str ".") (Exit 0) | _ => ls_all k argv end.

(** *** init.c *)

(** Wait for the shell, reaping orphans; [again] restarts it. *)
Fixpoint init_wait (k : nat) (pid : Z) (again : prog) : prog :=
  match k with
  | O => Spin
  | S k' =>
      Do Wait (λ wpid _,
        if wpid =? pid then again
        else if wpid <? 0 then print_line 1 "init: wait returned an error" [] (Exit 1)
        else init_wait k' pid again)
  end.

Fixpoint init_loop (k : nat) : prog :=
  match k with
  | O => Spin
  | S k' =>
      print_line 1 "init: starting sh" []
        (Do Fork (λ pid _,
           if pid <? 0 then print_line 1 "init: fork failed" [] (Exit 1)
           else if pid =? 0 then just (Exec (str "sh") [str "sh"]) (print_line 1 "init: exec sh failed" [] (Exit 1))
           else init_wait k' pid (init_loop k')))
  end.

Definition init_main (k : nat) : prog :=
  let go := just (Dup 0) (just (Dup 0) (init_loop k)) in
  Do (Open (str "console") O_RDWR) (λ fd _,
    if fd <? 0 then just (Mknod (str "console") (Z.of_nat CONSOLE) 0) (just (Open (str "console") O_RDWR) go) else go).

(** *** zombie.c, forktest.c, stressfs.c *)

Definition zombie_main : prog := Do Fork (λ pid _, if 0 <? pid then just (Sleep 5) (Exit 0) else Exit 0).

(** [print(s)] is one write. *)
Definition print_str (s : string) (p : prog) : prog := just (Write 1 (str s)) p.

Fixpoint wait_for (n : nat) (next : prog) : prog :=
  match n with
  | O => next
  | S n' => Do Wait (λ r _, if r <? 0 then print_str ("wait stopped early" +:+ nl) (Exit 1) else wait_for n' next)
  end.

(** The loop [for(n=0; n<N; n++)], [left] rounds before its end. *)
Fixpoint fork_loop (left n : nat) (after : nat → prog) : prog :=
  match left with
  | O => after n
  | S left' =>
      Do Fork (λ pid _,
        if pid <? 0 then after n else if pid =? 0 then Exit 0 else fork_loop left' (S n) after)
  end.

Definition forktest_N : nat := 1000.

Definition forktest_main : prog :=
  print_str ("fork test" +:+ nl)
    (fork_loop forktest_N 0 (λ n,
       if (n =? forktest_N)%nat then print_str ("fork claimed to work N times!" +:+ nl) (Exit 1)
       else
         wait_for n
           (Do Wait (λ r _,
              if negb (r =? -1) then print_str ("wait got too many" +:+ nl) (Exit 1)
              else print_str ("fork test OK" +:+ nl) (Exit 0))))).

Fixpoint repeat_call (n : nat) (c : call) (next : prog) : prog :=
  match n with O => next | S n' => just c (repeat_call n' c next) end.

(** After the forks, with the value [i] has then. *)
Definition stressfs_rest (i : Z) : prog :=
  let path := str "stressfs" ++ [u8 (48 + i)] in
  print_line 1 "write %d" [U_int i]
    (Do (Open path (Z.lor O_CREATE O_RDWR)) (λ fd _,
       repeat_call 20 (Write fd (replicate 512 97))
         (just (Close fd)
            (print_line 1 "read" []
               (Do (Open path O_RDONLY) (λ fd _,
                  repeat_call 20 (Read fd 512) (just (Close fd) (just Wait (Exit 0))))))))).

Fixpoint stressfs_forks (left : nat) (i : Z) : prog :=
  match left with
  | O => stressfs_rest i
  | S left' => Do Fork (λ pid _, if 0 <? pid then stressfs_rest i else stressfs_forks left' (i + 1))
  end.

Definition stressfs_main : prog := print_line 1 "stressfs starting" [] (stressfs_forks 4 0).

(** ** Reading to the end *)

(** Words: maximal runs of bytes that are not white space. *)
Definition white (c : Z) : bool := existsb (Z.eqb c) wc_white.

(** [text] in pieces, cut at every white byte. *)
Fixpoint pieces (text : list Z) : list (list Z) :=
  match text with
  | [] => [[]]
  | c :: text' =>
      if white c then [] :: pieces text'
      else match pieces text' with [] => [[c]] | p :: ps => (c :: p) :: ps end
  end.
Definition words_of (text : list Z) : list (list Z) := filter (λ p, p ≠ []) (pieces text).
Definition newlines (text : list Z) : Z := Z.of_nat (length (filter (λ c, c = 10) text)).

Section reading.
Context {W : Type} {OS : Os W} {X : Others W} (fd : Z) (rem out : W → list Z).
Context `{!Reads OS fd rem, !Writes OS 1 out, !Independent OS fd rem 1 out}.

Lemma cat_ok k next w :
  (length (rem w) < k)%nat →
  ∃ w', perform (cat k fd next) w = perform next w' ∧ out w' = out w ++ rem w ∧ rem w' = [].
Proof.
  revert w. induction k as [|k IH]; intros w Hk; [lia|]. cbn [cat perform answer].
  destruct (decide (rem w = [])) as [E|Hne].
  - destruct (read_none (rem := rem) w 512 (or_intror E)) as (w1&Hr&Hrem). pose proof (read_out (rem := rem) (fd' := 1) w 512) as Ho.
    rewrite Hr in *. cbn in *. exists w1. split; [done|]. by rewrite Ho, E, app_nil_r, Hrem.
  - destruct (read_some (rem := rem) w 512 ltac:(lia) Hne) as (n&w1&Hr&Hn&_&Hrem).
    pose proof (read_out (rem := rem) (fd' := 1) w 512) as Ho. rewrite Hr in *. cbn [snd] in Ho.
    assert ((0 <? Z.of_nat n) = true) as -> by lia.
    destruct (perform_write 1 out (take n (rem w)) (λ r _, if negb (r =? Z.of_nat n) then
      print_line 2 "cat: write error" [] (Exit 1) else cat k fd next) w1) as (w2&->&->&Ho2).
    rewrite length_take, Nat.min_l, Z.eqb_refl by lia. cbn [negb].
    pose proof (write_rem (fd := fd) (rem := rem) (fd' := 1) w1 (take n (rem w))) as Hrem2.
    destruct (IH (os_write 1 (take n (rem w)) w1).2) as (w'&->&Ho'&Hrem').
    { rewrite Hrem2, Hrem, length_drop. lia. }
    exists w'. split; [done|]. split; [|done]. by rewrite Ho', Ho2, Ho, Hrem2, Hrem, <-app_assoc, take_drop.
Qed.

Lemma wc_loop_ok k name x next w :
  (length (rem w) < k)%nat →
  ∃ w', perform (wc_loop k fd name x next) w = perform next w' ∧ rem w' = [] ∧
    let y := foldl wc_char x (rem w) in
    out w' = out w ++ render ("%d %d %d %s" +:+ nl) [U_int (n_lines y); U_int (n_words y); U_int (n_chars y); U_str (Some name)].
Proof.
  revert x w. induction k as [|k IH]; intros x w Hk; [lia|]. cbn [wc_loop perform answer].
  destruct (decide (rem w = [])) as [E|Hne].
  - destruct (read_none (rem := rem) w 512 (or_intror E)) as (w1&Hr&Hrem). pose proof (read_out (rem := rem) (fd' := 1) w 512) as Ho.
    rewrite Hr in *. cbn [snd] in Ho. cbn. rewrite E. cbn. unfold print_line.
    destruct (perform_say 1 out (render ("%d %d %d %s" +:+ nl) [U_int (n_lines x); U_int (n_words x); U_int (n_chars x); U_str (Some name)]) next w1)
      as (w'&->&Ho'&HP). exists w'. split; [done|]. split; [|by rewrite Ho', Ho].
    apply (HP (λ v, rem v = [])); [|by rewrite Hrem]. intros v b Hv. by rewrite (write_rem (fd := fd) (fd' := 1)).
  - destruct (read_some (rem := rem) w 512 ltac:(lia) Hne) as (n&w1&Hr&Hn&_&Hrem).
    pose proof (read_out (rem := rem) (fd' := 1) w 512) as Ho. rewrite Hr in *. cbn [snd] in Ho.
    assert ((0 <? Z.of_nat n) = true) as -> by lia.
    destruct (IH (foldl wc_char x (take n (rem w))) w1) as (w'&->&Hrem'&Ho'); [rewrite Hrem, length_drop; lia|].
    exists w'. split; [done|]. split; [done|]. cbv zeta in *. rewrite Ho', Ho, Hrem, <-foldl_app, take_drop. done.
Qed.

End reading.

(** ** Counting *)

Lemma pieces_cons text : ∃ p ps, pieces text = p :: ps.
Proof. induction text as [|c text (p&ps&E)]; cbn [pieces]; [by eexists _, _|]. rewrite E. destruct (white c); by eexists _, _. Qed.

Lemma newlines_cons c text : newlines (c :: text) = (if c =? 10 then 1 else 0) + newlines text.
Proof.
  unfold newlines. rewrite filter_cons. destruct (c =? 10) eqn:E; reflect_tests.
  - rewrite decide_True by done. cbn [length]. lia.
  - rewrite decide_False by done. lia.
Qed.

(** The words that start in [text] when a word is open or not. *)
Lemma wc_fold text x :
  let y := foldl wc_char x text in
  n_lines y = n_lines x + newlines text ∧ n_chars y = n_chars x + Z.of_nat (length text) ∧
  n_words y = n_words x + Z.of_nat (length (words_of text)) -
    (if in_word x && negb (bool_decide (head (pieces text) = Some [])) then 1 else 0).
Proof.
  revert x. induction text as [|c text IH]; intros x; cbn [foldl].
  - unfold newlines, words_of. cbn. rewrite decide_False, bool_decide_true, andb_false_r by (done || tauto). cbn. lia.
  - destruct (IH (wc_char x c)) as (Hl&Hc&Hw). cbv zeta. rewrite Hl, Hc, Hw. clear Hl Hc Hw IH.
    rewrite newlines_cons. unfold wc_char. fold (white c). split_and!.
    + destruct (c =? 10), (white c), (in_word x); cbn [n_lines negb]; lia.
    + destruct (white c), (in_word x); cbn [n_chars negb length]; lia.
    + unfold words_of. cbn [pieces]. destruct (pieces_cons text) as (p&ps&E). rewrite E.
      destruct (white c), (in_word x), p as [|d p]; rewrite !filter_cons; cbn [n_words in_word negb head andb];
        rewrite ?decide_True, ?decide_False, ?decide_True by (done || tauto); rewrite ?bool_decide_true, ?bool_decide_false by done; cbn [negb length]; lia.
Qed.

(** ** What the programs do *)

(** cat without arguments copies its input to its output and succeeds. *)
Theorem cat_correct {W : Type} {OS : Os W} {X : Others W} (rem out : W → list Z)
    `{!Reads OS 0 rem, !Writes OS 1 out, !Independent OS 0 rem 1 out} k w :
  (length (rem w) < k)%nat →
  ∃ w', perform (cat_main k []) w = Some (0, w') ∧ out w' = out w ++ rem w ∧ rem w' = [].
Proof. intros Hk. apply (cat_ok 0 rem out k (Exit 0) w Hk). Qed.

(** wc without arguments prints the number of newlines, of words and of bytes of
    its input, however the input arrives in pieces. *)
Theorem wc_correct {W : Type} {OS : Os W} {X : Others W} (rem out : W → list Z)
    `{!Reads OS 0 rem, !Writes OS 1 out, !Independent OS 0 rem 1 out} k w :
  (length (rem w) < k)%nat →
  ∃ w', perform (wc_main k []) w = Some (0, w') ∧
    out w' = out w ++ render ("%d %d %d %s" +:+ nl)
      [U_int (newlines (rem w)); U_int (Z.of_nat (length (words_of (rem w)))); U_int (Z.of_nat (length (rem w))); U_str (Some [])].
Proof.
  intros Hk. destruct (wc_loop_ok 0 rem out k [] (Counts 0 0 0 false) (Exit 0) w Hk) as (w'&Hp&_&Ho). exists w'.
  split; [exact Hp|]. rewrite Ho. destruct (wc_fold (rem w) (Counts 0 0 0 false)) as (->&->&->). cbn [n_lines n_words n_chars in_word andb].
  by rewrite Z.sub_0_r, !Z.add_0_l.
Qed.
