(* ===== verification/Shell.v ===== *)
(** * user/sh.c: running commands

    [runcmd] walks the tree of a command and forks, redirects and executes; the
    shell's [main] reads lines and runs each in a child. Both are trees of system
    calls. [trace] runs a process and its children with their descriptor tables,
    and the theorem says what every program is started with: [meaning] gives it
    from the command alone. *)

From S2P Require Import Prelude State Mem Kstring User Uprintf Prog Sh ShSpec.

(** ** Model *)

(** The word at [q], a C string in the line. *)
Definition word (line : list Z) (q : nat) : list Z := cstr (drop q line).

(** [panic(s)] and [fork1()]. *)
Definition sh_panic (s : string) : prog := print_line 2 "%s" [U_str (Some (str_bytes s))] (Exit 1).
Definition fork1 (k : Z → prog) : prog := Do Fork (λ pid _, if pid =? -1 then sh_panic "fork" else k pid).

Fixpoint runcmd (line : list Z) (c : cmd) : prog :=
  match c with
  | EXEC argv =>
      match argv with
      | [] => Exit 1
      | w :: _ =>
          just (Exec (word line w.1) ((λ w, word line w.1) <$> argv))
            (print_line 2 "exec %s failed" [U_str (Some (word line w.1))] (Exit 0))
      end
  | REDIR c file efile mode fd =>
      just (Close fd)
        (Do (Open (word line file) mode) (λ r _,
           if r <? 0 then print_line 2 "open %s failed" [U_str (Some (word line file))] (Exit 1) else runcmd line c))
  | LIST l r =>
      fork1 (λ pid, if pid =? 0 then runcmd line l else just Wait (runcmd line r))
  | PIPE l r =>
      Do Pipe (λ res p,
        if res <? 0 then sh_panic "pipe"
        else
          let p0 := nth 0 p 0 in
          let p1 := nth 1 p 0 in
          fork1 (λ pid,
            if pid =? 0 then just (Close 1) (just (Dup p1) (just (Close p0) (just (Close p1) (runcmd line l))))
            else
              fork1 (λ pid,
                if pid =? 0 then just (Close 0) (just (Dup p0) (just (Close p0) (just (Close p1) (runcmd line r))))
                else just (Close p0) (just (Close p1) (just Wait (just Wait (Exit 0)))))))
  | BACK c => fork1 (λ pid, if pid =? 0 then runcmd line c else Exit 0)
  end.

(** [gets(buf, nbuf)] as calls; [i] bytes have been read. *)
Fixpoint gets (left : nat) (acc : list Z) (k : list Z → prog) : prog :=
  match left with
  | O => k acc
  | S left' =>
      Do (Read 0 1) (λ cc bytes,
        if cc <? 1 then k acc
        else
          let c := default 0 (head bytes) in
          if (c =? 10) || (c =? 13) then k (acc ++ [c]) else gets left' (acc ++ [c]) k)
  end.

(** [getcmd(buf, 100)]: the string in the buffer, which may contain a NUL that
    was read. *)
Definition getcmd (k : list Z → prog) : prog := just (Write 2 [36; 32]) (gets 99 [] (λ bytes, k (cstr bytes))).

(** [buf[strlen(buf)-1] = 0]. *)
Definition chop (buf : list Z) : list Z := removelast buf.

(** The child of one command. *)
Definition run_line (k : nat) (buf : list Z) : prog :=
  match parsecmd k buf with
  | Parsed (c, line) => runcmd line c
  | Fail text => say 2 text (Exit 1)
  | Deep => Spin
  end.

(** The [while] over commands; the fuel bounds their number. *)
Fixpoint sh_loop (k fuel : nat) : prog :=
  match k with
  | O => Spin
  | S k' =>
      getcmd (λ buf,
        match buf with
        | [] => Exit 0
        | _ =>
            if bool_decide (take 3 buf = str_bytes "cd ") then
              let dir := drop 3 (chop buf) in
              Do (Chdir dir) (λ r _,
                if r <? 0 then print_line 2 "cannot cd %s" [U_str (Some dir)] (sh_loop k' fuel) else sh_loop k' fuel)
            else fork1 (λ pid, if pid =? 0 then run_line fuel buf else just Wait (sh_loop k' fuel))
        end)
  end.

(** The first [while]: descriptors up to 2 are opened. *)
Fixpoint open_console (k : nat) (next : prog) : prog :=
  match k with
  | O => Spin
  | S k' =>
      Do (Open (str_bytes "console") O_RDWR) (λ fd _,
        if 0 <=? fd then (if 3 <=? fd then just (Close fd) next else open_console k' next) else next)
  end.

Definition sh_main (k fuel : nat) : prog := open_console k (sh_loop k fuel).

(** ** Descriptors *)

(** What a descriptor refers to. *)
Inductive object : Type :=
| Other (n : nat)
| File (path : list Z) (mode : Z)
| Pipe_read (id : nat)
| Pipe_write (id : nat).

(** The descriptors of a process; the kernel gives the lowest unused one. *)
Notation table := (gmap Z object).

Fixpoint lowest (k : nat) (fds : table) (n : Z) : Z :=
  match k with O => n | S k' => if decide (fds !! n = None) then n else lowest k' fds (n + 1) end.
Definition lowest_unused (fds : table) : Z := lowest 16 fds 0.

(** What happens, in order; a child's events are its own. *)
Inductive event : Type :=
| Started (path : list Z) (argv : list (list Z)) (fds : table)
| Child (events : list event)
| Said (fd : Z) (bytes : list Z)
| Waited
| Moved (dir : list Z)
| Exited (code : Z).

(** The terminal input not yet read and the number of pipes made so far. *)
Record io : Type := Io { typed : list Z; pipes : nat }.

Section trace.
(** Which programs can be executed and which files opened. *)
Context (can_exec : list Z → bool) (can_open : list Z → Z → bool).

(** One process and, where it forks, its children; forks and pipes succeed. *)
Fixpoint trace (p : prog) (fds : table) (s : io) : list event * io :=
  match p with
  | Exit code => ([Exited code], s)
  | Spin => ([], s)
  | Do c k =>
      match c with
      | Read fd n =>
          let bytes := take (Z.to_nat n) (typed s) in
          trace (k (Z.of_nat (length bytes)) bytes) fds (Io (drop (Z.to_nat n) (typed s)) (pipes s))
      | Write fd bytes => let '(es, s) := trace (k (Z.of_nat (length bytes)) []) fds s in (Said fd bytes :: es, s)
      | Close fd => trace (k 0 []) (delete fd fds) s
      | Dup fd =>
          match fds !! fd with
          | None => trace (k (-1) []) fds s
          | Some o => let fd' := lowest_unused fds in trace (k fd' []) (<[fd' := o]> fds) s
          end
      | Open path mode =>
          if can_open path mode then
            let fd := lowest_unused fds in trace (k fd []) (<[fd := File path mode]> fds) s
          else trace (k (-1) []) fds s
      | Pipe =>
          let p0 := lowest_unused fds in
          let fds := <[p0 := Pipe_read (pipes s)]> fds in
          let p1 := lowest_unused fds in
          let fds := <[p1 := Pipe_write (pipes s)]> fds in
          trace (k 0 [p0; p1]) fds (Io (typed s) (S (pipes s)))
      | Exec path argv => if can_exec path then ([Started path argv fds], s) else trace (k (-1) []) fds s
      | Fork =>
          let '(child, s) := trace (k 0 []) fds s in
          let '(es, s) := trace (k 2 []) fds s in
          (Child child :: es, s)
      | Wait => let '(es, s) := trace (k 2 []) fds s in (Waited :: es, s)
      | Chdir dir => let '(es, s) := trace (k 0 []) fds s in (Moved dir :: es, s)
      | _ => trace (k 0 []) fds s
      end
  end.

(** ** What a command means *)

Definition said (fd : Z) (text : list Z) : list event := (λ c, Said fd [c]) <$> text.
Definition complaint (fmt : string) (name : list Z) : list event := said 2 (render (fmt +:+ nl) [U_str (Some name)]).

(** The events of a command run with descriptors [fds]: a redirection replaces
    one descriptor, and a pipe the output of its left and the input of its right
    command. *)
Fixpoint meaning (line : list Z) (c : cmd) (fds : table) (n : nat) : list event * nat :=
  match c with
  | EXEC argv =>
      match argv with
      | [] => ([Exited 1], n)
      | w :: _ =>
          if can_exec (word line w.1) then ([Started (word line w.1) ((λ w, word line w.1) <$> argv) fds], n)
          else (complaint "exec %s failed" (word line w.1) ++ [Exited 0], n)
      end
  | REDIR c file _ mode fd =>
      if can_open (word line file) mode then meaning line c (<[fd := File (word line file) mode]> fds) n
      else (complaint "open %s failed" (word line file) ++ [Exited 1], n)
  | LIST l r =>
      let '(first, n) := meaning line l fds n in
      let '(second, n) := meaning line r fds n in
      (Child first :: Waited :: second, n)
  | PIPE l r =>
      let '(writer, n1) := meaning line l (<[1 := Pipe_write n]> fds) (S n) in
      let '(reader, n2) := meaning line r (<[0 := Pipe_read n]> fds) n1 in
      ([Child writer; Child reader; Waited; Waited; Exited 0], n2)
  | BACK c =>
      let '(child, n) := meaning line c fds n in ([Child child; Exited 0], n)
  end.

(** Descriptors 0, 1 and 2 are open and no other. *)
Definition standard (fds : table) : Prop := ∀ fd, is_Some (fds !! fd) ↔ fd = 0 ∨ fd = 1 ∨ fd = 2.

(** Redirections are of descriptors 0 and 1. *)
Fixpoint redirs_ok (c : cmd) : Prop :=
  match c with
  | EXEC _ => True
  | REDIR c _ _ _ fd => (fd = 0 ∨ fd = 1) ∧ redirs_ok c
  | PIPE l r | LIST l r => redirs_ok l ∧ redirs_ok r
  | BACK c => redirs_ok c
  end.

(** ** Lemmas *)

Lemma lowest_ok k fds n m :
  n ≤ m < n + Z.of_nat k → fds !! m = None → (∀ i, n ≤ i < m → is_Some (fds !! i)) → lowest k fds n = m.
Proof.
  revert n. induction k as [|k IH]; intros n Hm Hnone Hsome; [lia|]. cbn. destruct (decide (n = m)) as [->|Hne].
  - by rewrite decide_True.
  - rewrite decide_False; [apply IH; [lia|done|]; intros i Hi; apply Hsome; lia|].
    destruct (Hsome n) as [o Ho]; [lia|]. congruence.
Qed.

Lemma standard_insert fd o fds : fd = 0 ∨ fd = 1 ∨ fd = 2 → standard fds → standard (<[fd := o]> fds).
Proof.
  intros Hfd Hs fd'. destruct (decide (fd' = fd)) as [->|Hne]; [|by rewrite lookup_insert_ne by done].
  rewrite lookup_insert_eq. split; [tauto|]. by eexists.
Qed.

Lemma standard_None fds fd : standard fds → fd ≠ 0 → fd ≠ 1 → fd ≠ 2 → fds !! fd = None.
Proof. intros Hs H0 H1 H2. apply eq_None_not_Some. intros [?|[?|?]]%Hs; lia. Qed.

(** Closing one of the first two descriptors makes it the next to be given. *)
Lemma lowest_closed fds fd :
  (∀ i, i = 0 ∨ i = 1 ∨ i = 2 → is_Some (fds !! i)) → fd = 0 ∨ fd = 1 → lowest_unused (delete fd fds) = fd.
Proof.
  intros Hs Hfd. apply lowest_ok; [lia|apply lookup_delete_eq|]. intros i Hi. rewrite lookup_delete_ne by lia. apply Hs. lia.
Qed.

Lemma lowest_standard fds : standard fds → lowest_unused fds = 3.
Proof. intros Hs. apply lowest_ok; [lia|by apply standard_None|]. intros i Hi. apply Hs. lia. Qed.

Lemma lowest_after fds o : standard fds → lowest_unused (<[3 := o]> fds) = 4.
Proof.
  intros Hs. apply lowest_ok; [lia|rewrite lookup_insert_ne by done; by apply standard_None|]. intros i Hi.
  destruct (decide (i = 3)) as [->|]; [rewrite lookup_insert_eq; by eexists|]. rewrite lookup_insert_ne by done. apply Hs. lia.
Qed.

Lemma trace_say fd text p fds s :
  trace (say fd text p) fds s = let '(es, s) := trace p fds s in (said fd text ++ es, s).
Proof.
  induction text as [|c text IH]; cbn [say just trace]; [by destruct (trace p fds s)|].
  unfold just. cbn [trace]. rewrite IH. by destruct (trace p fds s).
Qed.

(** The descriptors of a pipe's two commands. *)
Lemma pipe_child fds fd o r w :
  standard fds → fd = 0 ∨ fd = 1 →
  delete 4 (delete 3 (<[fd := o]> (delete fd (<[4 := w]> (<[3 := r]> fds))))) = <[fd := o]> fds.
Proof.
  intros Hs Hfd. apply map_eq. intros i.
  destruct (decide (i = 4)) as [->|]; [rewrite lookup_delete_eq, lookup_insert_ne by lia; symmetry; by apply standard_None|].
  destruct (decide (i = 3)) as [->|]; [rewrite lookup_delete_ne, lookup_delete_eq, lookup_insert_ne by lia; symmetry; by apply standard_None|].
  rewrite !lookup_delete_ne by done. destruct (decide (i = fd)) as [->|]; [by rewrite !lookup_insert_eq|].
  by rewrite lookup_insert_ne, lookup_delete_ne, !lookup_insert_ne by done.
Qed.

Lemma runcmd_ok line c fds s :
  standard fds → redirs_ok c →
  trace (runcmd line c) fds s = let '(es, n) := meaning line c fds (pipes s) in (es, Io (typed s) n).
Proof.
  revert fds s. induction c as [argv|c IH file efile mode fd|l IHl r IHr|l IHl r IHr|c IH]; intros fds [inp n] Hs Hc;
    cbn [runcmd meaning pipes typed] in *.
  - destruct argv as [|w argv]; [done|]. unfold just. cbn [trace]. destruct (can_exec _); [done|].
    unfold print_line. rewrite trace_say. done.
  - destruct Hc as [Hfd Hc]. unfold just. cbn [trace]. rewrite lowest_closed; [|intros i Hi; by apply Hs|done].
    destruct (can_open _ _).
    + assert ((fd <? 0) = false) as -> by lia. rewrite insert_delete_eq. apply IH; [|done]. apply standard_insert; [lia|done].
    + cbn. unfold print_line. by rewrite trace_say.
  - destruct Hc as [Hl Hr]. cbn [trace]. rewrite (lowest_standard _ Hs), (lowest_after _ _ Hs). cbn [Z.ltb Z.compare nth].
    unfold fork1, just. cbn [trace Z.eqb].
    set (fds' := <[4 := Pipe_write n]> (<[3 := Pipe_read n]> fds)).
    assert (∀ i, i = 0 ∨ i = 1 ∨ i = 2 → is_Some (fds' !! i)) as Hs'.
    { intros i Hi. unfold fds'. rewrite !lookup_insert_ne by lia. by apply Hs. }
    rewrite !(lookup_delete_ne fds') by done.
    replace (fds' !! 4) with (Some (Pipe_write n)) by (unfold fds'; by rewrite lookup_insert_eq).
    replace (fds' !! 3) with (Some (Pipe_read n)) by (unfold fds'; by rewrite lookup_insert_ne, lookup_insert_eq by done).
    rewrite !lowest_closed by (done || tauto). unfold fds'. rewrite !pipe_child by (done || tauto).
    rewrite IHl; [|apply standard_insert; [lia|done]|done]. cbn [pipes typed]. destruct (meaning line l _ _) as [writer n1]. cbn [trace].
    rewrite IHr; [|apply standard_insert; [lia|done]|done]. cbn [pipes typed].
    by destruct (meaning line r _ _) as [reader n2].
  - destruct Hc as [Hl Hr]. unfold fork1, just. cbn [trace Z.eqb]. rewrite IHl by done. cbn [pipes typed].
    destruct (meaning line l fds n) as [first n1]. cbn [trace]. rewrite IHr by done. cbn [pipes typed]. by destruct (meaning line r fds n1).
  - unfold fork1. cbn [trace Z.eqb]. rewrite IH by done. cbn [pipes typed]. by destruct (meaning line c fds n).
Qed.

(** Every program of a command is started with descriptors 0, 1 and 2 and no
    other: no end of a pipe stays open. *)
Fixpoint starts_with (P : table → Prop) (e : event) : Prop :=
  match e with
  | Started _ _ fds => P fds
  | Child es => (fix all es := match es with [] => True | e :: es => starts_with P e ∧ all es end) es
  | _ => True
  end.

Lemma starts_child P es : Forall (starts_with P) es → starts_with P (Child es).
Proof. intros H. cbn. induction H; [done|]. by split. Qed.

Lemma starts_said P fd text : Forall (starts_with P) (said fd text).
Proof. apply Forall_fmap, Forall_true. done. Qed.

Lemma meaning_standard line c fds n : standard fds → redirs_ok c → Forall (starts_with standard) (meaning line c fds n).1.
Proof.
  revert fds n. induction c as [argv|c IH file efile mode fd|l IHl r IHr|l IHl r IHr|c IH]; intros fds n Hs Hc;
    cbn [meaning redirs_ok] in *.
  - destruct argv as [|w argv]; [by apply Forall_singleton|]. destruct (can_exec _); [by apply Forall_singleton|].
    apply Forall_app. split; [apply starts_said|by apply Forall_singleton].
  - destruct (can_open _ _); [apply IH; [apply standard_insert; [lia|done]|tauto]|].
    apply Forall_app. split; [apply starts_said|by apply Forall_singleton].
  - pose proof (IHl (<[1 := Pipe_write n]> fds) (S n) ltac:(apply standard_insert; [lia|done]) ltac:(tauto)) as Hl.
    destruct (meaning line l _ _) as [es1 n1].
    pose proof (IHr (<[0 := Pipe_read n]> fds) n1 ltac:(apply standard_insert; [lia|done]) ltac:(tauto)) as Hr.
    destruct (meaning line r _ _) as [es2 n2]. do 2 (constructor; [by apply starts_child|]). by repeat constructor.
  - pose proof (IHl fds n Hs ltac:(tauto)) as Hl. destruct (meaning line l _ _) as [es1 n1].
    pose proof (IHr fds n1 Hs ltac:(tauto)) as Hr. destruct (meaning line r _ _) as [es2 n2].
    constructor; [by apply starts_child|]. by constructor.
  - pose proof (IH fds n Hs Hc) as Hl. destruct (meaning line c _ _) as [es1 n1]. constructor; [by apply starts_child|by apply Forall_singleton].
Qed.

End trace.

(** The parser redirects descriptors 0 and 1 only. *)
Lemma redirect_ok k c q eq : redirs_ok c → redirs_ok (redirect k c q eq).
Proof. intros Hc. unfold redirect. repeat case_match; cbn; auto. Qed.

Lemma add_arg_redirs q eq c : redirs_ok c → redirs_ok (add_arg q eq c).
Proof. induction c; cbn; tauto. Qed.

Lemma redirs_keep c d ts : Redirs c d ts → redirs_ok c → redirs_ok d.
Proof. induction 1; auto using redirect_ok. Qed.

Lemma items_keep c n d ts : Items c n d ts → redirs_ok c → redirs_ok d.
Proof. induction 1; auto using redirect_ok, add_arg_redirs. Qed.

Lemma line_redirs :
  (∀ c ts, Line c ts → redirs_ok c) ∧ (∀ c ts, Pipeline c ts → redirs_ok c) ∧ (∀ c ts, Simple c ts → redirs_ok c).
Proof.
  assert (∀ n c, redirs_ok c → redirs_ok (Nat.iter n BACK c)) as Hiter by (intros n c Hc; by induction n).
  apply grammar_ind; cbn; eauto using redirs_keep.
  intros n d ts HI _. by apply (items_keep _ _ _ _ HI).
Qed.

Lemma parsed_redirs k buf c line : 0 ∉ buf → (4 * length buf + 4 ≤ k)%nat → parsecmd k buf = Parsed (c, line) → redirs_ok c.
Proof.
  intros Hnul Hk Hp. destruct (lexes_exists (length buf) buf 0 ltac:(lia)) as (ts&HL&_).
  destruct (parsecmd_parses buf k ts Hnul Hk HL) as [(d&Hd&HLine)|(?&?&_)]; [|congruence].
  rewrite Hd in Hp. injection Hp as <- <-. by apply (proj1 line_redirs d ts).
Qed.

(** C14: a parsed command runs as it means: each program is started with its
    arguments, its redirections and its ends of the pipes, in the order the
    operators say, and with exactly three open descriptors, so that a reader of a
    pipe sees its end when the writers are gone. *)
Theorem runcmd_correct can_exec can_open k buf c line fds s :
  0 ∉ buf → (4 * length buf + 4 ≤ k)%nat → parsecmd k buf = Parsed (c, line) → standard fds →
  trace can_exec can_open (runcmd line c) fds s =
    (let '(es, n) := meaning can_exec can_open line c fds (pipes s) in (es, Io (typed s) n)) ∧
  Forall (starts_with standard) (meaning can_exec can_open line c fds (pipes s)).1.
Proof.
  intros Hnul Hk Hp Hs. pose proof (parsed_redirs k buf c line Hnul Hk Hp). split; [by apply runcmd_ok|by apply meaning_standard].
Qed.

(** ** The shell's loop *)

Section session.
Context (can_exec : list Z → bool) (can_open : list Z → Z → bool) (fuel : nat) (fds : table).

(** A line that fits the buffer, with its newline. *)
Definition line_ok (l : list Z) : Prop :=
  ∃ body, l = body ++ [10] ∧ Forall (λ c, c ≠ 0 ∧ c ≠ 10 ∧ c ≠ 13) body ∧ (length l ≤ 99)%nat.

(** What a line makes the shell do. *)
Definition line_events (l : list Z) (n : nat) : list event * nat :=
  if bool_decide (take 3 l = str_bytes "cd ") then ([Moved (drop 3 (chop l))], n)
  else
    let '(es, n) :=
      match parsecmd fuel l with
      | Parsed (c, line) => meaning can_exec can_open line c fds n
      | Fail text => (said 2 text ++ [Exited 1], n)
      | Deep => ([], n)
      end in
    ([Child es; Waited], n).

Definition prompt : event := Said 2 [36; 32].

(** The lines in order, each after a prompt. *)
Fixpoint session (ls : list (list Z)) (n : nat) : list event * nat :=
  match ls with
  | [] => ([prompt; Exited 0], n)
  | l :: ls' =>
      let '(es, n) := line_events l n in
      let '(rest, n) := session ls' n in
      (prompt :: es ++ rest, n)
  end.

Lemma gets_line left acc body rest k n :
  Forall (λ c, c ≠ 0 ∧ c ≠ 10 ∧ c ≠ 13) body → (length body < left)%nat →
  trace can_exec can_open (gets left acc k) fds (Io (body ++ [10] ++ rest) n) =
    trace can_exec can_open (k (acc ++ body ++ [10])) fds (Io rest n).
Proof.
  intros Hb. revert left acc. induction Hb as [|c body (H0&H1&H2) Hb IH]; intros [|left] acc Hl; cbn in Hl; try lia.
  - done.
  - cbn [gets trace app typed pipes]. change (Z.to_nat 1) with 1%nat. cbn [take drop length head default Z.of_nat].
    unfold id. assert ((c =? 10) || (c =? 13) = false) as -> by lia. rewrite take_0, drop_0. cbn [length].
    change (Z.of_nat 1 <? 1) with false. cbn iota. change (body ++ 10 :: rest) with (body ++ [10] ++ rest).
    rewrite IH by lia. by rewrite <-app_assoc.
Qed.

Lemma line_nonzero l : line_ok l → 0 ∉ l ∧ cstr l = l ∧ l ≠ [].
Proof.
  intros (body&->&Hb&_). assert (Forall (λ x, x ≠ 0) (body ++ [10])) as HF.
  { apply Forall_app. split; [|by apply Forall_singleton]. eapply Forall_impl; [exact Hb|]. by intros c (?&_). }
  split; [|split; [by apply cstr_nonzero|by destruct body]]. intros H. rewrite Forall_forall in HF. by apply (HF 0).
Qed.

Lemma run_line_ok l s :
  line_ok l → standard fds → (400 ≤ fuel)%nat →
  trace can_exec can_open (run_line fuel l) fds s =
    let '(es, n) :=
      match parsecmd fuel l with
      | Parsed (c, line) => meaning can_exec can_open line c fds (pipes s)
      | Fail text => (said 2 text ++ [Exited 1], pipes s)
      | Deep => ([], pipes s)
      end in
    (es, Io (typed s) n).
Proof.
  intros Hl Hs Hf. destruct (line_nonzero l Hl) as (Hnul&_&_). destruct Hl as (body&_&_&Hlen). unfold run_line. destruct s as [inp n].
  destruct (parsecmd fuel l) as [[c line]|text|] eqn:E; [|by rewrite trace_say|done].
  apply runcmd_ok; [done|]. apply (parsed_redirs fuel l c line); [done|lia|done].
Qed.

Lemma sh_loop_ok ls k n :
  Forall line_ok ls → standard fds → (400 ≤ fuel)%nat → (length ls < k)%nat →
  trace can_exec can_open (sh_loop k fuel) fds (Io (concat ls) n) = let '(es, n) := session ls n in (es, Io [] n).
Proof.
  intros Hls Hs Hf. revert k n. induction Hls as [|l ls Hl Hls IH]; intros [|k] n Hk; cbn in Hk; try lia;
    cbn [sh_loop session]; unfold getcmd, just; cbn [trace].
  - cbn. done.
  - destruct (line_nonzero l Hl) as (Hnul&Hc&Hne). pose proof Hl as (body&El&Hb&Hlen).
    assert (concat (l :: ls) = body ++ [10] ++ concat ls) as -> by (cbn; rewrite El, <-app_assoc; done).
    rewrite gets_line; [|done|rewrite El, length_app in Hlen; cbn in Hlen; lia]. cbn [app]. rewrite <-El, Hc.
    destruct l as [|c l']; [done|]. unfold line_events. case_bool_decide as Ecd.
    + cbn [trace]. change (0 <? 0) with false. cbn iota. rewrite IH by lia. by destruct (session ls n).
    + unfold fork1, just. cbn [trace]. change (0 =? -1) with false. change (0 =? 0) with true. change (2 =? -1) with false.
      change (2 =? 0) with false. cbn iota. rewrite run_line_ok by done. cbn [pipes typed].
      destruct (match parsecmd fuel (c :: l') with Parsed _ => _ | Fail _ => _ | Deep => _ end) as [es n1]. cbn [trace].
      rewrite IH by lia. by destruct (session ls n1).
Qed.

End session.

(** C33: the shell reads the lines typed at it one by one until the end of the
    input, prompts before each, changes directory itself for cd, and runs every
    other line in a child it waits for, which executes the command or reports the
    syntax error. *)
Theorem shell_session can_exec can_open fuel fds ls k n :
  Forall line_ok ls → standard fds → (400 ≤ fuel)%nat → (length ls < k)%nat → can_open (str_bytes "console") O_RDWR = true →
  trace can_exec can_open (sh_main k fuel) fds (Io (concat ls) n) =
    let '(es, n) := session can_exec can_open fuel fds ls n in (es, Io [] n).
Proof.
  intros Hls Hs Hf Hk Ho. destruct k as [|k]; [lia|]. unfold sh_main. cbn [open_console trace]. rewrite Ho, lowest_standard by done.
  cbn [Z.leb Z.compare Pos.compare Pos.compare_cont]. unfold just. cbn [trace].
  rewrite delete_insert_id by (by apply standard_None). by apply sh_loop_ok.
Qed.

(** The last byte of a cd line is dropped also when it is not a newline, as at the
    end of the input. *)
Lemma cd_chops :
  (trace (λ _, true) (λ _ _, true) (sh_loop 2 0) ∅ (Io (str_bytes "cd ab") 0)).1 =
    [prompt; Moved (str_bytes "a"); prompt; Exited 0].
Proof. by vm_compute. Qed.

(** ** Examples *)

Definition terminal : table := <[0 := Other 0]> (<[1 := Other 0]> (<[2 := Other 0]> ∅)).

Lemma terminal_standard : standard terminal.
Proof.
  intros fd. unfold terminal. rewrite !lookup_insert_is_Some, lookup_empty. split.
  - intros [H|[_ [H|[_ [H|[_ [? H]]]]]]]; [lia..|done].
  - intros H. destruct (decide (0 = fd)); [tauto|]. destruct (decide (1 = fd)); [tauto|]. destruct (decide (2 = fd)); [tauto|]. lia.
Qed.

Lemma runcmd_correct_witness :
  trace (λ _, true) (λ _ _, true) (runcmd example_terminated example_cmd) terminal (Io [] 0) =
    (let '(es, n) := meaning (λ _, true) (λ _ _, true) example_terminated example_cmd terminal 0 in (es, Io [] n)) ∧
  Forall (starts_with standard) (meaning (λ _, true) (λ _ _, true) example_terminated example_cmd terminal 0).1.
Proof.
  apply (runcmd_correct (λ _, true) (λ _ _, true) 64 example_line example_cmd example_terminated terminal (Io [] 0));
    [apply (bool_decide_unpack _); by vm_compute|vm_compute; lia|by vm_compute|exact terminal_standard].
Defined.

Definition two_lines : list (list Z) := [str_bytes "cd d" ++ [10]; str_bytes "a | b" ++ [10]].

Lemma two_lines_ok : Forall line_ok two_lines.
Proof.
  repeat constructor; [exists (str_bytes "cd d")|exists (str_bytes "a | b")];
    (split; [done|split; [|vm_compute; lia]]; vm_compute; repeat constructor; lia).
Qed.

Lemma shell_session_witness :
  trace (λ _, true) (λ _ _, true) (sh_main 3 400) terminal (Io (concat two_lines) 0) =
    let '(es, n) := session (λ _, true) (λ _ _, true) 400 terminal two_lines 0 in (es, Io [] n).
Proof.
  apply (shell_session (λ _, true) (λ _ _, true) 400 terminal two_lines 3 0);
    [exact two_lines_ok|exact terminal_standard|lia|cbn; lia|done].
Defined.
