(* ===== verification/Grind.v ===== *)
(** * user/grind.c: random system calls

    The generator is shown to be multiplication modulo the prime 2^31 - 1; the
    program is the tree of its calls. The two loops that never end take
    fuel. *)

From S2P Require Import Prelude State Mem Kstring User Uprintf Prog Programs Shell.
From Stdlib Require Import Znumtheory.

(** ** The generator *)

(** [do_rand]: the new [*ctx], which is also its result; [ctx] is a 64-bit number
    and the [long] arithmetic stays within 32 bits. *)
Definition do_rand (ctx : Z) : Z :=
  let x := ctx mod 2147483646 + 1 in
  let hi := x / 127773 in
  let lo := x mod 127773 in
  let x := 16807 * lo - 2836 * hi in
  let x := if x <? 0 then x + 2147483647 else x in
  x - 1.

(** ** The program *)

Record grind : Type := Grind {
  g_fd : Z;
  g_buf : list Z;
  g_break0 : Z;
  g_iters : Z;
  g_rand : Z;
}.

Definition set_g_fd (fd : Z) (g : grind) : grind := Grind fd (g_buf g) (g_break0 g) (g_iters g) (g_rand g).
Definition set_g_buf (buf : list Z) (g : grind) : grind := Grind (g_fd g) buf (g_break0 g) (g_iters g) (g_rand g).

Definition O_CREATE_RDWR : Z := Z.lor O_CREATE O_RDWR.

(** [close(open(path, O_CREATE|O_RDWR))]. *)
Definition touch (path : string) (next : prog) : prog :=
  Do (Open (str path) O_CREATE_RDWR) (λ fd _, just (Close fd) next).

(** A message and [exit(code)]. *)
Definition quit (fd : Z) (msg : string) (code : Z) : prog := print_line fd msg [] (Exit code).

(** [fork()] with the child's code and the parent's; a failure ends the program. *)
Definition fork_or (fd : Z) (code : Z) (child : prog) (parent : Z → prog) : prog :=
  Do Fork (λ pid _,
    if pid =? 0 then child else if pid <? 0 then quit fd "grind: fork failed" code else parent pid).

(** [echo hi | cat], read back; an unsuccessful [wait] leaves [junk] in the
    status. *)
Definition exit_status (junk : Z) (bytes : list Z) : Z := match bytes with [] => junk | _ => i32 (of_le bytes) end.

Definition quoted (s : string) : string := String (Ascii.ascii_of_nat 34) EmptyString +:+ s +:+ String (Ascii.ascii_of_nat 34) EmptyString.

Definition echo_child (aa bb : Z * Z) : prog :=
  just (Close bb.1) (just (Close bb.2) (just (Close aa.1) (just (Close 1)
    (Do (Dup aa.2) (λ d _,
      if negb (d =? 1) then quit 2 "grind: dup failed" 1
      else
        just (Close aa.2) (just (Exec (str "grindir/../echo") [str "echo"; str "hi"]) (quit 2 "grind: echo: not found" 2))))))).

Definition cat_child (aa bb : Z * Z) : prog :=
  just (Close aa.2) (just (Close bb.1) (just (Close 0)
    (Do (Dup aa.1) (λ d _,
      if negb (d =? 0) then quit 2 "grind: dup failed" 4
      else
        just (Close aa.1) (just (Close 1)
          (Do (Dup bb.2) (λ d _,
            if negb (d =? 1) then quit 2 "grind: dup failed" 5
            else
              just (Close bb.2) (just (Exec (str "/cat") [str "cat"]) (quit 2 "grind: cat: not found" 6))))))))).

(** [buf[i]] after [read(bb[0], buf+i, 1)]. *)
Definition first_byte (bytes : list Z) : Z := default 0 (head bytes).

Definition pipeline_check (junk : Z) (bb0 : Z) (next : prog) : prog :=
  Do (Read bb0 1) (λ _ b0, Do (Read bb0 1) (λ _ b1, Do (Read bb0 1) (λ _ b2,
    just (Close bb0)
      (Do Wait (λ _ s1, Do Wait (λ _ s2,
        let st1 := exit_status junk s1 in
        let st2 := exit_status junk s2 in
        let buf := cstr [first_byte b0; first_byte b1; first_byte b2; 0] in
        if negb (st1 =? 0) || negb (st2 =? 0) || negb (bool_decide (buf = str ("hi" +:+ nl))) then
          print_line 1 ("grind: exec pipeline failed %d %d " +:+ quoted "%s") [U_int st1; U_int st2; U_str (Some buf)] (Exit 1)
        else next)))))).

Definition with_pipe (fd : Z) (k : Z * Z → prog) : prog :=
  Do Pipe (λ r fds,
    match fds with
    | [p0; p1] => if r <? 0 then quit fd "grind: pipe failed" 1 else k (p0, p1)
    | _ => quit fd "grind: pipe failed" 1
    end).

Definition pipeline (junk : Z) (next : prog) : prog :=
  with_pipe 2 (λ aa, with_pipe 2 (λ bb,
    fork_or 2 3 (echo_child aa bb) (λ _,
    fork_or 2 7 (cat_child aa bb) (λ _,
      just (Close aa.1) (just (Close aa.2) (just (Close bb.2) (pipeline_check junk bb.1 next))))))).

(** Branch 21: a file of one byte. *)
Definition check_c (next : prog) : prog :=
  just (Unlink (str "c"))
    (Do (Open (str "c") O_CREATE_RDWR) (λ fd1 _,
      if fd1 <? 0 then quit 1 "grind: create c failed" 1
      else Do (Write fd1 (str "x")) (λ n _,
        if negb (n =? 1) then quit 1 "grind: write c failed" 1
        else Do (Fstat fd1) (λ r st,
          if negb (r =? 0) then quit 1 "grind: fstat failed" 1
          else if negb (st_size st =? 1) then print_line 1 "grind: fstat reports wrong size %d" [U_int (i32 (st_size st))] (Exit 1)
          else if 200 <? st_ino st then print_line 1 "grind: fstat reports crazy i-number %d" [U_int (st_ino st)] (Exit 1)
          else just (Close fd1) (just (Unlink (str "c")) next))))).

(** Branch 19: writing and reading a pipe in the child and its children. *)
Definition pipe_writer (fds : Z * Z) : prog :=
  just Fork (just Fork
    (Do (Write fds.2 (str "x")) (λ n _,
      let rest :=
        Do (Read fds.1 1) (λ n _, if negb (n =? 1) then print_line 1 "grind: pipe read failed" [] (Exit 0) else Exit 0) in
      if negb (n =? 1) then print_line 1 "grind: pipe write failed" [] rest else rest))).

(** One round of the loop of [go], for the number [what]. *)
Definition go_step (junk what : Z) (g : grind) (next : grind → prog) : prog :=
  let wait := just Wait (next g) in
  if what =? 1 then touch "grindir/../a" (next g)
  else if what =? 2 then touch "grindir/../grindir/../b" (next g)
  else if what =? 3 then just (Unlink (str "grindir/../a")) (next g)
  else if what =? 4 then
    Do (Chdir (str "grindir")) (λ r _,
      if negb (r =? 0) then quit 1 "grind: chdir grindir failed" 1
      else just (Unlink (str "../b")) (just (Chdir (str "/")) (next g)))
  else if what =? 5 then just (Close (g_fd g)) (Do (Open (str "/grindir/../a") O_CREATE_RDWR) (λ fd _, next (set_g_fd fd g)))
  else if what =? 6 then just (Close (g_fd g)) (Do (Open (str "/./grindir/./../b") O_CREATE_RDWR) (λ fd _, next (set_g_fd fd g)))
  else if what =? 7 then just (Write (g_fd g) (g_buf g)) (next g)
  else if what =? 8 then Do (Read (g_fd g) 999) (λ _ bytes, next (set_g_buf (splice (g_buf g) 0 bytes) g))
  else if what =? 9 then just (Mkdir (str "grindir/../a")) (touch "a/../a/./a" (just (Unlink (str "a/a")) (next g)))
  else if what =? 10 then just (Mkdir (str "/../b")) (touch "grindir/../b/b" (just (Unlink (str "b/b")) (next g)))
  else if what =? 11 then just (Unlink (str "b")) (just (Link (str "../grindir/./../a") (str "../b")) (next g))
  else if what =? 12 then just (Unlink (str "../grindir/../a")) (just (Link (str ".././b") (str "/grindir/../a")) (next g))
  else if what =? 13 then fork_or 1 1 (Exit 0) (λ _, wait)
  else if what =? 14 then fork_or 1 1 (just Fork (just Fork (Exit 0))) (λ _, wait)
  else if what =? 15 then just (Sbrk 6011) (next g)
  else if what =? 16 then
    Do (Sbrk 0) (λ a _,
      if g_break0 g <? a then Do (Sbrk 0) (λ a _, just (Sbrk (i32 (- (a - g_break0 g)))) (next g)) else next g)
  else if what =? 17 then
    fork_or 1 1 (touch "a" (Exit 0)) (λ pid,
      Do (Chdir (str "../grindir/..")) (λ r _,
        if negb (r =? 0) then quit 1 "grind: chdir failed" 1 else just (Kill pid) wait))
  else if what =? 18 then fork_or 1 1 (Do Getpid (λ pid _, just (Kill pid) (Exit 0))) (λ _, wait)
  else if what =? 19 then with_pipe 1 (λ fds, fork_or 1 1 (pipe_writer fds) (λ _, just (Close fds.1) (just (Close fds.2) wait)))
  else if what =? 20 then
    fork_or 1 1
      (just (Unlink (str "a")) (just (Mkdir (str "a")) (just (Chdir (str "a")) (just (Unlink (str "../a"))
        (just (Open (str "x") O_CREATE_RDWR) (just (Unlink (str "x")) (Exit 0)))))))
      (λ _, wait)
  else if what =? 21 then check_c (next g)
  else if what =? 22 then pipeline junk (next g)
  else next g.

Fixpoint go_loop (k : nat) (junk which_child : Z) (g : grind) : prog :=
  match k with
  | O => Spin
  | S k' =>
      let iters := u64 (g_iters g + 1) in
      let x := do_rand (g_rand g) in
      let round := go_step junk (x mod 23) (Grind (g_fd g) (g_buf g) (g_break0 g) iters x) (go_loop k' junk which_child) in
      if iters mod 500 =? 0 then just (Write 1 (str (if which_child =? 0 then "A" else "B"))) round else round
  end.

Definition go (k : nat) (junk which_child rand_next : Z) : prog :=
  Do (Sbrk 0) (λ break0 _,
    just (Mkdir (str "grindir"))
      (Do (Chdir (str "grindir")) (λ r _,
        if negb (r =? 0) then quit 1 "grind: chdir grindir failed" 1
        else just (Chdir (str "/")) (go_loop k junk which_child (Grind (-1) (replicate 999 0) break0 0 rand_next))))).

(** [fork()] in [iter] and [main]. *)
Definition iter (k : nat) (junk rand_next : Z) : prog :=
  let failed := quit 1 "grind: fork failed" 1 in
  just (Unlink (str "a")) (just (Unlink (str "b"))
    (Do Fork (λ pid1 _,
      if pid1 <? 0 then failed
      else if pid1 =? 0 then go k junk 0 (Z.lxor rand_next 31)
      else Do Fork (λ pid2 _,
        if pid2 <? 0 then failed
        else if pid2 =? 0 then go k junk 1 (Z.lxor rand_next 7177)
        else Do Wait (λ _ s1,
          let last := just Wait (Exit 0) in
          if negb (exit_status (-1) s1 =? 0) then just (Kill pid1) (just (Kill pid2) last) else last))))).

Fixpoint grind_loop (n k : nat) (junk rand_next : Z) : prog :=
  match n with
  | O => Spin
  | S n' =>
      Do Fork (λ pid _,
        let again := just (Sleep 20) (grind_loop n' k junk (u64 (rand_next + 1))) in
        if pid =? 0 then iter k junk rand_next else if 0 <? pid then just Wait again else again)
  end.

Definition grind_main (n k : nat) (junk : Z) : prog := grind_loop n k junk 1.

(** ** Properties *)

Lemma multiplier_prime x : 0 < x < 2147483647 → (16807 * x) mod 2147483647 ≠ 0.
Proof.
  intros Hx E. apply Z.mod_divide in E; [|lia]. apply Z.gauss in E; [|reflexivity].
  apply Z.divide_pos_le in E; lia.
Qed.

(** One step before the results are moved into their range. *)
Lemma schrage x :
  0 < x < 2147483647 →
  let y := 16807 * (x mod 127773) - 2836 * (x / 127773) in
  -47664652 ≤ y ≤ 2147464004 ∧ (16807 * x) mod 2147483647 = if y <? 0 then y + 2147483647 else y.
Proof.
  intros Hx y. pose proof (Z.div_mod x 127773 ltac:(lia)) as Hd. pose proof (Z.mod_pos_bound x 127773 ltac:(lia)) as Hm.
  assert (0 ≤ x / 127773 ≤ 16807) as Hh by (split; [apply Z.div_pos; lia|]; apply Z.lt_succ_r, Z.div_lt_upper_bound; lia).
  split; [unfold y; lia|]. assert (16807 * x = 2147483647 * (x / 127773) + y) as E by (unfold y; lia).
  destruct (y <? 0) eqn:Hy; symmetry.
  - apply (Z.mod_unique _ _ (x / 127773 - 1)); unfold y in *; lia.
  - apply (Z.mod_unique _ _ (x / 127773)); unfold y in *; lia.
Qed.

(** the generator of grind computes 7^5 times its seed modulo the prime
    2^31 - 1, on seeds moved to the range from 1, with no intermediate value beyond
    32 bits; its results stay in the range from 0 to 2^31 - 3, and different seeds
    of that range have different successors. *)
Theorem do_rand_correct ctx :
  0 ≤ ctx →
  let x := ctx mod 2147483646 + 1 in
  do_rand ctx + 1 = (16807 * x) mod 2147483647 ∧ 0 ≤ do_rand ctx < 2147483646 ∧
  (- 2 ^ 31 ≤ 16807 * (x mod 127773) - 2836 * (x / 127773) < 2 ^ 31) ∧
  ∀ c, 0 ≤ c < 2147483646 → 0 ≤ ctx < 2147483646 → do_rand c = do_rand ctx → c = ctx.
Proof.
  assert (∀ c, 0 < c mod 2147483646 + 1 < 2147483647) as Hr by (intros c; pose proof (Z.mod_pos_bound c 2147483646 ltac:(lia)); lia).
  assert (∀ c, do_rand c + 1 = (16807 * (c mod 2147483646 + 1)) mod 2147483647) as Hd.
  { intros c. destruct (schrage _ (Hr c)) as [_ ->]. unfold do_rand. destruct (_ <? 0); lia. }
  intros Hc x. destruct (schrage x (Hr ctx)) as [Hy _]. pose proof (multiplier_prime x (Hr ctx)) as Hne.
  pose proof (Z.mod_pos_bound (16807 * x) 2147483647 ltac:(lia)) as Hb. specialize (Hd ctx) as Hx. fold x in Hx.
  split_and!; [exact Hx|lia|lia|lia|lia|]. intros c Hcr Hctx E.
  assert ((16807 * (c + 1)) mod 2147483647 = (16807 * (ctx + 1)) mod 2147483647) as Em.
  { rewrite <-(Z.mod_small c 2147483646), <-(Z.mod_small ctx 2147483646), <-!Hd by lia. lia. }
  assert ((16807 * (c - ctx)) mod 2147483647 = 0) as Ez.
  { replace (16807 * (c - ctx)) with (16807 * (c + 1) - 16807 * (ctx + 1)) by lia. rewrite Zminus_mod, Em, Z.sub_diag. done. }
  destruct (Z.lt_trichotomy c ctx) as [Hlt|[?|Hgt]]; [|done|].
  - exfalso. apply (multiplier_prime (ctx - c)); [lia|]. replace (16807 * (ctx - c)) with (- (16807 * (c - ctx))) by lia. by apply Z_mod_zero_opp_full.
  - exfalso. by apply (multiplier_prime (c - ctx)); [lia|].
Qed.

Lemma do_rand_correct_witness :
  0 ≤ 1 ∧ do_rand 1 = 33613 ∧ 0 ≤ do_rand 1 < 2147483646.
Proof.
  split; [lia|]. destruct (do_rand_correct 1 ltac:(lia)) as (H1&H2&_). split; [|exact H2].
  vm_compute in H1 |- *. lia.
Defined.

(** [echo hi | cat] of branch 22: with the two pipes open, echo writes to the
    first, cat reads from it and writes to the second, and neither is started with
    another end open. *)
Lemma pipeline_children n inp m :
  let fds := <[6 := Pipe_write (S n)]> (<[5 := Pipe_read (S n)]> (<[4 := Pipe_write n]> (<[3 := Pipe_read n]> terminal))) in
  let run p := trace (λ _, true) (λ _ _, true) p fds (Io inp m) in
  run (echo_child (3, 4) (5, 6)) =
    ([Started (str "grindir/../echo") [str "echo"; str "hi"] (<[1 := Pipe_write n]> terminal)], Io inp m) ∧
  run (cat_child (3, 4) (5, 6)) =
    ([Started (str "/cat") [str "cat"] (<[0 := Pipe_read n]> (<[1 := Pipe_write (S n)]> terminal))], Io inp m).
Proof. split; vm_compute; reflexivity. Qed.
