(* ===== verification/Mkfs.v ===== *)
(** * mkfs/mkfs.c: building a file system image

    The image is the map of the sectors written to it. A failed host call, a
    failed [assert] and [die] end the program, here [None]; the host's file
    operations themselves succeed. The numbers are stored in the byte order of
    the machine xv6 runs on, as the kernel's structures of Fs.v are. *)

From S2P Require Import Prelude State Mem Kstring Spinlock Kalloc Vm Proc ProcSpec SchedSpec Uart UartSpec.
From S2P Require Import Printf PrintfSpec Sleeplock SleepSpec Bio BioList BioSpec BioInit Log LogSpec LogTxn FsTxn Fs FsBlock.
From S2P Require Import FsInode FsSlots.

(** ** Model *)

Definition NINODES : Z := 200.

(** [xshort] and [xint]: the bytes, least significant first, read back as a
    number. *)
Definition xshort (x : Z) : Z := of_le (to_le 2 x).
Definition xint (x : Z) : Z := of_le (to_le 4 x).

Definition nbitmap : Z := FSSIZE / (BSIZE * 8) + 1.
Definition ninodeblocks : Z := NINODES / IPB + 1.
Definition nlog : Z := LOGSIZE.
Definition nmeta : Z := 2 + nlog + ninodeblocks + nbitmap.
Definition nblocks : Z := FSSIZE - nmeta.

Definition mk_sb : superblock :=
  Superblock FSMAGIC (xint FSSIZE) (xint nblocks) (xint NINODES) (xint nlog) (xint 2) (xint (2 + nlog))
    (xint (2 + nlog + ninodeblocks)).

(** The image and the counters [freeinode] and [freeblock]. *)
Record mkfs : Type := Mkfs {
  img : gmap Z (list Z);
  freeinode : Z;
  freeblock : Z;
}.

Definition mk (A : Type) : Type := mkfs → option (A * mkfs).

#[global] Instance mk_ret : MRet mk := λ A a s, Some (a, s).
#[global] Instance mk_bind : MBind mk := λ A B f m s, match m s with Some (a, s') => f a s' | None => None end.

Definition assert_ (b : bool) : mk unit := λ s, if b then Some (tt, s) else None.

Definition wsect (sec : Z) (buf : list Z) : mk unit :=
  λ s, Some (tt, Mkfs (<[sec := buf]> (img s)) (freeinode s) (freeblock s)).

(** Reading past the end of the image is an error. *)
Definition rsect (sec : Z) : mk (list Z) :=
  λ s, match img s !! sec with Some buf => Some (buf, s) | None => None end.

(** [freeinode++] and [freeblock++]. *)
Definition next_inode : mk Z := λ s, Some (freeinode s, Mkfs (img s) (u32 (freeinode s + 1)) (freeblock s)).
Definition next_block : mk Z := λ s, Some (freeblock s, Mkfs (img s) (freeinode s) (u32 (freeblock s + 1))).

Definition winode (inum : Z) (ip : inode) : mk unit :=
  let bn := IBLOCK inum mk_sb in
  buf ← rsect bn;
  wsect bn (put_dinode buf (dinode_off inum) ip).

(** The dinode; what a dinode does not have is as [dnode] has it. *)
Definition rinode (inum : Z) : mk inode :=
  buf ← rsect (IBLOCK inum mk_sb);
  let o := dinode_off inum in
  mret (Inode ROOTDEV inum 1 1 (di_type buf o) (di_major buf o) (di_minor buf o) (di_nlink buf o) (di_size buf o)
    (di_addrs buf o)).

Definition ialloc (type : Z) : mk Z :=
  inum ← next_inode;
  winode inum (Inode ROOTDEV inum 1 1 (xshort type) 0 0 (xshort 1) (xint 0) (replicate 13 0));;
  mret inum.

(** The loop of [balloc]. *)
Fixpoint mark_used (n : nat) (i : Z) (buf : list Z) : list Z :=
  match n with
  | O => buf
  | S n' => mark_used n' (i + 1) (<[Z.to_nat (i / 8) := Z.lor (byte_at buf (i / 8)) (Z.shiftl 1 (i mod 8))]> buf)
  end.

Definition balloc (used : Z) : mk unit :=
  assert_ (used <? BSIZE * 8);;
  wsect (sb_bmapstart mk_sb) (mark_used (Z.to_nat used) 0 (replicate 1024 0)).

(** [addr din k] is [din.addrs[k]] and [with_addr k a din] stores [a] there:
    [if(xint(din.addrs[k]) == 0) din.addrs[k] = xint(freeblock++)]. *)
Definition ensure (k : Z) (din : inode) : mk inode :=
  if xint (addr din k) =? 0 then b ← next_block; mret (with_addr k (xint b) din) else mret din.

(** The entry at byte [e] of indirect block [ind]. *)
Definition ensure_entry (ind : Z) (e : nat) : mk Z :=
  indirect ← rsect ind;
  indirect ←
    (if get32 indirect e =? 0 then
       b ← next_block;
       let indirect := put32 indirect e (xint b) in
       wsect ind indirect;;
       mret indirect
     else mret indirect);
  mret (xint (get32 indirect e)).

(** The block for block [fbn] of the file, allocated if there is none. *)
Definition place (fbn : Z) (din : inode) : mk (inode * Z) :=
  if fbn <? NDIRECT then
    din ← ensure fbn din;
    mret (din, xint (addr din fbn))
  else
    din ← ensure NDIRECT din;
    x ← ensure_entry (xint (addr din NDIRECT)) (4 * Z.to_nat (fbn - NDIRECT));
    mret (din, x).

(** The loop of [iappend] with [p] the bytes still to append; the fuel is their
    number. *)
Fixpoint iappend_loop (k : nat) (din : inode) (p : list Z) (off : Z) : mk (inode * Z) :=
  match k with
  | O => mret (din, off)
  | S k' =>
      if 0 <? Z.of_nat (length p) then
        let fbn := off / BSIZE in
        assert_ (fbn <? MAXFILE);;
        r ← place fbn din;
        let '(din, x) := r in
        let n1 := Z.min (Z.of_nat (length p)) ((fbn + 1) * BSIZE - off) in
        buf ← rsect x;
        wsect x (splice buf (Z.to_nat (off - fbn * BSIZE)) (take (Z.to_nat n1) p));;
        iappend_loop k' din (drop (Z.to_nat n1) p) (off + n1)
      else mret (din, off)
  end.

Definition iappend (inum : Z) (p : list Z) : mk unit :=
  din ← rinode inum;
  let off := xint (i_size din) in
  r ← iappend_loop (length p) din p off;
  let '(din, off) := r in
  winode inum (set_i_size (xint off) din).

(** [struct dirent] with the name cut and padded to [DIRSIZ] bytes. *)
Definition dirent (inum : Z) (name : list Z) : list Z :=
  to_le 2 (xshort inum) ++ take 14 (name ++ replicate 14 0).

(** [argv[i]] without [user/] and without the leading underscore. *)
Definition shortname (arg : list Z) : option (list Z) :=
  let s := if bool_decide (take 5 arg = str_bytes "user/") then drop 5 arg else arg in
  if existsb (Z.eqb 47) s then None
  else Some (match s with c :: s' => if c =? 95 then s' else s | [] => s end).

Fixpoint append_all (inum : Z) (pieces : list (list Z)) : mk unit :=
  match pieces with
  | [] => mret tt
  | p :: pieces' => iappend inum p;; append_all inum pieces'
  end.

(** One argument: its name and what the successive calls of [read] deliver. *)
Definition add_file (rootino : Z) (file : list Z * list (list Z)) : mk unit :=
  match shortname file.1 with
  | None => λ _, None
  | Some name =>
      inum ← ialloc T_FILE;
      iappend rootino (dirent inum name);;
      append_all inum file.2
  end.

Fixpoint add_files (rootino : Z) (files : list (list Z * list (list Z))) : mk unit :=
  match files with
  | [] => mret tt
  | f :: files' => add_file rootino f;; add_files rootino files'
  end.

(** The superblock as it lies in its block. *)
Definition sb_block : list Z :=
  let sb := mk_sb in
  concat (to_le 4 <$> [sb_magic sb; sb_size sb; sb_nblocks sb; sb_ninodes sb; sb_nlog sb; sb_logstart sb; sb_inodestart sb; sb_bmapstart sb])
    ++ replicate 992 0.

(** [for(i = 0; i < FSSIZE; i++) wsect(i, zeroes)]. *)
Fixpoint wzeroes (n : nat) (i : Z) : mk unit :=
  match n with O => mret tt | S n' => wsect i (replicate 1024 0);; wzeroes n' (i + 1) end.

Definition main (files : list (list Z * list (list Z))) : mk unit :=
  wzeroes (Z.to_nat FSSIZE) 0;;
  wsect 1 sb_block;;
  rootino ← ialloc T_DIR;
  assert_ (rootino =? ROOTINO);;
  iappend rootino (dirent rootino (str_bytes "."));;
  iappend rootino (dirent rootino (str_bytes ".."));;
  add_files rootino files;;
  din ← rinode rootino;
  let off := xint (i_size din) in
  let off := (off / BSIZE + 1) * BSIZE in
  winode rootino (set_i_size (xint off) din);;
  used ← (λ s, Some (freeblock s, s));
  balloc used.

(** [freeinode] is 1 and [freeblock] is [nmeta] at the start. *)
Definition run_mkfs (files : list (list Z * list (list Z))) : option mkfs :=
  snd <$> main files (Mkfs ∅ 1 nmeta).
