(* ===== verification/MkfsSpec.v ===== *)
(** * mkfs builds a file system the kernel can use

    The invariant of the image under construction: every block of a file, and
    every indirect block, is used once and lies below [freeblock]; a file has
    exactly the blocks its size needs; what has not been written is zero.
    [iappend] extends one file and leaves the others alone. The image at the end
    has the superblock, the bitmap, the directory and the files that the
    theorems on the kernel's file system ask for. *)

From stdpp Require Import functions.
From S2P Require Import Prelude State Mem Kstring Spinlock Kalloc Vm Proc ProcSpec SchedSpec Uart UartSpec.
From S2P Require Import Printf PrintfSpec Sleeplock SleepSpec Bio BioList BioSpec BioInit Log LogSpec LogTxn FsTxn Fs FsBlock.
From S2P Require Import FsInode FsTable FsDir FsPath FsSlots Mkfs.

(** ** Description *)

Definition sectors (s : mkfs) (b : Z) : list Z := default [] (img s !! b).

(** The number of blocks of a file of [n] bytes. *)
Definition blocks (n : Z) : Z := (n + 1023) / 1024 + (if 12288 <? n then 1 else 0).

(** Inodes [ips] over sectors [v]: no block is used twice. *)
Record image_ok (ips : Z → inode) (v : Z → list Z) (fb : Z) : Prop := {
  im_fb : 46 ≤ fb ≤ 2000;
  im_len b : 0 ≤ b < 2000 → length (v b) = 1024%nat;
  im_byte b : 0 ≤ b < 2000 → Forall (λ x, 0 ≤ x < 256) (v b);
  im_node i : 0 ≤ i < 200 → inode_ok (ips i);
  im_range i k : 0 ≤ i < 200 → 0 ≤ k < 269 → slot v (ips i) k ≠ 0 → 46 ≤ slot v (ips i) k < fb;
  im_inj i k j l : 0 ≤ i < 200 → 0 ≤ k < 269 → 0 ≤ j < 200 → 0 ≤ l < 269 →
    slot v (ips i) k ≠ 0 → slot v (ips i) k = slot v (ips j) l → i = j ∧ k = l;
  im_zero b : fb ≤ b < 2000 → v b = zero_block;
}.

(** A file of [n] bytes has the blocks its size needs, and the rest of its last
    block is zero. *)
Record file_full (v : Z → list Z) (ip : inode) (n : Z) : Prop := {
  ff_size : 0 ≤ n ≤ 268 * 1024;
  ff_slot k : 0 ≤ k < 269 → slot v ip k ≠ 0 ↔ needed k * 1024 < n;
  ff_tail off : n ≤ off < 268 * 1024 → block_at v ip (off / 1024) ≠ 0 → file_byte v ip off = 0;
}.

(** ** Slots *)

Lemma xint_id x : 0 ≤ x < 4294967296 → xint x = x.
Proof. intros H. unfold xint. by apply of_le_to_le. Qed.

Lemma xshort_id x : 0 ≤ x < 65536 → xshort x = x.
Proof. intros H. unfold xshort. by apply of_le_to_le. Qed.

(** Giving an inode a fresh block, in a free slot. *)
Definition gains (ips : Z → inode) (v : Z → list Z) (i k fb : Z) (ips' : Z → inode) (v' : Z → list Z) : Prop :=
  (∀ j l, 0 ≤ j < 200 → 0 ≤ l < 269 → slot v' (ips' j) l = if decide (j = i ∧ l = k) then fb else slot v (ips j) l) ∧
  (∀ j, 0 ≤ j < 200 → inode_ok (ips' j)) ∧
  (∀ b, 0 ≤ b < 2000 → length (v' b) = 1024%nat ∧ Forall (λ x, 0 ≤ x < 256) (v' b)) ∧
  (∀ b, v' b = v b ∨ b = slot v (ips i) 12 ∧ slot v (ips i) 12 ≠ 0).

Section gains.
Context (ips : Z → inode) (v : Z → list Z) (i k fb : Z) (ips' : Z → inode) (v' : Z → list Z).
Context (Hok : image_ok ips v fb) (Hi : 0 ≤ i < 200) (Hk : 0 ≤ k < 269) (Hfb : fb < 2000) (Hfree : slot v (ips i) k = 0).
Context (Hg : gains ips v i k fb ips' v').

Lemma gains_data b : fb ≤ b ∨ (∃ j l, 0 ≤ j < 200 ∧ 0 ≤ l < 269 ∧ l ≠ 12 ∧ b = slot v (ips j) l) ∧ b ≠ 0 → v' b = v b.
Proof.
  intros Hb. destruct Hg as (_&_&_&Hv). destruct (Hv b) as [->|[E Hne]]; [done|].
  pose proof (im_range _ _ _ Hok i 12 Hi ltac:(lia) Hne). destruct Hb as [Hb|[(j&l&Hj&Hl&Hl12&Hb) Hb0]]; [lia|].
  destruct (im_inj _ _ _ Hok i 12 j l Hi ltac:(lia) Hj Hl Hne) as [_ ?]; congruence.
Qed.

Lemma gains_ok : image_ok ips' v' (fb + 1).
Proof.
  destruct Hok as [H1 H2 H2' H3 H4 H5 H6]. pose proof Hg as (Hs&Hn&Hl&Hv). split.
  - lia.
  - intros b Hb. by apply Hl.
  - intros b Hb. by apply Hl.
  - done.
  - intros j l Hj Hl'. rewrite Hs by done. case_decide; [lia|]. intros Hne. specialize (H4 j l Hj Hl' Hne). lia.
  - intros j l j' l' Hj Hl1 Hj' Hl'. rewrite (Hs j l), (Hs j' l') by done.
    destruct (decide (j = i ∧ l = k)) as [[-> ->]|_], (decide (j' = i ∧ l' = k)) as [[-> ->]|_]; intros Hne E.
    + done.
    + exfalso. destruct (decide (slot v (ips j') l' = 0)) as [?|Hne']; [lia|]. specialize (H4 j' l' Hj' Hl' Hne'). lia.
    + exfalso. specialize (H4 j l Hj Hl1 Hne). lia.
    + by apply H5.
  - intros b Hb. rewrite gains_data by lia. apply H6. lia.
Qed.

End gains.

(** ** Allocating a block *)

(** A fresh block as direct or as indirect block. *)
Lemma gains_addr ips v fb i k :
  image_ok ips v fb → 0 ≤ i < 200 → 0 ≤ k ≤ 12 → fb < 2000 → slot v (ips i) k = 0 →
  gains ips v i k fb (<[i := with_addr k fb (ips i)]> ips) v.
Proof.
  intros [H1 H2 H2' H3 H4 H5 H6] Hi Hk Hfb Hfree. split_and!.
  - intros j l Hj Hl. destruct (decide (j = i)) as [->|Hne].
    + rewrite fn_lookup_insert. unfold slot in *. assert ((k <? 13) = true) as Ek by lia. rewrite Ek in Hfree.
      destruct (l <? 13) eqn:El.
      * rewrite addr_with_addr by (auto || lia). repeat case_decide; (done || lia).
      * rewrite (decide_False (P := i = i ∧ l = k)) by lia. rewrite addr_with_addr by (auto || lia). case_decide as E12; [|done].
        subst k. rewrite Hfree. rewrite (H6 fb) by lia. rewrite get32_zero. by destruct (fb =? 0).
    + rewrite fn_lookup_insert_ne by done. rewrite decide_False by tauto. done.
  - intros j Hj. destruct (decide (j = i)) as [->|Hne]; [|rewrite fn_lookup_insert_ne by done; auto].
    rewrite fn_lookup_insert. apply with_addr_ok; [auto|lia].
  - auto.
  - auto.
Qed.

(** A fresh block in the indirect block. *)
Lemma gains_entry ips v fb i e v' :
  image_ok ips v fb → 0 ≤ i < 200 → 0 ≤ e < 256 → fb < 2000 → slot v (ips i) 12 ≠ 0 → slot v (ips i) (13 + e) = 0 →
  let x := slot v (ips i) 12 in
  (∀ b, v' b = if decide (b = x) then put32 (v x) (4 * Z.to_nat e) fb else v b) →
  gains ips v i (13 + e) fb ips v'.
Proof.
  intros [H1 H2 H2' H3 H4 H5 H6] Hi He Hfb Hx Hfree x Hv. pose proof (H4 i 12 Hi ltac:(lia) Hx) as Hxr. fold x in Hxr, Hx.
  assert (length (v x) = 1024%nat) as Hlx by (apply H2; lia). split_and!; [|done| |].
  - intros j l Hj Hl. unfold slot at 1. destruct (l <? 13) eqn:El; [rewrite decide_False by lia; unfold slot; by rewrite El|].
    assert (slot v (ips j) l = if addr (ips j) 12 =? 0 then 0 else get32 (v (addr (ips j) 12)) (4 * Z.to_nat (l - 13))) as Hs
      by (unfold slot; by rewrite El).
    rewrite Hs. destruct (addr (ips j) 12 =? 0) eqn:E0.
    { rewrite decide_False; [done|]. intros [-> _]. apply Hx. unfold x, slot. cbn. lia. }
    rewrite Hv. destruct (decide (addr (ips j) 12 = x)) as [E|E].
    + destruct (H5 i 12 j 12) as [-> _]; [lia|lia|lia|lia|done|unfold slot at 2; cbn; done|]. rewrite E.
      destruct (decide (j = j ∧ l = 13 + e)) as [[_ ->]|Hne].
      * replace (13 + e - 13) with e by lia. apply get32_put32_same; lia.
      * apply get32_put32_other; lia.
    + rewrite decide_False; [done|]. intros [-> _]. apply E. done.
  - intros b Hb. rewrite Hv. case_decide as E; [subst b|auto]. split.
    + rewrite length_put32; lia.
    + apply Forall_splice; [by apply H2'; lia|apply to_le_bytes].
  - intros b. rewrite Hv. case_decide as E; [right; by subst|by left].
Qed.

(** ** Growing an inode's blocks *)

Record grows (ips : Z → inode) (v : Z → list Z) (i : Z) (ips' : Z → inode) (v' : Z → list Z) : Prop := {
  gr_slot j l : 0 ≤ j < 200 → 0 ≤ l < 269 → slot v (ips j) l ≠ 0 → slot v' (ips' j) l = slot v (ips j) l;
  gr_other j l : 0 ≤ j < 200 → 0 ≤ l < 269 → j ≠ i → slot v' (ips' j) l = slot v (ips j) l;
  gr_block j l : 0 ≤ j < 200 → 0 ≤ l < 269 → l ≠ 12 → slot v (ips j) l ≠ 0 → v' (slot v (ips j) l) = v (slot v (ips j) l);
  gr_meta b : 0 ≤ b < 46 → v' b = v b;
  gr_ips j : j ≠ i → ips' j = ips j;
  gr_rest : ∃ a, ips' i = set_i_addrs a (ips i);
  gr_new l : 0 ≤ l < 269 → l ≠ 12 → slot v (ips i) l = 0 → slot v' (ips' i) l ≠ 0 → v' (slot v' (ips' i) l) = zero_block;
}.

Lemma set_i_addrs_twice a b ip : set_i_addrs a (set_i_addrs b ip) = set_i_addrs a ip.
Proof. done. Qed.

Lemma grows_refl ips v i : grows ips v i ips v.
Proof. split; try done. exists (i_addrs (ips i)). by destruct (ips i). Qed.

(** One block more. *)
Lemma gains_grows ips v i k fb ips' v' :
  image_ok ips v fb → 0 ≤ i < 200 → 0 ≤ k < 269 → fb < 2000 → slot v (ips i) k = 0 → gains ips v i k fb ips' v' →
  (∀ j, j ≠ i → ips' j = ips j) → (∃ a, ips' i = set_i_addrs a (ips i)) → grows ips v i ips' v'.
Proof.
  intros Hok Hi Hk Hfb Hfree Hg Hips Hrest. pose proof Hg as (Hs&_&_&Hv). split; [| | | |done|done|].
  - intros j l Hj Hl Hne. rewrite Hs by done. apply decide_False. intros [-> ->]. done.
  - intros j l Hj Hl Hne. rewrite Hs by done. apply decide_False. tauto.
  - intros j l Hj Hl Hl12 Hne. apply (gains_data ips v i k fb ips' v' Hok Hi Hg). right. split; [by exists j, l|done].
  - intros b Hb. destruct (Hv b) as [->|[-> Hne]]; [done|]. pose proof (im_range _ _ _ Hok i 12 Hi ltac:(lia) Hne). lia.
  - intros l Hl Hl12 Hl0. rewrite Hs by done. case_decide as E; [|done]. intros _. destruct E as [_ ->].
    rewrite (gains_data ips v i k fb ips' v' Hok Hi Hg) by lia. apply (im_zero _ _ _ Hok). pose proof (im_fb _ _ _ Hok). lia.
Qed.

Lemma grows_trans ips v i ips1 v1 ips2 v2 :
  0 ≤ i < 200 → grows ips v i ips1 v1 → grows ips1 v1 i ips2 v2 → grows ips v i ips2 v2.
Proof.
  intros Hi [A1 A2 A3 A4 A5 [a A6] A7] [B1 B2 B3 B4 B5 [b B6] B7]. split.
  - intros j l Hj Hl Hne. pose proof (A1 j l Hj Hl Hne) as E. rewrite B1 by (done || by rewrite E). exact E.
  - intros j l Hj Hl Hne. by rewrite B2, A2.
  - intros j l Hj Hl H12 Hne. pose proof (A1 j l Hj Hl Hne) as E. rewrite <-(A3 j l) by done. rewrite <-E. apply B3; [done..|by rewrite E].
  - intros x Hx. by rewrite B4, A4.
  - intros j Hj. by rewrite B5, A5.
  - exists b. by rewrite B6, A6.
  - intros l Hl H12 H0 Hne. destruct (decide (slot v1 (ips1 i) l = 0)) as [E|E]; [by apply B7|].
    rewrite B1, B3 by done. by apply A7.
Qed.

(** What a file holds is kept. *)
Lemma grows_byte ips v i ips' v' j off :
  grows ips v i ips' v' → 0 ≤ j < 200 → 0 ≤ off < 268 * 1024 → block_at v (ips j) (off / 1024) ≠ 0 →
  block_at v' (ips' j) (off / 1024) = block_at v (ips j) (off / 1024) ∧ file_byte v' (ips' j) off = file_byte v (ips j) off.
Proof.
  intros Hg Hj Hoff Hne. assert (0 ≤ off / 1024 < 268) as Hb by zdm. destruct (slot_of_range _ Hb) as (Hr&H12&_).
  unfold file_byte. change BSIZE with 1024. rewrite !block_slot in * by lia. rewrite (gr_slot _ _ _ _ _ Hg) by done.
  split; [done|]. by rewrite (gr_block _ _ _ _ _ Hg).
Qed.

(** Whether a slot is still to be filled. *)
Definition fresh (v : Z → list Z) (ip : inode) (k : Z) : Z := if slot v ip k =? 0 then 1 else 0.

Lemma ensure_ok ips s i k :
  let v := sectors s in
  image_ok ips v (freeblock s) → 0 ≤ i < 200 → 0 ≤ k ≤ 12 → freeblock s + fresh v (ips i) k ≤ 2000 →
  ∃ din' fb', ensure k (ips i) s = Some (din', Mkfs (img s) (freeinode s) fb') ∧ fb' = freeblock s + fresh v (ips i) k ∧
    image_ok (<[i := din']> ips) v fb' ∧ grows ips v i (<[i := din']> ips) v ∧
    (∀ l, 0 ≤ l < 269 → slot v din' l ≠ 0 ↔ slot v (ips i) l ≠ 0 ∨ l = k) ∧
    (∀ l, 0 ≤ l < 269 → l ≠ k → slot v din' l = slot v (ips i) l).
Proof.
  intros v Hok Hi Hk Hroom. pose proof (im_fb _ _ _ Hok) as Hfb. pose proof (im_node _ _ _ Hok i Hi) as Hnode.
  assert (slot v (ips i) k = addr (ips i) k) as Hsl by (unfold slot; assert ((k <? 13) = true) as -> by lia; done).
  unfold ensure, fresh in *. rewrite Hsl in *. rewrite xint_id by (by apply addr_range). destruct (addr (ips i) k =? 0) eqn:E.
  - exists (with_addr k (freeblock s) (ips i)), (freeblock s + 1). rewrite <-Hsl in E. apply Z.eqb_eq in E.
    pose proof (gains_addr ips v (freeblock s) i k Hok Hi Hk ltac:(lia) E) as Hg.
    assert (∀ l, 0 ≤ l < 269 → slot v (with_addr k (freeblock s) (ips i)) l = if decide (l = k) then freeblock s else slot v (ips i) l) as Hslots.
    { intros l Hl. destruct Hg as (Hs&_). specialize (Hs i l Hi Hl). rewrite fn_lookup_insert in Hs. rewrite Hs. apply decide_ext. tauto. }
    split_and!.
    + change (Some (with_addr k (xint (freeblock s)) (ips i), Mkfs (img s) (freeinode s) (u32 (freeblock s + 1))) =
        Some (with_addr k (freeblock s) (ips i), Mkfs (img s) (freeinode s) (freeblock s + 1))).
      by rewrite xint_id, u32_small by lia.
    + done.
    + apply (gains_ok ips v i k (freeblock s)); (done || lia).
    + apply (gains_grows ips v i k (freeblock s)); [exact Hok|done|lia|lia|done|exact Hg|intros j Hj; by rewrite fn_lookup_insert_ne|].
      rewrite fn_lookup_insert. by eexists.
    + intros l Hl. rewrite Hslots by done. case_decide as E2; [subst; split; [by right|lia]|]. tauto.
    + intros l Hl Hne. rewrite Hslots by done. by rewrite decide_False.
  - exists (ips i), (freeblock s). rewrite Z.add_0_r.
    assert (∀ j, <[i := ips i]> ips j = ips j) as Hsame.
    { intros j. destruct (decide (j = i)) as [->|]; [by rewrite fn_lookup_insert|by rewrite fn_lookup_insert_ne]. }
    split_and!; [by destruct s|done| | | |done].
    + destruct Hok. split; intros *; rewrite ?Hsame; eauto.
    + destruct (grows_refl ips v i) as [G1 G2 G3 G4 G5 G6 G7]. split; intros *; rewrite ?Hsame; eauto.
    + intros l Hl. split; [by left|]. intros [?| ->]; [done|lia].
Qed.

(** ** Sectors *)

Lemma rsect_ok s b : length (sectors s b) = 1024%nat → rsect b s = Some (sectors s b, s).
Proof. unfold rsect, sectors. destruct (img s !! b); [done|]. cbn. lia. Qed.

Lemma sectors_write s b d x :
  sectors (Mkfs (<[b := d]> (img s)) (freeinode s) (freeblock s)) x = if decide (x = b) then d else sectors s x.
Proof.
  unfold sectors. cbn. case_decide as E; [subst; by rewrite lookup_insert_eq|]. by rewrite lookup_insert_ne.
Qed.

Lemma mk_bind_Some {A B : Type} (m : mk A) (f : A → mk B) s a s' : m s = Some (a, s') → (m ≫= f) s = f a s'.
Proof. intros E. unfold mbind, mk_bind. by rewrite E. Qed.

Lemma entry_ok ips s i e :
  let v := sectors s in
  image_ok ips v (freeblock s) → 0 ≤ i < 200 → 0 ≤ e < 256 → slot v (ips i) 12 ≠ 0 →
  freeblock s + fresh v (ips i) (13 + e) ≤ 2000 →
  ∃ s', ensure_entry (addr (ips i) 12) (4 * Z.to_nat e) s = Some (slot (sectors s') (ips i) (13 + e), s') ∧
    freeblock s' = freeblock s + fresh v (ips i) (13 + e) ∧ freeinode s' = freeinode s ∧
    image_ok ips (sectors s') (freeblock s') ∧ grows ips v i ips (sectors s') ∧
    (∀ l, 0 ≤ l < 269 → slot (sectors s') (ips i) l ≠ 0 ↔ slot v (ips i) l ≠ 0 ∨ l = 13 + e).
Proof.
  intros v Hok Hi He H12 Hroom. pose proof (im_fb _ _ _ Hok) as Hfb. set (x := addr (ips i) 12).
  assert (slot v (ips i) 12 = x) as Hx by done. rewrite Hx in H12.
  pose proof (im_range _ _ _ Hok i 12 Hi ltac:(lia)) as Hxr. rewrite Hx in Hxr. specialize (Hxr H12).
  assert (∀ w, slot w (ips i) (13 + e) = get32 (w x) (4 * Z.to_nat e)) as Hsl.
  { intros w. unfold slot. assert ((13 + e <? 13) = false) as -> by lia. fold x. rewrite (proj2 (Z.eqb_neq x 0)) by done.
    by replace (13 + e - 13) with e by lia. }
  unfold ensure_entry. rewrite (mk_bind_Some _ _ s (v x) s) by (apply rsect_ok, (im_len _ _ _ Hok); lia).
  pose proof (get32_range (v x) (4 * Z.to_nat e) ltac:(apply (im_byte _ _ _ Hok); lia)) as Hgr.
  unfold fresh in *. rewrite Hsl in *. destruct (get32 (v x) (4 * Z.to_nat e) =? 0) eqn:E.
  - set (s' := Mkfs (<[x := put32 (v x) (4 * Z.to_nat e) (freeblock s)]> (img s)) (freeinode s) (freeblock s + 1)).
    assert (∀ b, sectors s' b = if decide (b = x) then put32 (v x) (4 * Z.to_nat e) (freeblock s) else v b) as Hv'.
    { intros b. apply (sectors_write s). }
    pose proof (gains_entry ips v (freeblock s) i e (sectors s') Hok Hi He ltac:(lia)) as Hg. rewrite Hx, Hsl in Hg.
    specialize (Hg H12 ltac:(lia) Hv'). exists s'. split_and!.
    + rewrite (mk_bind_Some _ _ s (put32 (v x) (4 * Z.to_nat e) (freeblock s)) s').
      * unfold mret, mk_ret. do 3 f_equal. rewrite xint_id, Hsl, Hv', decide_True; [done|done|]. rewrite get32_put32_same; [lia| |lia].
        rewrite (im_len _ _ _ Hok) by lia. lia.
      * change (Some (put32 (v x) (4 * Z.to_nat e) (xint (freeblock s)),
          Mkfs (<[x := put32 (v x) (4 * Z.to_nat e) (xint (freeblock s))]> (img s)) (freeinode s) (u32 (freeblock s + 1))) =
          Some (put32 (v x) (4 * Z.to_nat e) (freeblock s), s')). by rewrite xint_id, u32_small by lia.
    + done.
    + done.
    + apply (gains_ok ips v i (13 + e) (freeblock s)); (done || lia).
    + apply (gains_grows ips v i (13 + e) (freeblock s)); [done|done|lia|lia|rewrite Hsl; lia|done|done|].
      exists (i_addrs (ips i)). by destruct (ips i).
    + intros l Hl. destruct Hg as (Hs&_). rewrite Hs by done. case_decide as E2; [split; [tauto|lia]|]. tauto.
  - exists s. split_and!; [|lia|done|done|apply grows_refl|].
    + unfold mbind, mk_bind, mret, mk_ret. do 3 f_equal. by rewrite xint_id, Hsl.
    + intros l Hl. split; [by left|]. intros [?| ->]; [done|]. rewrite Hsl. fold v. lia.
Qed.

(** ** Placing a block of a file *)

Definition more (v : Z → list Z) (ip : inode) (bn : Z) : Z :=
  fresh v ip (slot_of bn) + (if 12 <=? bn then fresh v ip 12 else 0).

Lemma fresh_bound v ip k : 0 ≤ fresh v ip k ≤ 1.
Proof. unfold fresh. case_test; lia. Qed.

Lemma slot_range ips v fb i k : image_ok ips v fb → 0 ≤ i < 200 → 0 ≤ k < 269 → 0 ≤ slot v (ips i) k < 2000.
Proof.
  intros Hok Hi Hk. pose proof (im_fb _ _ _ Hok). destruct (decide (slot v (ips i) k = 0)) as [->|Hne]; [lia|].
  pose proof (im_range _ _ _ Hok i k Hi Hk Hne). lia.
Qed.

Lemma place_ok ips s i bn :
  let v := sectors s in
  image_ok ips v (freeblock s) → 0 ≤ i < 200 → 0 ≤ bn < 268 → freeblock s + more v (ips i) bn ≤ 2000 →
  ∃ din' s', place bn (ips i) s = Some ((din', slot (sectors s') din' (slot_of bn)), s') ∧
    freeblock s' = freeblock s + more v (ips i) bn ∧ freeinode s' = freeinode s ∧
    image_ok (<[i := din']> ips) (sectors s') (freeblock s') ∧ grows ips v i (<[i := din']> ips) (sectors s') ∧
    (∀ l, 0 ≤ l < 269 → slot (sectors s') din' l ≠ 0 ↔ slot v (ips i) l ≠ 0 ∨ l = slot_of bn ∨ 12 ≤ bn ∧ l = 12).
Proof.
  intros v Hok Hi Hbn Hroom. unfold place, more, slot_of in *. change NDIRECT with 12. destruct (bn <? 12) eqn:Ebn.
  - assert ((12 <=? bn) = false) as E12 by lia. rewrite ?Ebn, E12 in *.
    destruct (ensure_ok ips s i bn Hok Hi ltac:(lia) ltac:(fold v; lia)) as (din'&fb'&E&Hfb'&Hok'&Hg&Hs&_).
    exists din', (Mkfs (img s) (freeinode s) fb'). rewrite (mk_bind_Some _ _ _ _ _ E).
    assert (slot v din' bn = addr din' bn) as Hsl by (unfold slot; assert ((bn <? 13) = true) as -> by lia; done).
    pose proof (slot_range _ _ _ i bn Hok' Hi ltac:(lia)) as Hr. rewrite fn_lookup_insert in Hr. fold v in Hr, Hs, Hfb'.
    split_and!; [|cbn; lia|done|done|done|].
    + unfold mret, mk_ret. do 3 f_equal. change (sectors _) with v. rewrite xint_id; [done|]. lia.
    + intros l Hl. change (sectors _) with v. rewrite (Hs l Hl). intuition lia.
  - assert ((12 <=? bn) = true) as E12 by lia. rewrite ?Ebn, E12 in *.
    pose proof (fresh_bound v (ips i) (bn + 1)). pose proof (fresh_bound v (ips i) 12).
    destruct (ensure_ok ips s i 12 Hok Hi ltac:(lia) ltac:(fold v; lia)) as (din1&fb1&E&Hfb1&Hok1&Hg1&Hs1&Hs1').
    fold v in Hfb1, Hok1, Hg1, Hs1, Hs1'.
    rewrite (mk_bind_Some _ _ _ _ _ E). set (s1 := Mkfs (img s) (freeinode s) fb1) in *. set (ips1 := <[i := din1]> ips) in *.
    assert (ips1 i = din1) as Hi1 by apply fn_lookup_insert.
    assert (fresh v din1 (bn + 1) = fresh v (ips i) (bn + 1)) as Hf by (unfold fresh; rewrite Hs1' by lia; done).
    assert (slot v (ips1 i) 12 ≠ 0) as Hne12 by (rewrite Hi1; apply Hs1; [lia|by right]).
    destruct (entry_ok ips1 s1 i (bn - 12)) as (s2&E2&Hfb2&Hfi2&Hok2&Hg2&Hs2); [done|done|lia|done| |].
    { cbn. change (sectors s1) with v. rewrite Hi1. replace (13 + (bn - 12)) with (bn + 1) by lia. rewrite Hf. lia. }
    change (sectors s1) with v in *. rewrite Hi1 in *. replace (13 + (bn - 12)) with (bn + 1) in * by lia.
    exists din1, s2. pose proof (slot_range _ _ _ i 12 Hok1 Hi ltac:(lia)) as Hr.
    assert (slot v (ips1 i) 12 = addr din1 12) as Hsl by (by rewrite Hi1). rewrite Hsl in Hr.
    rewrite xint_id by lia. rewrite (mk_bind_Some _ _ _ _ _ E2).
    split_and!; [done|cbn in Hfb2; lia|done|done|by eapply grows_trans|].
    intros l Hl. rewrite (Hs2 l Hl), (Hs1 l Hl). intuition lia.
Qed.

(** ** Writing a block *)

Lemma write_ok ips v fb i k v' buf :
  image_ok ips v fb → 0 ≤ i < 200 → 0 ≤ k < 269 → k ≠ 12 → slot v (ips i) k ≠ 0 →
  length buf = 1024%nat → Forall (λ x, 0 ≤ x < 256) buf →
  (∀ b, v' b = if decide (b = slot v (ips i) k) then buf else v b) →
  image_ok ips v' fb ∧ (∀ j l, 0 ≤ j < 200 → 0 ≤ l < 269 → slot v' (ips j) l = slot v (ips j) l).
Proof.
  intros Hok Hi Hk H12 Hne Hlen Hbytes Hv. pose proof (im_range _ _ _ Hok i k Hi Hk Hne) as Hr.
  assert (∀ j l, 0 ≤ j < 200 → 0 ≤ l < 269 → slot v' (ips j) l = slot v (ips j) l) as Hs.
  { intros j l Hj Hl. unfold slot. destruct (l <? 13); [done|]. destruct (addr (ips j) 12 =? 0) eqn:E0; [done|].
    rewrite Hv, decide_False; [done|]. intros E.
    destruct (im_inj _ _ _ Hok i k j 12 Hi Hk Hj ltac:(lia) Hne) as [_ ?]; [|done]. by rewrite <-E. }
  split; [|done]. destruct Hok as [H1 H2 H2' H3 H4 H5 H6]. split; [done| | |done| | |].
  - intros b Hb. rewrite Hv. case_decide; auto.
  - intros b Hb. rewrite Hv. case_decide; auto.
  - intros j l Hj Hl. rewrite Hs by done. by apply H4.
  - intros j l j' l' Hj Hl Hj' Hl'. rewrite !Hs by done. by apply H5.
  - intros b Hb. rewrite Hv, decide_False by lia. by apply H6.
Qed.

(** ** What an append leaves alone *)

Record kept (ips : Z → inode) (v : Z → list Z) (i : Z) (ips' : Z → inode) (v' : Z → list Z) : Prop := {
  kp_slot j l : 0 ≤ j < 200 → 0 ≤ l < 269 → j ≠ i → slot v' (ips' j) l = slot v (ips j) l;
  kp_block j l : 0 ≤ j < 200 → 0 ≤ l < 269 → j ≠ i → l ≠ 12 → slot v (ips j) l ≠ 0 →
    v' (slot v (ips j) l) = v (slot v (ips j) l);
  kp_meta b : 0 ≤ b < 46 → v' b = v b;
  kp_ips j : j ≠ i → ips' j = ips j;
  kp_rest : ∃ a, ips' i = set_i_addrs a (ips i);
}.

Lemma kept_trans ips v i ips1 v1 ips2 v2 :
  kept ips v i ips1 v1 → kept ips1 v1 i ips2 v2 → kept ips v i ips2 v2.
Proof.
  intros [A1 A2 A3 A4 [a A5]] [B1 B2 B3 B4 [b B5]]. split.
  - intros j l Hj Hl Hne. by rewrite B1, A1.
  - intros j l Hj Hl Hne H12 H0. pose proof (A1 j l Hj Hl Hne) as E. rewrite <-(A2 j l) by done. rewrite <-E. apply B2; [done..|by rewrite E].
  - intros x Hx. by rewrite B3, A3.
  - intros j Hj. by rewrite B4, A4.
  - exists b. by rewrite B5, A5.
Qed.

Lemma grows_kept ips v i ips' v' : grows ips v i ips' v' → kept ips v i ips' v'.
Proof. intros [G1 G2 G3 G4 G5 G6 G7]. by split; auto. Qed.

Lemma kept_byte ips v i ips' v' j off :
  kept ips v i ips' v' → 0 ≤ j < 200 → j ≠ i → 0 ≤ off < 268 * 1024 →
  block_at v' (ips' j) (off / 1024) = block_at v (ips j) (off / 1024) ∧
  (block_at v (ips j) (off / 1024) ≠ 0 → file_byte v' (ips' j) off = file_byte v (ips j) off).
Proof.
  intros Hg Hj Hne Hoff. assert (0 ≤ off / 1024 < 268) as Hb by zdm. destruct (slot_of_range _ Hb) as (Hr&H12&_).
  unfold file_byte. change BSIZE with 1024. rewrite !block_slot in * by lia. rewrite (kp_slot _ _ _ _ _ Hg) by done.
  split; [done|]. intros H0. by rewrite (kp_block _ _ _ _ _ Hg).
Qed.

Lemma kept_full ips v i ips' v' j n :
  kept ips v i ips' v' → 0 ≤ j < 200 → j ≠ i → file_full v (ips j) n → file_full v' (ips' j) n.
Proof.
  intros Hg Hj Hne [F1 F2 F3]. split; [done| |].
  - intros k Hk. rewrite (kp_slot _ _ _ _ _ Hg) by done. by apply F2.
  - intros off Hoff. destruct (kept_byte ips v i ips' v' j off Hg Hj Hne ltac:(lia)) as [-> Hbyte]. intros H0. rewrite Hbyte by done. by apply F3.
Qed.

(** ** Appending within a block *)

(** Allocation follows the size. *)
Lemma more_blocks v ip off n :
  file_full v ip off → off < 268 * 1024 → 0 < n → off mod 1024 + n ≤ 1024 →
  more v ip (off / 1024) = blocks (off + n) - blocks off.
Proof.
  intros [F1 F2 _] Hoff Hn Hfit. assert (0 ≤ off / 1024 < 268) as Hb by zdm.
  destruct (slot_of_range _ Hb) as (Hr&_&Hnd). pose proof (F2 _ Hr) as E1. pose proof (F2 12 ltac:(lia)) as E2. rewrite Hnd in E1.
  change (needed 12) with 12 in E2. unfold more, fresh, blocks.
  destruct (slot v ip (slot_of _) =? 0) eqn:Z1, (12 <=? off / 1024) eqn:Z2, (slot v ip 12 =? 0) eqn:Z3,
    (12288 <? off + n) eqn:Z4, (12288 <? off) eqn:Z5; zdm.
Qed.

(** The bytes of the file after [off / 1024]'s block took the bytes [c]. *)
Record extended (v : Z → list Z) (ip : inode) (off : Z) (c : list Z) (v' : Z → list Z) (ip' : inode) : Prop := {
  ex_old o : 0 ≤ o < off → file_byte v' ip' o = file_byte v ip o;
  ex_new o : off ≤ o < off + Z.of_nat (length c) → file_byte v' ip' o = byte_at c (o - off);
}.

Section chunk.
Context (ips : Z → inode) (v : Z → list Z) (i off : Z) (c : list Z).
Context (ips1 : Z → inode) (v1 v2 : Z → list Z) (fb1 : Z).
Context (Hi : 0 ≤ i < 200) (Hfull : file_full v (ips i) off) (Hoff : off < 268 * 1024).
Context (Hc : 0 < Z.of_nat (length c)) (Hcb : Forall (λ x, 0 ≤ x < 256) c) (Hfit : off mod 1024 + Z.of_nat (length c) ≤ 1024).
Context (Hok1 : image_ok ips1 v1 fb1) (Hg : grows ips v i ips1 v1).
Context (Hs1 : ∀ l, 0 ≤ l < 269 → slot v1 (ips1 i) l ≠ 0 ↔
  slot v (ips i) l ≠ 0 ∨ l = slot_of (off / 1024) ∨ 12 ≤ off / 1024 ∧ l = 12).

Let k := slot_of (off / 1024).
Let x := slot v1 (ips1 i) k.
Let buf := splice (v1 x) (Z.to_nat (off mod 1024)) c.

Context (Hv2 : ∀ b, v2 b = if decide (b = x) then buf else v1 b).

Lemma chunk_block : 0 ≤ off / 1024 < 268 ∧ 0 ≤ k < 269 ∧ k ≠ 12 ∧ x ≠ 0 ∧ 0 ≤ x < 2000 ∧ length (v1 x) = 1024%nat.
Proof.
  destruct Hfull as [? _ _]. assert (0 ≤ off / 1024 < 268) as Hb by zdm. destruct (slot_of_range _ Hb) as (Hr&H12&_).
  assert (x ≠ 0) by (apply Hs1; [done|by right; left]). pose proof (slot_range _ _ _ i k Hok1 Hi Hr) as Hx. fold x in Hx.
  split_and!; try done; try apply Hr; try apply Hx; try apply Hb. apply (im_len _ _ _ Hok1). lia.
Qed.

Lemma chunk_image : image_ok ips1 v2 fb1 ∧ (∀ j l, 0 ≤ j < 200 → 0 ≤ l < 269 → slot v2 (ips1 j) l = slot v1 (ips1 j) l).
Proof.
  destruct chunk_block as (Hb&Hr&H12&Hx&Hx2&Hlen). apply (write_ok ips1 v1 fb1 i k v2 buf); try done.
  - unfold buf. rewrite length_splice; [done|]. zdm.
  - apply Forall_splice; [|done]. apply (im_byte _ _ _ Hok1). lia.
Qed.

Lemma chunk_kept : kept ips v i ips1 v2.
Proof.
  destruct chunk_block as (Hb&Hr&H12&Hx&Hx2&Hlen). destruct chunk_image as [_ Hs2].
  eapply kept_trans; [by apply grows_kept|]. split; [auto| |  |done|].
  - intros j l Hj Hl Hne Hl12 H0. rewrite Hv2, decide_False; [done|]. intros E.
    destruct (im_inj _ _ _ Hok1 j l i k Hj Hl Hi Hr H0 E). done.
  - intros b Hbm. rewrite Hv2, decide_False; [done|]. pose proof (im_range _ _ _ Hok1 i k Hi Hr Hx) as Hxr. fold x in Hxr. lia.
  - exists (i_addrs (ips1 i)). by destruct (ips1 i).
Qed.

(** A byte after the write. *)
Lemma chunk_byte o :
  0 ≤ o < 268 * 1024 → block_at v1 (ips1 i) (o / 1024) ≠ 0 →
  block_at v2 (ips1 i) (o / 1024) = block_at v1 (ips1 i) (o / 1024) ∧
  file_byte v2 (ips1 i) o = if decide (off ≤ o < off + Z.of_nat (length c)) then byte_at c (o - off) else file_byte v1 (ips1 i) o.
Proof.
  intros Ho. destruct chunk_block as (Hb&Hr&H12&Hx&Hx2&Hlen). destruct chunk_image as [_ Hs2].
  assert (0 ≤ o / 1024 < 268) as Hb' by zdm. destruct (slot_of_range _ Hb') as (Hr'&_&Hn'). destruct (slot_of_range _ Hb) as (_&_&Hn).
  unfold file_byte. change BSIZE with 1024. rewrite !block_slot by lia. rewrite Hs2 by done. intros H0. split; [done|].
  rewrite Hv2. destruct (decide (slot v1 (ips1 i) (slot_of (o / 1024)) = x)) as [E|E].
  - destruct (im_inj _ _ _ Hok1 i _ i k Hi Hr' Hi Hr H0 E) as [_ Ek].
    assert (o / 1024 = off / 1024) as Eq by (rewrite <-Hn, <-Hn', Ek; done). rewrite E.
    unfold buf. rewrite byte_splice by zdm. destruct (decide (off ≤ o < _)) as [D|D].
    + rewrite decide_True by zdm. f_equal. zdm.
    + rewrite decide_False by zdm. done.
  - rewrite decide_False; [done|]. intros D. apply E. unfold x, k. do 2 f_equal. zdm.
Qed.

Lemma chunk_extended : extended v (ips i) off c v2 (ips1 i).
Proof.
  pose proof Hfull as [F1 F2 _]. destruct chunk_block as (Hb&_). split; intros o Ho; (assert (0 ≤ o / 1024 < 268) as Hb' by zdm);
    destruct (slot_of_range _ Hb') as (Hr'&_&Hn').
  - assert (block_at v (ips i) (o / 1024) ≠ 0) as H0 by (rewrite block_slot by lia; apply F2; [done|]; rewrite Hn'; zdm).
    destruct (grows_byte _ _ _ _ _ i o Hg Hi ltac:(lia) H0) as [Hbl Hby].
    destruct (chunk_byte o ltac:(lia) ltac:(by rewrite Hbl)) as [_ ->]. by rewrite decide_False by lia.
  - assert (o / 1024 = off / 1024) as Eq by zdm.
    destruct (chunk_byte o ltac:(zdm)) as [_ ->]; [|by rewrite decide_True by lia].
    rewrite block_slot by lia. apply Hs1; [done|]. right. left. by rewrite Eq.
Qed.

Lemma chunk_full : file_full v2 (ips1 i) (off + Z.of_nat (length c)).
Proof.
  pose proof Hfull as [F1 F2 F3]. destruct chunk_block as (Hb&Hk&_). destruct chunk_image as [_ Hs2].
  destruct (slot_of_range _ Hb) as (_&_&Hn). split.
  - zdm.
  - intros l Hl. rewrite Hs2, Hs1, F2 by done. unfold needed, slot_of in *. fold k.
    destruct (off / 1024 <? 12) eqn:E1, (l <? 13) eqn:E2; zdm.
  - intros o Ho. assert (0 ≤ o / 1024 < 268) as Hb' by zdm. destruct (slot_of_range _ Hb') as (Hr'&H12'&Hn'). intros H0.
    rewrite block_slot, Hs2, <-block_slot in H0 by lia.
    destruct (chunk_byte o ltac:(zdm) H0) as [_ ->]. rewrite decide_False by lia.
    destruct (decide (block_at v (ips i) (o / 1024) = 0)) as [E|E].
    + unfold file_byte. change BSIZE with 1024. rewrite block_slot in * by lia. rewrite (gr_new _ _ _ _ _ Hg) by done.
      unfold byte_at, zero_block. destruct (replicate _ _ !! _) eqn:L; [|done]. apply lookup_replicate in L as [-> _]. done.
    + destruct (grows_byte _ _ _ _ _ i o Hg Hi ltac:(lia) E) as [_ ->]. by apply F3; [lia|].
Qed.

End chunk.

(** One turn of the loop of [iappend]. *)
Lemma append_step ips s i off c k p rest :
  let n := Z.of_nat (length c) in
  image_ok ips (sectors s) (freeblock s) → 0 ≤ i < 200 → file_full (sectors s) (ips i) off → off < 268 * 1024 →
  Forall (λ x, 0 ≤ x < 256) c → 0 < n → p = c ++ rest → n = Z.min (Z.of_nat (length p)) ((off / 1024 + 1) * 1024 - off) →
  freeblock s + blocks (off + n) - blocks off ≤ 2000 →
  ∃ din' s', iappend_loop (S k) (ips i) p off s = iappend_loop k din' rest (off + n) s' ∧
    freeblock s' = freeblock s + blocks (off + n) - blocks off ∧ freeinode s' = freeinode s ∧
    image_ok (<[i := din']> ips) (sectors s') (freeblock s') ∧ kept ips (sectors s) i (<[i := din']> ips) (sectors s') ∧
    file_full (sectors s') din' (off + n) ∧ extended (sectors s) (ips i) off c (sectors s') din'.
Proof.
  intros n Hok Hi Hfull Hoff Hcb Hn Hp Hmin Hroom. pose proof (ff_size _ _ _ Hfull) as Hsz.
  assert (off mod 1024 + n ≤ 1024) as Hfit by zdm. pose proof (more_blocks _ _ _ n Hfull Hoff Hn Hfit) as Hmore.
  destruct (place_ok ips s i (off / 1024) Hok Hi ltac:(zdm) ltac:(lia)) as (din'&s1&Hpl&Hfb&Hfi&Hok1&Hg&Hs1).
  set (ips1 := <[i := din']> ips) in *. assert (ips1 i = din') as Hi1 by apply fn_lookup_insert.
  set (x := slot (sectors s1) din' (slot_of (off / 1024))) in *.
  set (buf := splice (sectors s1 x) (Z.to_nat (off mod 1024)) c).
  set (s2 := Mkfs (<[x := buf]> (img s1)) (freeinode s1) (freeblock s1)).
  rewrite <-Hi1 in Hs1. assert (∀ b, sectors s2 b = if decide (b = slot (sectors s1) (ips1 i) (slot_of (off / 1024))) then
    splice (sectors s1 (slot (sectors s1) (ips1 i) (slot_of (off / 1024)))) (Z.to_nat (off mod 1024)) c else sectors s1 b) as Hv2
    by (intros b; rewrite Hi1; apply sectors_write).
  destruct (chunk_block ips _ i off c ips1 (sectors s1) _ Hi Hfull Hoff Hok1 Hs1) as (Hb&_&_&_&_&Hlen). rewrite Hi1 in Hlen. fold x in Hlen.
  exists din', s2. split_and!.
  - cbn [iappend_loop]. rewrite (proj2 (Z.ltb_lt 0 _)) by lia. change BSIZE with 1024. change MAXFILE with 268.
    rewrite (proj2 (Z.ltb_lt (off / 1024) _)) by lia. rewrite (mk_bind_Some _ _ s tt s) by done. rewrite (mk_bind_Some _ _ _ _ _ Hpl).
    rewrite (mk_bind_Some _ _ _ _ _ (rsect_ok s1 x Hlen)). rewrite <-Hmin. unfold n. rewrite Nat2Z.id.
    subst p. rewrite take_app_length, drop_app_length. rewrite (mk_bind_Some _ _ s1 tt s2); [done|].
    unfold wsect. unfold s2, buf. do 5 f_equal. zdm.
  - change (freeblock s2) with (freeblock s1). lia.
  - done.
  - by apply (chunk_image ips (sectors s) i off c ips1 (sectors s1) (sectors s2)).
  - by apply (chunk_kept ips (sectors s) i off c ips1 (sectors s1) (sectors s2) (freeblock s1)).
  - rewrite <-Hi1. by apply (chunk_full ips (sectors s) i off c ips1 (sectors s1) (sectors s2) (freeblock s1)).
  - rewrite <-Hi1. by apply (chunk_extended ips (sectors s) i off c ips1 (sectors s1) (sectors s2) (freeblock s1)).
Qed.

Lemma blocks_mono a b : a ≤ b → blocks a ≤ blocks b.
Proof. intros H. unfold blocks. destruct (12288 <? a) eqn:E1, (12288 <? b) eqn:E2; zdm. Qed.

Lemma extended_trans v ip off c v1 ip1 rest v2 ip2 :
  0 ≤ off → extended v ip off c v1 ip1 → extended v1 ip1 (off + Z.of_nat (length c)) rest v2 ip2 → extended v ip off (c ++ rest) v2 ip2.
Proof.
  intros H0 [A1 A2] [B1 B2]. split; intros o Ho.
  - rewrite B1 by lia. apply A1. lia.
  - rewrite length_app in Ho. unfold byte_at. destruct (decide (o < off + Z.of_nat (length c))) as [E|E].
    + rewrite B1, A2 by lia. rewrite lookup_app_l by lia. done.
    + rewrite B2 by lia. unfold byte_at. rewrite lookup_app_r by lia. do 2 f_equal. lia.
Qed.

Lemma iappend_loop_ok k p : ∀ ips s i off,
  let n := Z.of_nat (length p) in
  (length p ≤ k)%nat → image_ok ips (sectors s) (freeblock s) → 0 ≤ i < 200 → file_full (sectors s) (ips i) off →
  off + n ≤ 268 * 1024 → Forall (λ x, 0 ≤ x < 256) p → freeblock s + blocks (off + n) - blocks off ≤ 2000 →
  ∃ ips' s', iappend_loop k (ips i) p off s = Some ((ips' i, off + n), s') ∧
    freeblock s' = freeblock s + blocks (off + n) - blocks off ∧ freeinode s' = freeinode s ∧
    image_ok ips' (sectors s') (freeblock s') ∧ kept ips (sectors s) i ips' (sectors s') ∧
    file_full (sectors s') (ips' i) (off + n) ∧ extended (sectors s) (ips i) off p (sectors s') (ips' i).
Proof.
  revert p. induction k as [|k IH]; intros p ips s i off n Hk Hok Hi Hfull Hsz Hpb Hroom.
  all: destruct (decide (p = [])) as [->|Hne].
  1, 3: exists ips, s; replace (off + n) with off by (cbn in n; lia);
    (split_and!; [done|lia|done|done|by apply grows_kept, grows_refl|done|]); split; [done|]; cbn; intros o Ho; lia.
  { destruct p; [done|]. cbn in Hk. lia. }
  pose proof (ff_size _ _ _ Hfull) as Hs0. assert (0 < n) as Hn by (destruct p; [done|]; cbn in n; lia).
  set (m := Z.min n ((off / 1024 + 1) * 1024 - off)). assert (0 < m ≤ n) as Hm by (unfold m; clearbody n; clear -Hn; zdm).
  set (c := take (Z.to_nat m) p). set (rest := drop (Z.to_nat m) p).
  assert (Z.of_nat (length c) = m) as Hc by (unfold c; rewrite length_take; lia).
  assert (Z.of_nat (length rest) = n - m) as Hrl by (unfold rest; rewrite length_drop; lia).
  pose proof (blocks_mono (off + m) (off + n) ltac:(lia)) as Hbm. pose proof (blocks_mono off (off + m) ltac:(lia)) as Hbm'.
  destruct (append_step ips s i off c k p rest) as (din1&s1&E&Hfb&Hfi&Hok1&Hk1&Hf1&Hx1);
    rewrite ?Hc; try done; try lia; [by apply Forall_take|symmetry; apply take_drop|].
  rewrite Hc in *. set (ips1 := <[i := din1]> ips) in *. assert (ips1 i = din1) as Hi1 by apply fn_lookup_insert.
  rewrite <-Hi1 in E, Hf1, Hx1.
  destruct (IH rest ips1 s1 i (off + m)) as (ips2&s2&E2&Hfb2&Hfi2&Hok2&Hk2&Hf2&Hx2); try done;
    rewrite ?Hrl; try lia; [by apply Forall_drop| |].
  { replace (off + m + (n - m)) with (off + n) by lia. lia. }
  rewrite Hrl in *. replace (off + m + (n - m)) with (off + n) in * by lia. exists ips2, s2.
  split_and!; [congruence|lia|congruence|done|by eapply kept_trans|done|].
  rewrite <-(take_drop (Z.to_nat m) p). fold c rest. eapply extended_trans; [lia|done|]. by rewrite Hc.
Qed.
