(* ===== verification/MkfsImage.v ===== *)
(** * The image mkfs leaves

    [holds s F]: the image under construction has the files [F], from inode 1
    on, each in blocks of its own. [ialloc] adds an empty file, [iappend] adds
    bytes to one. The image at the end has a superblock and a bitmap the kernel
    reads, and its root directory leads by name to the files mkfs was given. *)

From stdpp Require Import functions.
From S2P Require Import Prelude State Mem Kstring Spinlock Kalloc Vm Proc ProcSpec SchedSpec Uart UartSpec.
From S2P Require Import Printf PrintfSpec Sleeplock SleepSpec Bio BioList BioSpec BioInit Log LogSpec LogTxn FsTxn Fs FsBlock.
From S2P Require Import FsInode FsTable FsDir FsPath FsSlots Mkfs MkfsSpec.

(** ** Description *)

Notation node s := (dnode (sectors s) mk_sb).

Definition has_file (v : Z → list Z) (ip : inode) (type : Z) (c : list Z) : Prop :=
  i_type ip = type ∧ i_nlink ip = 1 ∧ i_size ip = Z.of_nat (length c) ∧
  ∀ o, 0 ≤ o < Z.of_nat (length c) → file_byte v ip o = byte_at c o.

(** The blocks of all files. *)
Definition total (F : list (Z * list Z)) : Z := foldr (λ f n, blocks (Z.of_nat (length f.2)) + n) 0 F.

Record holds (s : mkfs) (F : list (Z * list Z)) : Prop := {
  hd_image : image_ok (node s) (sectors s) (freeblock s);
  hd_full i : 0 ≤ i < 200 → file_full (sectors s) (node s i) (i_size (node s i));
  hd_used : freeinode s = 1 + Z.of_nat (length F) ∧ (length F < 200)%nat;
  hd_file k type c : F !! k = Some (type, c) → has_file (sectors s) (node s (1 + Z.of_nat k)) type c;
  hd_free i : 0 ≤ i < 200 → i = 0 ∨ freeinode s ≤ i → i_type (node s i) = 0 ∧ i_size (node s i) = 0;
  hd_blocks : freeblock s = 46 + total F;
  hd_meta b : 0 ≤ b < 32 → sectors s b = if decide (b = 1) then sb_block else zero_block;
}.

(** ** Inodes *)

Lemma iblock i : 0 ≤ i < 200 → IBLOCK i mk_sb = i / 16 + 32.
Proof. intros Hi. unfold IBLOCK. change (sb_inodestart mk_sb) with 32. change IPB with 16. unfold u32. zdm. Qed.

Lemma put_dinode_bytes d o ip : Forall (λ x, 0 ≤ x < 256) d → Forall (λ x, 0 ≤ x < 256) (put_dinode d o ip).
Proof.
  intros Hd. unfold put_dinode. assert (∀ a d o, Forall (λ x, 0 ≤ x < 256) d → Forall (λ x, 0 ≤ x < 256) (put_addrs d o a)) as H.
  { induction a as [|x a IH]; intros d' o' Hd'; cbn; [done|]. apply IH, Forall_splice; [done|apply to_le_bytes]. }
  apply H. repeat (apply Forall_splice; [|apply to_le_bytes]). done.
Qed.

Lemma get16_range d o : Forall (λ x, 0 ≤ x < 256) d → 0 ≤ get16 d o < 65536.
Proof.
  intros Hd. unfold get16. assert (Forall (λ x, 0 ≤ x < 256) (sub d o 2)) as H by (by apply Forall_take, Forall_drop).
  assert (length (sub d o 2) ≤ 2)%nat as Hl by (unfold sub; rewrite length_take; lia).
  destruct (sub d o 2) as [|a [|b [|]]]; cbn in Hl |- *; [lia| | |lia]; repeat (apply Forall_cons in H as [? H]); lia.
Qed.

(** What [winode] stores and [rinode] reads. *)
Definition stored (i : Z) (ip : inode) : inode :=
  Inode ROOTDEV i 1 1 (i_type ip) (i_major ip) (i_minor ip) (i_nlink ip) (i_size ip) (i_addrs ip).

Lemma dnode_at v i ip : dinode_at (v (IBLOCK i mk_sb)) (dinode_off i) = on_disk ip → dnode v mk_sb i = stored i ip.
Proof. unfold dinode_at, on_disk, dnode, stored. by intros [= -> -> -> -> -> ->]. Qed.

Lemma dnode_same v v' j :
  dinode_at (v' (IBLOCK j mk_sb)) (dinode_off j) = dinode_at (v (IBLOCK j mk_sb)) (dinode_off j) →
  dnode v' mk_sb j = dnode v mk_sb j.
Proof. intros E. rewrite (dnode_at v' j (dnode v mk_sb j)); done. Qed.

Lemma dnode_ok v i : 0 ≤ i < 200 → (∀ b, 0 ≤ b < 2000 → Forall (λ x, 0 ≤ x < 256) (v b)) → inode_ok (dnode v mk_sb i).
Proof.
  intros Hi Hv. assert (Forall (λ x, 0 ≤ x < 256) (v (IBLOCK i mk_sb))) as Hb by (apply Hv; rewrite iblock by done; zdm).
  assert (∀ x, -32768 ≤ i16 x < 32768) as H16 by (intros x; unfold i16; zdm).
  split; try apply H16; [by apply get32_range|done|]. intros a Ha. apply list_elem_of_fmap in Ha as (k&->&_). by apply get32_range.
Qed.

Lemma winode_ok s i ip :
  (∀ b, 0 ≤ b < 2000 → length (sectors s b) = 1024%nat) → 0 ≤ i < 200 → inode_ok ip →
  ∃ s', winode i ip s = Some (tt, s') ∧ freeblock s' = freeblock s ∧ freeinode s' = freeinode s ∧
    (∀ b, sectors s' b = if decide (b = i / 16 + 32) then put_dinode (sectors s b) (dinode_off i) ip else sectors s b) ∧
    node s' i = stored i ip ∧ (∀ j, 0 ≤ j < 200 → j ≠ i → node s' j = node s j).
Proof.
  intros Hlen Hi Hip. assert (length (sectors s (i / 16 + 32)) = 1024%nat) as Hl by (apply Hlen; zdm).
  pose proof (dinode_off_range i) as Hr.
  unfold winode. rewrite iblock by done. rewrite (mk_bind_Some _ _ _ _ _ (rsect_ok s _ Hl)).
  eexists. split; [reflexivity|]. split; [done|]. split; [done|].
  set (d := put_dinode (sectors s (i / 16 + 32)) (dinode_off i) ip).
  assert (∀ b, sectors (Mkfs (<[i / 16 + 32 := d]> (img s)) (freeinode s) (freeblock s)) b =
    if decide (b = i / 16 + 32) then d else sectors s b) as Hs by apply sectors_write.
  split_and!.
  - intros b. rewrite Hs. case_decide as E; [|done]. by rewrite E.
  - apply dnode_at. rewrite Hs, iblock, decide_True by done. by apply put_dinode_ok; [|lia].
  - intros j Hj Hne. apply dnode_same. rewrite Hs, iblock by done. case_decide as E; [|done]. rewrite E. unfold d.
    apply put_dinode_other; [done|done|]. change IPB with 16. zdm.
Qed.

(** Changes outside the addresses of the inodes and the blocks of the files. *)
Section swap.
Context (ips : Z → inode) (v v' : Z → list Z) (fb : Z).
Context (Hok : image_ok ips v fb) (Hv : ∀ b, 46 ≤ b < 2000 → v' b = v b).

Lemma swap_slot j ip' l : 0 ≤ j < 200 → 0 ≤ l → i_addrs ip' = i_addrs (ips j) → slot v' ip' l = slot v (ips j) l.
Proof.
  intros Hj Hl Ha. unfold slot, addr. rewrite Ha. destruct (l <? 13); [done|]. fold (addr (ips j) 12).
  destruct (addr (ips j) 12 =? 0) eqn:E; [done|]. rewrite Hv; [done|].
  pose proof (im_range _ _ _ Hok j 12 Hj ltac:(lia)) as Hr. pose proof (im_fb _ _ _ Hok).
  change (slot v (ips j) 12) with (addr (ips j) 12) in Hr. specialize (Hr ltac:(lia)). lia.
Qed.

Lemma swap_image ips' :
  (∀ j, 0 ≤ j < 200 → i_addrs (ips' j) = i_addrs (ips j) ∧ inode_ok (ips' j)) →
  (∀ b, 0 ≤ b < 2000 → length (v' b) = 1024%nat ∧ Forall (λ x, 0 ≤ x < 256) (v' b)) → image_ok ips' v' fb.
Proof.
  intros Hi Hb. assert (∀ j l, 0 ≤ j < 200 → 0 ≤ l → slot v' (ips' j) l = slot v (ips j) l) as Hs
    by (intros j l Hj Hl; apply swap_slot; [done..|by apply Hi]).
  pose proof Hok as [H1 H2 H2' H3 H4 H5 H6]. split; [done|by apply Hb|by apply Hb|by apply Hi|..].
  - intros j l Hj Hl. rewrite Hs by lia. by apply H4.
  - intros j l j' l' Hj Hl Hj' Hl'. rewrite !Hs by lia. by apply H5.
  - intros b Hb'. rewrite Hv by lia. by apply H6.
Qed.

Lemma swap_byte j ip' off :
  0 ≤ j < 200 → i_addrs ip' = i_addrs (ips j) → 0 ≤ off < 268 * 1024 →
  block_at v' ip' (off / 1024) = block_at v (ips j) (off / 1024) ∧
  (block_at v (ips j) (off / 1024) ≠ 0 → file_byte v' ip' off = file_byte v (ips j) off).
Proof.
  intros Hj Ha Hoff. assert (0 ≤ off / 1024 < 268) as Hb by zdm. destruct (slot_of_range _ Hb) as (Hr&_).
  unfold file_byte. change BSIZE with 1024. rewrite !block_slot, (swap_slot j) by (done || lia). split; [done|]. intros H0.
  rewrite Hv; [done|]. pose proof (im_range _ _ _ Hok j _ Hj Hr H0). pose proof (im_fb _ _ _ Hok). lia.
Qed.

Lemma swap_full j ip' n : 0 ≤ j < 200 → i_addrs ip' = i_addrs (ips j) → file_full v (ips j) n → file_full v' ip' n.
Proof.
  intros Hj Ha [F1 F2 F3]. split; [done| |].
  - intros k Hk. rewrite (swap_slot j) by (done || lia). by apply F2.
  - intros off Hoff. destruct (swap_byte j ip' off Hj Ha ltac:(lia)) as [-> Hby]. intros H0. rewrite Hby by done. by apply F3.
Qed.

End swap.

Lemma full_block v ip n o : file_full v ip n → 0 ≤ o < n → block_at v ip (o / 1024) ≠ 0.
Proof.
  intros [F1 F2 _] Ho. assert (0 ≤ o / 1024 < 268) as Hb by zdm. destruct (slot_of_range _ Hb) as (Hr&_&Hn).
  rewrite block_slot by lia. apply F2; [done|]. rewrite Hn. zdm.
Qed.

Lemma rinode_ok s i : (∀ b, 0 ≤ b < 2000 → length (sectors s b) = 1024%nat) → 0 ≤ i < 200 → rinode i s = Some (node s i, s).
Proof.
  intros Hlen Hi. unfold rinode, dnode. assert (length (sectors s (IBLOCK i mk_sb)) = 1024%nat) as Hl by (apply Hlen; rewrite iblock by done; zdm).
  rewrite (mk_bind_Some _ _ _ _ _ (rsect_ok s _ Hl)). done.
Qed.

Lemma kept_node ips v i ips' v' j : kept ips v i ips' v' → 0 ≤ j < 200 → dnode v' mk_sb j = dnode v mk_sb j.
Proof.
  intros Hk Hj. apply dnode_same. rewrite (kp_meta _ _ _ _ _ Hk); [done|]. rewrite iblock by done. zdm.
Qed.

(** [winode] keeps the files. *)
Lemma winode_image ips s i ip :
  image_ok ips (sectors s) (freeblock s) → 0 ≤ i < 200 → inode_ok ip → i_addrs ip = i_addrs (ips i) →
  (∀ j, 0 ≤ j < 200 → j ≠ i → node s j = ips j) →
  ∃ s', winode i ip s = Some (tt, s') ∧ freeblock s' = freeblock s ∧ freeinode s' = freeinode s ∧
    image_ok (node s') (sectors s') (freeblock s') ∧ node s' i = stored i ip ∧
    (∀ j, 0 ≤ j < 200 → j ≠ i → node s' j = ips j) ∧
    (∀ b, 46 ≤ b < 2000 → sectors s' b = sectors s b) ∧ (∀ b, 0 ≤ b < 32 ∨ b = 45 → sectors s' b = sectors s b).
Proof.
  intros Hok Hi Hip Ha Hn. pose proof (im_len _ _ _ Hok) as Hlen. pose proof (im_byte _ _ _ Hok) as Hbyte.
  destruct (winode_ok s i ip Hlen Hi Hip) as (s2&E2&Hfb2&Hfi2&Hv2&Hn2&Ho2).
  assert (∀ b, 46 ≤ b < 2000 → sectors s2 b = sectors s b) as Hvd by (intros b Hb; rewrite Hv2, decide_False; [done|zdm]).
  assert (∀ j, 0 ≤ j < 200 → j ≠ i → node s2 j = ips j) as Hnj by (intros j Hj Hne; rewrite Ho2 by done; by apply Hn).
  assert (∀ b, 0 ≤ b < 2000 → length (sectors s2 b) = 1024%nat ∧ Forall (λ x, 0 ≤ x < 256) (sectors s2 b)) as Hb2.
  { intros b Hb. rewrite Hv2. case_decide; [|by auto]. split; [|by apply put_dinode_bytes, Hbyte].
    pose proof (dinode_off_range i) as Hr. pose proof (Hlen b Hb). destruct (put_dinode_ok (sectors s b) (dinode_off i) ip Hip) as (->&_); lia. }
  exists s2. split_and!; try done; [|intros b Hb; rewrite Hv2, decide_False; [done|zdm]].
  rewrite Hfb2. apply (swap_image ips (sectors s) (sectors s2) (freeblock s) Hok Hvd); [|done].
  intros j Hj. split; [|apply dnode_ok; [done|by apply Hb2]]. destruct (decide (j = i)) as [->|Hne]; [by rewrite Hn2|by rewrite Hnj].
Qed.

(** [iappend] on one inode of an image. *)
Lemma iappend_ok s i p :
  let ip := node s i in
  let n := i_size ip + Z.of_nat (length p) in
  image_ok (node s) (sectors s) (freeblock s) → (∀ j, 0 ≤ j < 200 → file_full (sectors s) (node s j) (i_size (node s j))) →
  0 ≤ i < 200 → n ≤ 268 * 1024 → Forall (λ x, 0 ≤ x < 256) p → freeblock s + blocks n - blocks (i_size ip) ≤ 2000 →
  ∃ s', iappend i p s = Some (tt, s') ∧ freeblock s' = freeblock s + blocks n - blocks (i_size ip) ∧ freeinode s' = freeinode s ∧
    image_ok (node s') (sectors s') (freeblock s') ∧
    (∃ a, node s' i = set_i_size n (set_i_addrs a ip)) ∧ file_full (sectors s') (node s' i) n ∧
    extended (sectors s) ip (i_size ip) p (sectors s') (node s' i) ∧
    (∀ j, 0 ≤ j < 200 → j ≠ i → node s' j = node s j ∧ file_full (sectors s') (node s j) (i_size (node s j)) ∧
      ∀ o, 0 ≤ o < i_size (node s j) → file_byte (sectors s') (node s j) o = file_byte (sectors s) (node s j) o) ∧
    (∀ b, 0 ≤ b < 32 ∨ b = 45 → sectors s' b = sectors s b).
Proof.
  intros ip n Hok Hfull Hi Hn Hp Hroom. pose proof (ff_size _ _ _ (Hfull i Hi)) as Hs0. fold ip in Hs0.
  pose proof (im_len _ _ _ Hok) as Hlen. unfold iappend. rewrite (mk_bind_Some _ _ _ _ _ (rinode_ok s i Hlen Hi)).
  fold ip. rewrite xint_id by lia.
  destruct (iappend_loop_ok (length p) p (node s) s i (i_size ip)) as (ips1&s1&E&Hfb1&Hfi1&Hok1&Hk1&Hf1&Hx1); try done; [by apply Hfull|].
  rewrite (mk_bind_Some _ _ _ _ _ E). fold n in Hf1, Hfb1 |- *. rewrite xint_id by lia.
  destruct (kp_rest _ _ _ _ _ Hk1) as [a Ha]. fold ip in Ha.
  assert (∀ j, 0 ≤ j < 200 → j ≠ i → node s1 j = ips1 j) as Hn1.
  { intros j Hj Hne. rewrite (kp_ips _ _ _ _ _ Hk1) by done. by apply (kept_node _ _ _ _ _ _ Hk1). }
  destruct (winode_image ips1 s1 i (set_i_size n (ips1 i)) Hok1 Hi) as (s2&E2&Hfb2&Hfi2&Hok2&Hn2&Ho2&Hvd&Hvm); [|done|done|].
  { destruct (im_node _ _ _ Hok1 i Hi). split; cbn; try done. lia. }
  rewrite E2. exists s2. assert (node s2 i = set_i_size n (set_i_addrs a ip)) as Hni by (rewrite Hn2, Ha; done).
  assert (i_addrs (node s2 i) = i_addrs (ips1 i)) as Hai by (rewrite Hni, Ha; done).
  split_and!; [done|lia|congruence|done|by exists a| | | |].
  - by apply (swap_full ips1 (sectors s1) _ _ Hok1 Hvd i).
  - destruct Hx1 as [X1 X2]. split; intros o Ho;
      (destruct (swap_byte ips1 (sectors s1) _ _ Hok1 Hvd i (node s2 i) o Hi Hai ltac:(lia)) as [_ ->]; [auto|apply (full_block _ _ n); [done|lia]]).
  - intros j Hj Hne. assert (node s j = ips1 j) as Hj1 by (by rewrite (kp_ips _ _ _ _ _ Hk1)).
    pose proof (kept_full _ _ _ _ _ j _ Hk1 Hj Hne (Hfull j Hj)) as Hfj. rewrite Ho2, Hj1 by done.
    split_and!; [done|by rewrite Hj1 in Hfj; apply (swap_full ips1 (sectors s1) _ _ Hok1 Hvd j)|]. intros o Ho. rewrite <-Hj1 in Ho.
    pose proof (ff_size _ _ _ Hfj) as Hsj. destruct (kept_byte _ _ _ _ _ j o Hk1 Hj Hne ltac:(lia)) as [_ Hkb].
    pose proof (swap_byte ips1 (sectors s1) _ _ Hok1 Hvd j (ips1 j) o Hj eq_refl ltac:(lia)) as [_ ->]; [|by eapply full_block].
    rewrite Hkb, Hj1; [done|]. eapply full_block; [by apply Hfull|done].
  - intros b Hb. rewrite Hvm, (kp_meta _ _ _ _ _ Hk1); [done|lia|done].
Qed.

(** ** Files *)

Lemma total_app F G : total (F ++ G) = total F + total G.
Proof. induction F as [|f F IH]; [done|]. unfold total in *. cbn [app foldr]. lia. Qed.

Lemma blocks_nonneg n : 0 ≤ n → 0 ≤ blocks n.
Proof. intros Hn. unfold blocks. destruct (12288 <? n); zdm. Qed.

Lemma total_nonneg F : 0 ≤ total F.
Proof. induction F as [|f F IH]; [done|]. cbn [total foldr]. fold (total F). pose proof (blocks_nonneg (Z.of_nat (length f.2)) ltac:(lia)). lia. Qed.

Lemma total_insert F k f g :
  F !! k = Some f → total (<[k := g]> F) = total F + blocks (Z.of_nat (length g.2)) - blocks (Z.of_nat (length f.2)).
Proof.
  revert k. induction F as [|x F IH]; intros [|k] Hk; [done|done|..].
  - injection Hk as ->. unfold total. cbn. lia.
  - change (total (<[S k := g]> (x :: F))) with (blocks (Z.of_nat (length x.2)) + total (<[k := g]> F)). rewrite (IH k) by done.
    unfold total. cbn. lia.
Qed.

Lemma byte_at_app_l c p o : 0 ≤ o < Z.of_nat (length c) → byte_at (c ++ p) o = byte_at c o.
Proof. intros Ho. unfold byte_at. by rewrite lookup_app_l by lia. Qed.

Lemma byte_at_app_r c p o : Z.of_nat (length c) ≤ o → byte_at (c ++ p) o = byte_at p (o - Z.of_nat (length c)).
Proof. intros Ho. unfold byte_at. rewrite lookup_app_r by lia. do 2 f_equal. lia. Qed.

(** [iappend] adds the bytes at the end of one file. *)
Lemma holds_append s F k t c p :
  holds s F → F !! k = Some (t, c) → Forall (λ x, 0 ≤ x < 256) p → Z.of_nat (length (c ++ p)) ≤ 268 * 1024 →
  46 + total (<[k := (t, c ++ p)]> F) ≤ 2000 →
  ∃ s', iappend (1 + Z.of_nat k) p s = Some (tt, s') ∧ holds s' (<[k := (t, c ++ p)]> F).
Proof.
  intros [Himg Hfull [Hused Hlt] Hfile Hfree Hblocks Hmeta] Hk Hp Hmax Hroom.
  rewrite (total_insert _ _ _ _ Hk) in Hroom. cbn [snd] in Hroom. pose proof (Hfile _ _ _ Hk) as (Ht&Hl&Hs&Hb).
  assert ((k < length F)%nat) as Hkl by (by eapply lookup_lt_Some). set (i := 1 + Z.of_nat k) in *.
  rewrite length_app, Nat2Z.inj_add in *.
  destruct (iappend_ok s i p Himg Hfull) as (s'&E&Hfb&Hfi&Himg'&[a Ha]&Hfull'&[X1 X2]&Ho&Hm); rewrite ?Hs; try done; try lia.
  rewrite Hs in *. exists s'. split; [done|]. split; [done| | | | | |].
  - intros j Hj. destruct (decide (j = i)) as [->|Hne]; [by rewrite Ha in *|]. destruct (Ho j Hj Hne) as (->&Hf&_). done.
  - rewrite length_insert. lia.
  - intros j t' c' Hj. destruct (decide (j = k)) as [->|Hne].
    + rewrite list_lookup_insert_eq in Hj by done. injection Hj as <- <-. fold i. rewrite Ha. split_and!; try done.
      { cbn. rewrite length_app. lia. }
      rewrite <-Ha. rewrite length_app. intros o Hor. destruct (decide (o < Z.of_nat (length c))) as [Hc|Hc].
      * rewrite byte_at_app_l by lia. rewrite X1 by lia. apply Hb. lia.
      * rewrite byte_at_app_r by lia. rewrite X2 by lia. done.
    + rewrite list_lookup_insert_ne in Hj by done. destruct (Hfile _ _ _ Hj) as (Ht'&Hl'&Hs'&Hb'). pose proof (lookup_lt_Some _ _ _ Hj).
      destruct (Ho (1 + Z.of_nat j) ltac:(lia) ltac:(lia)) as (->&_&Hby). split_and!; try done. intros o Hor. rewrite Hby by lia. by apply Hb'.
  - intros j Hj Hfr. destruct (Ho j Hj ltac:(lia)) as (->&_). apply Hfree; [done|lia].
  - rewrite (total_insert _ _ _ _ Hk). cbn [snd]. rewrite length_app, Nat2Z.inj_add. lia.
  - intros b Hbm. rewrite Hm by lia. by apply Hmeta.
Qed.

(** An inode without a byte has no block. *)
Lemma empty_addrs v ip : inode_ok ip → file_full v ip 0 → i_addrs ip = replicate 13 0.
Proof.
  intros Hok [_ F2 _]. pose proof (io_addrs _ Hok) as Hl. apply list_eq_same_length with 13%nat; [by rewrite length_replicate|done|].
  intros k x y Hk Hx Hy. apply lookup_replicate in Hy as [-> _]. specialize (F2 (Z.of_nat k) ltac:(lia)).
  unfold slot, addr, needed in F2. rewrite (proj2 (Z.ltb_lt (Z.of_nat k) 13)), Nat2Z.id, Hx in F2 by lia. cbn in F2. lia.
Qed.

(** [ialloc] adds an empty file. *)
Lemma holds_ialloc s F t :
  holds s F → (length F < 199)%nat → 0 ≤ t < 32768 →
  ∃ s', Mkfs.ialloc t s = Some (1 + Z.of_nat (length F), s') ∧ holds s' (F ++ [(t, [])]).
Proof.
  intros [Himg Hfull [Hused Hlt] Hfile Hfree Hblocks Hmeta] Hroom Ht. set (i := 1 + Z.of_nat (length F)) in *.
  destruct (Hfree i ltac:(lia) ltac:(lia)) as [_ Hs]. pose proof (Hfull i ltac:(lia)) as Hf. rewrite Hs in Hf.
  pose proof (empty_addrs _ _ (im_node _ _ _ Himg i ltac:(lia)) Hf) as Ha.
  unfold Mkfs.ialloc, next_inode, mbind at 1, mk_bind at 1. rewrite Hused. replace (u32 (i + 1)) with (i + 1) by (unfold u32; zdm).
  set (s1 := Mkfs (img s) (i + 1) (freeblock s)). rewrite xshort_id by lia. change (xshort 1) with 1. change (xint 0) with 0.
  set (ip := Inode ROOTDEV i 1 1 t 0 0 1 0 (replicate 13 0)).
  destruct (winode_image (node s) s1 i ip) as (s2&E&Hfb&Hfi&Himg2&Hn&Ho&Hvd&Hvm); try done; [lia| |].
  { split; cbn; try done; [lia..|]. intros a Hin. repeat (apply elem_of_cons in Hin as [->|Hin]; [lia|]). by apply not_elem_of_nil in Hin. }
  change (sectors s1) with (sectors s) in *. change (freeblock s1) with (freeblock s) in *. change (freeinode s1) with (i + 1) in *.
  exists s2. split; [by rewrite (mk_bind_Some _ _ _ _ _ E)|].
  assert (∀ j, 0 ≤ j < 200 → i_addrs (node s2 j) = i_addrs (node s j) ∧ i_size (node s2 j) = i_size (node s j)) as Hsame.
  { intros j Hj. destruct (decide (j = i)) as [->|Hne]; [by rewrite Hn, Ha, Hs|by rewrite Ho]. }
  split; [done| | | | | |].
  - intros j Hj. destruct (Hsame j Hj) as [A ->]. by apply (swap_full (node s) (sectors s) _ _ Himg Hvd j), Hfull.
  - rewrite length_app. cbn. lia.
  - intros k t' c Hk. apply lookup_snoc_Some in Hk as [[Hkl Hk]|[-> [= <- <-]]].
    + destruct (Hfile _ _ _ Hk) as (Ht'&Hl'&Hs'&Hb'). assert (0 ≤ 1 + Z.of_nat k < 200) as Hkr by lia.
      destruct (Hsame _ Hkr) as [A B]. pose proof (Hfull _ Hkr) as Hfk. pose proof (ff_size _ _ _ Hfk) as Hsz.
      unfold has_file. rewrite (Ho _ Hkr) in * by lia. split_and!; try done. intros o Hor.
      destruct (swap_byte (node s) (sectors s) _ _ Himg Hvd _ _ o Hkr A ltac:(lia)) as [_ ->]; [by apply Hb'|]. eapply full_block; [done|lia].
    + fold i. rewrite Hn. split_and!; try done. intros o Hor. cbn in Hor. lia.
  - intros j Hj Hfr. rewrite Ho by lia. apply Hfree; lia.
  - rewrite total_app. change (total [(t, [])]) with 0. lia.
  - intros b Hb. rewrite Hvm by lia. by apply Hmeta.
Qed.

(** The successive reads of one file. *)
Lemma holds_append_all pieces : ∀ s F k t c,
  holds s F → F !! k = Some (t, c) → Forall (λ x, 0 ≤ x < 256) (concat pieces) →
  Z.of_nat (length (c ++ concat pieces)) ≤ 268 * 1024 → 46 + total (<[k := (t, c ++ concat pieces)]> F) ≤ 2000 →
  ∃ s', append_all (1 + Z.of_nat k) pieces s = Some (tt, s') ∧ holds s' (<[k := (t, c ++ concat pieces)]> F).
Proof.
  induction pieces as [|p pieces IH]; intros s F k t c Hh Hk Hb Hmax Hroom; cbn [append_all concat] in *.
  - exists s. split; [done|]. rewrite app_nil_r, list_insert_id by done. done.
  - apply Forall_app in Hb as [Hb1 Hb2]. rewrite app_assoc in *. pose proof (lookup_lt_Some _ _ _ Hk) as Hkl.
    destruct (holds_append s F k t c p Hh Hk Hb1) as (s1&E1&Hh1).
    { rewrite length_app in Hmax. lia. }
    { rewrite (total_insert _ _ _ _ Hk) in Hroom. rewrite (total_insert _ _ _ _ Hk). cbn [snd] in Hroom |- *.
      pose proof (blocks_mono (Z.of_nat (length (c ++ p))) (Z.of_nat (length ((c ++ p) ++ concat pieces)))
        ltac:(rewrite (length_app (c ++ p)); lia)). lia. }
    destruct (IH s1 _ k t (c ++ p) Hh1) as (s2&E2&Hh2); try done; [by rewrite list_lookup_insert_eq|by rewrite list_insert_insert_eq|].
    exists s2. rewrite (mk_bind_Some _ _ _ _ _ E1). rewrite list_insert_insert_eq in Hh2. done.
Qed.

(** ** Directory entries *)

Definition entries (ents : list (Z * list Z)) : list Z := concat ((λ e, dirent e.1 e.2) <$> ents).

Lemma length_dirent i name : length (dirent i name) = 16%nat.
Proof. unfold dirent. rewrite length_app, length_to_le, length_take, length_app, length_replicate. lia. Qed.

Lemma dirent_bytes i name : Forall (λ x, 0 ≤ x < 256) name → Forall (λ x, 0 ≤ x < 256) (dirent i name).
Proof.
  intros Hn. unfold dirent. apply Forall_app. split; [apply to_le_bytes|]. apply Forall_take, Forall_app. split; [done|].
  apply Forall_replicate. lia.
Qed.

Lemma length_entries ents : length (entries ents) = (16 * length ents)%nat.
Proof. unfold entries. induction ents as [|e ents IH]; [done|]. cbn [fmap list_fmap concat length]. rewrite length_app, length_dirent, IH. lia. Qed.

Lemma entries_app a b : entries (a ++ b) = entries a ++ entries b.
Proof. unfold entries. by rewrite fmap_app, concat_app. Qed.

(** ** All files *)

Definition short (f : list Z * list (list Z)) : list Z := default [] (shortname f.1).

(** The entries for the files, from inode [n] on. *)
Fixpoint ents_from (n : Z) (files : list (list Z * list (list Z))) : list (Z * list Z) :=
  match files with [] => [] | f :: files' => (n, short f) :: ents_from (n + 1) files' end.

Definition contents (files : list (list Z * list (list Z))) : list (Z * list Z) := (λ f, (T_FILE, concat f.2)) <$> files.

Definition file_fits (f : list Z * list (list Z)) : Prop :=
  is_Some (shortname f.1) ∧ Forall (λ x, 0 < x < 256) (short f) ∧ Forall (λ x, 0 ≤ x < 256) (concat f.2) ∧
  Z.of_nat (length (concat f.2)) ≤ 268 * 1024.

Lemma insert_snoc {A : Type} (a x y : A) (G : list A) : <[(1 + length G)%nat := x]> (a :: G ++ [y]) = a :: G ++ [x].
Proof.
  change (<[(1 + length G)%nat := x]> (a :: G ++ [y])) with (a :: <[length G := x]> (G ++ [y])). f_equal.
  by rewrite insert_app_r_alt, Nat.sub_diag by lia.
Qed.

Lemma holds_add_files files : ∀ s d G,
  let G' := (T_DIR, d ++ entries (ents_from (2 + Z.of_nat (length G)) files)) :: G ++ contents files in
  holds s ((T_DIR, d) :: G) → Forall file_fits files →
  Z.of_nat (length d + 16 * length files) ≤ 268 * 1024 → (1 + length G + length files < 200)%nat → 46 + total G' ≤ 2000 →
  ∃ s', add_files 1 files s = Some (tt, s') ∧ holds s' G'.
Proof.
  induction files as [|f files IH]; intros s d G G' Hh Hfit Hd Hn Hroom; unfold G' in *; clear G'; cbn [add_files ents_from contents] in *.
  - exists s. split; [done|]. by rewrite !app_nil_r.
  - apply Forall_cons in Hfit as [([nm Hnm]&Hnb&Hcb&Hcl) Hfit]. set (i := 2 + Z.of_nat (length G)) in *. cbn [length] in *.
    set (e := dirent i (short f)). set (c := concat f.2) in *.
    change (entries ((i, short f) :: ents_from (i + 1) files)) with (e ++ entries (ents_from (i + 1) files)) in *.
    replace (G ++ contents (f :: files)) with ((G ++ [(T_FILE, c)]) ++ contents files) in * by (by rewrite <-app_assoc).
    rewrite app_assoc in *. set (rest := entries (ents_from (i + 1) files)) in *.
    pose proof (length_dirent i (short f)) as Hel. fold e in Hel.
    assert (46 + total ((T_DIR, d ++ e) :: G ++ [(T_FILE, c)]) ≤ 2000) as Hr1.
    { revert Hroom. cbn [total foldr]. fold (total ((G ++ [(T_FILE, c)]) ++ contents files)) (total (G ++ [(T_FILE, c)])). cbn [snd].
      rewrite (total_app (G ++ _)). pose proof (total_nonneg (contents files)).
      pose proof (blocks_mono (Z.of_nat (length (d ++ e))) (Z.of_nat (length ((d ++ e) ++ rest)))
        ltac:(rewrite (length_app (d ++ e)); lia)). lia. }
    destruct (holds_ialloc s _ T_FILE Hh) as (s1&E1&Hh1); [cbn; lia|done|]. cbn [length] in E1. replace (1 + Z.of_nat (S (length G))) with i in E1 by lia.
    cbn [app] in Hh1.
    destruct (holds_append s1 _ 0 T_DIR d e Hh1 eq_refl) as (s2&E2&Hh2).
    { apply dirent_bytes. apply (Forall_impl (λ x, 0 < x < 256)); [done|]. intros x. lia. }
    { rewrite length_app, Hel. lia. }
    { cbn [insert list_insert]. revert Hr1. cbn [total foldr]. fold (total (G ++ [(T_FILE, c)])) (total (G ++ [(T_FILE, [])])).
      rewrite !total_app. change (total [(T_FILE, [])]) with 0. pose proof (total_nonneg [(T_FILE, c)]). lia. }
    cbn [insert list_insert] in Hh2. change (1 + Z.of_nat 0) with 1 in E2.
    destruct (holds_append_all f.2 s2 _ (1 + length G) T_FILE [] Hh2) as (s3&E3&Hh3); try done; cbn [app] in *; fold c.
    { rewrite lookup_cons_ne_0 by lia. cbn. by rewrite lookup_app_r, Nat.sub_diag by lia. }
    { by rewrite insert_snoc. }
    rewrite insert_snoc in Hh3. fold c in Hh3.
    replace (1 + Z.of_nat (1 + length G)) with i in E3 by lia.
    destruct (IH s3 (d ++ e) (G ++ [(T_FILE, c)]) Hh3 Hfit) as (s4&E4&Hh4); rewrite ?length_app, ?Hel; cbn [length]; try lia.
    all: replace (2 + Z.of_nat (length (G ++ [(T_FILE, c)]))) with (i + 1) in * by (rewrite length_app; cbn; lia).
    { by replace (2 + Z.of_nat (length G + 1)) with (i + 1) by lia. }
    exists s4. split; [|done]. rewrite (mk_bind_Some _ _ s tt s3); [done|]. unfold add_file. rewrite Hnm.
    replace nm with (short f) by (unfold short; by rewrite Hnm). rewrite (mk_bind_Some _ _ _ _ _ E1). fold e.
    rewrite (mk_bind_Some _ _ _ _ _ E2). done.
Qed.

(** ** The start *)

Lemma wzeroes_ok n : ∀ i s, ∃ s', wzeroes n i s = Some (tt, s') ∧ freeinode s' = freeinode s ∧ freeblock s' = freeblock s ∧
  ∀ b, img s' !! b = if decide (i ≤ b < i + Z.of_nat n) then Some zero_block else img s !! b.
Proof.
  induction n as [|n IH]; intros i s; cbn [wzeroes].
  - exists s. split_and!; try done. intros b. by rewrite decide_False by lia.
  - destruct (IH (i + 1) (Mkfs (<[i := zero_block]> (img s)) (freeinode s) (freeblock s))) as (s'&E&Hfi&Hfb&Hs).
    exists s'. split_and!; try done. intros b. rewrite Hs. cbn [img]. destruct (decide (b = i)) as [->|Hne].
    + rewrite decide_False, decide_True by lia. by rewrite lookup_insert_eq.
    + rewrite lookup_insert_ne by done. destruct (decide (i ≤ b < i + Z.of_nat (S n))); [by rewrite decide_True by lia|by rewrite decide_False by lia].
Qed.

Lemma get16_zero o : get16 zero_block o = 0.
Proof.
  unfold get16, sub, zero_block. rewrite drop_replicate, take_replicate.
  assert (∀ n, of_le (replicate n 0) = 0) as H; [|apply H]. induction n as [|n IH]; [done|]. cbn. unfold of_le in IH. lia.
Qed.

Lemma dnode_zero v i : v (IBLOCK i mk_sb) = zero_block → dnode v mk_sb i = Inode ROOTDEV i 1 1 0 0 0 0 0 (replicate 13 0).
Proof.
  intros E. unfold dnode. rewrite E. unfold di_type, di_major, di_minor, di_nlink, di_size. rewrite !get16_zero, get32_zero.
  f_equal. unfold di_addrs. change (replicate 13 0) with (map (λ _ : nat, 0) (seq 0 13)). apply map_ext. intros k. apply get32_zero.
Qed.

Lemma slot_none v ip k : i_addrs ip = replicate 13 0 → slot v ip k = 0.
Proof.
  intros Ha. unfold slot, addr. rewrite Ha. destruct (k <? 13); [|done].
  destruct (replicate 13 0 !! Z.to_nat k) eqn:E; [|done]. by apply lookup_replicate in E as [-> _].
Qed.

(** The empty image. *)
Lemma holds_nil s :
  freeinode s = 1 → freeblock s = 46 → (∀ b, 0 ≤ b < 2000 → sectors s b = if decide (b = 1) then sb_block else zero_block) → holds s [].
Proof.
  intros Hfi Hfb Hs. assert (∀ i, 0 ≤ i < 200 → node s i = Inode ROOTDEV i 1 1 0 0 0 0 0 (replicate 13 0)) as Hn.
  { intros i Hi. apply dnode_zero. rewrite iblock, Hs, decide_False by zdm. done. }
  assert (∀ i k, 0 ≤ i < 200 → slot (sectors s) (node s i) k = 0) as Hsl by (intros i k Hi; apply slot_none; by rewrite Hn).
  split; [split| |rewrite Hfi; cbn; lia|done| | |].
  - lia.
  - intros b Hb. rewrite Hs by done. by case_decide.
  - intros b Hb. rewrite Hs by done. case_decide; [|apply Forall_replicate; lia].
    apply Forall_app. split; [|apply Forall_replicate; lia]. apply Forall_concat, Forall_fmap, Forall_true. intros x. apply to_le_bytes.
  - intros i Hi. apply dnode_ok; [done|]. intros b Hb. rewrite Hs by done. case_decide; [|apply Forall_replicate; lia].
    apply Forall_app. split; [|apply Forall_replicate; lia]. apply Forall_concat, Forall_fmap, Forall_true. intros x. apply to_le_bytes.
  - intros i k Hi Hk. by rewrite Hsl.
  - intros i k j l Hi Hk Hj Hl H. by rewrite Hsl in H.
  - intros b Hb. rewrite Hs, decide_False by lia. done.
  - intros i Hi. rewrite Hn by done. cbn [i_size]. split; [lia| |].
    + intros k Hk. rewrite <-Hn by done. rewrite Hsl by done. unfold needed. destruct (k <? 13) eqn:?; lia.
    + intros off Hoff. rewrite <-Hn, block_slot, Hsl by (done || zdm). done.
  - intros i Hi _. by rewrite Hn.
  - done.
  - intros b Hb. apply Hs. lia.
Qed.

(** ** The end *)

(** The size of the root directory is rounded up: the rest of its last block is
    zero. *)
Lemma holds_pad s F d n :
  holds s F → F !! 0%nat = Some (T_DIR, d) → Z.of_nat (length d) mod 1024 ≠ 0 →
  n = (Z.of_nat (length d) / 1024 + 1) * 1024 →
  ∃ s', winode 1 (set_i_size n (node s 1)) s = Some (tt, s') ∧
    holds s' (<[0%nat := (T_DIR, d ++ replicate (Z.to_nat (n - Z.of_nat (length d))) 0)]> F).
Proof.
  intros [Himg Hfull [Hused Hlt] Hfile Hfree Hblocks Hmeta] H0 Hmod Hn.
  pose proof (Hfile _ _ _ H0) as (Ht&Hl&Hs&Hb). pose proof (lookup_lt_Some _ _ _ H0) as Hlen. change (1 + Z.of_nat 0) with 1 in *.
  set (m := Z.of_nat (length d)) in *. pose proof (Hfull 1 ltac:(lia)) as Hf. rewrite Hs in Hf. pose proof (ff_size _ _ _ Hf) as Hsz.
  assert (n ≤ 268 * 1024) as Hmax by zdm. assert (m < n) as Hmn by zdm.
  set (z := replicate _ 0). assert (Z.of_nat (length (d ++ z)) = n) as Hdz by (unfold z; rewrite length_app, length_replicate; lia).
  assert (blocks n = blocks m) as Hbl by (unfold blocks; destruct (12288 <? n) eqn:?, (12288 <? m) eqn:?; zdm).
  destruct (winode_image (node s) s 1 (set_i_size n (node s 1)) Himg) as (s2&E&Hfb&Hfi&Himg2&Hn1&Ho&Hvd&Hvm); try done.
  { destruct (im_node _ _ _ Himg 1 ltac:(lia)). split; cbn; try done. lia. }
  exists s2. split; [done|]. assert (node s2 1 = set_i_size n (node s 1)) as Hn2 by (by rewrite Hn1).
  assert (∀ o, 0 ≤ o < n → block_at (sectors s) (node s 1) (o / 1024) ≠ 0) as Hblk.
  { intros o Hor. destruct (decide (o < m)); [eapply full_block; [done|lia]|]. replace (o / 1024) with ((m - 1) / 1024) by zdm.
    eapply full_block; [done|]. zdm. }
  assert (∀ o, 0 ≤ o < n → file_byte (sectors s2) (node s2 1) o = byte_at (d ++ z) o) as Hby.
  { intros o Hor. destruct (swap_byte (node s) (sectors s) _ _ Himg Hvd 1 (node s2 1) o) as [_ ->]; [lia|by rewrite Hn2|lia| |by apply Hblk].
    destruct (decide (o < m)); [rewrite byte_at_app_l by lia; apply Hb; lia|]. rewrite byte_at_app_r by lia.
    rewrite (ff_tail _ _ _ Hf o); [|lia|by apply Hblk]. unfold byte_at, z. destruct (replicate _ 0 !! _) eqn:L; [|done]. by apply lookup_replicate in L as [-> _]. }
  split; [done| | | | | |].
  - intros j Hj. destruct (decide (j = 1)) as [->|Hne].
    + rewrite Hn2. cbn [i_size set_i_size]. rewrite <-Hn2.
      pose proof (swap_full (node s) (sectors s) _ _ Himg Hvd 1 (node s2 1) m Hj ltac:(by rewrite Hn2) Hf) as [G1 G2 G3]. split; [lia| |].
      * intros k Hk. rewrite G2 by done. unfold needed. destruct (k <? 13); zdm.
      * intros off Hoff. apply G3. lia.
    + rewrite Ho by done. by apply (swap_full (node s) (sectors s) _ _ Himg Hvd j), Hfull.
  - rewrite length_insert. lia.
  - intros k t c Hk. destruct (decide (k = 0%nat)) as [->|Hne].
    + rewrite list_lookup_insert_eq in Hk by done. injection Hk as <- <-. change (1 + Z.of_nat 0) with 1. split_and!; try (by rewrite Hn2).
      rewrite Hdz. done.
    + rewrite list_lookup_insert_ne in Hk by done. destruct (Hfile _ _ _ Hk) as (Ht'&Hl'&Hs'&Hb'). pose proof (lookup_lt_Some _ _ _ Hk).
      assert (0 ≤ 1 + Z.of_nat k < 200) as Hkr by lia. unfold has_file. rewrite (Ho _ Hkr) by lia. split_and!; try done. intros o Hor.
      pose proof (Hfull _ Hkr) as Hfk. pose proof (ff_size _ _ _ Hfk).
      destruct (swap_byte (node s) (sectors s) _ _ Himg Hvd _ (node s (1 + Z.of_nat k)) o Hkr eq_refl ltac:(lia)) as [_ ->]; [by apply Hb'|].
      eapply full_block; [done|lia].
  - intros j Hj Hfr. rewrite Ho by lia. apply Hfree; lia.
  - rewrite (total_insert _ _ _ _ H0). cbn [snd]. rewrite Hdz, Hbl. fold m. lia.
  - intros b Hb'. rewrite Hvm by lia. by apply Hmeta.
Qed.
