(* ===== verification/MkfsMain.v ===== *)
(** * The file system mkfs makes

    The bitmap [balloc] of mkfs writes, the root directory as the kernel's
    [dirlookup] searches it, and the program as a whole: the image has the
    superblock, the bitmap and the tree of inodes that the theorems on the kernel's
    [balloc], [namex] and [readi] ask for, and each file is found under its name
    with its contents. *)

From stdpp Require Import functions.
From S2P Require Import Prelude State Mem Kstring Spinlock Kalloc Vm Proc ProcSpec SchedSpec Uart UartSpec.
From S2P Require Import Printf PrintfSpec Sleeplock SleepSpec Bio BioList BioSpec BioInit Log LogSpec LogTxn FsTxn Fs FsBlock.
From S2P Require Import FsInode FsTable FsDir FsPath FsSlots Mkfs MkfsSpec MkfsImage.

(** ** The bitmap *)

Lemma mark_used_ok n : ∀ i d,
  0 ≤ i → i + Z.of_nat n ≤ 8 * Z.of_nat (length d) → Forall (λ x, 0 ≤ x < 256) d →
  length (mark_used n i d) = length d ∧ Forall (λ x, 0 ≤ x < 256) (mark_used n i d) ∧
  ∀ b, 0 ≤ b → bit_free (mark_used n i d) b = if decide (i ≤ b < i + Z.of_nat n) then false else bit_free d b.
Proof.
  induction n as [|n IH]; intros i d Hi Hl Hd; cbn [mark_used].
  - split_and!; try done. intros b Hb. by rewrite decide_False by lia.
  - change (<[Z.to_nat (i / 8) := _]> d) with (set_bit d i). assert (length (set_bit d i) = length d) as Hsl by apply length_insert.
    destruct (IH (i + 1) (set_bit d i)) as (H1&H2&H3); [lia|lia|by apply set_bit_bytes|]. split_and!; [lia|done|].
    intros b Hb. rewrite H3, bit_free_set by lia. destruct (decide (i + 1 ≤ b < _)), (decide (i ≤ b < _)), (decide (i = b)); (done || lia).
Qed.

(** A new block 45 leaves the files alone. *)
Lemma holds_bitmap s F d :
  holds s F → length d = 1024%nat → Forall (λ x, 0 ≤ x < 256) d →
  holds (Mkfs (<[45 := d]> (img s)) (freeinode s) (freeblock s)) F.
Proof.
  intros [Himg Hfull Hused Hfile Hfree Hblocks Hmeta] Hl Hd. set (s' := Mkfs _ _ _).
  assert (∀ b, sectors s' b = if decide (b = 45) then d else sectors s b) as Hs by apply sectors_write.
  assert (∀ j, 0 ≤ j < 200 → node s' j = node s j) as Hn.
  { intros j Hj. apply dnode_same. by rewrite Hs, iblock, decide_False by zdm. }
  assert (∀ b, 46 ≤ b < 2000 → sectors s' b = sectors s b) as Hvd by (intros b Hb; by rewrite Hs, decide_False by lia).
  split; try done.
  - apply (swap_image (node s) (sectors s) _ _ Himg Hvd).
    + intros j Hj. rewrite Hn by done. split; [done|by apply (im_node _ _ _ Himg)].
    + intros b Hb. rewrite Hs. case_decide; [done|]. split; [by apply (im_len _ _ _ Himg)|by apply (im_byte _ _ _ Himg)].
  - intros j Hj. rewrite Hn by done. by apply (swap_full (node s) (sectors s) _ _ Himg Hvd j), Hfull.
  - intros k t c Hk. pose proof (lookup_lt_Some _ _ _ Hk). destruct Hused as [Hu Hlt]. assert (0 ≤ 1 + Z.of_nat k < 200) as Hkr by lia.
    destruct (Hfile _ _ _ Hk) as (Ht&Hnl&Hsz&Hb). unfold has_file. rewrite (Hn _ Hkr). split_and!; try done. intros o Ho.
    pose proof (Hfull _ Hkr) as Hf. pose proof (ff_size _ _ _ Hf).
    destruct (swap_byte (node s) (sectors s) _ _ Himg Hvd _ (node s (1 + Z.of_nat k)) o Hkr eq_refl ltac:(lia)) as [_ ->]; [by apply Hb|].
    eapply full_block; [done|lia].
  - intros i Hi Hfr. rewrite Hn by done. by apply Hfree.
  - intros b Hb. rewrite Hs, decide_False by lia. by apply Hmeta.
Qed.

(** ** Searching a directory *)

Fixpoint search (ents : list (Z * list Z)) (name : list Z) (k : Z) : option (Z * Z) :=
  match ents with
  | [] => None
  | e :: ents' => if bool_decide (name = take 14 e.2) then Some (16 * k, e.1) else search ents' name (k + 1)
  end.

Lemma range_of v ip t c off n :
  has_file v ip t c → 0 ≤ off → 0 ≤ n → off + n ≤ Z.of_nat (length c) →
  file_range v ip off n = take (Z.to_nat n) (drop (Z.to_nat off) c).
Proof.
  intros (_&_&_&Hb) Ho Hn Hl. unfold file_range. apply list_eq_same_length with (Z.to_nat n).
  - rewrite length_take, length_drop. lia.
  - by rewrite length_fmap, length_seqZ.
  - intros k x y Hk Hx Hy. apply list_lookup_fmap_Some in Hx as (z&->&Hz). apply lookup_seqZ in Hz as [-> _].
    rewrite lookup_take_lt, lookup_drop in Hy by lia. rewrite Hb by lia. unfold byte_at.
    replace (Z.to_nat (off + (0 + Z.of_nat k))) with (Z.to_nat off + k)%nat by lia. by rewrite Hy.
Qed.

Lemma entry_of ents k m :
  (k < length ents + m)%nat →
  take 16 (drop (16 * k) (entries ents ++ replicate (16 * m) 0)) =
    match ents !! k with Some e => dirent e.1 e.2 | None => replicate 16 0 end.
Proof.
  revert k. induction ents as [|e ents IH]; intros k Hk.
  - cbn [length] in Hk. rewrite lookup_nil, app_nil_l, drop_replicate, take_replicate. f_equal. lia.
  - change (entries (e :: ents)) with (dirent e.1 e.2 ++ entries ents). rewrite <-app_assoc. pose proof (length_dirent e.1 e.2) as Hl.
    destruct k as [|k]; cbn [lookup list_lookup].
    + rewrite Nat.mul_0_r, drop_0, take_app_le, take_ge by lia. done.
    + rewrite drop_app_ge by lia. replace (16 * S k - length (dirent e.1 e.2))%nat with (16 * k)%nat by lia. apply IH. cbn in Hk. lia.
Qed.

Lemma dirent_fields i name :
  0 ≤ i < 65536 → Forall (λ x, 0 < x < 256) name →
  get16 (dirent i name) 0 = i ∧ name_of (drop 2 (dirent i name)) = take 14 name.
Proof.
  intros Hi Hn. unfold dirent. rewrite xshort_id by done. split.
  - unfold get16, sub. rewrite drop_0, take_app_le, take_ge by (rewrite length_to_le; lia). by apply of_le_to_le.
  - rewrite drop_app_length' by (by rewrite length_to_le). unfold name_of. rewrite take_take, Nat.min_id, take_app.
    assert (Forall (λ x, x ≠ 0) (take 14 name)) as Hnz by (apply Forall_take, (Forall_impl _ _ _ Hn); lia).
    rewrite take_replicate. destruct (14 - length name)%nat as [|m] eqn:Em; [cbn; rewrite app_nil_r; by apply cstr_nonzero|].
    rewrite Nat.min_l by lia. by apply cstr_stop.
Qed.

Lemma find_entry_ok v ip t ents m name :
  has_file v ip t (entries ents ++ replicate (16 * m) 0) →
  Forall (λ e, 0 < e.1 < 65536 ∧ Forall (λ x, 0 < x < 256) e.2) ents →
  ∀ n k, (k + n = length ents + m)%nat → find_entry v ip name n (Z.of_nat k) = search (drop k ents) name (Z.of_nat k).
Proof.
  intros Hf He. induction n as [|n IH]; intros k Hk; cbn [find_entry]; [by rewrite drop_ge by lia|].
  unfold dirent_inum, dirent_name.
  rewrite (range_of v ip t (entries ents ++ replicate (16 * m) 0) (16 * Z.of_nat k) 16) by
    (done || lia || rewrite length_app, length_entries, length_replicate; lia).
  replace (Z.to_nat (16 * Z.of_nat k)) with (16 * k)%nat by lia. change (Z.to_nat 16) with 16%nat. rewrite entry_of by lia.
  replace (Z.of_nat k + 1) with (Z.of_nat (S k)) by lia. rewrite IH by lia.
  destruct (ents !! k) as [[i nm]|] eqn:E.
  - rewrite (drop_S ents (i, nm) k E). cbn [search fst snd]. apply (Forall_lookup_1 _ _ _ _ He) in E as [Hi Hnm]. cbn [fst snd] in *.
    destruct (dirent_fields i nm ltac:(lia) Hnm) as [-> ->]. rewrite (proj2 (Z.eqb_neq i 0)) by lia. cbn [negb andb].
    by replace (Z.of_nat (S k)) with (Z.of_nat k + 1) by lia.
  - apply lookup_ge_None in E. rewrite !(drop_ge ents) by lia. done.
Qed.

Lemma dir_find_ok v ip t ents m name :
  has_file v ip t (entries ents ++ replicate (16 * m) 0) →
  Forall (λ e, 0 < e.1 < 65536 ∧ Forall (λ x, 0 < x < 256) e.2) ents → dir_find v ip name = search ents name 0.
Proof.
  intros Hf He. unfold dir_find. pose proof Hf as (_&_&->&_).
  rewrite length_app, length_entries, length_replicate. replace (Z.to_nat _) with (length ents + m)%nat by zdm.
  by rewrite (find_entry_ok v ip t ents m name Hf He _ 0%nat).
Qed.

(** ** The program *)

(** The entries of the root directory, and what is in it. *)
Definition root_ents (files : list (list Z * list (list Z))) : list (Z * list Z) :=
  (1, str_bytes ".") :: (1, str_bytes "..") :: ents_from 2 files.
Definition root_pad (files : list (list Z * list (list Z))) : nat := 64 - (2 + length files) mod 64.
Definition root_dir (files : list (list Z * list (list Z))) : list Z :=
  entries (root_ents files) ++ replicate (16 * root_pad files) 0.

(** The files of the image: the root directory is inode 1, the others follow. *)
Definition layout (files : list (list Z * list (list Z))) : list (Z * list Z) := (T_DIR, root_dir files) :: contents files.

(** What mkfs can build: names without a slash, files and their number within
    the limits, blocks enough. The directory does not end with its block:
    [main] would count a block in its size that it has not. *)
Record fits (files : list (list Z * list (list Z))) : Prop := {
  ft_file : Forall file_fits files;
  ft_inodes : (1 + length files < 200)%nat;
  ft_blocks : 46 + total (layout files) ≤ 2000;
  ft_dir : ((2 + length files) mod 64 ≠ 0)%nat;
}.

Lemma length_ents_from n files : length (ents_from n files) = length files.
Proof. revert n. induction files as [|f files IH]; intros n; cbn; [done|]. by rewrite IH. Qed.

Lemma root_dir_length files : Z.of_nat (length (root_dir files)) = (Z.of_nat (length (entries (root_ents files))) / 1024 + 1) * 1024.
Proof.
  unfold root_dir. rewrite length_app, length_replicate, length_entries. unfold root_ents, root_pad. cbn [length]. rewrite length_ents_from.
  pose proof (Nat.mod_upper_bound (2 + length files) 64 ltac:(lia)). pose proof (Nat.div_mod_eq (2 + length files) 64). zdm.
Qed.

Lemma bind_step {A B : Type} (m : mk A) (f : A → mk B) s a s' r : m s = Some (a, s') → f a s' = r → (m ≫= f) s = r.
Proof. intros E <-. by apply mk_bind_Some. Qed.

(** The root directory with its two entries. *)
Lemma root_start s :
  holds s [] → ∃ s1 s2 s3, Mkfs.ialloc T_DIR s = Some (1, s1) ∧
    iappend 1 (dirent 1 (str_bytes ".")) s1 = Some (tt, s2) ∧ iappend 1 (dirent 1 (str_bytes "..")) s2 = Some (tt, s3) ∧
    holds s3 [(T_DIR, dirent 1 (str_bytes ".") ++ dirent 1 (str_bytes ".."))].
Proof.
  intros Hh. destruct (holds_ialloc s [] T_DIR Hh) as (s1&E1&Hh1); [cbn; lia|done|].
  assert (Forall (λ x, 0 ≤ x < 256) (str_bytes ".") ∧ Forall (λ x, 0 ≤ x < 256) (str_bytes "..")) as [B1 B2]
    by (split; repeat constructor; done).
  destruct (holds_append s1 _ 0 T_DIR [] (dirent 1 (str_bytes ".")) Hh1 eq_refl) as (s2&E2&Hh2); [by apply dirent_bytes|done..|].
  destruct (holds_append s2 _ 0 T_DIR _ (dirent 1 (str_bytes "..")) Hh2 eq_refl) as (s3&E3&Hh3); [by apply dirent_bytes|done..|].
  by exists s1, s2, s3.
Qed.

Lemma run_mkfs_holds files :
  fits files → ∃ s, run_mkfs files = Some s ∧ holds s (layout files) ∧
    sectors s 45 = mark_used (Z.to_nat (freeblock s)) 0 zero_block.
Proof.
  intros [Hfile Hino Hblk Hdir]. pose proof (root_dir_length files) as Hrl. set (d := entries (root_ents files)) in *.
  assert (Z.of_nat (length d) = 16 * (2 + Z.of_nat (length files))) as Hdl
    by (unfold d; rewrite length_entries; cbn [root_ents length]; rewrite length_ents_from; lia).
  destruct (wzeroes_ok (Z.to_nat FSSIZE) 0 (Mkfs ∅ 1 nmeta)) as (s0&E0&Hfi0&Hfb0&Hs0).
  set (s1 := Mkfs (<[1 := sb_block]> (img s0)) (freeinode s0) (freeblock s0)).
  assert (holds s1 []) as Hh1.
  { apply holds_nil; [done|done|]. intros b Hb. unfold s1. rewrite sectors_write. case_decide; [done|].
    unfold sectors. rewrite Hs0, decide_True by (change (Z.of_nat (Z.to_nat FSSIZE)) with 2000; lia). done. }
  destruct (root_start s1 Hh1) as (s2&s3&s4&E2&E3&E4&Hh4).
  destruct (holds_add_files files s4 _ [] Hh4 Hfile) as (s5&E5&Hh5).
  { rewrite length_app, !length_dirent. lia. }
  { cbn. lia. }
  { change (entries (root_ents files)) with d. revert Hblk. unfold layout. cbn [length app]. change (2 + Z.of_nat 0) with 2.
    rewrite <-app_assoc. change (dirent 1 (str_bytes ".") ++ dirent 1 (str_bytes "..") ++ entries (ents_from 2 files)) with d.
    cbn [total foldr snd]. pose proof (blocks_mono (Z.of_nat (length d)) (Z.of_nat (length (root_dir files))) ltac:(zdm)). lia. }
  cbn [length app] in Hh5. change (2 + Z.of_nat 0) with 2 in Hh5. rewrite <-app_assoc in Hh5.
  change (dirent 1 (str_bytes ".") ++ dirent 1 (str_bytes "..") ++ entries (ents_from 2 files)) with d in Hh5.
  destruct (hd_file _ _ Hh5 0 T_DIR d eq_refl) as (_&_&Hsz&_). change (1 + Z.of_nat 0) with 1 in Hsz.
  set (n := (Z.of_nat (length d) / 1024 + 1) * 1024) in *.
  assert (Z.of_nat (length d) mod 1024 ≠ 0) as Hmod.
  { pose proof (Nat.mod_upper_bound (2 + length files) 64 ltac:(lia)). pose proof (Nat.div_mod_eq (2 + length files) 64). zdm. }
  destruct (holds_pad s5 _ d n Hh5 eq_refl Hmod eq_refl) as (s6&E6&Hh6).
  assert (d ++ replicate (Z.to_nat (n - Z.of_nat (length d))) 0 = root_dir files) as Hrd.
  { unfold root_dir. fold d. f_equal. f_equal. unfold root_dir in Hrl. fold d in Hrl. rewrite length_app, length_replicate in Hrl. lia. }
  cbn [insert list_insert] in Hh6. rewrite Hrd in Hh6. fold (layout files) in Hh6. pose proof (hd_blocks _ _ Hh6) as Hfb6.
  pose proof (total_nonneg (layout files)) as Ht0.
  destruct (mark_used_ok (Z.to_nat (freeblock s6)) 0 zero_block) as (M1&M2&M3); [lia|change (Z.of_nat (length zero_block)) with 1024; lia|apply Forall_replicate; lia|].
  set (s7 := Mkfs (<[45 := mark_used (Z.to_nat (freeblock s6)) 0 zero_block]> (img s6)) (freeinode s6) (freeblock s6)).
  exists s7. split; [|split; [by apply (holds_bitmap s6 _ _ Hh6 M1 M2)|unfold s7; by rewrite sectors_write]].
  unfold run_mkfs. enough (main files (Mkfs ∅ 1 nmeta) = Some (tt, s7)) as -> by done. unfold main.
  eapply bind_step; [exact E0|]. eapply bind_step; [reflexivity|]. fold s1. eapply bind_step; [exact E2|]. eapply bind_step; [reflexivity|].
  eapply bind_step; [exact E3|]. eapply bind_step; [exact E4|]. eapply bind_step; [exact E5|].
  eapply bind_step; [apply rinode_ok; [apply (im_len _ _ _ (hd_image _ _ Hh5))|lia]|].
  rewrite Hsz. change BSIZE with 1024. rewrite (xint_id (Z.of_nat (length d))) by lia. fold n. rewrite xint_id by (unfold n; zdm).
  eapply bind_step; [exact E6|]. eapply bind_step; [reflexivity|]. unfold Mkfs.balloc. eapply bind_step; [|reflexivity].
  unfold assert_. by rewrite (proj2 (Z.ltb_lt _ _)) by (change (BSIZE * 8) with 8192; lia).
Qed.

(** ** What the kernel finds *)

Lemma holds_file_ok s F i : holds s F → 0 ≤ i < 200 → file_ok (sectors s) (node s i).
Proof.
  intros Hh Hi. pose proof (hd_image _ _ Hh) as Himg. pose proof (hd_full _ _ Hh i Hi) as Hf. pose proof (ff_size _ _ _ Hf) as Hsz.
  assert (∀ o, 0 ≤ o < i_size (node s i) → block_at (sectors s) (node s i) (o / 1024) ≠ 0 ∧
    0 ≤ block_at (sectors s) (node s i) (o / 1024) < 2000) as Hb.
  { intros o Ho. pose proof (full_block _ _ _ _ Hf Ho) as H0. split; [done|]. rewrite block_slot in * by zdm.
    apply (slot_range (node s) _ (freeblock s)); [done|done|]. apply slot_of_range. zdm. }
  split; [by apply (im_node _ _ _ Himg)|done|change (MAXFILE * BSIZE) with 274432; lia| |].
  - intros bn Hbn Hlt. change BSIZE with 1024 in Hlt. destruct (Hb (bn * 1024) ltac:(lia)) as [H0 Hr].
    rewrite Z.div_mul in H0, Hr by lia. split; [done|]. by apply (im_len _ _ _ Himg).
  - intros o Ho. destruct (Hb o Ho) as [_ Hr]. unfold file_byte, byte_at. change BSIZE with 1024.
    destruct (_ !! _) as [x|] eqn:E; cbn; [|lia]. by apply (Forall_lookup_1 _ _ _ _ (im_byte _ _ _ Himg _ Hr)) in E.
Qed.

Lemma lookup_ents_from files : ∀ n k, ents_from n files !! k = (λ f, (n + Z.of_nat k, short f)) <$> files !! k.
Proof.
  induction files as [|f files IH]; intros n k; [done|]. destruct k as [|k]; cbn; [by rewrite Z.add_0_r|].
  rewrite IH. destruct (files !! k); cbn; [|done]. do 2 f_equal. lia.
Qed.

Lemma root_ents_ok files :
  fits files → Forall (λ e, 0 < e.1 < 2 + Z.of_nat (length files) ∧ Forall (λ x, 0 < x < 256) e.2) (root_ents files).
Proof.
  intros [Hf Hi _ _]. apply Forall_lookup_2. intros k [i nm] Hk. destruct k as [|[|k]]; cbn [root_ents lookup list_lookup] in Hk.
  1, 2: injection Hk as <- <-; split; cbn; [lia|repeat constructor; lia].
  rewrite lookup_ents_from in Hk. destruct (files !! k) as [f|] eqn:E; [|done]. injection Hk as <- <-.
  pose proof (lookup_lt_Some _ _ _ E). apply (Forall_lookup_1 _ _ _ _ Hf) in E as (_&Hn&_). split; [cbn; lia|done].
Qed.

Lemma search_some ents name : ∀ k off i, search ents name k = Some (off, i) → ∃ nm, (i, nm) ∈ ents.
Proof.
  induction ents as [|[j nm] ents IH]; intros k off i H; cbn in H; [done|]. case_bool_decide.
  - injection H as _ <-. exists nm. by left.
  - destruct (IH _ _ _ H) as [nm' Hin]. exists nm'. by right.
Qed.

Lemma search_first ents name j i nm : ∀ k,
  ents !! j = Some (i, nm) → take 14 nm = name → (∀ j' e, (j' < j)%nat → ents !! j' = Some e → take 14 e.2 ≠ name) →
  search ents name k = Some (16 * (k + Z.of_nat j), i).
Proof.
  revert j. induction ents as [|e ents IH]; intros j k Hj Hn Hbefore; [done|]. destruct j as [|j]; cbn [search].
  - injection Hj as ->. cbn [fst snd]. rewrite bool_decide_true by done. do 2 f_equal. lia.
  - rewrite bool_decide_false by (intros E; by apply (Hbefore 0%nat e); [lia|done|]). rewrite (IH j (k + 1)); [do 2 f_equal; lia|done|done|].
    intros j' e' Hlt He'. by apply (Hbefore (S j') e'); [lia|].
Qed.

Lemma layout_dir_find s files name :
  fits files → holds s (layout files) → dir_find (sectors s) (node s 1) name = search (root_ents files) name 0.
Proof.
  intros Hfit Hh. apply (dir_find_ok _ _ T_DIR _ (root_pad files)); [by apply (hd_file _ _ Hh 0)|].
  apply (Forall_impl _ _ _ (root_ents_ok files Hfit)). intros e [H1 H2]. pose proof (ft_inodes _ Hfit). split; [lia|done].
Qed.

Lemma layout_tree s files :
  fits files → holds s (layout files) → tree_ok (sectors s) mk_sb (λ x, 1 ≤ x < 2 + Z.of_nat (length files)).
Proof.
  intros Hfit Hh. pose proof (ft_inodes _ Hfit) as Hino.
  assert (∀ x, 1 ≤ x < 2 + Z.of_nat (length files) → i_nlink (node s x) = 1 ∧ i_type (node s x) = if decide (x = 1) then T_DIR else T_FILE) as Hx.
  { intros x Hx. destruct (decide (x = 1)) as [->|Hne]; [by destruct (hd_file _ _ Hh 0 _ _ eq_refl) as (?&?&_)|].
    destruct (lookup_lt_is_Some_2 files (Z.to_nat (x - 2)) ltac:(lia)) as [f Hf].
    destruct (hd_file _ _ Hh (S (Z.to_nat (x - 2))) T_FILE (concat f.2)) as (H1&H2&_).
    { change (contents files !! Z.to_nat (x - 2) = Some (T_FILE, concat f.2)). unfold contents. by rewrite list_lookup_fmap, Hf. }
    replace (1 + Z.of_nat (S (Z.to_nat (x - 2)))) with x in * by lia. done. }
  assert (∀ x, 1 ≤ x < 2 + Z.of_nat (length files) → i_type (node s x) = T_DIR → x = 1) as Hroot.
  { intros x Hr Ht. destruct (Hx x Hr) as [_ E]. rewrite E in Ht. by case_decide. }
  split.
  - intros x Hr. destruct (Hx x Hr) as [_ ->]. by case_decide.
  - intros x Hr. by destruct (Hx x Hr) as [-> _].
  - intros x Hr Ht. pose proof (Hroot x Hr Ht) as ->. split; [by apply (holds_file_ok s (layout files)); [|lia]|done|].
    destruct (hd_file _ _ Hh 0 _ _ eq_refl) as (_&_&Hs&_). change (1 + Z.of_nat 0) with 1 in Hs. rewrite Hs, root_dir_length. zdm.
  - intros x name off y Hr Ht. pose proof (Hroot x Hr Ht) as ->. rewrite (layout_dir_find s files) by done. intros Hs.
    apply search_some in Hs as [nm Hin]. apply (proj1 (Forall_forall _ _) (root_ents_ok files Hfit)) in Hin. cbn in Hin. lia.
Qed.

Lemma layout_bitmap s files :
  fits files → holds s (layout files) → sectors s 45 = mark_used (Z.to_nat (freeblock s)) 0 zero_block →
  bitmap_ok mk_sb 2 (sectors s) ∧
  ∀ b, 0 ≤ b < 2000 → block_free mk_sb (sectors s) b = negb (b <? 46 + total (layout files)).
Proof.
  intros Hfit Hh H45. pose proof (hd_blocks _ _ Hh) as Hfb. pose proof (ft_blocks _ Hfit) as Hle. pose proof (total_nonneg (layout files)).
  destruct (mark_used_ok (Z.to_nat (freeblock s)) 0 zero_block) as (M1&M2&M3);
    [lia|change (Z.of_nat (length zero_block)) with 1024; lia|apply Forall_replicate; lia|].
  assert (∀ b, 0 ≤ b < 2000 → BBLOCK b mk_sb = 45) as Hbb.
  { intros b Hb. unfold BBLOCK. change BPB with 8192. change (sb_bmapstart mk_sb) with 45. rewrite Z.div_small by lia. done. }
  assert (∀ b, 0 ≤ b < 2000 → block_free mk_sb (sectors s) b = negb (b <? 46 + total (layout files))) as Hfree.
  { intros b Hb. unfold block_free. rewrite Hbb, H45 by done. change BPB with 8192. rewrite Z.mod_small, M3 by lia.
    destruct (decide (0 ≤ b < _)); destruct (b <? _) eqn:E; cbn [negb]; try done; try lia.
    unfold bit_free, byte_at. replace (default 0 (zero_block !! Z.to_nat (b / 8))) with 0; [done|].
    unfold zero_block. destruct (replicate _ 0 !! _) eqn:L; [|done]. by apply lookup_replicate in L as [-> _]. }
  split; [|done]. change (sb_size mk_sb) with 2000 in *. split; change (sb_size mk_sb) with 2000.
  - lia.
  - intros b Hb. rewrite Hbb by done. unfold home. lia.
  - intros b Hb. by rewrite Hbb, H45.
  - intros b Hb. by rewrite Hbb, H45.
  - intros b Hb. rewrite Hfree by done. intros Hlt. unfold home. split; [lia|]. intros x Hx. rewrite Hbb by done. lia.
Qed.

Lemma layout_file s files k f :
  fits files → holds s (layout files) → files !! k = Some f →
  (∀ j e, (j < 2 + k)%nat → root_ents files !! j = Some e → take 14 e.2 ≠ take 14 (short f)) →
  let ip := node s (2 + Z.of_nat k) in
  follow (sectors s) mk_sb false ROOTINO [short f] = Some (2 + Z.of_nat k) ∧ file_ok (sectors s) ip ∧
  i_type ip = T_FILE ∧ file_range (sectors s) ip 0 (i_size ip) = concat f.2.
Proof.
  intros Hfit Hh Hf Hfirst ip. pose proof (ft_inodes _ Hfit) as Hino. pose proof (lookup_lt_Some _ _ _ Hf) as Hk.
  assert (layout files !! S k = Some (T_FILE, concat f.2)) as Hl.
  { change (contents files !! k = Some (T_FILE, concat f.2)). unfold contents. by rewrite list_lookup_fmap, Hf. }
  pose proof (hd_file _ _ Hh _ _ _ Hl) as Hfile. replace (1 + Z.of_nat (S k)) with (2 + Z.of_nat k) in Hfile by lia. fold ip in Hfile.
  split_and!.
  - cbn [follow andb]. destruct (hd_file _ _ Hh 0 _ _ eq_refl) as (Ht&_). change (1 + Z.of_nat 0) with ROOTINO in Ht. rewrite Ht. cbn [negb Z.eqb T_DIR].
    change ROOTINO with 1. rewrite (layout_dir_find s files) by done.
    rewrite (search_first _ _ (2 + k) (2 + Z.of_nat k) (short f)); [done| |done|done].
    change (ents_from 2 files !! k = Some (2 + Z.of_nat k, short f)). by rewrite lookup_ents_from, Hf.
  - apply (holds_file_ok s (layout files)); [done|lia].
  - apply Hfile.
  - pose proof Hfile as (_&_&Hs&_). rewrite Hs, (range_of _ _ _ _ _ _ Hfile) by lia. rewrite Nat2Z.id, drop_0. by apply take_ge.
Qed.

(** C12: mkfs builds a file system the kernel can use. For files that fit, it ends
    without a failed check, and in the image: the superblock in block 1 has the
    layout's numbers and the log is empty; the bitmap is well formed and calls
    free exactly the blocks not given out; no block belongs to two places; the
    inodes given out form a tree that path lookup can search; and every file
    whose name, cut to 14 bytes, does not come earlier in the root directory is
    found under that name, as a file with the contents given. *)
Theorem mkfs_correct files :
  fits files →
  ∃ s, run_mkfs files = Some s ∧
    let v := sectors s in
    let used := 46 + total (layout files) in
    get_superblock (v 1) = mk_sb ∧ v 2 = zero_block ∧ bitmap_ok mk_sb 2 v ∧
    (∀ b, 0 ≤ b < FSSIZE → block_free mk_sb v b = negb (b <? used)) ∧
    image_ok (dnode v mk_sb) v used ∧
    tree_ok v mk_sb (λ x, 1 ≤ x < 2 + Z.of_nat (length files)) ∧
    ∀ k f, files !! k = Some f →
      (∀ j e, (j < 2 + k)%nat → root_ents files !! j = Some e → take 14 e.2 ≠ take 14 (short f)) →
      let ip := dnode v mk_sb (2 + Z.of_nat k) in
      follow v mk_sb false ROOTINO [short f] = Some (2 + Z.of_nat k) ∧ file_ok v ip ∧
      i_type ip = T_FILE ∧ file_range v ip 0 (i_size ip) = concat f.2.
Proof.
  intros Hfit. destruct (run_mkfs_holds files Hfit) as (s&E&Hh&H45). exists s. split; [done|]. intros v used.
  destruct (layout_bitmap s files Hfit Hh H45) as [Hbm Hfree]. split; [|split; [|split; [exact Hbm|split; [exact Hfree|split; [|split]]]]].
  - unfold v. rewrite (hd_meta _ _ Hh 1) by lia. by vm_compute.
  - unfold v. by rewrite (hd_meta _ _ Hh 2) by lia.
  - pose proof (hd_image _ _ Hh) as Himg. by rewrite (hd_blocks _ _ Hh) in Himg.
  - by apply layout_tree.
  - intros k f Hf Hfirst. by apply (layout_file s files).
Qed.

(** Two files of 3 and 1030 bytes, the second one read in two pieces. *)
Definition example_files : list (list Z * list (list Z)) :=
  [(str_bytes "README", [str_bytes "abc"]); (str_bytes "user/_cat", [replicate 1024 7; replicate 6 9])].

Lemma example_files_fit : fits example_files.
Proof.
  split; [|cbn; lia|vm_compute; discriminate|vm_compute; discriminate].
  assert (∀ l, forallb (λ x, (0 <? x) && (x <? 256)) l = true → Forall (λ x, 0 < x < 256) l) as Hb.
  { intros l Hl. apply Forall_forall. intros x Hx. apply list_elem_of_In in Hx. apply (proj1 (forallb_forall _ _) Hl) in Hx. lia. }
  repeat constructor; try (by eexists); try (apply Hb; by vm_compute); try (vm_compute; discriminate).
  all: apply (Forall_impl (λ x, 0 < x < 256)); [apply Hb; by vm_compute|intros x; lia].
Qed.

Lemma mkfs_correct_witness :
  fits example_files ∧ ∃ s, run_mkfs example_files = Some s ∧
    follow (sectors s) mk_sb false ROOTINO [str_bytes "cat"] = Some 3 ∧
    file_range (sectors s) (dnode (sectors s) mk_sb 3) 0 (i_size (dnode (sectors s) mk_sb 3)) = replicate 1024 7 ++ replicate 6 9.
Proof.
  split; [exact example_files_fit|].
  destruct (mkfs_correct example_files example_files_fit) as (s&E&H). exists s. split; [exact E|].
  destruct H as (_&_&_&_&_&_&H). destruct (H 1%nat (str_bytes "user/_cat", [replicate 1024 7; replicate 6 9]) eq_refl) as (H1&_&_&H2).
  { intros [|[|[|j]]] e Hj He; [..|lia]; vm_compute in He; injection He as <-; vm_compute; discriminate. }
  split; [exact H1|exact H2].
Defined.

(** With 62 files the two dots fill the last block of the root directory, and the
    size [main] stores counts a block that is not there. *)
Lemma root_block_missing :
  match run_mkfs (replicate 62 (str_bytes "a", [])) with
  | Some s => let ip := dnode (sectors s) mk_sb ROOTINO in i_size ip = 2 * BSIZE ∧ block_at (sectors s) ip 1 = 0
  | None => False
  end.
Proof. vm_compute. done. Qed.
